(* ===== verification/_CoqProject ===== *)
-Q . S2P
Prelude.v
CLayout.v
Vmlinux.v
VmlinuxFacts.v
BpfHelpers.v
Xdp.v
Ssl.v
EbpfSource.v
EbpfSslSource.v
Core.v
Framing.v
QueueSpec.v
RingBuffer.v
FileCodec.v
FileQueue.v
Messages.v
Classifier.v
ClassifierFacts.v
Filter.v
ConnState.v
Processor.v
ProcessorFacts.v
Stamping.v
Session.v
Scenarios.v
Conversation.v
ConnKey.v
GoTime.v
GuardText.v
ReplayGuard.v
ReplayConfig.v
Executors.v
Replayer.v
ReplayerFacts.v
ReplayerLive.v
ReplayerDemo.v
Pool.v
CaptureConfig.v
Config.v
Sources.v
Resilient.v
Reassembler.v
Lifecycle.v
Shutdown.v
Producer.v
KafkaQueue.v
KafkaSetup.v
Metrics.v
FloatRatio.v
Collector.v
Monitor.v
ErrorLog.v
Control.v
Logger.v
Router.v
Pipeline.v
Wire.v
