(* ===== verification/Prelude.v ===== *)
(** * pgshadow: a verification development (root file)

    pgshadow watches the traffic between PostgreSQL clients and a source server and
    replays its statements on a target database.  A packet travels through

      capture (XDP, SSL probes, pcap, AF_PACKET)  ->  producer goroutines
        ->  TCP reassembler  ->  wire-protocol framing  ->  stream processor
        (event extraction, filter)  ->  queue (memory, file, Kafka)
        ->  replayer (lanes, guard, execution chain, pool)  ->  target

    and a control layer configures, starts, pauses, restarts and drains that
    pipeline.  The kernel side is C (src/pkg/capture/bpf/), the rest is Go.  Code
    is translated by hand into executable definitions that keep the source's
    names; what runs concurrently is a step relation whose steps are the critical
    sections, channel operations and select branches of the code.

    ** Conventions

    A w-bit integer is a [Z] with its wrap-around written out ([wrap], [signed]);
    a byte is a [Z] in [0, 256), a Go string or slice a [list Z]; errors and panics
    are the [Err] of a [result]; Go maps are [gmap]s; a mutable object is passed
    as a record and returned; a logged effect (a call of the queue, the metrics or
    the database) is an element of the output or of a history.  Times are
    nanoseconds, float64 is IEEE binary64 of the Standard Library's [SpecFloat].

    ** Kernel side

    - [CLayout], [Vmlinux], [VmlinuxFacts]: C declarations and their layout on the
      build's 64-bit targets, the part of vmlinux.h the programs reach, and that
      every layout computed for it is sound.
    - [BpfHelpers]: the helper functions of the kernel as the classes
      [BpfHelpers], [HashHelpers] and their laws [BpfHelpersOk], [HashHelpersOk],
      taken from the helpers' documentation, with the executable instance
      [SimKernel] that satisfies them.
    - [Xdp] (pgshadow_xdp.c): memory safety and XDP_PASS on every frame, and the
      refinement of each run to an abstract capture.
    - [Ssl] (pgshadow_ssl.c): the four probes refine a tracer of open SSL calls
      for every interleaving of threads.
    - [EbpfSource] (source_ebpf.go), [EbpfSslSource] (source_ebpf_ssl.go): the user
      side of the two rings, and the end-to-end theorems over both sides.

    ** From packets to events

    - [CaptureConfig] (capture.go, bpf_validator.go): defaults, filter and [Open].
    - [Sources] (source_pcap.go, source_afpacket.go and the constructors and [Close]
      of the eBPF sources): every handle is released once whatever fails, the
      sizing of the AF_PACKET ring, the search for libssl.
    - [Resilient] (source_resilient.go): the reconnecting wrapper under every
      scheduling of its pump, its reader and [Close].
    - [Producer] (cmd/pgshadow/pipeline.go, startProducer): the two goroutines and
      their channel keep the order of the packets, and end.
    - [Reassembler] (reassembler.go): connection naming and direction; which side
      was seen first does not matter.
    - [Core] (core/types.go), [Framing] (framing.go): the message types and the
      stream parser, with its round trip in any chunking.
    - [Messages] (eventbuilder.go, bindcorrelator.go), [ConnState] (txid.go,
      copybuffer.go, sourceexectimer.go, readyforquery.go, parseerror.go): decoding
      of client messages, Parse/Bind correlation, COPY, transaction groups.
    - [Classifier], [ClassifierFacts] (classifier.go), [Filter] (decide.go,
      filter.go, state.go): the SQL lexer, the class of a statement or batch, the
      rule matrix and the transaction state machine.
    - [Processor], [ProcessorFacts], [Stamping], [Session], [Scenarios]
      (pipeline/processor.go): the handlers composed from the above; isolation of
      connections, numbering and grouping of events, and that a captured session
      becomes exactly the statements the filter keeps.
    - [Conversation]: an abstract machine per connection (transaction state,
      prepared statements, COPY under way) and that the processor, fed any
      interleaving of any bytes, enqueues for each connection what its machine
      submits.
    - [Pipeline]: reassembler, processor, queue and replayer composed; the target
      executes for a connection what its conversation submits, under every
      scheduling and whatever else is captured.
    - [Wire]: the same from the network interface on: the frames the XDP program
      sees, the ring and its read loop, the producer and an assembler that keeps
      gopacket's promise for segments in sequence; and that the drops [Stats]
      reports are exactly the frames that were lost.

    ** Queues

    - [QueueSpec] (queue.go): the interface [QueueImpl], a bounded list with an
      overflow policy, and the theorems its clients need.
    - [RingBuffer] (ringbuffer.go), [FileCodec], [FileQueue] (filequeue_codec.go,
      filequeue.go): two instances of the interface, proved by refinement.
    - [KafkaQueue] (kafkaqueue.go): buffer, retries and consumer over a cluster
      that is a parameter; accounting of every event, and order per connection.
    - [KafkaSetup] (newKafkaQueue, TLS and SASL): all clients are set up alike.

    ** Replay

    - [ConnKey] (ConnID.Key), [GoTime] (floats, durations), [ReplayConfig]
      (replayer.go and the connection string of pool.go).
    - [GuardText], [ReplayGuard] (replayguard.go): the literal scanners and the
      guard's decision.
    - [Executors] (exec_decorators.go, dialect.go, replayguard_executor.go): the
      chain of executors and what one call of it does.
    - [Replayer], [ReplayerFacts], [ReplayerLive], [ReplayerDemo]
      (replayer_impl.go, unbounded_lane.go): dispatcher and lanes under every
      scheduling: order, bounds, completion, termination, and where it stops.
    - [Pool] (pool.go): leases under every interleaving of calls.
    - [Router] (internal/router): one pool per database under every interleaving.

    ** Control

    - [Config] (config.go, main.go): what [Load] accepts fits the components.
    - [Lifecycle] (main.go, pipeline.go, monitor.go): resources are acquired and
      released once over a whole run of the process.
    - [Control] (control.go): the HTTP handlers over any callbacks, one at a time and
      under every interleaving of requests; with the pipeline behind them, when its
      status is the truth.
    - [Shutdown] (drainWithin, components.Close): the unlocked shutdown beside the
      operations, access by access.
    - [Logger] (logger.go): the levels and what is written over a logrus logger.

    ** Metrics and monitoring

    - [Metrics] (quantile.go): the window of samples and its quantiles.
    - [FloatRatio]: a quotient of two counts in float64 exceeds a threshold such as
      0.01 exactly when the quotient of the integers does, below [2 ^ 52].
    - [Collector] (collector.go, metricsPoller): exact counters and alerts, the
      amortised percentiles, and which alert cannot fire.
    - [Monitor] (monitor.go): progress tracker and result comparator.
    - [ErrorLog] (errorexporter.go, health.go): the log of failed statements reads
      back; the probes.

    ** Parameters

    Code that is not part of the repository is an argument of the definitions that
    use it: the kernel helpers (above); Unicode case and space tables ([Unicode],
    exact on ASCII by [UnicodeLaws]); conversions of float64 ([FloatConv]); the
    target database, the rate limiter and the context ([Env]); the regexp engine
    and the time zone; the environment variables; the YAML decoder; tcpdump;
    packet decoding and serialization and the callbacks of the TCP assembler of
    gopacket (the law [assembles] where its promise is used, kept by [in_order]); the Kafka cluster ([Broker]), the probing of its nodes, certificates
    and SCRAM; the pgx pool; whether a call of libpcap, AF_PACKET or the cilium
    library succeeds; the files findLibSSL reads; Prometheus counters
    ([PromCounter], with the law that additions add up); logrus ([LogrusOk]).  Each theorem that
    assumes something of them has a witness with a concrete instance.

    ** Fuel and bounds

    [Feed] runs its loop with one step more than the buffer has bytes, and every
    message takes at least four; the SQL scanners, the guard's scanners and the
    skipping of leading comments run with the length of their text, of which each
    step drops a byte ([lex_loop_fuel] and the like show that more changes
    nothing); [decimal] has one step per bit.  Other loops are structural or step
    relations; their termination is a theorem about a measure.  Counters wrap at
    their width; theorems that need them not to wrap say so.

    ** Not modelled

    The rest of vmlinux.h, which neither program uses; what the kernel and the
    libraries do when a program is attached or a socket opened; listening and
    routing of the HTTP library and the registry of Prometheus; generated bindings.  [Resilient], [Monitor], [Router] and the exporter of
    [ErrorLog] model code that no production path constructs or calls.  The
    YAML decoding of enumerations is from their text.  Debug printing
    is left out everywhere. *)
From stdpp Require Export base numbers list gmap strings.
From Stdlib Require Export ZArith Lia.

#[global] Open Scope Z_scope.

(** ** Results

    Fallible code returns a [result]: the C model uses it for an access outside
    the object it belongs to ([Fault]), the Go model for returned errors and
    panics. *)
Inductive result (E A : Type) : Type :=
| Ok (a : A)
| Err (e : E).
Arguments Ok {E A} a.
Arguments Err {E A} e.

#[export] Instance result_ret {E} : MRet (result E) := λ A a, Ok a.
#[export] Instance result_bind {E} : MBind (result E) := λ A B f m,
  match m with Ok a => f a | Err e => Err e end.
#[export] Instance result_fmap {E} : FMap (result E) := λ A B f m,
  match m with Ok a => Ok (f a) | Err e => Err e end.

(** [guard_or e b] continues when [b] holds and returns the error [e] otherwise. *)
Definition guard_or {E} (e : E) (b : bool) : result E unit :=
  if b then Ok tt else Err e.

(** [of_option e o] is Go's [if x, ok := ...; !ok { return e }]. *)
Definition of_option {E A} (e : E) (o : option A) : result E A :=
  match o with Some a => Ok a | None => Err e end.

Lemma bind_ok {E A B} (m : result E A) (f : A → result E B) b :
  m ≫= f = Ok b ↔ ∃ a, m = Ok a ∧ f a = Ok b.
Proof.
  destruct m as [a|e]; simpl; split; try done.
  - intros H. by exists a.
  - by intros (a' & [= <-] & H).
  - by intros (a' & [=] & _).
Qed.

Lemma guard_or_ok {E} (e : E) b u : guard_or e b = Ok u ↔ b = true.
Proof. unfold guard_or. destruct b, u; naive_solver. Qed.

Lemma of_option_ok {E A} (e : E) (o : option A) a : of_option e o = Ok a ↔ o = Some a.
Proof. destruct o; simpl; naive_solver. Qed.

(** ** Machine integers

    A [w]-bit unsigned integer is a [Z] in [[0, 2^w)]; [wrap w] is the
    conversion to it. *)
Definition wrap (w z : Z) : Z := z mod 2 ^ w.
Definition in_width (w z : Z) : Prop := 0 ≤ z < 2 ^ w.

(** The signed value of a [w]-bit pattern (C's [(int)], Go's [int64(...)]). *)
Definition signed (w z : Z) : Z :=
  let u := wrap w z in if u <? 2 ^ (w - 1) then u else u - 2 ^ w.

#[global] Arguments wrap : simpl never.
#[global] Arguments signed : simpl never.

#[export] Instance in_width_dec w z : Decision (in_width w z).
Proof. unfold in_width. apply _. Defined.

Lemma wrap_range w z : 0 ≤ w → in_width w (wrap w z).
Proof. intros. apply Z.mod_pos_bound. by apply Z.pow_pos_nonneg. Qed.

Lemma wrap_small w z : in_width w z → wrap w z = z.
Proof. apply Z.mod_small. Qed.

Lemma signed_mod w z : 0 < w → - 2 ^ (w - 1) ≤ z < 2 ^ (w - 1) → signed w (z mod 2 ^ w) = z.
Proof.
  intros Hw Hz. unfold signed, wrap. rewrite Zmod_mod.
  assert (2 ^ w = 2 * 2 ^ (w - 1)) as E by (rewrite <- Z.pow_succ_r by lia; f_equal; lia).
  destruct (decide (0 ≤ z)).
  - rewrite Z.mod_small by lia. by rewrite (proj2 (Z.ltb_lt _ _)) by lia.
  - rewrite <- (Z_mod_plus_full z 1), Z.mod_small by lia.
    rewrite (proj2 (Z.ltb_ge _ _)) by lia. lia.
Qed.

Lemma signed_wrap w z : 0 < w → - 2 ^ (w - 1) ≤ z < 2 ^ (w - 1) → signed w (wrap w z) = z.
Proof. apply signed_mod. Qed.

Lemma wrap_signed w z : 0 < w → wrap w (signed w z) = wrap w z.
Proof.
  intros Hw. unfold signed. cbv zeta. destruct (_ <? _); unfold wrap; rewrite ?Zmod_mod; [done|].
  rewrite <- (Z_mod_plus_full _ 1), Z.mul_1_l, Z.sub_add. by rewrite Zmod_mod.
Qed.

Lemma wrap_add_l w a b : wrap w (wrap w a + b) = wrap w (a + b).
Proof. apply Zplus_mod_idemp_l. Qed.

Lemma wrap_add_r w a b : wrap w (a + wrap w b) = wrap w (a + b).
Proof. apply Zplus_mod_idemp_r. Qed.

(** ** Bytes

    A byte is a [Z] in [[0, 256)]; buffers and packets are [list Z]. *)
Definition is_byte (b : Z) : Prop := in_width 8 b.
Definition bytes_ok (l : list Z) : Prop := Forall is_byte l.

#[export] Instance bytes_ok_dec l : Decision (bytes_ok l).
Proof. unfold bytes_ok, is_byte. apply _. Defined.

(** Little-endian encoding of [z] in [n] bytes and the value of a
    little-endian byte list; big-endian is the reversal. *)
Fixpoint le_bytes (n : nat) (z : Z) : list Z :=
  match n with
  | O => []
  | S n => z mod 256 :: le_bytes n (z / 256)
  end.

Fixpoint le_value (l : list Z) : Z :=
  match l with
  | [] => 0
  | b :: l => b + 256 * le_value l
  end.

Definition be_bytes (n : nat) (z : Z) : list Z := reverse (le_bytes n z).
Definition be_value (l : list Z) : Z := le_value (reverse l).

Lemma le_bytes_length n z : length (le_bytes n z) = n.
Proof. revert z. induction n as [|n IH]; intros z; simpl; auto. Qed.

Lemma le_bytes_ok n z : bytes_ok (le_bytes n z).
Proof.
  revert z. induction n as [|n IH]; intros z; cbn [le_bytes]; [constructor|].
  constructor; [|apply IH]. apply (Z.mod_pos_bound z 256). lia.
Qed.

Lemma pow256_succ n : 256 ^ Z.of_nat (S n) = 256 * 256 ^ Z.of_nat n.
Proof. rewrite Nat2Z.inj_succ, Z.pow_succ_r; lia. Qed.

Lemma le_value_bytes_mod n z : le_value (le_bytes n z) = z mod 256 ^ Z.of_nat n.
Proof.
  revert z. induction n as [|n IH]; intros z; cbn [le_bytes le_value].
  { change (256 ^ Z.of_nat 0) with 1. by rewrite Z.mod_1_r. }
  rewrite IH, pow256_succ.
  rewrite Z.rem_mul_r by (try apply Z.pow_nonzero; lia). lia.
Qed.

Lemma le_value_bytes n z :
  0 ≤ z < 256 ^ Z.of_nat n → le_value (le_bytes n z) = z.
Proof. intros H. rewrite le_value_bytes_mod. by apply Z.mod_small. Qed.

Lemma le_value_range l :
  bytes_ok l → 0 ≤ le_value l < 256 ^ Z.of_nat (length l).
Proof.
  induction 1 as [|b l Hb _ IH]; cbn [le_value length].
  { change (256 ^ Z.of_nat 0) with 1. lia. }
  rewrite pow256_succ. unfold is_byte, in_width in Hb.
  change (2 ^ 8) with 256 in Hb. lia.
Qed.

Lemma le_bytes_value l : bytes_ok l → le_bytes (length l) (le_value l) = l.
Proof.
  induction 1 as [|b l Hb Hl IH]; cbn [le_value le_bytes length]; [done|].
  unfold is_byte, in_width in Hb. change (2 ^ 8) with 256 in Hb.
  rewrite (Z.mul_comm 256), Z_mod_plus_full, Z.mod_small, Z.div_add by lia.
  rewrite Z.div_small, Z.add_0_l by lia. by rewrite IH.
Qed.

Lemma be_bytes_length n z : length (be_bytes n z) = n.
Proof. unfold be_bytes. by rewrite length_reverse, le_bytes_length. Qed.

Lemma bytes_ok_reverse l : bytes_ok l → bytes_ok (reverse l).
Proof. unfold bytes_ok. by rewrite Forall_reverse. Qed.

Lemma be_bytes_ok n z : bytes_ok (be_bytes n z).
Proof. apply bytes_ok_reverse, le_bytes_ok. Qed.

Lemma be_value_bytes n z :
  0 ≤ z < 256 ^ Z.of_nat n → be_value (be_bytes n z) = z.
Proof. intros H. unfold be_value, be_bytes. rewrite reverse_involutive. by apply le_value_bytes. Qed.

Lemma be_value_range l :
  bytes_ok l → 0 ≤ be_value l < 256 ^ Z.of_nat (length l).
Proof.
  intros H. unfold be_value. rewrite <- length_reverse.
  by apply le_value_range, bytes_ok_reverse.
Qed.

Lemma be_bytes_value l : bytes_ok l → be_bytes (length l) (be_value l) = l.
Proof.
  intros H. unfold be_value, be_bytes.
  rewrite <- length_reverse, le_bytes_value by by apply bytes_ok_reverse.
  apply reverse_involutive.
Qed.

(** ** Byte buffers

    Lengths and offsets are [Z], as the sources compute them. *)
Definition zlen {A} (l : list A) : Z := Z.of_nat (length l).

(** The [n] bytes at offset [off]: Go's [l[off : off+n]]. *)
Definition slice {A} (off n : Z) (l : list A) : list A :=
  take (Z.to_nat n) (drop (Z.to_nat off) l).

(** Overwriting the bytes at [off] by [bs]. *)
Definition patch {A} (off : Z) (bs : list A) (l : list A) : list A :=
  take (Z.to_nat off) l ++ bs ++ drop (Z.to_nat off + length bs) l.

(** Whether the range [[off, off+n)] lies inside a buffer of length [len]. *)
Definition in_range (off n len : Z) : bool :=
  (0 <=? off) && (0 <=? n) && (off + n <=? len).

Lemma in_range_spec off n len :
  in_range off n len = true ↔ 0 ≤ off ∧ 0 ≤ n ∧ off + n ≤ len.
Proof. unfold in_range. rewrite !andb_true_iff, !Z.leb_le. lia. Qed.

Lemma zlen_nonneg {A} (l : list A) : 0 ≤ zlen l.
Proof. unfold zlen. lia. Qed.

Lemma zlen_nil {A} : zlen (@nil A) = 0.
Proof. done. Qed.

Lemma zlen_cons {A} (a : A) l : zlen (a :: l) = 1 + zlen l.
Proof. unfold zlen. simpl. lia. Qed.

(** A sublist that misses nothing. *)
Lemma sublist_full {A} (l1 l2 : list A) : l1 `sublist_of` l2 → zlen l2 ≤ zlen l1 → l1 = l2.
Proof.
  induction 1 as [|x l1 l2 _ IH|x l1 l2 Hs _]; intros Hl; [done| |].
  - rewrite !zlen_cons in Hl. f_equal. apply IH. lia.
  - apply sublist_length in Hs. unfold zlen in Hl. cbn in Hl. lia.
Qed.

Lemma zlen_app {A} (l1 l2 : list A) : zlen (l1 ++ l2) = zlen l1 + zlen l2.
Proof. unfold zlen. rewrite length_app. lia. Qed.

Lemma zlen_le_bytes n z : zlen (le_bytes n z) = Z.of_nat n.
Proof. unfold zlen. by rewrite le_bytes_length. Qed.

Lemma zlen_be_bytes n z : zlen (be_bytes n z) = Z.of_nat n.
Proof. unfold zlen. by rewrite be_bytes_length. Qed.

Lemma zlen_slice {A} off n (l : list A) :
  0 ≤ off → 0 ≤ n → off + n ≤ zlen l → zlen (slice off n l) = n.
Proof. unfold zlen, slice. intros. rewrite length_take, length_drop. lia. Qed.

Lemma zlen_patch {A} off (bs l : list A) :
  0 ≤ off → off + zlen bs ≤ zlen l → zlen (patch off bs l) = zlen l.
Proof.
  unfold zlen, patch. intros. rewrite !length_app, length_take, length_drop. lia.
Qed.

Lemma slice_lookup {A} off n (l : list A) i :
  slice off n l !! i =
  if decide (i < Z.to_nat n)%nat then l !! (Z.to_nat off + i)%nat else None.
Proof.
  unfold slice. case_decide.
  - by rewrite lookup_take_lt, lookup_drop by done.
  - rewrite lookup_take_ge by lia. done.
Qed.

Lemma patch_lookup {A} off (bs l : list A) i :
  0 ≤ off → off + zlen bs ≤ zlen l →
  patch off bs l !! i =
  if decide (Z.to_nat off ≤ i < Z.to_nat off + length bs)%nat
  then bs !! (i - Z.to_nat off)%nat else l !! i.
Proof.
  unfold patch, zlen. intros.
  assert (length (take (Z.to_nat off) l) = Z.to_nat off) as Ht
    by (rewrite length_take; lia).
  destruct (decide (i < Z.to_nat off)%nat).
  { rewrite decide_False by lia. rewrite lookup_app_l by lia. by rewrite lookup_take_lt. }
  rewrite lookup_app_r, Ht by lia.
  destruct (decide (i < Z.to_nat off + length bs)%nat).
  { rewrite decide_True by lia. by rewrite lookup_app_l by lia. }
  rewrite decide_False by lia. rewrite lookup_app_r, lookup_drop by lia.
  f_equal. lia.
Qed.

(** Reading back what was written, and reading outside of it. *)
Lemma slice_patch_eq {A} off n (bs l : list A) :
  zlen bs = n → 0 ≤ off → off + n ≤ zlen l → slice off n (patch off bs l) = bs.
Proof.
  intros <- ? ?. apply list_eq. intros i. rewrite slice_lookup.
  case_decide; unfold zlen in *.
  - rewrite patch_lookup, decide_True by (unfold zlen; lia). f_equal. lia.
  - symmetry. apply lookup_ge_None. lia.
Qed.

Lemma slice_patch_ne {A} off n off' (bs l : list A) :
  0 ≤ off → 0 ≤ off' → 0 ≤ n → off' + zlen bs ≤ zlen l →
  off + n ≤ off' ∨ off' + zlen bs ≤ off →
  slice off n (patch off' bs l) = slice off n l.
Proof.
  unfold zlen. intros. apply list_eq. intros i. rewrite !slice_lookup.
  case_decide; [|done].
  rewrite patch_lookup, decide_False by (unfold zlen; lia). done.
Qed.

Lemma patch_nil {A} off (l : list A) : patch off [] l = l.
Proof. unfold patch. simpl. by rewrite Nat.add_0_r, take_drop. Qed.

Lemma slice_all {A} (l : list A) : slice 0 (zlen l) l = l.
Proof. unfold slice, zlen. by rewrite Nat2Z.id, drop_0, firstn_all. Qed.

Lemma slice_app_l {A} n (l1 l2 : list A) :
  n = zlen l1 → slice 0 n (l1 ++ l2) = l1.
Proof. intros ->. unfold slice, zlen. by rewrite Nat2Z.id, drop_0, take_app_length. Qed.

Lemma slice_bytes_ok off n l : bytes_ok l → bytes_ok (slice off n l).
Proof. intros. by apply Forall_take, Forall_drop. Qed.

(** A sequence of writes, in order. *)
Fixpoint writes {A} (ws : list (Z * list A)) (l : list A) : list A :=
  match ws with
  | [] => l
  | (off, bs) :: ws => writes ws (patch off bs l)
  end.

Definition writes_ok {A} (ws : list (Z * list A)) (len : Z) : Prop :=
  Forall (λ w, 0 ≤ w.1 ∧ w.1 + zlen w.2 ≤ len) ws.

Lemma zlen_writes {A} (ws : list (Z * list A)) l :
  writes_ok ws (zlen l) → zlen (writes ws l) = zlen l.
Proof.
  revert l. induction ws as [|[off bs] ws IH]; intros l Hok; simpl; [done|].
  apply Forall_cons in Hok as [[? ?] Hok]. simpl in *.
  assert (zlen (patch off bs l) = zlen l) as Hz by (by apply zlen_patch).
  rewrite IH; [done|]. by rewrite Hz.
Qed.

Lemma writes_app {A} (ws1 ws2 : list (Z * list A)) l :
  writes (ws1 ++ ws2) l = writes ws2 (writes ws1 l).
Proof. revert l. induction ws1 as [|[off bs] ws1 IH]; intros l; simpl; auto. Qed.

(** A range no write touches keeps its contents. *)
Lemma slice_writes_ne {A} off n (ws : list (Z * list A)) l :
  0 ≤ off → 0 ≤ n → writes_ok ws (zlen l) →
  Forall (λ w, off + n ≤ w.1 ∨ w.1 + zlen w.2 ≤ off) ws →
  slice off n (writes ws l) = slice off n l.
Proof.
  intros ? ?. revert l. induction ws as [|[o bs] ws IH]; intros l Hok Hne; simpl; [done|].
  apply Forall_cons in Hok as [[? ?] Hok]. apply Forall_cons in Hne as [? Hne]. simpl in *.
  assert (zlen (patch o bs l) = zlen l) as Hz by (by apply zlen_patch).
  rewrite IH by (rewrite ?Hz; done). by apply slice_patch_ne.
Qed.

(** A write no later write touches is read back. *)
Lemma slice_writes_eq {A} off n bs (ws1 ws2 : list (Z * list A)) l :
  zlen bs = n → writes_ok (ws1 ++ (off, bs) :: ws2) (zlen l) →
  Forall (λ w, off + n ≤ w.1 ∨ w.1 + zlen w.2 ≤ off) ws2 →
  slice off n (writes (ws1 ++ (off, bs) :: ws2) l) = bs.
Proof.
  intros Hn Hok Hne. apply Forall_app in Hok as [Hok1 Hok2].
  apply Forall_cons in Hok2 as [[? ?] Hok2]. simpl in *.
  rewrite writes_app. simpl. pose proof (zlen_writes ws1 l Hok1) as Hz1.
  assert (zlen (patch off bs (writes ws1 l)) = zlen l) as Hz2.
  { rewrite zlen_patch by lia. done. }
  rewrite slice_writes_ne; [apply slice_patch_eq; lia|lia| |by rewrite Hz2|done].
  pose proof (zlen_nonneg bs). lia.
Qed.

(** ** Automation

    [inv_bind] opens the successful runs of a [result] computation;
    [zb] turns boolean integer tests into propositions. *)
Ltac inv_bind :=
  repeat match goal with
  | H : _ ≫= _ = Ok _ |- _ => apply bind_ok in H as (? & ? & H)
  | H : guard_or _ _ = Ok _ |- _ => apply guard_or_ok in H
  | H : of_option _ _ = Ok _ |- _ => apply of_option_ok in H
  | H : mret _ = Ok _ |- _ => injection H as <-
  | H : Ok _ = Ok _ |- _ => injection H as H
  | H : Err _ = Ok _ |- _ => discriminate H
  end; simplify_eq/=.

Ltac zb :=
  repeat match goal with
  | H : in_range _ _ _ = true |- _ => apply in_range_spec in H
  | H : (_ && _) = true |- _ => apply andb_true_iff in H as [? ?]
  | H : (_ || _) = false |- _ => apply orb_false_iff in H as [? ?]
  | H : (_ <=? _) = true |- _ => apply Z.leb_le in H
  | H : (_ <=? _) = false |- _ => apply Z.leb_gt in H
  | H : (_ <? _) = true |- _ => apply Z.ltb_lt in H
  | H : (_ <? _) = false |- _ => apply Z.ltb_ge in H
  | H : (_ =? _) = true |- _ => apply Z.eqb_eq in H
  | H : (_ =? _) = false |- _ => apply Z.eqb_neq in H
  | H : negb _ = true |- _ => apply negb_true_iff in H
  | H : negb _ = false |- _ => apply negb_false_iff in H
  end.

Create HintDb bytes.
#[export] Hint Resolve le_bytes_ok be_bytes_ok slice_bytes_ok zlen_nonneg : bytes.
Create Rewrite HintDb zlen.
#[export] Hint Rewrite @zlen_nil @zlen_cons @zlen_app zlen_le_bytes zlen_be_bytes : zlen.

(** ** Go run-time panics *)
Inductive panic := SliceBounds | IndexBounds.

(** [b[lo:hi]] on a slice of exactly its capacity, and [b[i]]. *)
Definition go_slice {A} (lo hi : Z) (l : list A) : result panic (list A) :=
  if (0 <=? lo) && (lo <=? hi) && (hi <=? zlen l) then Ok (slice lo (hi - lo) l)
  else Err SliceBounds.

Definition go_index (i : Z) (l : list Z) : result panic Z :=
  if (0 <=? i) && (i <? zlen l) then Ok (nth (Z.to_nat i) l 0) else Err IndexBounds.

Lemma go_slice_ok {A} lo hi (l : list A) :
  0 ≤ lo → lo ≤ hi → hi ≤ zlen l → go_slice lo hi l = Ok (slice lo (hi - lo) l).
Proof.
  intros. unfold go_slice. by rewrite !(proj2 (Z.leb_le _ _)) by lia.
Qed.

Lemma go_index_ok i l :
  0 ≤ i < zlen l → go_index i l = Ok (le_value (slice i 1 l)).
Proof.
  intros [H1 H2]. unfold go_index. rewrite (proj2 (Z.leb_le _ _) H1), (proj2 (Z.ltb_lt _ _) H2).
  simpl. f_equal. unfold zlen in H2.
  destruct (lookup_lt_is_Some_2 l (Z.to_nat i)) as [x Hx]; [lia|].
  rewrite (nth_lookup_Some _ _ _ _ Hx). unfold slice. change (Z.to_nat 1) with 1%nat.
  rewrite (drop_S _ _ _ Hx). simpl. lia.
Qed.
