(* ===== verification/CLayout.v ===== *)
(** * Memory layout of C declarations

    The eBPF programs are compiled against [vmlinux.h], a dump of the kernel's
    types, and exchange [struct pkt_record] and [struct ssl_event] with user
    space as raw memory.  This file is the layout those declarations have on the
    64-bit little-endian targets of the build ([generate_bpf.sh]: arm64 and
    x86_64): sizes, alignments, member offsets and bit-fields, with the theorems
    that make a layout usable (members aligned, ordered, disjoint, inside the
    object). *)
From S2P Require Import Prelude.

Inductive agg_kind := Struct | Union.

(** C types.  [CInt sz] is an integer, [_Bool] or enumeration type of [sz]
    bytes; [CRef tag] names a declared type ("struct iphdr", "__be16"). *)
Inductive ctype :=
| CInt (sz : Z)
| CPtr
| CArr (n : Z) (t : ctype)
| CRef (tag : string)
| CAgg (k : agg_kind) (packed : bool) (fs : list cfield)
(** Members: a named member, an anonymous struct or union, a named bit-field
    and an unnamed one. *)
with cfield :=
| Fld (name : string) (t : ctype)
| Anon (t : ctype)
| Bits (name : string) (t : ctype) (w : Z)
| Pad (t : ctype) (w : Z).

(** A layout: size and alignment, in bytes. *)
Record layout := Layout { ly_size : Z; ly_align : Z }.

(** What placing a member needs: the layout of its type, its width when it is
    a bit-field, and whether it has a name. *)
Record slot := Slot { sl_ly : layout; sl_bits : option Z; sl_named : bool }.

Abbreviation env := (gmap string layout).

(** ** Placement

    Positions are bit offsets.  An ordinary member starts at the next multiple
    of its alignment; a bit-field stays in the current storage unit of its type
    when it fits and starts a new unit otherwise; a zero-width bit-field closes
    the unit; [packed] removes the alignment. *)
Definition round_up (x a : Z) : Z := (x + a - 1) / a * a.

Definition slot_unit (s : slot) : Z := 8 * ly_size (sl_ly s).

Definition slot_len (s : slot) : Z := default (slot_unit s) (sl_bits s).

Definition slot_align (packed : bool) (s : slot) : Z :=
  if packed then 1 else
  match sl_bits s with
  | Some _ => if sl_named s then ly_align (sl_ly s) else 1
  | None => ly_align (sl_ly s)
  end.

Definition place (packed : bool) (pos : Z) (s : slot) : Z :=
  match sl_bits s with
  | None => round_up pos (if packed then 8 else 8 * ly_align (sl_ly s))
  | Some w =>
      if w =? 0 then round_up pos (slot_unit s) else
      if packed then pos else
      if pos mod slot_unit s + w <=? slot_unit s then pos
      else round_up pos (slot_unit s)
  end.

(** The starts of the members of a struct from position [pos], and its end. *)
Fixpoint place_all (packed : bool) (pos : Z) (ss : list slot) : list Z * Z :=
  match ss with
  | [] => ([], pos)
  | s :: ss =>
      let p := place packed pos s in
      let '(ps, e) := place_all packed (p + slot_len s) ss in (p :: ps, e)
  end.

Definition agg_align (packed : bool) (ss : list slot) : Z :=
  foldr (λ s a, Z.max (slot_align packed s) a) 1 ss.

Definition struct_layout (packed : bool) (ss : list slot) : layout :=
  let a := agg_align packed ss in
  Layout (round_up (place_all packed 0 ss).2 (8 * a) / 8) a.

Definition union_layout (packed : bool) (ss : list slot) : layout :=
  let a := agg_align packed ss in
  Layout (round_up (foldr (λ s m, Z.max (slot_len s) m) 0 ss) (8 * a) / 8) a.

Definition agg_layout (k : agg_kind) : bool → list slot → layout :=
  match k with Struct => struct_layout | Union => union_layout end.

(** Starts of the members of an aggregate: a union's members all start at 0. *)
Definition agg_starts (k : agg_kind) (packed : bool) (ss : list slot) : list Z :=
  match k with
  | Struct => (place_all packed 0 ss).1
  | Union => (λ _, 0) <$> ss
  end.

(** ** The layout of a type

    [None] when a referenced type is not declared, or on a constraint violation
    (a bit-field wider than its type, a negative array length, an integer size
    no target has). *)
Definition int_size_ok (sz : Z) : bool :=
  (sz =? 1) || (sz =? 2) || (sz =? 4) || (sz =? 8) || (sz =? 16).

Definition bits_ok (ly : layout) (w : Z) : bool :=
  (0 <=? w) && (w <=? 8 * ly_size ly) && (0 <? ly_size ly) && (ly_size ly =? ly_align ly).

Fixpoint layout_of (e : env) (t : ctype) : option layout :=
  match t with
  | CInt sz => if int_size_ok sz then Some (Layout sz sz) else None
  | CPtr => Some (Layout 8 8)
  | CArr n t =>
      ly ← layout_of e t;
      if 0 <=? n then Some (Layout (n * ly_size ly) (ly_align ly)) else None
  | CRef tag => e !! tag
  | CAgg k packed fs =>
      ss ← (fix slots fs := match fs with
            | [] => Some []
            | f :: fs => s ← slot_of e f; ss ← slots fs; Some (s :: ss)
            end) fs;
      Some (agg_layout k packed ss)
  end
with slot_of (e : env) (f : cfield) : option slot :=
  match f with
  | Fld _ t => ly ← layout_of e t; Some (Slot ly None true)
  | Anon t => ly ← layout_of e t; Some (Slot ly None false)
  | Bits _ t w =>
      ly ← layout_of e t; if bits_ok ly w then Some (Slot ly (Some w) true) else None
  | Pad t w =>
      ly ← layout_of e t; if bits_ok ly w then Some (Slot ly (Some w) false) else None
  end.

Fixpoint slots_of (e : env) (fs : list cfield) : option (list slot) :=
  match fs with
  | [] => Some []
  | f :: fs => s ← slot_of e f; ss ← slots_of e fs; Some (s :: ss)
  end.

(** ** Members by name

    The named members of an aggregate with their bit offset and width; the
    members of an anonymous aggregate belong to the enclosing one. *)
Record member := Member { mb_name : string; mb_off : Z; mb_len : Z }.

Definition shift_member (d : Z) (m : member) : member :=
  Member (mb_name m) (d + mb_off m) (mb_len m).

Fixpoint members (e : env) (t : ctype) : option (list member) :=
  match t with
  | CAgg k packed fs =>
      ss ← slots_of e fs;
      (fix go fs ss ps := match fs, ss, ps with
       | f :: fs, s :: ss, p :: ps =>
           here ← members_of_field e f p (slot_len s);
           rest ← go fs ss ps;
           Some (here ++ rest)
       | _, _, _ => Some []
       end) fs ss (agg_starts k packed ss)
  | _ => Some []
  end
with members_of_field (e : env) (f : cfield) (p len : Z) : option (list member) :=
  match f with
  | Fld n _ | Bits n _ _ => Some [Member n p len]
  | Anon t => ms ← members e t; Some (map (shift_member p) ms)
  | Pad _ _ => Some []
  end.

(** ** Declaration tables

    A header is a list of declarations, each using only earlier ones. *)
Abbreviation decls := (list (string * ctype)).

Fixpoint build (ds : decls) (e : env) : option env :=
  match ds with
  | [] => Some e
  | (tag, t) :: ds => ly ← layout_of e t; build ds (<[tag := ly]> e)
  end.

Definition lookup_decl (ds : decls) (tag : string) : option ctype :=
  (λ d, d.2.2) <$> list_find (λ d, d.1 = tag) ds.

(** C's [sizeof(tag)] and the member designator [tag.name]. *)
Definition sizeof (e : env) (tag : string) : Z := from_option ly_size 0 (e !! tag).

Definition find_member (e : env) (t : ctype) (name : string) : option member :=
  ms ← members e t; snd <$> list_find (λ m, mb_name m = name) ms.

Definition member_of (e : env) (ds : decls) (tag name : string) : option member :=
  t ← lookup_decl ds tag; find_member e t name.

(** ** Well-formed layouts *)
Definition pow2 (a : Z) : Prop := ∃ n, 0 ≤ n ∧ a = 2 ^ n.

Definition wf_layout (ly : layout) : Prop :=
  0 ≤ ly_size ly ∧ pow2 (ly_align ly) ∧ ly_size ly mod ly_align ly = 0.

Definition wf_slot (s : slot) : Prop :=
  wf_layout (sl_ly s) ∧
  match sl_bits s with
  | Some w => bits_ok (sl_ly s) w = true
  | None => True
  end.

Definition wf_env (e : env) : Prop := map_Forall (λ _, wf_layout) e.

Lemma pow2_pos a : pow2 a → 0 < a.
Proof. intros (n & ? & ->). by apply Z.pow_pos_nonneg. Qed.

Lemma pow2_1 : pow2 1.
Proof. by exists 0. Qed.

Lemma pow2_le_divide a b : pow2 a → pow2 b → a ≤ b → (a | b).
Proof.
  intros (n & Hn & ->) (m & Hm & ->) Hle.
  apply Z.pow_le_mono_r_iff in Hle; [|lia..].
  exists (2 ^ (m - n)). rewrite <- Z.pow_add_r by lia. f_equal. lia.
Qed.

Lemma pow2_max a b : pow2 a → pow2 b → pow2 (Z.max a b).
Proof. intros. destruct (Z.max_spec a b) as [[_ ->]|[_ ->]]; done. Qed.

Lemma round_up_spec x a :
  0 < a → x ≤ round_up x a < x + a ∧ round_up x a mod a = 0.
Proof.
  intros Ha. unfold round_up. rewrite Z.mod_mul by lia.
  pose proof (Z.div_mod (x + a - 1) a ltac:(lia)).
  pose proof (Z.mod_pos_bound (x + a - 1) a Ha). nia.
Qed.

Lemma bits_ok_spec ly w :
  bits_ok ly w = true ↔ 0 ≤ w ≤ 8 * ly_size ly ∧ 0 < ly_size ly ∧ ly_size ly = ly_align ly.
Proof.
  unfold bits_ok. rewrite !andb_true_iff, !Z.leb_le, Z.ltb_lt, Z.eqb_eq. lia.
Qed.

Lemma slot_len_nonneg s : wf_slot s → 0 ≤ slot_len s.
Proof.
  unfold wf_slot, wf_layout, slot_len, slot_unit. intros [(? & _) Hb].
  destruct (sl_bits s); simpl; [|lia]. apply bits_ok_spec in Hb. lia.
Qed.

Lemma slot_align_pow2 packed s : wf_slot s → pow2 (slot_align packed s).
Proof.
  intros [(_ & ? & _) _]. unfold slot_align.
  destruct packed, (sl_bits s), (sl_named s); auto using pow2_1.
Qed.

(** A member never starts before the current position. *)
Lemma place_ge packed pos s : wf_slot s → pos ≤ place packed pos s.
Proof.
  intros [(? & Hp & _) Hb]. apply pow2_pos in Hp. unfold place.
  destruct (sl_bits s) as [w|].
  - apply bits_ok_spec in Hb as (? & ? & ?). unfold slot_unit.
    pose proof (round_up_spec pos (8 * ly_size (sl_ly s)) ltac:(lia)) as [? _].
    repeat case_match; lia.
  - pose proof (round_up_spec pos (if packed then 8 else 8 * ly_align (sl_ly s))).
    destruct packed; lia.
Qed.

(** The natural alignment of ordinary members. *)
Lemma place_aligned pos s :
  wf_slot s → sl_bits s = None →
  place false pos s mod (8 * ly_align (sl_ly s)) = 0.
Proof.
  intros [(_ & Hp & _) _] Hb. unfold place. rewrite Hb.
  apply pow2_pos in Hp. apply round_up_spec. lia.
Qed.

(** A bit-field of positive width does not straddle a storage unit of its type. *)
Lemma place_bits_unit pos s w :
  0 ≤ pos → wf_slot s → sl_bits s = Some w → 0 < w →
  place false pos s mod slot_unit s + w ≤ slot_unit s.
Proof.
  intros Hpos [_ Hb] E Hw. rewrite E in Hb. unfold place. rewrite E.
  apply bits_ok_spec in Hb as (? & ? & ?).
  rewrite (proj2 (Z.eqb_neq w 0)) by lia.
  destruct (_ <=? _) eqn:Hle; zb; [done|].
  pose proof (round_up_spec pos (slot_unit s) ltac:(unfold slot_unit; lia)) as [_ ->].
  unfold slot_unit. lia.
Qed.

(** The members of a struct lie between its start and its end. *)
Lemma place_all_bounds packed pos ss :
  Forall wf_slot ss →
  pos ≤ (place_all packed pos ss).2 ∧
  Forall2 (λ s p, pos ≤ p ∧ p + slot_len s ≤ (place_all packed pos ss).2)
    ss (place_all packed pos ss).1.
Proof.
  intros Hss. revert pos. induction Hss as [|s ss Hs _ IH]; intros pos; simpl.
  { split; [lia|constructor]. }
  pose proof (place_ge packed pos s Hs). pose proof (slot_len_nonneg s Hs).
  destruct (IH (place packed pos s + slot_len s)) as [Hle Hall].
  destruct (place_all packed (place packed pos s + slot_len s) ss) as [ps e]; simpl in *.
  split; [lia|]. constructor; [lia|].
  eapply Forall2_impl; [exact Hall|]. simpl. lia.
Qed.

(** Members are laid out in declaration order and do not overlap. *)
Lemma place_all_disjoint packed pos ss i j s p q :
  Forall wf_slot ss → (i < j)%nat → ss !! i = Some s →
  (place_all packed pos ss).1 !! i = Some p →
  (place_all packed pos ss).1 !! j = Some q →
  p + slot_len s ≤ q.
Proof.
  intros Hss. revert pos i j. induction Hss as [|s' ss Hs Hss IH]; intros pos i j Hij; [done|].
  destruct j as [|j]; [lia|]. simpl.
  pose proof (place_all_bounds packed (place packed pos s' + slot_len s') ss Hss) as [_ Hall].
  specialize (IH (place packed pos s' + slot_len s')).
  destruct (place_all packed (place packed pos s' + slot_len s') ss) as [ps e]; simpl in *.
  destruct i as [|i]; simpl; intros; simplify_eq.
  - eapply Forall2_lookup_r in Hall as (? & _ & ? & _); [|done]. lia.
  - eapply IH; [|done..]. lia.
Qed.

Lemma place_all_lookup packed pos ss i s p :
  ss !! i = Some s → (place_all packed pos ss).1 !! i = Some p →
  ∃ pos', p = place packed pos' s ∧ (0 ≤ pos → Forall wf_slot ss → 0 ≤ pos').
Proof.
  revert pos i. induction ss as [|s' ss IH]; intros pos i; [done|]. simpl.
  specialize (IH (place packed pos s' + slot_len s')).
  destruct (place_all packed (place packed pos s' + slot_len s') ss) as [ps e]; simpl in *.
  destruct i as [|i]; simpl; intros; simplify_eq; [by exists pos|].
  edestruct IH as (pos' & -> & Hpos'); [done..|]. exists pos'. split; [done|].
  intros ? [Hs ?]%Forall_cons. apply Hpos'; [|done].
  pose proof (place_ge packed pos s' Hs). pose proof (slot_len_nonneg s' Hs). lia.
Qed.

(** ** Aggregates *)
Lemma agg_align_pow2 packed ss : Forall wf_slot ss → pow2 (agg_align packed ss).
Proof. induction 1; simpl; auto using pow2_1, pow2_max, slot_align_pow2. Qed.

Lemma agg_align_ge packed ss s :
  s ∈ ss → slot_align packed s ≤ agg_align packed ss.
Proof.
  induction 1 as [|? ? ? _ IH]; simpl; [lia|]. etrans; [exact IH|apply Z.le_max_r].
Qed.

Lemma round_up_layout x a :
  0 ≤ x → pow2 a → wf_layout (Layout (round_up x (8 * a) / 8) a) ∧
  x ≤ 8 * (round_up x (8 * a) / 8).
Proof.
  intros Hx Hp. pose proof (pow2_pos _ Hp).
  destruct (round_up_spec x (8 * a) ltac:(lia)) as [? Hm].
  apply Z.mod_divide in Hm as [k Hk]; [|lia].
  rewrite Hk in *. replace (k * (8 * a)) with (k * a * 8) in * by lia.
  rewrite Z.div_mul by lia.
  split; [split; [|split]|]; simpl; [nia|done|apply Z.mod_mul; lia|lia].
Qed.

Lemma union_len_nonneg ss : 0 ≤ foldr (λ s m, Z.max (slot_len s) m) 0 ss.
Proof. induction ss; simpl; lia. Qed.

Lemma agg_layout_wf k packed ss : Forall wf_slot ss → wf_layout (agg_layout k packed ss).
Proof.
  intros Hss. pose proof (agg_align_pow2 packed ss Hss).
  destruct k; simpl; (apply round_up_layout; [|done]).
  - apply (place_all_bounds packed 0 ss Hss).
  - apply union_len_nonneg.
Qed.

(** Every member of an aggregate lies inside it. *)
Lemma agg_member_inside k packed ss i s p :
  Forall wf_slot ss → ss !! i = Some s → agg_starts k packed ss !! i = Some p →
  0 ≤ p ∧ p + slot_len s ≤ 8 * ly_size (agg_layout k packed ss).
Proof.
  intros Hss Hi Hp. pose proof (agg_align_pow2 packed ss Hss) as Ha. destruct k; simpl in *.
  - destruct (place_all_bounds packed 0 ss Hss) as [H0 Hall].
    destruct (round_up_layout _ _ H0 Ha) as [_ Hle].
    eapply Forall2_lookup_lr in Hall; [|done..]. simpl in Hall. lia.
  - rewrite list_lookup_fmap, Hi in Hp. simplify_eq/=.
    destruct (round_up_layout _ _ (union_len_nonneg ss) Ha) as [_ Hle].
    split; [lia|]. etrans; [|exact Hle]. clear -Hi.
    revert i Hi. induction ss as [|s' ss IH]; intros [|i] Hi; simplify_eq/=; [lia|].
    specialize (IH _ Hi). lia.
Qed.

(** ** Layouts of types are well formed *)
Section ctype_ind.
Variables (P : ctype → Prop) (Q : cfield → Prop).
Hypothesis HInt : ∀ sz, P (CInt sz).
Hypothesis HPtr : P CPtr.
Hypothesis HArr : ∀ n t, P t → P (CArr n t).
Hypothesis HRef : ∀ tag, P (CRef tag).
Hypothesis HAgg : ∀ k packed fs, Forall Q fs → P (CAgg k packed fs).
Hypothesis HFld : ∀ n t, P t → Q (Fld n t).
Hypothesis HAnon : ∀ t, P t → Q (Anon t).
Hypothesis HBits : ∀ n t w, P t → Q (Bits n t w).
Hypothesis HPad : ∀ t w, P t → Q (Pad t w).

Fixpoint ctype_ind' (t : ctype) : P t :=
  match t with
  | CInt sz => HInt sz
  | CPtr => HPtr
  | CArr n t => HArr n t (ctype_ind' t)
  | CRef tag => HRef tag
  | CAgg k packed fs =>
      HAgg k packed fs ((fix all fs := match fs return Forall Q fs with
        | [] => Forall_nil_2 Q
        | f :: fs => Forall_cons_2 Q f fs (cfield_ind' f) (all fs)
        end) fs)
  end
with cfield_ind' (f : cfield) : Q f :=
  match f with
  | Fld n t => HFld n t (ctype_ind' t)
  | Anon t => HAnon t (ctype_ind' t)
  | Bits n t w => HBits n t w (ctype_ind' t)
  | Pad t w => HPad t w (ctype_ind' t)
  end.
End ctype_ind.

Lemma layout_of_agg e k packed fs :
  layout_of e (CAgg k packed fs) = agg_layout k packed <$> slots_of e fs.
Proof.
  cbn [layout_of].
  assert ((fix slots fs := match fs with
            | [] => Some []
            | f :: fs => s ← slot_of e f; ss ← slots fs; Some (s :: ss)
            end) fs = slots_of e fs) as ->.
  { induction fs as [|f fs IH]; [done|]. cbn. destruct (slot_of e f); simpl; [|done].
    by rewrite IH. }
  by destruct (slots_of e fs).
Qed.

Lemma slots_of_wf e fs ss :
  Forall (λ f, ∀ s, slot_of e f = Some s → wf_slot s) fs →
  slots_of e fs = Some ss → Forall wf_slot ss.
Proof.
  intros Hfs. revert ss. induction Hfs as [|f fs Hf _ IH]; simpl; intros ss Hss.
  { by simplify_eq. }
  destruct (slot_of e f) as [s|] eqn:Es; simplify_eq/=.
  destruct (slots_of e fs) as [ss'|] eqn:Ess; simplify_eq/=.
  constructor; eauto.
Qed.

Lemma slot_bits_wf ly w named s :
  wf_layout ly →
  (if bits_ok ly w then Some (Slot ly (Some w) named) else None) = Some s → wf_slot s.
Proof. intros ?. destruct (bits_ok ly w) eqn:?; intros; by simplify_eq. Qed.

Lemma int_size_ok_wf sz : int_size_ok sz = true → wf_layout (Layout sz sz).
Proof.
  unfold int_size_ok. rewrite !orb_true_iff, !Z.eqb_eq.
  intros H. assert (∃ n, 0 ≤ n ∧ sz = 2 ^ n) as (n & Hn & ->).
  { destruct H as [[[[-> | ->] | ->] | ->] | ->];
      [exists 0|exists 1|exists 2|exists 3|exists 4]; done. }
  repeat split; simpl; [by apply Z.lt_le_incl, Z.pow_pos_nonneg|by exists n|].
  by apply Z.mod_same, Z.pow_nonzero.
Qed.

Lemma layout_of_wf e t ly : wf_env e → layout_of e t = Some ly → wf_layout ly.
Proof.
  intros He. revert ly.
  induction t as [sz| |n t IH|tag|k packed fs IH|n t IH|t IH|n t w IH|t w IH]
    using ctype_ind' with (Q := λ f, ∀ s, slot_of e f = Some s → wf_slot s); simpl; intros ly.
  - destruct (int_size_ok sz) eqn:Hi; intros [= <-]. by apply int_size_ok_wf.
  - intros [= <-]. repeat split; simpl; [lia|by exists 3].
  - destruct (layout_of e t) as [ly'|] eqn:E; [|done]. simpl.
    destruct (0 <=? n) eqn:Hn; intros [= <-]. zb.
    destruct (IH _ eq_refl) as (? & Hp & Hd). repeat split; simpl; [nia|done|].
    pose proof (pow2_pos _ Hp). by rewrite Z.mul_mod, Hd, Z.mul_0_r by lia.
  - apply He.
  - change (layout_of e (CAgg k packed fs) = Some ly → wf_layout ly).
    rewrite layout_of_agg. destruct (slots_of e fs) as [ss|] eqn:E; intros [= <-].
    by eapply agg_layout_wf, slots_of_wf.
  - destruct (layout_of e t); intros [= <-]. by split; [apply IH|].
  - destruct (layout_of e t); intros [= <-]. by split; [apply IH|].
  - destruct (layout_of e t); [|done]. simpl. apply slot_bits_wf, IH. done.
  - destruct (layout_of e t); [|done]. simpl. apply slot_bits_wf, IH. done.
Qed.

Lemma slots_of_wf_env e fs ss : wf_env e → slots_of e fs = Some ss → Forall wf_slot ss.
Proof.
  intros He. apply slots_of_wf, Forall_forall. intros f _ s Hs.
  destruct f; simpl in Hs; (destruct (layout_of e _) as [ly|] eqn:E; [|done]);
    apply layout_of_wf in E as Hly; try done; simplify_eq/=.
  - by split. - by split.
  - by eapply slot_bits_wf. - by eapply slot_bits_wf.
Qed.

Lemma build_wf ds e e' : wf_env e → build ds e = Some e' → wf_env e'.
Proof.
  revert e. induction ds as [|[tag t] ds IH]; simpl; intros e He.
  { by intros [= <-]. }
  destruct (layout_of e t) as [ly|] eqn:E; simpl; [|done].
  apply IH, map_Forall_insert_2; [|done]. by eapply layout_of_wf.
Qed.

Lemma wf_env_empty : wf_env ∅.
Proof. apply map_Forall_empty. Qed.

(** What a layout promises about the members of an aggregate. *)
Definition members_sound (k : agg_kind) (packed : bool) (ss : list slot) (ly : layout) : Prop :=
  (∀ i s p, ss !! i = Some s → agg_starts k packed ss !! i = Some p →
     0 ≤ p ∧ p + slot_len s ≤ 8 * ly_size ly) ∧
  (k = Struct → ∀ i j s p q, (i < j)%nat → ss !! i = Some s →
     agg_starts k packed ss !! i = Some p → agg_starts k packed ss !! j = Some q →
     p + slot_len s ≤ q) ∧
  (k = Struct → packed = false → ∀ i s p, ss !! i = Some s →
     agg_starts k packed ss !! i = Some p → sl_bits s = None →
     p mod (8 * ly_align (sl_ly s)) = 0 ∧ (ly_align (sl_ly s) | ly_align ly)) ∧
  (k = Struct → packed = false → ∀ i s p w, ss !! i = Some s →
     agg_starts k packed ss !! i = Some p → sl_bits s = Some w → 0 < w →
     p mod slot_unit s + w ≤ slot_unit s).

Lemma agg_members_sound k packed ss :
  Forall wf_slot ss → members_sound k packed ss (agg_layout k packed ss).
Proof.
  intros Hwf. split_and!.
  - intros. by eapply agg_member_inside.
  - intros -> **. by eapply place_all_disjoint.
  - intros -> -> i s p Hs Hp Hb.
    assert (wf_slot s) as Hs' by (by eapply Forall_lookup_1).
    destruct (place_all_lookup _ _ _ _ _ _ Hs Hp) as (pos' & -> & _).
    split; [by apply place_aligned|]. apply pow2_le_divide; [apply Hs'|by apply agg_align_pow2|].
    etrans; [|apply agg_align_ge; by eapply list_elem_of_lookup_2].
    unfold slot_align. by rewrite Hb.
  - intros -> -> i s p w Hs Hp Hb Hw.
    assert (wf_slot s) as Hs' by (by eapply Forall_lookup_1).
    destruct (place_all_lookup _ _ _ _ _ _ Hs Hp) as (pos' & -> & Hpos).
    apply place_bits_unit; auto. by apply Hpos.
Qed.
