(* ===== verification/Vmlinux.v ===== *)
(** * vmlinux.h: the kernel types the eBPF programs are built against

    The declarations of [src/pkg/capture/bpf/vmlinux.h] that the two programs
    and the kernel objects behind their helper calls use, transcribed as values
    of [CLayout.ctype]: the packet headers and contexts the XDP program reads
    ([xdp_md], [xdp_buff], [ethhdr], [iphdr], [ipv6hdr], [tcphdr], the
    [sk_buff] and [net_device] of the generic and native attachment modes), the
    register file the uprobes read ([pt_regs]), the maps behind the helper
    calls ([bpf_map], [bpf_array], [bpf_htab], [htab_elem], [bpf_ringbuf],
    [bpf_ringbuf_map]), the task the pid filter looks at ([task_struct]), the
    program and the system-call argument ([bpf_prog], [bpf_attr]) and the
    enumerations of the bpf interface - each with everything it contains by
    value.  Pointers need no target type for a layout, so pointees are not
    pulled in.  A struct of more than 150 lines is given in parts. *)
From S2P Require Import Prelude CLayout.

(** An enumeration: its enumerators in declaration order. *)
Abbreviation enum_decl := (list (string * Z)).

(** The object type of an enumeration: 4 bytes when every value fits an [int]
    or an [unsigned int], 8 otherwise. *)
Definition enum_type (d : enum_decl) : ctype :=
  if forallb (λ p : string * Z, (- 2 ^ 31 <=? p.2) && (p.2 <? 2 ^ 31)) d ||
     forallb (λ p : string * Z, (0 <=? p.2) && (p.2 <? 2 ^ 32)) d
  then CInt 4 else CInt 8.

(** The value of an enumerator. *)
Definition enum_value (d : enum_decl) (name : string) : option Z :=
  (λ p, p.2.2) <$> list_find (λ p, p.1 = name) d.

(** ** Declarations *)

Definition typedef___u32 : ctype := CInt 4.

Definition struct_xdp_md : ctype := CAgg Struct false [
  Fld "data" (CRef "__u32");
  Fld "data_end" (CRef "__u32");
  Fld "data_meta" (CRef "__u32");
  Fld "ingress_ifindex" (CRef "__u32");
  Fld "rx_queue_index" (CRef "__u32");
  Fld "egress_ifindex" (CRef "__u32")].

Definition typedef___u16 : ctype := CInt 2.

Definition typedef___be16 : ctype := CRef "__u16".

Definition struct_ethhdr : ctype := CAgg Struct false [
  Fld "h_dest" (CArr 6 (CInt 1));
  Fld "h_source" (CArr 6 (CInt 1));
  Fld "h_proto" (CRef "__be16")].

Definition typedef___u8 : ctype := CInt 1.

Definition typedef___sum16 : ctype := CRef "__u16".

Definition typedef___be32 : ctype := CRef "__u32".

Definition struct_iphdr : ctype := CAgg Struct false [
  Bits "ihl" (CRef "__u8") 4;
  Bits "version" (CRef "__u8") 4;
  Fld "tos" (CRef "__u8");
  Fld "tot_len" (CRef "__be16");
  Fld "id" (CRef "__be16");
  Fld "frag_off" (CRef "__be16");
  Fld "ttl" (CRef "__u8");
  Fld "protocol" (CRef "__u8");
  Fld "check" (CRef "__sum16");
  Anon (CAgg Union false [
    Anon (CAgg Struct false [
      Fld "saddr" (CRef "__be32");
      Fld "daddr" (CRef "__be32")]);
    Fld "addrs" (CAgg Struct false [
      Fld "saddr" (CRef "__be32");
      Fld "daddr" (CRef "__be32")])])].

Definition struct_in6_addr : ctype := CAgg Struct false [
  Fld "in6_u" (CAgg Union false [
    Fld "u6_addr8" (CArr 16 (CRef "__u8"));
    Fld "u6_addr16" (CArr 8 (CRef "__be16"));
    Fld "u6_addr32" (CArr 4 (CRef "__be32"))])].

Definition struct_ipv6hdr : ctype := CAgg Struct false [
  Bits "priority" (CRef "__u8") 4;
  Bits "version" (CRef "__u8") 4;
  Fld "flow_lbl" (CArr 3 (CRef "__u8"));
  Fld "payload_len" (CRef "__be16");
  Fld "nexthdr" (CRef "__u8");
  Fld "hop_limit" (CRef "__u8");
  Anon (CAgg Union false [
    Anon (CAgg Struct false [
      Fld "saddr" (CRef "struct in6_addr");
      Fld "daddr" (CRef "struct in6_addr")]);
    Fld "addrs" (CAgg Struct false [
      Fld "saddr" (CRef "struct in6_addr");
      Fld "daddr" (CRef "struct in6_addr")])])].

Definition struct_tcphdr : ctype := CAgg Struct false [
  Fld "source" (CRef "__be16");
  Fld "dest" (CRef "__be16");
  Fld "seq" (CRef "__be32");
  Fld "ack_seq" (CRef "__be32");
  Bits "ae" (CRef "__u16") 1;
  Bits "res1" (CRef "__u16") 3;
  Bits "doff" (CRef "__u16") 4;
  Bits "fin" (CRef "__u16") 1;
  Bits "syn" (CRef "__u16") 1;
  Bits "rst" (CRef "__u16") 1;
  Bits "psh" (CRef "__u16") 1;
  Bits "ack" (CRef "__u16") 1;
  Bits "urg" (CRef "__u16") 1;
  Bits "ece" (CRef "__u16") 1;
  Bits "cwr" (CRef "__u16") 1;
  Fld "window" (CRef "__be16");
  Fld "check" (CRef "__sum16");
  Fld "urg_ptr" (CRef "__be16")].

Definition typedef___u64 : ctype := CInt 8.

Definition struct_user_pt_regs : ctype := CAgg Struct false [
  Fld "regs" (CArr 31 (CRef "__u64"));
  Fld "sp" (CRef "__u64");
  Fld "pc" (CRef "__u64");
  Fld "pstate" (CRef "__u64")].

Definition typedef_u64 : ctype := CRef "__u64".

Definition typedef___s32 : ctype := CInt 4.

Definition typedef_s32 : ctype := CRef "__s32".

Definition typedef_u32 : ctype := CRef "__u32".

Definition struct_frame_record : ctype := CAgg Struct false [
  Fld "fp" (CRef "u64");
  Fld "lr" (CRef "u64")].

Definition struct_frame_record_meta : ctype := CAgg Struct false [
  Fld "record" (CRef "struct frame_record");
  Fld "type" (CRef "u64")].

Definition struct_pt_regs : ctype := CAgg Struct false [
  Anon (CAgg Union false [
    Fld "user_regs" (CRef "struct user_pt_regs");
    Anon (CAgg Struct false [
      Fld "regs" (CArr 31 (CRef "u64"));
      Fld "sp" (CRef "u64");
      Fld "pc" (CRef "u64");
      Fld "pstate" (CRef "u64")])]);
  Fld "orig_x0" (CRef "u64");
  Fld "syscallno" (CRef "s32");
  Fld "pmr" (CRef "u32");
  Fld "sdei_ttbr1" (CRef "u64");
  Fld "stackframe" (CRef "struct frame_record_meta");
  Fld "lockdep_hardirqs" (CRef "u64");
  Fld "exit_rcu" (CRef "u64")].

Definition struct_xdp_buff : ctype := CAgg Struct false [
  Fld "data" CPtr;
  Fld "data_end" CPtr;
  Fld "data_meta" CPtr;
  Fld "data_hard_start" CPtr;
  Fld "rxq" CPtr;
  Fld "txq" CPtr;
  Fld "frame_sz" (CRef "u32");
  Fld "flags" (CRef "u32")].

Definition struct_xdp_mem_info : ctype := CAgg Struct false [
  Fld "type" (CRef "u32");
  Fld "id" (CRef "u32")].

Definition struct_xdp_rxq_info : ctype := CAgg Struct false [
  Fld "dev" CPtr;
  Fld "queue_index" (CRef "u32");
  Fld "reg_state" (CRef "u32");
  Fld "mem" (CRef "struct xdp_mem_info");
  Fld "frag_size" (CRef "u32");
  Pad (CInt 8) 64;
  Pad (CInt 8) 64;
  Pad (CInt 8) 64;
  Pad (CInt 8) 64].

Definition enum_bpf_map_type : enum_decl := [
  ("BPF_MAP_TYPE_UNSPEC", 0);
  ("BPF_MAP_TYPE_HASH", 1);
  ("BPF_MAP_TYPE_ARRAY", 2);
  ("BPF_MAP_TYPE_PROG_ARRAY", 3);
  ("BPF_MAP_TYPE_PERF_EVENT_ARRAY", 4);
  ("BPF_MAP_TYPE_PERCPU_HASH", 5);
  ("BPF_MAP_TYPE_PERCPU_ARRAY", 6);
  ("BPF_MAP_TYPE_STACK_TRACE", 7);
  ("BPF_MAP_TYPE_CGROUP_ARRAY", 8);
  ("BPF_MAP_TYPE_LRU_HASH", 9);
  ("BPF_MAP_TYPE_LRU_PERCPU_HASH", 10);
  ("BPF_MAP_TYPE_LPM_TRIE", 11);
  ("BPF_MAP_TYPE_ARRAY_OF_MAPS", 12);
  ("BPF_MAP_TYPE_HASH_OF_MAPS", 13);
  ("BPF_MAP_TYPE_DEVMAP", 14);
  ("BPF_MAP_TYPE_SOCKMAP", 15);
  ("BPF_MAP_TYPE_CPUMAP", 16);
  ("BPF_MAP_TYPE_XSKMAP", 17);
  ("BPF_MAP_TYPE_SOCKHASH", 18);
  ("BPF_MAP_TYPE_CGROUP_STORAGE_DEPRECATED", 19);
  ("BPF_MAP_TYPE_CGROUP_STORAGE", 19);
  ("BPF_MAP_TYPE_REUSEPORT_SOCKARRAY", 20);
  ("BPF_MAP_TYPE_PERCPU_CGROUP_STORAGE_DEPRECATED", 21);
  ("BPF_MAP_TYPE_PERCPU_CGROUP_STORAGE", 21);
  ("BPF_MAP_TYPE_QUEUE", 22);
  ("BPF_MAP_TYPE_STACK", 23);
  ("BPF_MAP_TYPE_SK_STORAGE", 24);
  ("BPF_MAP_TYPE_DEVMAP_HASH", 25);
  ("BPF_MAP_TYPE_STRUCT_OPS", 26);
  ("BPF_MAP_TYPE_RINGBUF", 27);
  ("BPF_MAP_TYPE_INODE_STORAGE", 28);
  ("BPF_MAP_TYPE_TASK_STORAGE", 29);
  ("BPF_MAP_TYPE_BLOOM_FILTER", 30);
  ("BPF_MAP_TYPE_USER_RINGBUF", 31);
  ("BPF_MAP_TYPE_CGRP_STORAGE", 32);
  ("BPF_MAP_TYPE_ARENA", 33);
  ("__MAX_BPF_MAP_TYPE", 34)].

Definition typedef___s64 : ctype := CInt 8.

Definition typedef_s64 : ctype := CRef "__s64".

Definition typedef_atomic64_t : ctype := CAgg Struct false [
  Fld "counter" (CRef "s64")].

Definition typedef_atomic_long_t : ctype := CRef "atomic64_t".

Definition typedef_atomic_t : ctype := CAgg Struct false [
  Fld "counter" (CInt 4)].

Definition typedef_u8 : ctype := CRef "__u8".

Definition typedef_u16 : ctype := CRef "__u16".

Definition struct_qspinlock : ctype := CAgg Struct false [
  Anon (CAgg Union false [
    Fld "val" (CRef "atomic_t");
    Anon (CAgg Struct false [
      Fld "locked" (CRef "u8");
      Fld "pending" (CRef "u8")]);
    Anon (CAgg Struct false [
      Fld "locked_pending" (CRef "u16");
      Fld "tail" (CRef "u16")])])].

Definition typedef_arch_spinlock_t : ctype := CRef "struct qspinlock".

Definition struct_raw_spinlock : ctype := CAgg Struct false [
  Fld "raw_lock" (CRef "arch_spinlock_t")].

Definition typedef_raw_spinlock_t : ctype := CRef "struct raw_spinlock".

Definition struct_optimistic_spin_queue : ctype := CAgg Struct false [
  Fld "tail" (CRef "atomic_t")].

Definition struct_list_head : ctype := CAgg Struct false [
  Fld "next" CPtr;
  Fld "prev" CPtr].

Definition struct_mutex : ctype := CAgg Struct false [
  Fld "owner" (CRef "atomic_long_t");
  Fld "wait_lock" (CRef "raw_spinlock_t");
  Fld "osq" (CRef "struct optimistic_spin_queue");
  Fld "wait_list" (CRef "struct list_head")].

Definition typedef_work_func_t : ctype := CPtr.

Definition struct_work_struct : ctype := CAgg Struct false [
  Fld "data" (CRef "atomic_long_t");
  Fld "entry" (CRef "struct list_head");
  Fld "func" (CRef "work_func_t")].

Definition struct_callback_head : ctype := CAgg Struct false [
  Fld "next" CPtr;
  Fld "func" CPtr].

Definition struct_spinlock : ctype := CAgg Struct false [
  Anon (CAgg Union false [
    Fld "rlock" (CRef "struct raw_spinlock")])].

Definition typedef_spinlock_t : ctype := CRef "struct spinlock".

Definition typedef_bool : ctype := CInt 1.

Definition struct_bpf_map : ctype := CAgg Struct false [
  Fld "ops" CPtr;
  Fld "inner_map_meta" CPtr;
  Fld "security" CPtr;
  Fld "map_type" (CRef "enum bpf_map_type");
  Fld "key_size" (CRef "u32");
  Fld "value_size" (CRef "u32");
  Fld "max_entries" (CRef "u32");
  Fld "map_extra" (CRef "u64");
  Fld "map_flags" (CRef "u32");
  Fld "id" (CRef "u32");
  Fld "record" CPtr;
  Fld "numa_node" (CInt 4);
  Fld "btf_key_type_id" (CRef "u32");
  Fld "btf_value_type_id" (CRef "u32");
  Fld "btf_vmlinux_value_type_id" (CRef "u32");
  Fld "btf" CPtr;
  Fld "objcg" CPtr;
  Fld "name" (CArr 16 (CInt 1));
  Fld "freeze_mutex" (CRef "struct mutex");
  Fld "refcnt" (CRef "atomic64_t");
  Fld "usercnt" (CRef "atomic64_t");
  Anon (CAgg Union false [
    Fld "work" (CRef "struct work_struct");
    Fld "rcu" (CRef "struct callback_head")]);
  Fld "writecnt" (CRef "atomic64_t");
  Fld "owner_lock" (CRef "spinlock_t");
  Fld "owner" CPtr;
  Fld "bypass_spec_v1" (CRef "bool");
  Fld "frozen" (CRef "bool");
  Fld "free_after_mult_rcu_gp" (CRef "bool");
  Fld "free_after_rcu_gp" (CRef "bool");
  Fld "sleepable_refcnt" (CRef "atomic64_t");
  Fld "elem_count" CPtr;
  Fld "cookie" (CRef "u64")].

Definition struct_wait_queue_head : ctype := CAgg Struct false [
  Fld "lock" (CRef "spinlock_t");
  Fld "head" (CRef "struct list_head")].

Definition typedef_wait_queue_head_t : ctype := CRef "struct wait_queue_head".

Definition struct_llist_node : ctype := CAgg Struct false [
  Fld "next" CPtr].

Definition struct___call_single_node : ctype := CAgg Struct false [
  Fld "llist" (CRef "struct llist_node");
  Anon (CAgg Union false [
    Fld "u_flags" (CInt 4);
    Fld "a_flags" (CRef "atomic_t")]);
  Fld "src" (CRef "u16");
  Fld "dst" (CRef "u16")].

Definition struct_rcuwait : ctype := CAgg Struct false [
  Fld "task" CPtr].

Definition struct_irq_work : ctype := CAgg Struct false [
  Fld "node" (CRef "struct __call_single_node");
  Fld "func" CPtr;
  Fld "irqwait" (CRef "struct rcuwait")].

Definition typedef_rqspinlock_t : ctype := CRef "struct qspinlock".

Definition struct_bpf_ringbuf_part1 : list cfield := [
  Fld "waitq" (CRef "wait_queue_head_t");
  Fld "work" (CRef "struct irq_work");
  Fld "mask" (CRef "u64");
  Fld "pages" CPtr;
  Fld "nr_pages" (CInt 4);
  Pad (CInt 8) 64;
  Pad (CInt 8) 64;
  Pad (CInt 8) 64;
  Pad (CInt 8) 64;
  Pad (CInt 8) 64;
  Pad (CInt 8) 64;
  Fld "spinlock" (CRef "rqspinlock_t");
  Pad (CInt 8) 64;
  Pad (CInt 8) 64;
  Pad (CInt 8) 64;
  Pad (CInt 8) 64;
  Pad (CInt 8) 64;
  Pad (CInt 8) 64;
  Pad (CInt 8) 64;
  Fld "busy" (CRef "atomic_t")].

Definition struct_bpf_ringbuf_part2 : list cfield := replicate 487 (Pad (CInt 8) 64).

Definition struct_bpf_ringbuf_part3 : list cfield := [
  Fld "consumer_pos" (CInt 8)].

Definition struct_bpf_ringbuf_part4 : list cfield := replicate 511 (Pad (CInt 8) 64).

Definition struct_bpf_ringbuf_part5 : list cfield := [
  Fld "producer_pos" (CInt 8);
  Fld "pending_pos" (CInt 8)].

Definition struct_bpf_ringbuf_part6 : list cfield := replicate 510 (Pad (CInt 8) 64).

Definition struct_bpf_ringbuf_part7 : list cfield := [
  Fld "data" (CArr 0 (CInt 1))].

Definition struct_bpf_ringbuf : ctype :=
  CAgg Struct false (struct_bpf_ringbuf_part1 ++ struct_bpf_ringbuf_part2 ++ struct_bpf_ringbuf_part3 ++ struct_bpf_ringbuf_part4 ++ struct_bpf_ringbuf_part5 ++ struct_bpf_ringbuf_part6 ++ struct_bpf_ringbuf_part7).

Definition struct_bpf_ringbuf_map : ctype := CAgg Struct false [
  Fld "map" (CRef "struct bpf_map");
  Fld "rb" CPtr].

Definition struct_bpf_ringbuf_hdr : ctype := CAgg Struct false [
  Fld "len" (CRef "u32");
  Fld "pg_off" (CRef "u32")].

Definition struct_bpf_mem_alloc : ctype := CAgg Struct false [
  Fld "caches" CPtr;
  Fld "cache" CPtr;
  Fld "objcg" CPtr;
  Fld "percpu" (CRef "bool");
  Fld "work" (CRef "struct work_struct")].

Definition struct_pcpu_freelist : ctype := CAgg Struct false [
  Fld "freelist" CPtr].

Definition struct_bpf_lru_list : ctype := CAgg Struct false [
  Fld "lists" (CArr 3 (CRef "struct list_head"));
  Fld "counts" (CArr 2 (CInt 4));
  Fld "next_inactive_rotation" CPtr;
  Fld "lock" (CRef "raw_spinlock_t");
  Pad (CInt 8) 64;
  Pad (CInt 8) 64;
  Pad (CInt 8) 64;
  Pad (CInt 8) 64;
  Pad (CInt 8) 64;
  Pad (CInt 8) 64;
  Pad (CInt 8) 64].

Definition struct_bpf_common_lru : ctype := CAgg Struct false [
  Fld "lru_list" (CRef "struct bpf_lru_list");
  Fld "local_list" CPtr;
  Pad (CInt 8) 64;
  Pad (CInt 8) 64;
  Pad (CInt 8) 64;
  Pad (CInt 8) 64;
  Pad (CInt 8) 64;
  Pad (CInt 8) 64;
  Pad (CInt 8) 64].

Definition typedef_del_from_htab_func : ctype := CPtr.

Definition struct_bpf_lru : ctype := CAgg Struct false [
  Anon (CAgg Union false [
    Fld "common_lru" (CRef "struct bpf_common_lru");
    Fld "percpu_lru" CPtr]);
  Fld "del_from_htab" (CRef "del_from_htab_func");
  Fld "del_arg" CPtr;
  Fld "hash_offset" (CInt 4);
  Fld "target_free" (CInt 4);
  Fld "nr_scans" (CInt 4);
  Fld "percpu" (CRef "bool");
  Pad (CInt 8) 64;
  Pad (CInt 8) 64;
  Pad (CInt 8) 64;
  Pad (CInt 8) 64].

Definition struct_percpu_counter : ctype := CAgg Struct false [
  Fld "lock" (CRef "raw_spinlock_t");
  Fld "count" (CRef "s64");
  Fld "list" (CRef "struct list_head");
  Fld "counters" CPtr].

Definition struct_bpf_htab : ctype := CAgg Struct false [
  Fld "map" (CRef "struct bpf_map");
  Fld "ma" (CRef "struct bpf_mem_alloc");
  Fld "pcpu_ma" (CRef "struct bpf_mem_alloc");
  Fld "buckets" CPtr;
  Fld "elems" CPtr;
  Pad (CInt 8) 64;
  Pad (CInt 8) 64;
  Pad (CInt 8) 64;
  Pad (CInt 8) 64;
  Pad (CInt 8) 64;
  Pad (CInt 8) 64;
  Pad (CInt 8) 64;
  Anon (CAgg Union false [
    Fld "freelist" (CRef "struct pcpu_freelist");
    Fld "lru" (CRef "struct bpf_lru")]);
  Fld "extra_elems" CPtr;
  Fld "pcount" (CRef "struct percpu_counter");
  Fld "count" (CRef "atomic_t");
  Fld "use_percpu_counter" (CRef "bool");
  Fld "n_buckets" (CRef "u32");
  Fld "elem_size" (CRef "u32");
  Fld "hashrnd" (CRef "u32");
  Pad (CInt 8) 64;
  Pad (CInt 8) 64;
  Pad (CInt 8) 64;
  Pad (CInt 8) 64;
  Pad (CInt 8) 64;
  Pad (CInt 8) 64;
  Pad (CInt 8) 64].

Definition struct_hlist_nulls_node : ctype := CAgg Struct false [
  Fld "next" CPtr;
  Fld "pprev" CPtr].

Definition struct_pcpu_freelist_node : ctype := CAgg Struct false [
  Fld "next" CPtr].

Definition struct_bpf_lru_node : ctype := CAgg Struct false [
  Fld "list" (CRef "struct list_head");
  Fld "cpu" (CRef "u16");
  Fld "type" (CRef "u8");
  Fld "ref" (CRef "u8")].

Definition struct_htab_elem : ctype := CAgg Struct false [
  Anon (CAgg Union false [
    Fld "hash_node" (CRef "struct hlist_nulls_node");
    Anon (CAgg Struct false [
      Fld "padding" CPtr;
      Anon (CAgg Union false [
        Fld "fnode" (CRef "struct pcpu_freelist_node");
        Fld "batch_flink" CPtr])])]);
  Anon (CAgg Union false [
    Fld "ptr_to_pptr" CPtr;
    Fld "lru_node" (CRef "struct bpf_lru_node")]);
  Fld "hash" (CRef "u32");
  Pad (CInt 8) 0;
  Fld "key" (CArr 0 (CInt 1))].

Definition struct_hlist_nulls_head : ctype := CAgg Struct false [
  Fld "first" CPtr].

Definition struct_bucket : ctype := CAgg Struct false [
  Fld "head" (CRef "struct hlist_nulls_head");
  Fld "raw_lock" (CRef "rqspinlock_t")].

Definition struct_bpf_array : ctype := CAgg Struct false [
  Fld "map" (CRef "struct bpf_map");
  Fld "elem_size" (CRef "u32");
  Fld "index_mask" (CRef "u32");
  Fld "aux" CPtr;
  Anon (CAgg Union false [
    Anon (CAgg Struct false [
      Fld "__empty_value" (CAgg Struct false []);
      Fld "value" (CArr 0 (CInt 1))]);
    Anon (CAgg Struct false [
      Fld "__empty_ptrs" (CAgg Struct false []);
      Fld "ptrs" (CArr 0 CPtr)]);
    Anon (CAgg Struct false [
      Fld "__empty_pptrs" (CAgg Struct false []);
      Fld "pptrs" (CArr 0 CPtr)])])].

Definition struct_thread_info : ctype := CAgg Struct false [
  Fld "flags" (CInt 8);
  Fld "ttbr0" (CRef "u64");
  Anon (CAgg Union false [
    Fld "preempt_count" (CRef "u64");
    Fld "preempt" (CAgg Struct false [
      Fld "count" (CRef "u32");
      Fld "need_resched" (CRef "u32")])]);
  Fld "scs_base" CPtr;
  Fld "scs_sp" CPtr;
  Fld "cpu" (CRef "u32")].

Definition struct_refcount_struct : ctype := CAgg Struct false [
  Fld "refs" (CRef "atomic_t")].

Definition typedef_refcount_t : ctype := CRef "struct refcount_struct".

Definition struct_load_weight : ctype := CAgg Struct false [
  Fld "weight" (CInt 8);
  Fld "inv_weight" (CRef "u32")].

Definition struct_rb_node : ctype := CAgg Struct false [
  Fld "__rb_parent_color" (CInt 8);
  Fld "rb_right" CPtr;
  Fld "rb_left" CPtr].

Definition struct_sched_avg : ctype := CAgg Struct false [
  Fld "last_update_time" (CRef "u64");
  Fld "load_sum" (CRef "u64");
  Fld "runnable_sum" (CRef "u64");
  Fld "util_sum" (CRef "u32");
  Fld "period_contrib" (CRef "u32");
  Fld "load_avg" (CInt 8);
  Fld "runnable_avg" (CInt 8);
  Fld "util_avg" (CInt 8);
  Fld "util_est" (CInt 4)].

Definition struct_sched_entity : ctype := CAgg Struct false [
  Fld "load" (CRef "struct load_weight");
  Fld "run_node" (CRef "struct rb_node");
  Fld "deadline" (CRef "u64");
  Fld "min_vruntime" (CRef "u64");
  Fld "min_slice" (CRef "u64");
  Fld "group_node" (CRef "struct list_head");
  Fld "on_rq" (CInt 1);
  Fld "sched_delayed" (CInt 1);
  Fld "rel_deadline" (CInt 1);
  Fld "custom_slice" (CInt 1);
  Fld "exec_start" (CRef "u64");
  Fld "sum_exec_runtime" (CRef "u64");
  Fld "prev_sum_exec_runtime" (CRef "u64");
  Fld "vruntime" (CRef "u64");
  Anon (CAgg Union false [
    Fld "vlag" (CRef "s64");
    Fld "vprot" (CRef "u64")]);
  Fld "slice" (CRef "u64");
  Fld "nr_migrations" (CRef "u64");
  Fld "depth" (CInt 4);
  Fld "parent" CPtr;
  Fld "cfs_rq" CPtr;
  Fld "my_q" CPtr;
  Fld "runnable_weight" (CInt 8);
  Pad (CInt 8) 64;
  Fld "avg" (CRef "struct sched_avg")].

Definition struct_sched_rt_entity : ctype := CAgg Struct false [
  Fld "run_list" (CRef "struct list_head");
  Fld "timeout" (CInt 8);
  Fld "watchdog_stamp" (CInt 8);
  Fld "time_slice" (CInt 4);
  Fld "on_rq" (CInt 2);
  Fld "on_list" (CInt 2);
  Fld "back" CPtr].

Definition typedef_ktime_t : ctype := CRef "s64".

Definition struct_timerqueue_node : ctype := CAgg Struct false [
  Fld "node" (CRef "struct rb_node");
  Fld "expires" (CRef "ktime_t")].

Definition struct_hrtimer : ctype := CAgg Struct false [
  Fld "node" (CRef "struct timerqueue_node");
  Fld "_softexpires" (CRef "ktime_t");
  Fld "function" CPtr;
  Fld "base" CPtr;
  Fld "state" (CRef "u8");
  Fld "is_rel" (CRef "u8");
  Fld "is_soft" (CRef "u8");
  Fld "is_hard" (CRef "u8")].

Definition typedef_dl_server_pick_f : ctype := CPtr.

Definition struct_sched_dl_entity : ctype := CAgg Struct false [
  Fld "rb_node" (CRef "struct rb_node");
  Fld "dl_runtime" (CRef "u64");
  Fld "dl_deadline" (CRef "u64");
  Fld "dl_period" (CRef "u64");
  Fld "dl_bw" (CRef "u64");
  Fld "dl_density" (CRef "u64");
  Fld "runtime" (CRef "s64");
  Fld "deadline" (CRef "u64");
  Fld "flags" (CInt 4);
  Bits "dl_throttled" (CInt 4) 1;
  Bits "dl_yielded" (CInt 4) 1;
  Bits "dl_non_contending" (CInt 4) 1;
  Bits "dl_overrun" (CInt 4) 1;
  Bits "dl_server" (CInt 4) 1;
  Bits "dl_server_active" (CInt 4) 1;
  Bits "dl_defer" (CInt 4) 1;
  Bits "dl_defer_armed" (CInt 4) 1;
  Bits "dl_defer_running" (CInt 4) 1;
  Fld "dl_timer" (CRef "struct hrtimer");
  Fld "inactive_timer" (CRef "struct hrtimer");
  Fld "rq" CPtr;
  Fld "server_pick_task" (CRef "dl_server_pick_f");
  Fld "pi_se" CPtr].

Definition struct_scx_dsq_list_node : ctype := CAgg Struct false [
  Fld "node" (CRef "struct list_head");
  Fld "flags" (CRef "u32");
  Fld "priv" (CRef "u32")].

Definition struct_sched_ext_entity : ctype := CAgg Struct false [
  Fld "dsq" CPtr;
  Fld "dsq_list" (CRef "struct scx_dsq_list_node");
  Fld "dsq_priq" (CRef "struct rb_node");
  Fld "dsq_seq" (CRef "u32");
  Fld "dsq_flags" (CRef "u32");
  Fld "flags" (CRef "u32");
  Fld "weight" (CRef "u32");
  Fld "sticky_cpu" (CRef "s32");
  Fld "holding_cpu" (CRef "s32");
  Fld "selected_cpu" (CRef "s32");
  Fld "kf_mask" (CRef "u32");
  Fld "kf_tasks" (CArr 2 CPtr);
  Fld "ops_state" (CRef "atomic_long_t");
  Fld "runnable_node" (CRef "struct list_head");
  Fld "runnable_at" (CInt 8);
  Fld "core_sched_at" (CRef "u64");
  Fld "ddsp_dsq_id" (CRef "u64");
  Fld "ddsp_enq_flags" (CRef "u64");
  Fld "slice" (CRef "u64");
  Fld "dsq_vtime" (CRef "u64");
  Fld "disallow" (CRef "bool");
  Fld "cgrp_moving_from" CPtr;
  Fld "tasks_node" (CRef "struct list_head")].

Definition struct_uclamp_se : ctype := CAgg Struct false [
  Bits "value" (CInt 4) 11;
  Bits "bucket_id" (CInt 4) 3;
  Bits "active" (CInt 4) 1;
  Bits "user_defined" (CInt 4) 1].

Definition struct_sched_statistics : ctype := CAgg Struct false [
  Fld "wait_start" (CRef "u64");
  Fld "wait_max" (CRef "u64");
  Fld "wait_count" (CRef "u64");
  Fld "wait_sum" (CRef "u64");
  Fld "iowait_count" (CRef "u64");
  Fld "iowait_sum" (CRef "u64");
  Fld "sleep_start" (CRef "u64");
  Fld "sleep_max" (CRef "u64");
  Fld "sum_sleep_runtime" (CRef "s64");
  Fld "block_start" (CRef "u64");
  Fld "block_max" (CRef "u64");
  Fld "sum_block_runtime" (CRef "s64");
  Fld "exec_max" (CRef "s64");
  Fld "slice_max" (CRef "u64");
  Fld "nr_migrations_cold" (CRef "u64");
  Fld "nr_failed_migrations_affine" (CRef "u64");
  Fld "nr_failed_migrations_running" (CRef "u64");
  Fld "nr_failed_migrations_hot" (CRef "u64");
  Fld "nr_forced_migrations" (CRef "u64");
  Fld "nr_wakeups" (CRef "u64");
  Fld "nr_wakeups_sync" (CRef "u64");
  Fld "nr_wakeups_migrate" (CRef "u64");
  Fld "nr_wakeups_local" (CRef "u64");
  Fld "nr_wakeups_remote" (CRef "u64");
  Fld "nr_wakeups_affine" (CRef "u64");
  Fld "nr_wakeups_affine_attempts" (CRef "u64");
  Fld "nr_wakeups_passive" (CRef "u64");
  Fld "nr_wakeups_idle" (CRef "u64");
  Fld "core_forceidle_sum" (CRef "u64");
  Pad (CInt 8) 64;
  Pad (CInt 8) 64;
  Pad (CInt 8) 64].

Definition struct_hlist_head : ctype := CAgg Struct false [
  Fld "first" CPtr].

Definition struct_cpumask : ctype := CAgg Struct false [
  Fld "bits" (CArr 8 (CInt 8))].

Definition typedef_cpumask_t : ctype := CRef "struct cpumask".

Definition union_rcu_special : ctype := CAgg Union false [
  Fld "b" (CAgg Struct false [
    Fld "blocked" (CRef "u8");
    Fld "need_qs" (CRef "u8");
    Fld "exp_hint" (CRef "u8");
    Fld "need_mb" (CRef "u8")]);
  Fld "s" (CRef "u32")].

Definition struct_sched_info : ctype := CAgg Struct false [
  Fld "pcount" (CInt 8);
  Fld "run_delay" (CInt 8);
  Fld "max_run_delay" (CInt 8);
  Fld "min_run_delay" (CInt 8);
  Fld "last_arrival" (CInt 8);
  Fld "last_queued" (CInt 8)].

Definition struct_plist_node : ctype := CAgg Struct false [
  Fld "prio" (CInt 4);
  Fld "prio_list" (CRef "struct list_head");
  Fld "node_list" (CRef "struct list_head")].

Definition typedef___kernel_clockid_t : ctype := CInt 4.

Definition typedef_clockid_t : ctype := CRef "__kernel_clockid_t".

Definition enum_timespec_type : enum_decl := [
  ("TT_NONE", 0);
  ("TT_NATIVE", 1);
  ("TT_COMPAT", 2)].

Definition struct_restart_block : ctype := CAgg Struct false [
  Fld "arch_data" (CInt 8);
  Fld "fn" CPtr;
  Anon (CAgg Union false [
    Fld "futex" (CAgg Struct false [
      Fld "uaddr" CPtr;
      Fld "val" (CRef "u32");
      Fld "flags" (CRef "u32");
      Fld "bitset" (CRef "u32");
      Fld "time" (CRef "u64");
      Fld "uaddr2" CPtr]);
    Fld "nanosleep" (CAgg Struct false [
      Fld "clockid" (CRef "clockid_t");
      Fld "type" (CRef "enum timespec_type");
      Anon (CAgg Union false [
        Fld "rmtp" CPtr;
        Fld "compat_rmtp" CPtr]);
      Fld "expires" (CRef "u64")]);
    Fld "poll" (CAgg Struct false [
      Fld "ufds" CPtr;
      Fld "nfds" (CInt 4);
      Fld "has_timeout" (CInt 4);
      Fld "tv_sec" (CInt 8);
      Fld "tv_nsec" (CInt 8)])])].

Definition typedef___kernel_pid_t : ctype := CInt 4.

Definition typedef_pid_t : ctype := CRef "__kernel_pid_t".

Definition struct_hlist_node : ctype := CAgg Struct false [
  Fld "next" CPtr;
  Fld "pprev" CPtr].

Definition struct_prev_cputime : ctype := CAgg Struct false [
  Fld "utime" (CRef "u64");
  Fld "stime" (CRef "u64");
  Fld "lock" (CRef "raw_spinlock_t")].

Definition struct_seqcount : ctype := CAgg Struct false [
  Fld "sequence" (CInt 4)].

Definition typedef_seqcount_t : ctype := CRef "struct seqcount".

Definition enum_vtime_state : enum_decl := [
  ("VTIME_INACTIVE", 0);
  ("VTIME_IDLE", 1);
  ("VTIME_SYS", 2);
  ("VTIME_USER", 3);
  ("VTIME_GUEST", 4)].

Definition struct_vtime : ctype := CAgg Struct false [
  Fld "seqcount" (CRef "seqcount_t");
  Fld "starttime" (CInt 8);
  Fld "state" (CRef "enum vtime_state");
  Fld "cpu" (CInt 4);
  Fld "utime" (CRef "u64");
  Fld "stime" (CRef "u64");
  Fld "gtime" (CRef "u64")].

Definition struct_rb_root : ctype := CAgg Struct false [
  Fld "rb_node" CPtr].

Definition struct_rb_root_cached : ctype := CAgg Struct false [
  Fld "rb_root" (CRef "struct rb_root");
  Fld "rb_leftmost" CPtr].

Definition struct_timerqueue_head : ctype := CAgg Struct false [
  Fld "rb_root" (CRef "struct rb_root_cached")].

Definition struct_posix_cputimer_base : ctype := CAgg Struct false [
  Fld "nextevt" (CRef "u64");
  Fld "tqhead" (CRef "struct timerqueue_head")].

Definition struct_posix_cputimers : ctype := CAgg Struct false [
  Fld "bases" (CArr 3 (CRef "struct posix_cputimer_base"));
  Fld "timers_active" (CInt 4);
  Fld "expiry_active" (CInt 4)].

Definition struct_posix_cputimers_work : ctype := CAgg Struct false [
  Fld "work" (CRef "struct callback_head");
  Fld "mutex" (CRef "struct mutex");
  Fld "scheduled" (CInt 4)].

Definition struct_sysv_sem : ctype := CAgg Struct false [
  Fld "undo_list" CPtr].

Definition struct_sysv_shm : ctype := CAgg Struct false [
  Fld "shm_clist" (CRef "struct list_head")].

Definition typedef_sigset_t : ctype := CAgg Struct false [
  Fld "sig" (CArr 1 (CInt 8))].

Definition struct_sigpending : ctype := CAgg Struct false [
  Fld "list" (CRef "struct list_head");
  Fld "signal" (CRef "sigset_t")].

Definition typedef___kernel_ulong_t : ctype := CInt 8.

Definition typedef___kernel_size_t : ctype := CRef "__kernel_ulong_t".

Definition typedef_size_t : ctype := CRef "__kernel_size_t".

Definition typedef___kernel_uid32_t : ctype := CInt 4.

Definition typedef_uid_t : ctype := CRef "__kernel_uid32_t".

Definition typedef_kuid_t : ctype := CAgg Struct false [
  Fld "val" (CRef "uid_t")].

Definition struct_seccomp : ctype := CAgg Struct false [
  Fld "mode" (CInt 4);
  Fld "filter_count" (CRef "atomic_t");
  Fld "filter" CPtr].

Definition struct_syscall_user_dispatch : ctype := CAgg Struct false [].

Definition struct_wake_q_node : ctype := CAgg Struct false [
  Fld "next" CPtr].

Definition struct_task_io_accounting : ctype := CAgg Struct false [
  Fld "rchar" (CRef "u64");
  Fld "wchar" (CRef "u64");
  Fld "syscr" (CRef "u64");
  Fld "syscw" (CRef "u64");
  Fld "read_bytes" (CRef "u64");
  Fld "write_bytes" (CRef "u64");
  Fld "cancelled_write_bytes" (CRef "u64")].

Definition typedef_nodemask_t : ctype := CAgg Struct false [
  Fld "bits" (CArr 1 (CInt 8))].

Definition struct_seqcount_spinlock : ctype := CAgg Struct false [
  Fld "seqcount" (CRef "seqcount_t")].

Definition typedef_seqcount_spinlock_t : ctype := CRef "struct seqcount_spinlock".

Definition struct_arch_tlbflush_unmap_batch : ctype := CAgg Struct false [].

Definition struct_tlbflush_unmap_batch : ctype := CAgg Struct false [
  Fld "arch" (CRef "struct arch_tlbflush_unmap_batch");
  Fld "flush_required" (CRef "bool");
  Fld "writable" (CRef "bool")].

Definition struct_page_frag : ctype := CAgg Struct false [
  Fld "page" CPtr;
  Fld "offset" (CRef "__u32");
  Fld "size" (CRef "__u32")].

Definition struct_latency_record : ctype := CAgg Struct false [
  Fld "backtrace" (CArr 12 (CInt 8));
  Fld "count" (CInt 4);
  Fld "time" (CInt 8);
  Fld "max" (CInt 8)].

Definition struct_kmap_ctrl : ctype := CAgg Struct false [].

Definition struct_timer_list : ctype := CAgg Struct false [
  Fld "entry" (CRef "struct hlist_node");
  Fld "expires" (CInt 8);
  Fld "function" CPtr;
  Fld "flags" (CRef "u32")].

Definition struct_llist_head : ctype := CAgg Struct false [
  Fld "first" CPtr].

Definition struct_cpu_context : ctype := CAgg Struct false [
  Fld "x19" (CInt 8);
  Fld "x20" (CInt 8);
  Fld "x21" (CInt 8);
  Fld "x22" (CInt 8);
  Fld "x23" (CInt 8);
  Fld "x24" (CInt 8);
  Fld "x25" (CInt 8);
  Fld "x26" (CInt 8);
  Fld "x27" (CInt 8);
  Fld "x28" (CInt 8);
  Fld "fp" (CInt 8);
  Fld "sp" (CInt 8);
  Fld "pc" (CInt 8)].

Definition struct_user_fpsimd_state : ctype := CAgg Struct false [
  Fld "vregs" (CArr 32 (CInt 16));
  Fld "fpsr" (CRef "__u32");
  Fld "fpcr" (CRef "__u32");
  Fld "__reserved" (CArr 2 (CRef "__u32"))].

Definition enum_fp_type : enum_decl := [
  ("FP_STATE_CURRENT", 0);
  ("FP_STATE_FPSIMD", 1);
  ("FP_STATE_SVE", 2)].

Definition struct_debug_info : ctype := CAgg Struct false [
  Fld "suspended_step" (CInt 4);
  Fld "bps_disabled" (CInt 4);
  Fld "wps_disabled" (CInt 4);
  Fld "hbp_break" (CArr 16 CPtr);
  Fld "hbp_watch" (CArr 16 CPtr)].

Definition struct_ptrauth_key : ctype := CAgg Struct false [
  Fld "lo" (CInt 8);
  Fld "hi" (CInt 8)].

Definition struct_ptrauth_keys_user : ctype := CAgg Struct false [
  Fld "apia" (CRef "struct ptrauth_key");
  Fld "apib" (CRef "struct ptrauth_key");
  Fld "apda" (CRef "struct ptrauth_key");
  Fld "apdb" (CRef "struct ptrauth_key");
  Fld "apga" (CRef "struct ptrauth_key")].

Definition struct_ptrauth_keys_kernel : ctype := CAgg Struct false [
  Fld "apia" (CRef "struct ptrauth_key")].

Definition struct_thread_struct : ctype := CAgg Struct false [
  Fld "cpu_context" (CRef "struct cpu_context");
  Pad (CInt 8) 64;
  Fld "uw" (CAgg Struct false [
    Fld "tp_value" (CInt 8);
    Fld "tp2_value" (CInt 8);
    Fld "fpmr" (CRef "u64");
    Fld "pad" (CInt 8);
    Fld "fpsimd_state" (CRef "struct user_fpsimd_state")]);
  Fld "fp_type" (CRef "enum fp_type");
  Fld "fpsimd_cpu" (CInt 4);
  Fld "sve_state" CPtr;
  Fld "sme_state" CPtr;
  Fld "vl" (CArr 2 (CInt 4));
  Fld "vl_onexec" (CArr 2 (CInt 4));
  Fld "fault_address" (CInt 8);
  Fld "fault_code" (CInt 8);
  Fld "debug" (CRef "struct debug_info");
  Pad (CInt 8) 64;
  Fld "kernel_fpsimd_state" (CRef "struct user_fpsimd_state");
  Fld "kernel_fpsimd_cpu" (CInt 4);
  Fld "keys_user" (CRef "struct ptrauth_keys_user");
  Fld "keys_kernel" (CRef "struct ptrauth_keys_kernel");
  Fld "mte_ctrl" (CRef "u64");
  Fld "sctlr_user" (CRef "u64");
  Fld "svcr" (CRef "u64");
  Fld "tpidr2_el0" (CRef "u64");
  Fld "por_el0" (CRef "u64")].

Definition struct_task_struct_part1 : list cfield := [
  Fld "thread_info" (CRef "struct thread_info");
  Fld "__state" (CInt 4);
  Fld "saved_state" (CInt 4);
  Fld "stack" CPtr;
  Fld "usage" (CRef "refcount_t");
  Fld "flags" (CInt 4);
  Fld "ptrace" (CInt 4);
  Fld "on_cpu" (CInt 4);
  Fld "wake_entry" (CRef "struct __call_single_node");
  Fld "wakee_flips" (CInt 4);
  Fld "wakee_flip_decay_ts" (CInt 8);
  Fld "last_wakee" CPtr;
  Fld "recent_used_cpu" (CInt 4);
  Fld "wake_cpu" (CInt 4);
  Fld "on_rq" (CInt 4);
  Fld "prio" (CInt 4);
  Fld "static_prio" (CInt 4);
  Fld "normal_prio" (CInt 4);
  Fld "rt_priority" (CInt 4);
  Pad (CInt 8) 64;
  Pad (CInt 8) 64;
  Pad (CInt 8) 64;
  Pad (CInt 8) 64;
  Pad (CInt 8) 64;
  Fld "se" (CRef "struct sched_entity");
  Fld "rt" (CRef "struct sched_rt_entity");
  Fld "dl" (CRef "struct sched_dl_entity");
  Fld "dl_server" CPtr;
  Fld "scx" (CRef "struct sched_ext_entity");
  Fld "sched_class" CPtr;
  Fld "core_node" (CRef "struct rb_node");
  Fld "core_cookie" (CInt 8);
  Fld "core_occupation" (CInt 4);
  Fld "sched_task_group" CPtr;
  Fld "uclamp_req" (CArr 2 (CRef "struct uclamp_se"));
  Fld "uclamp" (CArr 2 (CRef "struct uclamp_se"));
  Fld "stats" (CRef "struct sched_statistics");
  Fld "preempt_notifiers" (CRef "struct hlist_head");
  Fld "btrace_seq" (CInt 4);
  Fld "policy" (CInt 4);
  Fld "max_allowed_capacity" (CInt 8);
  Fld "nr_cpus_allowed" (CInt 4);
  Fld "cpus_ptr" CPtr;
  Fld "user_cpus_ptr" CPtr;
  Fld "cpus_mask" (CRef "cpumask_t");
  Fld "migration_pending" CPtr;
  Fld "migration_disabled" (CInt 2);
  Fld "migration_flags" (CInt 2);
  Fld "trc_reader_nesting" (CInt 4);
  Fld "trc_ipi_to_cpu" (CInt 4);
  Fld "trc_reader_special" (CRef "union rcu_special");
  Fld "trc_holdout_list" (CRef "struct list_head");
  Fld "trc_blkd_node" (CRef "struct list_head");
  Fld "trc_blkd_cpu" (CInt 4);
  Fld "sched_info" (CRef "struct sched_info");
  Fld "tasks" (CRef "struct list_head");
  Fld "pushable_tasks" (CRef "struct plist_node");
  Fld "pushable_dl_tasks" (CRef "struct rb_node");
  Fld "mm" CPtr;
  Fld "active_mm" CPtr;
  Fld "faults_disabled_mapping" CPtr;
  Fld "exit_state" (CInt 4);
  Fld "exit_code" (CInt 4);
  Fld "exit_signal" (CInt 4);
  Fld "pdeath_signal" (CInt 4);
  Fld "jobctl" (CInt 8);
  Fld "personality" (CInt 4);
  Bits "sched_reset_on_fork" (CInt 4) 1;
  Bits "sched_contributes_to_load" (CInt 4) 1;
  Bits "sched_migrated" (CInt 4) 1;
  Bits "sched_task_hot" (CInt 4) 1;
  Pad (CInt 8) 28;
  Bits "sched_remote_wakeup" (CInt 4) 1;
  Bits "sched_rt_mutex" (CInt 4) 1;
  Bits "user_dumpable" (CInt 4) 1;
  Bits "in_execve" (CInt 4) 1;
  Bits "in_iowait" (CInt 4) 1;
  Bits "in_user_fault" (CInt 4) 1;
  Bits "in_lru_fault" (CInt 4) 1;
  Bits "no_cgroup_migration" (CInt 4) 1;
  Bits "frozen" (CInt 4) 1;
  Bits "use_memdelay" (CInt 4) 1;
  Bits "in_memstall" (CInt 4) 1;
  Bits "in_eventfd" (CInt 4) 1;
  Bits "in_thrashing" (CInt 4) 1;
  Bits "in_nf_duplicate" (CInt 4) 1;
  Fld "atomic_flags" (CInt 8);
  Fld "restart_block" (CRef "struct restart_block");
  Fld "pid" (CRef "pid_t");
  Fld "tgid" (CRef "pid_t");
  Fld "stack_canary" (CInt 8);
  Fld "real_parent" CPtr;
  Fld "parent" CPtr;
  Fld "children" (CRef "struct list_head");
  Fld "sibling" (CRef "struct list_head");
  Fld "group_leader" CPtr;
  Fld "ptraced" (CRef "struct list_head");
  Fld "ptrace_entry" (CRef "struct list_head");
  Fld "thread_pid" CPtr;
  Fld "pid_links" (CArr 4 (CRef "struct hlist_node"));
  Fld "thread_node" (CRef "struct list_head");
  Fld "vfork_done" CPtr;
  Fld "set_child_tid" CPtr;
  Fld "clear_child_tid" CPtr;
  Fld "worker_private" CPtr;
  Fld "utime" (CRef "u64");
  Fld "stime" (CRef "u64");
  Fld "gtime" (CRef "u64");
  Fld "prev_cputime" (CRef "struct prev_cputime");
  Fld "vtime" (CRef "struct vtime");
  Fld "tick_dep_mask" (CRef "atomic_t");
  Fld "nvcsw" (CInt 8);
  Fld "nivcsw" (CInt 8);
  Fld "start_time" (CRef "u64");
  Fld "start_boottime" (CRef "u64");
  Fld "min_flt" (CInt 8);
  Fld "maj_flt" (CInt 8);
  Fld "posix_cputimers" (CRef "struct posix_cputimers");
  Fld "posix_cputimers_work" (CRef "struct posix_cputimers_work");
  Fld "ptracer_cred" CPtr;
  Fld "real_cred" CPtr;
  Fld "cred" CPtr;
  Fld "cached_requested_key" CPtr;
  Fld "comm" (CArr 16 (CInt 1));
  Fld "nameidata" CPtr;
  Fld "sysvsem" (CRef "struct sysv_sem");
  Fld "sysvshm" (CRef "struct sysv_shm");
  Fld "last_switch_count" (CInt 8);
  Fld "last_switch_time" (CInt 8);
  Fld "fs" CPtr;
  Fld "files" CPtr;
  Fld "io_uring" CPtr;
  Fld "nsproxy" CPtr;
  Fld "signal" CPtr;
  Fld "sighand" CPtr;
  Fld "blocked" (CRef "sigset_t");
  Fld "real_blocked" (CRef "sigset_t");
  Fld "saved_sigmask" (CRef "sigset_t");
  Fld "pending" (CRef "struct sigpending");
  Fld "sas_ss_sp" (CInt 8);
  Fld "sas_ss_size" (CRef "size_t");
  Fld "sas_ss_flags" (CInt 4);
  Fld "task_works" CPtr;
  Fld "audit_context" CPtr;
  Fld "loginuid" (CRef "kuid_t")].

Definition struct_task_struct_part2 : list cfield := [
  Fld "sessionid" (CInt 4);
  Fld "seccomp" (CRef "struct seccomp");
  Fld "syscall_dispatch" (CRef "struct syscall_user_dispatch");
  Fld "parent_exec_id" (CRef "u64");
  Fld "self_exec_id" (CRef "u64");
  Fld "alloc_lock" (CRef "spinlock_t");
  Fld "pi_lock" (CRef "raw_spinlock_t");
  Fld "wake_q" (CRef "struct wake_q_node");
  Fld "pi_waiters" (CRef "struct rb_root_cached");
  Fld "pi_top_task" CPtr;
  Fld "pi_blocked_on" CPtr;
  Fld "blocked_on" CPtr;
  Fld "blocker" (CInt 8);
  Fld "in_ubsan" (CInt 4);
  Fld "journal_info" CPtr;
  Fld "bio_list" CPtr;
  Fld "plug" CPtr;
  Fld "reclaim_state" CPtr;
  Fld "io_context" CPtr;
  Fld "capture_control" CPtr;
  Fld "ptrace_message" (CInt 8);
  Fld "last_siginfo" CPtr;
  Fld "ioac" (CRef "struct task_io_accounting");
  Fld "psi_flags" (CInt 4);
  Fld "acct_rss_mem1" (CRef "u64");
  Fld "acct_vm_mem1" (CRef "u64");
  Fld "acct_timexpd" (CRef "u64");
  Fld "mems_allowed" (CRef "nodemask_t");
  Fld "mems_allowed_seq" (CRef "seqcount_spinlock_t");
  Fld "cpuset_mem_spread_rotor" (CInt 4);
  Fld "cgroups" CPtr;
  Fld "cg_list" (CRef "struct list_head");
  Fld "robust_list" CPtr;
  Fld "compat_robust_list" CPtr;
  Fld "pi_state_list" (CRef "struct list_head");
  Fld "pi_state_cache" CPtr;
  Fld "futex_exit_mutex" (CRef "struct mutex");
  Fld "futex_state" (CInt 4);
  Fld "perf_recursion" (CArr 4 (CRef "u8"));
  Fld "perf_event_ctxp" CPtr;
  Fld "perf_event_mutex" (CRef "struct mutex");
  Fld "perf_event_list" (CRef "struct list_head");
  Fld "perf_ctx_data" CPtr;
  Fld "mempolicy" CPtr;
  Fld "il_prev" (CInt 2);
  Fld "il_weight" (CRef "u8");
  Fld "pref_node_fork" (CInt 2);
  Fld "numa_scan_seq" (CInt 4);
  Fld "numa_scan_period" (CInt 4);
  Fld "numa_scan_period_max" (CInt 4);
  Fld "numa_preferred_nid" (CInt 4);
  Fld "numa_migrate_retry" (CInt 8);
  Fld "node_stamp" (CRef "u64");
  Fld "last_task_numa_placement" (CRef "u64");
  Fld "last_sum_exec_runtime" (CRef "u64");
  Fld "numa_work" (CRef "struct callback_head");
  Fld "numa_group" CPtr;
  Fld "numa_faults" CPtr;
  Fld "total_numa_faults" (CInt 8);
  Fld "numa_faults_locality" (CArr 3 (CInt 8));
  Fld "numa_pages_migrated" (CInt 8);
  Fld "rseq" CPtr;
  Fld "rseq_len" (CRef "u32");
  Fld "rseq_sig" (CRef "u32");
  Fld "rseq_event_mask" (CInt 8);
  Fld "mm_cid" (CInt 4);
  Fld "last_mm_cid" (CInt 4);
  Fld "migrate_from_cpu" (CInt 4);
  Fld "mm_cid_active" (CInt 4);
  Fld "cid_work" (CRef "struct callback_head");
  Fld "tlb_ubc" (CRef "struct tlbflush_unmap_batch");
  Fld "splice_pipe" CPtr;
  Fld "task_frag" (CRef "struct page_frag");
  Fld "delays" CPtr;
  Fld "nr_dirtied" (CInt 4);
  Fld "nr_dirtied_pause" (CInt 4);
  Fld "dirty_paused_when" (CInt 8);
  Fld "latency_record_count" (CInt 4);
  Fld "latency_record" (CArr 32 (CRef "struct latency_record"));
  Fld "timer_slack_ns" (CRef "u64");
  Fld "default_timer_slack_ns" (CRef "u64");
  Fld "curr_ret_stack" (CInt 4);
  Fld "curr_ret_depth" (CInt 4);
  Fld "ret_stack" CPtr;
  Fld "ftrace_timestamp" (CInt 8);
  Fld "ftrace_sleeptime" (CInt 8);
  Fld "trace_overrun" (CRef "atomic_t");
  Fld "tracing_graph_pause" (CRef "atomic_t");
  Fld "trace_recursion" (CInt 8);
  Fld "memcg_in_oom" CPtr;
  Fld "memcg_nr_pages_over_high" (CInt 4);
  Fld "active_memcg" CPtr;
  Fld "objcg" CPtr;
  Fld "throttle_disk" CPtr;
  Fld "utask" CPtr;
  Fld "sequential_io" (CInt 4);
  Fld "sequential_io_avg" (CInt 4);
  Fld "kmap_ctrl" (CRef "struct kmap_ctrl");
  Fld "rcu" (CRef "struct callback_head");
  Fld "rcu_users" (CRef "refcount_t");
  Fld "pagefault_disabled" (CInt 4);
  Fld "oom_reaper_list" CPtr;
  Fld "oom_reaper_timer" (CRef "struct timer_list");
  Fld "stack_vm_area" CPtr;
  Fld "stack_refcount" (CRef "refcount_t");
  Fld "patch_state" (CInt 4);
  Fld "security" CPtr;
  Fld "bpf_storage" CPtr;
  Fld "bpf_ctx" CPtr;
  Fld "bpf_net_context" CPtr;
  Fld "kretprobe_instances" (CRef "struct llist_head");
  Fld "user_event_mm" CPtr;
  Pad (CInt 8) 64;
  Fld "thread" (CRef "struct thread_struct");
  Pad (CInt 8) 64;
  Pad (CInt 8) 64].

Definition struct_task_struct : ctype :=
  CAgg Struct false (struct_task_struct_part1 ++ struct_task_struct_part2).

Definition typedef_netdev_features_t : ctype := CRef "u64".

Definition typedef___s16 : ctype := CInt 2.

Definition typedef_s16 : ctype := CRef "__s16".

Definition struct_netdev_tc_txq : ctype := CAgg Struct false [
  Fld "count" (CRef "u16");
  Fld "offset" (CRef "u16")].

Definition typedef_possible_net_t : ctype := CAgg Struct false [
  Fld "net" CPtr].

Definition typedef_xdp_features_t : ctype := CRef "u32".

Definition struct_net_device_stats : ctype := CAgg Struct false [
  Anon (CAgg Union false [
    Fld "rx_packets" (CInt 8);
    Fld "__rx_packets" (CRef "atomic_long_t")]);
  Anon (CAgg Union false [
    Fld "tx_packets" (CInt 8);
    Fld "__tx_packets" (CRef "atomic_long_t")]);
  Anon (CAgg Union false [
    Fld "rx_bytes" (CInt 8);
    Fld "__rx_bytes" (CRef "atomic_long_t")]);
  Anon (CAgg Union false [
    Fld "tx_bytes" (CInt 8);
    Fld "__tx_bytes" (CRef "atomic_long_t")]);
  Anon (CAgg Union false [
    Fld "rx_errors" (CInt 8);
    Fld "__rx_errors" (CRef "atomic_long_t")]);
  Anon (CAgg Union false [
    Fld "tx_errors" (CInt 8);
    Fld "__tx_errors" (CRef "atomic_long_t")]);
  Anon (CAgg Union false [
    Fld "rx_dropped" (CInt 8);
    Fld "__rx_dropped" (CRef "atomic_long_t")]);
  Anon (CAgg Union false [
    Fld "tx_dropped" (CInt 8);
    Fld "__tx_dropped" (CRef "atomic_long_t")]);
  Anon (CAgg Union false [
    Fld "multicast" (CInt 8);
    Fld "__multicast" (CRef "atomic_long_t")]);
  Anon (CAgg Union false [
    Fld "collisions" (CInt 8);
    Fld "__collisions" (CRef "atomic_long_t")]);
  Anon (CAgg Union false [
    Fld "rx_length_errors" (CInt 8);
    Fld "__rx_length_errors" (CRef "atomic_long_t")]);
  Anon (CAgg Union false [
    Fld "rx_over_errors" (CInt 8);
    Fld "__rx_over_errors" (CRef "atomic_long_t")]);
  Anon (CAgg Union false [
    Fld "rx_crc_errors" (CInt 8);
    Fld "__rx_crc_errors" (CRef "atomic_long_t")]);
  Anon (CAgg Union false [
    Fld "rx_frame_errors" (CInt 8);
    Fld "__rx_frame_errors" (CRef "atomic_long_t")]);
  Anon (CAgg Union false [
    Fld "rx_fifo_errors" (CInt 8);
    Fld "__rx_fifo_errors" (CRef "atomic_long_t")]);
  Anon (CAgg Union false [
    Fld "rx_missed_errors" (CInt 8);
    Fld "__rx_missed_errors" (CRef "atomic_long_t")]);
  Anon (CAgg Union false [
    Fld "tx_aborted_errors" (CInt 8);
    Fld "__tx_aborted_errors" (CRef "atomic_long_t")]);
  Anon (CAgg Union false [
    Fld "tx_carrier_errors" (CInt 8);
    Fld "__tx_carrier_errors" (CRef "atomic_long_t")]);
  Anon (CAgg Union false [
    Fld "tx_fifo_errors" (CInt 8);
    Fld "__tx_fifo_errors" (CRef "atomic_long_t")]);
  Anon (CAgg Union false [
    Fld "tx_heartbeat_errors" (CInt 8);
    Fld "__tx_heartbeat_errors" (CRef "atomic_long_t")]);
  Anon (CAgg Union false [
    Fld "tx_window_errors" (CInt 8);
    Fld "__tx_window_errors" (CRef "atomic_long_t")]);
  Anon (CAgg Union false [
    Fld "rx_compressed" (CInt 8);
    Fld "__rx_compressed" (CRef "atomic_long_t")]);
  Anon (CAgg Union false [
    Fld "tx_compressed" (CInt 8);
    Fld "__tx_compressed" (CRef "atomic_long_t")])].

Definition struct_netdev_hw_addr_list : ctype := CAgg Struct false [
  Fld "list" (CRef "struct list_head");
  Fld "count" (CInt 4);
  Fld "tree" (CRef "struct rb_root")].

Definition struct_ref_tracker_dir : ctype := CAgg Struct false [].

Definition enum_netdev_ml_priv_type : enum_decl := [
  ("ML_PRIV_NONE", 0);
  ("ML_PRIV_CAN", 1)].

Definition enum_netdev_stat_type : enum_decl := [
  ("NETDEV_PCPU_STAT_NONE", 0);
  ("NETDEV_PCPU_STAT_LSTATS", 1);
  ("NETDEV_PCPU_STAT_TSTATS", 2);
  ("NETDEV_PCPU_STAT_DSTATS", 3)].

Definition struct_kref : ctype := CAgg Struct false [
  Fld "refcount" (CRef "refcount_t")].

Definition struct_kobject : ctype := CAgg Struct false [
  Fld "name" CPtr;
  Fld "entry" (CRef "struct list_head");
  Fld "parent" CPtr;
  Fld "kset" CPtr;
  Fld "ktype" CPtr;
  Fld "sd" CPtr;
  Fld "kref" (CRef "struct kref");
  Bits "state_initialized" (CInt 4) 1;
  Bits "state_in_sysfs" (CInt 4) 1;
  Bits "state_add_uevent_sent" (CInt 4) 1;
  Bits "state_remove_uevent_sent" (CInt 4) 1;
  Bits "uevent_suppress" (CInt 4) 1].

Definition enum_dl_dev_state : enum_decl := [
  ("DL_DEV_NO_DRIVER", 0);
  ("DL_DEV_PROBING", 1);
  ("DL_DEV_DRIVER_BOUND", 2);
  ("DL_DEV_UNBINDING", 3)].

Definition struct_dev_links_info : ctype := CAgg Struct false [
  Fld "suppliers" (CRef "struct list_head");
  Fld "consumers" (CRef "struct list_head");
  Fld "defer_sync" (CRef "struct list_head");
  Fld "status" (CRef "enum dl_dev_state")].

Definition struct_pm_message : ctype := CAgg Struct false [
  Fld "event" (CInt 4)].

Definition typedef_pm_message_t : ctype := CRef "struct pm_message".

Definition struct_swait_queue_head : ctype := CAgg Struct false [
  Fld "lock" (CRef "raw_spinlock_t");
  Fld "task_list" (CRef "struct list_head")].

Definition struct_completion : ctype := CAgg Struct false [
  Fld "done" (CInt 4);
  Fld "wait" (CRef "struct swait_queue_head")].

Definition enum_rpm_request : enum_decl := [
  ("RPM_REQ_NONE", 0);
  ("RPM_REQ_IDLE", 1);
  ("RPM_REQ_SUSPEND", 2);
  ("RPM_REQ_AUTOSUSPEND", 3);
  ("RPM_REQ_RESUME", 4)].

Definition enum_rpm_status : enum_decl := [
  ("RPM_INVALID", -1);
  ("RPM_ACTIVE", 0);
  ("RPM_RESUMING", 1);
  ("RPM_SUSPENDED", 2);
  ("RPM_SUSPENDING", 3);
  ("RPM_BLOCKED", 4)].

Definition struct_dev_pm_info : ctype := CAgg Struct false [
  Fld "power_state" (CRef "pm_message_t");
  Bits "can_wakeup" (CRef "bool") 1;
  Bits "async_suspend" (CRef "bool") 1;
  Bits "in_dpm_list" (CRef "bool") 1;
  Bits "is_prepared" (CRef "bool") 1;
  Bits "is_suspended" (CRef "bool") 1;
  Bits "is_noirq_suspended" (CRef "bool") 1;
  Bits "is_late_suspended" (CRef "bool") 1;
  Bits "no_pm" (CRef "bool") 1;
  Bits "early_init" (CRef "bool") 1;
  Bits "direct_complete" (CRef "bool") 1;
  Fld "driver_flags" (CRef "u32");
  Fld "lock" (CRef "spinlock_t");
  Fld "entry" (CRef "struct list_head");
  Fld "completion" (CRef "struct completion");
  Fld "wakeup" CPtr;
  Bits "wakeup_path" (CRef "bool") 1;
  Bits "syscore" (CRef "bool") 1;
  Bits "no_pm_callbacks" (CRef "bool") 1;
  Bits "work_in_progress" (CRef "bool") 1;
  Bits "smart_suspend" (CRef "bool") 1;
  Bits "must_resume" (CRef "bool") 1;
  Bits "may_skip_resume" (CRef "bool") 1;
  Bits "strict_midlayer" (CRef "bool") 1;
  Fld "suspend_timer" (CRef "struct hrtimer");
  Fld "timer_expires" (CRef "u64");
  Fld "work" (CRef "struct work_struct");
  Fld "wait_queue" (CRef "wait_queue_head_t");
  Fld "wakeirq" CPtr;
  Fld "usage_count" (CRef "atomic_t");
  Fld "child_count" (CRef "atomic_t");
  Bits "disable_depth" (CInt 4) 3;
  Bits "idle_notification" (CRef "bool") 1;
  Bits "request_pending" (CRef "bool") 1;
  Bits "deferred_resume" (CRef "bool") 1;
  Bits "needs_force_resume" (CRef "bool") 1;
  Bits "runtime_auto" (CRef "bool") 1;
  Bits "ignore_children" (CRef "bool") 1;
  Bits "no_callbacks" (CRef "bool") 1;
  Bits "irq_safe" (CRef "bool") 1;
  Bits "use_autosuspend" (CRef "bool") 1;
  Bits "timer_autosuspends" (CRef "bool") 1;
  Bits "memalloc_noio" (CRef "bool") 1;
  Fld "links_count" (CInt 4);
  Fld "request" (CRef "enum rpm_request");
  Fld "runtime_status" (CRef "enum rpm_status");
  Fld "last_status" (CRef "enum rpm_status");
  Fld "runtime_error" (CInt 4);
  Fld "autosuspend_delay" (CInt 4);
  Fld "last_busy" (CRef "u64");
  Fld "active_time" (CRef "u64");
  Fld "suspended_time" (CRef "u64");
  Fld "accounting_timestamp" (CRef "u64");
  Fld "subsys_data" CPtr;
  Fld "set_latency_tolerance" CPtr;
  Fld "qos" CPtr;
  Bits "detach_power_off" (CRef "bool") 1].

Definition struct_dev_msi_info : ctype := CAgg Struct false [
  Fld "domain" CPtr;
  Fld "data" CPtr].

Definition struct_dev_archdata : ctype := CAgg Struct false [].

Definition typedef___kernel_dev_t : ctype := CRef "u32".

Definition typedef_dev_t : ctype := CRef "__kernel_dev_t".

Definition enum_device_removable : enum_decl := [
  ("DEVICE_REMOVABLE_NOT_SUPPORTED", 0);
  ("DEVICE_REMOVABLE_UNKNOWN", 1);
  ("DEVICE_FIXED", 2);
  ("DEVICE_REMOVABLE", 3)].

Definition struct_device : ctype := CAgg Struct false [
  Fld "kobj" (CRef "struct kobject");
  Fld "parent" CPtr;
  Fld "p" CPtr;
  Fld "init_name" CPtr;
  Fld "type" CPtr;
  Fld "bus" CPtr;
  Fld "driver" CPtr;
  Fld "platform_data" CPtr;
  Fld "driver_data" CPtr;
  Fld "mutex" (CRef "struct mutex");
  Fld "links" (CRef "struct dev_links_info");
  Fld "power" (CRef "struct dev_pm_info");
  Fld "pm_domain" CPtr;
  Fld "em_pd" CPtr;
  Fld "pins" CPtr;
  Fld "msi" (CRef "struct dev_msi_info");
  Fld "dma_ops" CPtr;
  Fld "dma_mask" CPtr;
  Fld "coherent_dma_mask" (CRef "u64");
  Fld "bus_dma_limit" (CRef "u64");
  Fld "dma_range_map" CPtr;
  Fld "dma_parms" CPtr;
  Fld "dma_pools" (CRef "struct list_head");
  Fld "dma_mem" CPtr;
  Fld "cma_area" CPtr;
  Fld "dma_io_tlb_mem" CPtr;
  Fld "dma_io_tlb_pools" (CRef "struct list_head");
  Fld "dma_io_tlb_lock" (CRef "spinlock_t");
  Fld "dma_uses_io_tlb" (CRef "bool");
  Fld "archdata" (CRef "struct dev_archdata");
  Fld "of_node" CPtr;
  Fld "fwnode" CPtr;
  Fld "numa_node" (CInt 4);
  Fld "devt" (CRef "dev_t");
  Fld "id" (CRef "u32");
  Fld "devres_lock" (CRef "spinlock_t");
  Fld "devres_head" (CRef "struct list_head");
  Fld "class" CPtr;
  Fld "groups" CPtr;
  Fld "release" CPtr;
  Fld "iommu_group" CPtr;
  Fld "iommu" CPtr;
  Fld "physical_location" CPtr;
  Fld "removable" (CRef "enum device_removable");
  Bits "offline_disabled" (CRef "bool") 1;
  Bits "offline" (CRef "bool") 1;
  Bits "of_node_reused" (CRef "bool") 1;
  Bits "state_synced" (CRef "bool") 1;
  Bits "can_match" (CRef "bool") 1;
  Bits "dma_coherent" (CRef "bool") 1;
  Bits "dma_skip_sync" (CRef "bool") 1;
  Bits "dma_iommu" (CRef "bool") 1].

Definition struct_bpf_xdp_entity : ctype := CAgg Struct false [
  Fld "prog" CPtr;
  Fld "link" CPtr].

Definition typedef_netdevice_tracker : ctype := CAgg Struct false [].

Definition struct_net_device_part1 : list cfield := [
  Fld "__cacheline_group_begin__net_device_read_tx" (CArr 0 (CRef "__u8"));
  Anon (CAgg Union false [
    Anon (CAgg Struct false [
      Bits "priv_flags" (CInt 8) 32;
      Bits "lltx" (CInt 8) 1;
      Bits "netmem_tx" (CInt 8) 1]);
    Fld "priv_flags_fast" (CAgg Struct false [
      Bits "priv_flags" (CInt 8) 32;
      Bits "lltx" (CInt 8) 1;
      Bits "netmem_tx" (CInt 8) 1])]);
  Fld "netdev_ops" CPtr;
  Fld "header_ops" CPtr;
  Fld "_tx" CPtr;
  Fld "gso_partial_features" (CRef "netdev_features_t");
  Fld "real_num_tx_queues" (CInt 4);
  Fld "gso_max_size" (CInt 4);
  Fld "gso_ipv4_max_size" (CInt 4);
  Fld "gso_max_segs" (CRef "u16");
  Fld "num_tc" (CRef "s16");
  Fld "mtu" (CInt 4);
  Fld "needed_headroom" (CInt 2);
  Fld "tc_to_txq" (CArr 16 (CRef "struct netdev_tc_txq"));
  Fld "xps_maps" (CArr 2 CPtr);
  Fld "nf_hooks_egress" CPtr;
  Fld "tcx_egress" CPtr;
  Fld "__cacheline_group_end__net_device_read_tx" (CArr 0 (CRef "__u8"));
  Fld "__cacheline_group_begin__net_device_read_txrx" (CArr 0 (CRef "__u8"));
  Anon (CAgg Union false [
    Fld "lstats" CPtr;
    Fld "tstats" CPtr;
    Fld "dstats" CPtr]);
  Fld "state" (CInt 8);
  Fld "flags" (CInt 4);
  Fld "hard_header_len" (CInt 2);
  Fld "features" (CRef "netdev_features_t");
  Fld "ip6_ptr" CPtr;
  Fld "__cacheline_group_end__net_device_read_txrx" (CArr 0 (CRef "__u8"));
  Fld "__cacheline_group_begin__net_device_read_rx" (CArr 0 (CRef "__u8"));
  Fld "xdp_prog" CPtr;
  Fld "ptype_specific" (CRef "struct list_head");
  Fld "ifindex" (CInt 4);
  Fld "real_num_rx_queues" (CInt 4);
  Fld "_rx" CPtr;
  Fld "gro_max_size" (CInt 4);
  Fld "gro_ipv4_max_size" (CInt 4);
  Fld "rx_handler" CPtr;
  Fld "rx_handler_data" CPtr;
  Fld "nd_net" (CRef "possible_net_t");
  Fld "npinfo" CPtr;
  Fld "tcx_ingress" CPtr;
  Fld "__cacheline_group_end__net_device_read_rx" (CArr 0 (CRef "__u8"));
  Fld "name" (CArr 16 (CInt 1));
  Fld "name_node" CPtr;
  Fld "ifalias" CPtr;
  Fld "mem_end" (CInt 8);
  Fld "mem_start" (CInt 8);
  Fld "base_addr" (CInt 8);
  Fld "dev_list" (CRef "struct list_head");
  Fld "napi_list" (CRef "struct list_head");
  Fld "unreg_list" (CRef "struct list_head");
  Fld "close_list" (CRef "struct list_head");
  Fld "ptype_all" (CRef "struct list_head");
  Fld "adj_list" (CAgg Struct false [
    Fld "upper" (CRef "struct list_head");
    Fld "lower" (CRef "struct list_head")]);
  Fld "xdp_features" (CRef "xdp_features_t");
  Fld "xdp_metadata_ops" CPtr;
  Fld "xsk_tx_metadata_ops" CPtr;
  Fld "gflags" (CInt 2);
  Fld "needed_tailroom" (CInt 2);
  Fld "hw_features" (CRef "netdev_features_t");
  Fld "wanted_features" (CRef "netdev_features_t");
  Fld "vlan_features" (CRef "netdev_features_t");
  Fld "hw_enc_features" (CRef "netdev_features_t");
  Fld "mpls_features" (CRef "netdev_features_t");
  Fld "min_mtu" (CInt 4);
  Fld "max_mtu" (CInt 4);
  Fld "type" (CInt 2);
  Fld "min_header_len" (CInt 1);
  Fld "name_assign_type" (CInt 1);
  Fld "group" (CInt 4);
  Fld "stats" (CRef "struct net_device_stats");
  Fld "core_stats" CPtr;
  Fld "carrier_up_count" (CRef "atomic_t");
  Fld "carrier_down_count" (CRef "atomic_t");
  Fld "wireless_handlers" CPtr;
  Fld "ethtool_ops" CPtr;
  Fld "l3mdev_ops" CPtr;
  Fld "ndisc_ops" CPtr;
  Fld "xfrmdev_ops" CPtr;
  Fld "tlsdev_ops" CPtr;
  Fld "operstate" (CInt 4);
  Fld "link_mode" (CInt 1);
  Fld "if_port" (CInt 1);
  Fld "dma" (CInt 1);
  Fld "perm_addr" (CArr 32 (CInt 1));
  Fld "addr_assign_type" (CInt 1);
  Fld "addr_len" (CInt 1);
  Fld "upper_level" (CInt 1);
  Fld "lower_level" (CInt 1);
  Fld "threaded" (CRef "u8");
  Fld "neigh_priv_len" (CInt 2);
  Fld "dev_id" (CInt 2);
  Fld "dev_port" (CInt 2);
  Fld "irq" (CInt 4);
  Fld "priv_len" (CRef "u32");
  Fld "addr_list_lock" (CRef "spinlock_t");
  Fld "uc" (CRef "struct netdev_hw_addr_list");
  Fld "mc" (CRef "struct netdev_hw_addr_list");
  Fld "dev_addrs" (CRef "struct netdev_hw_addr_list");
  Fld "queues_kset" CPtr;
  Fld "promiscuity" (CInt 4);
  Fld "allmulti" (CInt 4);
  Fld "uc_promisc" (CRef "bool");
  Fld "ip_ptr" CPtr;
  Fld "fib_nh_head" (CRef "struct hlist_head");
  Fld "vlan_info" CPtr;
  Fld "dsa_ptr" CPtr;
  Fld "tipc_ptr" CPtr;
  Fld "atalk_ptr" CPtr;
  Fld "ax25_ptr" CPtr;
  Fld "ieee80211_ptr" CPtr;
  Fld "ieee802154_ptr" CPtr;
  Fld "mpls_ptr" CPtr;
  Fld "mctp_ptr" CPtr;
  Fld "dev_addr" CPtr;
  Fld "num_rx_queues" (CInt 4);
  Fld "xdp_zc_max_segs" (CInt 4);
  Fld "ingress_queue" CPtr;
  Fld "nf_hooks_ingress" CPtr;
  Fld "broadcast" (CArr 32 (CInt 1));
  Fld "rx_cpu_rmap" CPtr;
  Fld "index_hlist" (CRef "struct hlist_node");
  Fld "num_tx_queues" (CInt 4);
  Fld "qdisc" CPtr;
  Fld "tx_queue_len" (CInt 4);
  Fld "tx_global_lock" (CRef "spinlock_t");
  Fld "xdp_bulkq" CPtr;
  Fld "qdisc_hash" (CArr 16 (CRef "struct hlist_head"));
  Fld "watchdog_timer" (CRef "struct timer_list")].

Definition struct_net_device_part2 : list cfield := [
  Fld "watchdog_timeo" (CInt 4);
  Fld "proto_down_reason" (CRef "u32");
  Fld "todo_list" (CRef "struct list_head");
  Fld "pcpu_refcnt" CPtr;
  Fld "refcnt_tracker" (CRef "struct ref_tracker_dir");
  Fld "link_watch_list" (CRef "struct list_head");
  Fld "reg_state" (CRef "u8");
  Fld "dismantle" (CRef "bool");
  Fld "moving_ns" (CRef "bool");
  Fld "rtnl_link_initializing" (CRef "bool");
  Fld "needs_free_netdev" (CRef "bool");
  Fld "priv_destructor" CPtr;
  Fld "ml_priv" CPtr;
  Fld "ml_priv_type" (CRef "enum netdev_ml_priv_type");
  Bits "pcpu_stat_type" (CRef "enum netdev_stat_type") 8;
  Fld "garp_port" CPtr;
  Fld "mrp_port" CPtr;
  Fld "dm_private" CPtr;
  Fld "dev" (CRef "struct device");
  Fld "sysfs_groups" (CArr 5 CPtr);
  Fld "sysfs_rx_queue_group" CPtr;
  Fld "rtnl_link_ops" CPtr;
  Fld "stat_ops" CPtr;
  Fld "queue_mgmt_ops" CPtr;
  Fld "tso_max_size" (CInt 4);
  Fld "tso_max_segs" (CRef "u16");
  Fld "dcbnl_ops" CPtr;
  Fld "prio_tc_map" (CArr 16 (CRef "u8"));
  Fld "fcoe_ddp_xid" (CInt 4);
  Fld "priomap" CPtr;
  Fld "link_topo" CPtr;
  Fld "phydev" CPtr;
  Fld "sfp_bus" CPtr;
  Fld "qdisc_tx_busylock" CPtr;
  Fld "proto_down" (CRef "bool");
  Fld "irq_affinity_auto" (CRef "bool");
  Fld "rx_cpu_rmap_auto" (CRef "bool");
  Bits "see_all_hwtstamp_requests" (CInt 8) 1;
  Bits "change_proto_down" (CInt 8) 1;
  Bits "netns_immutable" (CInt 8) 1;
  Bits "fcoe_mtu" (CInt 8) 1;
  Fld "net_notifier_list" (CRef "struct list_head");
  Fld "macsec_ops" CPtr;
  Fld "udp_tunnel_nic_info" CPtr;
  Fld "udp_tunnel_nic" CPtr;
  Fld "cfg" CPtr;
  Fld "cfg_pending" CPtr;
  Fld "ethtool" CPtr;
  Fld "xdp_state" (CArr 3 (CRef "struct bpf_xdp_entity"));
  Fld "dev_addr_shadow" (CArr 32 (CRef "u8"));
  Fld "linkwatch_dev_tracker" (CRef "netdevice_tracker");
  Fld "watchdog_dev_tracker" (CRef "netdevice_tracker");
  Fld "dev_registered_tracker" (CRef "netdevice_tracker");
  Fld "offload_xstats_l3" CPtr;
  Fld "devlink_port" CPtr;
  Fld "dpll_pin" CPtr;
  Fld "page_pools" (CRef "struct hlist_head");
  Fld "irq_moder" CPtr;
  Fld "max_pacing_offload_horizon" (CRef "u64");
  Fld "napi_config" CPtr;
  Fld "num_napi_configs" (CRef "u32");
  Fld "napi_defer_hard_irqs" (CRef "u32");
  Fld "gro_flush_timeout" (CInt 8);
  Fld "up" (CRef "bool");
  Fld "request_ops_lock" (CRef "bool");
  Fld "lock" (CRef "struct mutex");
  Fld "net_shaper_hierarchy" CPtr;
  Fld "neighbours" (CArr 2 (CRef "struct hlist_head"));
  Fld "hwprov" CPtr;
  Pad (CInt 8) 64;
  Pad (CInt 8) 64;
  Pad (CInt 8) 64;
  Pad (CInt 8) 64;
  Pad (CInt 8) 64;
  Pad (CInt 8) 64;
  Pad (CInt 8) 64;
  Fld "priv" (CArr 0 (CRef "u8"))].

Definition struct_net_device : ctype :=
  CAgg Struct false (struct_net_device_part1 ++ struct_net_device_part2).

Definition typedef___wsum : ctype := CRef "__u32".

Definition typedef_sk_buff_data_t : ctype := CInt 4.

Definition struct_sk_buff_part1 : list cfield := [
  Anon (CAgg Union false [
    Anon (CAgg Struct false [
      Fld "next" CPtr;
      Fld "prev" CPtr;
      Anon (CAgg Union false [
        Fld "dev" CPtr;
        Fld "dev_scratch" (CInt 8)])]);
    Fld "rbnode" (CRef "struct rb_node");
    Fld "list" (CRef "struct list_head");
    Fld "ll_node" (CRef "struct llist_node")]);
  Fld "sk" CPtr;
  Anon (CAgg Union false [
    Fld "tstamp" (CRef "ktime_t");
    Fld "skb_mstamp_ns" (CRef "u64")]);
  Fld "cb" (CArr 48 (CInt 1));
  Anon (CAgg Union false [
    Anon (CAgg Struct false [
      Fld "_skb_refdst" (CInt 8);
      Fld "destructor" CPtr]);
    Fld "tcp_tsorted_anchor" (CRef "struct list_head");
    Fld "_sk_redir" (CInt 8)]);
  Fld "_nfct" (CInt 8);
  Fld "len" (CInt 4);
  Fld "data_len" (CInt 4);
  Fld "mac_len" (CRef "__u16");
  Fld "hdr_len" (CRef "__u16");
  Fld "queue_mapping" (CRef "__u16");
  Fld "__cloned_offset" (CArr 0 (CRef "__u8"));
  Bits "cloned" (CRef "__u8") 1;
  Bits "nohdr" (CRef "__u8") 1;
  Bits "fclone" (CRef "__u8") 2;
  Bits "peeked" (CRef "__u8") 1;
  Bits "head_frag" (CRef "__u8") 1;
  Bits "pfmemalloc" (CRef "__u8") 1;
  Bits "pp_recycle" (CRef "__u8") 1;
  Fld "active_extensions" (CRef "__u8")].

Definition struct_sk_buff_part2 : list cfield := [
  Anon (CAgg Union false [
    Anon (CAgg Struct false [
      Fld "__pkt_type_offset" (CArr 0 (CRef "__u8"));
      Bits "pkt_type" (CRef "__u8") 3;
      Bits "ignore_df" (CRef "__u8") 1;
      Bits "dst_pending_confirm" (CRef "__u8") 1;
      Bits "ip_summed" (CRef "__u8") 2;
      Bits "ooo_okay" (CRef "__u8") 1;
      Fld "__mono_tc_offset" (CArr 0 (CRef "__u8"));
      Bits "tstamp_type" (CRef "__u8") 2;
      Bits "tc_at_ingress" (CRef "__u8") 1;
      Bits "tc_skip_classify" (CRef "__u8") 1;
      Bits "remcsum_offload" (CRef "__u8") 1;
      Bits "csum_complete_sw" (CRef "__u8") 1;
      Bits "csum_level" (CRef "__u8") 2;
      Bits "inner_protocol_type" (CRef "__u8") 1;
      Bits "l4_hash" (CRef "__u8") 1;
      Bits "sw_hash" (CRef "__u8") 1;
      Bits "wifi_acked_valid" (CRef "__u8") 1;
      Bits "wifi_acked" (CRef "__u8") 1;
      Bits "no_fcs" (CRef "__u8") 1;
      Bits "encapsulation" (CRef "__u8") 1;
      Bits "encap_hdr_csum" (CRef "__u8") 1;
      Bits "csum_valid" (CRef "__u8") 1;
      Bits "ndisc_nodetype" (CRef "__u8") 2;
      Bits "ipvs_property" (CRef "__u8") 1;
      Bits "nf_trace" (CRef "__u8") 1;
      Bits "offload_fwd_mark" (CRef "__u8") 1;
      Bits "offload_l3_fwd_mark" (CRef "__u8") 1;
      Bits "redirected" (CRef "__u8") 1;
      Bits "from_ingress" (CRef "__u8") 1;
      Bits "nf_skip_egress" (CRef "__u8") 1;
      Bits "decrypted" (CRef "__u8") 1;
      Bits "slow_gro" (CRef "__u8") 1;
      Bits "csum_not_inet" (CRef "__u8") 1;
      Bits "unreadable" (CRef "__u8") 1;
      Fld "tc_index" (CRef "__u16");
      Fld "alloc_cpu" (CRef "u16");
      Anon (CAgg Union false [
        Fld "csum" (CRef "__wsum");
        Anon (CAgg Struct false [
          Fld "csum_start" (CRef "__u16");
          Fld "csum_offset" (CRef "__u16")])]);
      Fld "priority" (CRef "__u32");
      Fld "skb_iif" (CInt 4);
      Fld "hash" (CRef "__u32");
      Anon (CAgg Union false [
        Fld "vlan_all" (CRef "u32");
        Anon (CAgg Struct false [
          Fld "vlan_proto" (CRef "__be16");
          Fld "vlan_tci" (CRef "__u16")])]);
      Anon (CAgg Union false [
        Fld "napi_id" (CInt 4);
        Fld "sender_cpu" (CInt 4)]);
      Fld "secmark" (CRef "__u32");
      Anon (CAgg Union false [
        Fld "mark" (CRef "__u32");
        Fld "reserved_tailroom" (CRef "__u32")]);
      Anon (CAgg Union false [
        Fld "inner_protocol" (CRef "__be16");
        Fld "inner_ipproto" (CRef "__u8")]);
      Fld "inner_transport_header" (CRef "__u16");
      Fld "inner_network_header" (CRef "__u16");
      Fld "inner_mac_header" (CRef "__u16");
      Fld "protocol" (CRef "__be16");
      Fld "transport_header" (CRef "__u16");
      Fld "network_header" (CRef "__u16");
      Fld "mac_header" (CRef "__u16")]);
    Fld "headers" (CAgg Struct false [
      Fld "__pkt_type_offset" (CArr 0 (CRef "__u8"));
      Bits "pkt_type" (CRef "__u8") 3;
      Bits "ignore_df" (CRef "__u8") 1;
      Bits "dst_pending_confirm" (CRef "__u8") 1;
      Bits "ip_summed" (CRef "__u8") 2;
      Bits "ooo_okay" (CRef "__u8") 1;
      Fld "__mono_tc_offset" (CArr 0 (CRef "__u8"));
      Bits "tstamp_type" (CRef "__u8") 2;
      Bits "tc_at_ingress" (CRef "__u8") 1;
      Bits "tc_skip_classify" (CRef "__u8") 1;
      Bits "remcsum_offload" (CRef "__u8") 1;
      Bits "csum_complete_sw" (CRef "__u8") 1;
      Bits "csum_level" (CRef "__u8") 2;
      Bits "inner_protocol_type" (CRef "__u8") 1;
      Bits "l4_hash" (CRef "__u8") 1;
      Bits "sw_hash" (CRef "__u8") 1;
      Bits "wifi_acked_valid" (CRef "__u8") 1;
      Bits "wifi_acked" (CRef "__u8") 1;
      Bits "no_fcs" (CRef "__u8") 1;
      Bits "encapsulation" (CRef "__u8") 1;
      Bits "encap_hdr_csum" (CRef "__u8") 1;
      Bits "csum_valid" (CRef "__u8") 1;
      Bits "ndisc_nodetype" (CRef "__u8") 2;
      Bits "ipvs_property" (CRef "__u8") 1;
      Bits "nf_trace" (CRef "__u8") 1;
      Bits "offload_fwd_mark" (CRef "__u8") 1;
      Bits "offload_l3_fwd_mark" (CRef "__u8") 1;
      Bits "redirected" (CRef "__u8") 1;
      Bits "from_ingress" (CRef "__u8") 1;
      Bits "nf_skip_egress" (CRef "__u8") 1;
      Bits "decrypted" (CRef "__u8") 1;
      Bits "slow_gro" (CRef "__u8") 1;
      Bits "csum_not_inet" (CRef "__u8") 1;
      Bits "unreadable" (CRef "__u8") 1;
      Fld "tc_index" (CRef "__u16");
      Fld "alloc_cpu" (CRef "u16");
      Anon (CAgg Union false [
        Fld "csum" (CRef "__wsum");
        Anon (CAgg Struct false [
          Fld "csum_start" (CRef "__u16");
          Fld "csum_offset" (CRef "__u16")])]);
      Fld "priority" (CRef "__u32");
      Fld "skb_iif" (CInt 4);
      Fld "hash" (CRef "__u32");
      Anon (CAgg Union false [
        Fld "vlan_all" (CRef "u32");
        Anon (CAgg Struct false [
          Fld "vlan_proto" (CRef "__be16");
          Fld "vlan_tci" (CRef "__u16")])]);
      Anon (CAgg Union false [
        Fld "napi_id" (CInt 4);
        Fld "sender_cpu" (CInt 4)]);
      Fld "secmark" (CRef "__u32");
      Anon (CAgg Union false [
        Fld "mark" (CRef "__u32");
        Fld "reserved_tailroom" (CRef "__u32")]);
      Anon (CAgg Union false [
        Fld "inner_protocol" (CRef "__be16");
        Fld "inner_ipproto" (CRef "__u8")]);
      Fld "inner_transport_header" (CRef "__u16");
      Fld "inner_network_header" (CRef "__u16");
      Fld "inner_mac_header" (CRef "__u16");
      Fld "protocol" (CRef "__be16");
      Fld "transport_header" (CRef "__u16");
      Fld "network_header" (CRef "__u16");
      Fld "mac_header" (CRef "__u16")])])].

Definition struct_sk_buff_part3 : list cfield := [
  Fld "tail" (CRef "sk_buff_data_t");
  Fld "end" (CRef "sk_buff_data_t");
  Fld "head" CPtr;
  Fld "data" CPtr;
  Fld "truesize" (CInt 4);
  Fld "users" (CRef "refcount_t");
  Fld "extensions" CPtr].

Definition struct_sk_buff : ctype :=
  CAgg Struct false (struct_sk_buff_part1 ++ struct_sk_buff_part2 ++ struct_sk_buff_part3).

Definition union_bpf_attr_part1 : list cfield := [
  Anon (CAgg Struct false [
    Fld "map_type" (CRef "__u32");
    Fld "key_size" (CRef "__u32");
    Fld "value_size" (CRef "__u32");
    Fld "max_entries" (CRef "__u32");
    Fld "map_flags" (CRef "__u32");
    Fld "inner_map_fd" (CRef "__u32");
    Fld "numa_node" (CRef "__u32");
    Fld "map_name" (CArr 16 (CInt 1));
    Fld "map_ifindex" (CRef "__u32");
    Fld "btf_fd" (CRef "__u32");
    Fld "btf_key_type_id" (CRef "__u32");
    Fld "btf_value_type_id" (CRef "__u32");
    Fld "btf_vmlinux_value_type_id" (CRef "__u32");
    Fld "map_extra" (CRef "__u64");
    Fld "value_type_btf_obj_fd" (CRef "__s32");
    Fld "map_token_fd" (CRef "__s32")]);
  Anon (CAgg Struct false [
    Fld "map_fd" (CRef "__u32");
    Fld "key" (CRef "__u64");
    Anon (CAgg Union false [
      Fld "value" (CRef "__u64");
      Fld "next_key" (CRef "__u64")]);
    Fld "flags" (CRef "__u64")]);
  Fld "batch" (CAgg Struct false [
    Fld "in_batch" (CRef "__u64");
    Fld "out_batch" (CRef "__u64");
    Fld "keys" (CRef "__u64");
    Fld "values" (CRef "__u64");
    Fld "count" (CRef "__u32");
    Fld "map_fd" (CRef "__u32");
    Fld "elem_flags" (CRef "__u64");
    Fld "flags" (CRef "__u64")]);
  Anon (CAgg Struct false [
    Fld "prog_type" (CRef "__u32");
    Fld "insn_cnt" (CRef "__u32");
    Fld "insns" (CRef "__u64");
    Fld "license" (CRef "__u64");
    Fld "log_level" (CRef "__u32");
    Fld "log_size" (CRef "__u32");
    Fld "log_buf" (CRef "__u64");
    Fld "kern_version" (CRef "__u32");
    Fld "prog_flags" (CRef "__u32");
    Fld "prog_name" (CArr 16 (CInt 1));
    Fld "prog_ifindex" (CRef "__u32");
    Fld "expected_attach_type" (CRef "__u32");
    Fld "prog_btf_fd" (CRef "__u32");
    Fld "func_info_rec_size" (CRef "__u32");
    Fld "func_info" (CRef "__u64");
    Fld "func_info_cnt" (CRef "__u32");
    Fld "line_info_rec_size" (CRef "__u32");
    Fld "line_info" (CRef "__u64");
    Fld "line_info_cnt" (CRef "__u32");
    Fld "attach_btf_id" (CRef "__u32");
    Anon (CAgg Union false [
      Fld "attach_prog_fd" (CRef "__u32");
      Fld "attach_btf_obj_fd" (CRef "__u32")]);
    Fld "core_relo_cnt" (CRef "__u32");
    Fld "fd_array" (CRef "__u64");
    Fld "core_relos" (CRef "__u64");
    Fld "core_relo_rec_size" (CRef "__u32");
    Fld "log_true_size" (CRef "__u32");
    Fld "prog_token_fd" (CRef "__s32");
    Fld "fd_array_cnt" (CRef "__u32")]);
  Anon (CAgg Struct false [
    Fld "pathname" (CRef "__u64");
    Fld "bpf_fd" (CRef "__u32");
    Fld "file_flags" (CRef "__u32");
    Fld "path_fd" (CRef "__s32")]);
  Anon (CAgg Struct false [
    Anon (CAgg Union false [
      Fld "target_fd" (CRef "__u32");
      Fld "target_ifindex" (CRef "__u32")]);
    Fld "attach_bpf_fd" (CRef "__u32");
    Fld "attach_type" (CRef "__u32");
    Fld "attach_flags" (CRef "__u32");
    Fld "replace_bpf_fd" (CRef "__u32");
    Anon (CAgg Union false [
      Fld "relative_fd" (CRef "__u32");
      Fld "relative_id" (CRef "__u32")]);
    Fld "expected_revision" (CRef "__u64")]);
  Fld "test" (CAgg Struct false [
    Fld "prog_fd" (CRef "__u32");
    Fld "retval" (CRef "__u32");
    Fld "data_size_in" (CRef "__u32");
    Fld "data_size_out" (CRef "__u32");
    Fld "data_in" (CRef "__u64");
    Fld "data_out" (CRef "__u64");
    Fld "repeat" (CRef "__u32");
    Fld "duration" (CRef "__u32");
    Fld "ctx_size_in" (CRef "__u32");
    Fld "ctx_size_out" (CRef "__u32");
    Fld "ctx_in" (CRef "__u64");
    Fld "ctx_out" (CRef "__u64");
    Fld "flags" (CRef "__u32");
    Fld "cpu" (CRef "__u32");
    Fld "batch_size" (CRef "__u32")]);
  Anon (CAgg Struct false [
    Anon (CAgg Union false [
      Fld "start_id" (CRef "__u32");
      Fld "prog_id" (CRef "__u32");
      Fld "map_id" (CRef "__u32");
      Fld "btf_id" (CRef "__u32");
      Fld "link_id" (CRef "__u32")]);
    Fld "next_id" (CRef "__u32");
    Fld "open_flags" (CRef "__u32");
    Fld "fd_by_id_token_fd" (CRef "__s32")]);
  Fld "info" (CAgg Struct false [
    Fld "bpf_fd" (CRef "__u32");
    Fld "info_len" (CRef "__u32");
    Fld "info" (CRef "__u64")]);
  Fld "query" (CAgg Struct false [
    Anon (CAgg Union false [
      Fld "target_fd" (CRef "__u32");
      Fld "target_ifindex" (CRef "__u32")]);
    Fld "attach_type" (CRef "__u32");
    Fld "query_flags" (CRef "__u32");
    Fld "attach_flags" (CRef "__u32");
    Fld "prog_ids" (CRef "__u64");
    Anon (CAgg Union false [
      Fld "prog_cnt" (CRef "__u32");
      Fld "count" (CRef "__u32")]);
    Fld "prog_attach_flags" (CRef "__u64");
    Fld "link_ids" (CRef "__u64");
    Fld "link_attach_flags" (CRef "__u64");
    Fld "revision" (CRef "__u64")])].

Definition union_bpf_attr_part2 : list cfield := [
  Fld "raw_tracepoint" (CAgg Struct false [
    Fld "name" (CRef "__u64");
    Fld "prog_fd" (CRef "__u32");
    Fld "cookie" (CRef "__u64")]);
  Anon (CAgg Struct false [
    Fld "btf" (CRef "__u64");
    Fld "btf_log_buf" (CRef "__u64");
    Fld "btf_size" (CRef "__u32");
    Fld "btf_log_size" (CRef "__u32");
    Fld "btf_log_level" (CRef "__u32");
    Fld "btf_log_true_size" (CRef "__u32");
    Fld "btf_flags" (CRef "__u32");
    Fld "btf_token_fd" (CRef "__s32")]);
  Fld "task_fd_query" (CAgg Struct false [
    Fld "pid" (CRef "__u32");
    Fld "fd" (CRef "__u32");
    Fld "flags" (CRef "__u32");
    Fld "buf_len" (CRef "__u32");
    Fld "buf" (CRef "__u64");
    Fld "prog_id" (CRef "__u32");
    Fld "fd_type" (CRef "__u32");
    Fld "probe_offset" (CRef "__u64");
    Fld "probe_addr" (CRef "__u64")]);
  Fld "link_create" (CAgg Struct false [
    Anon (CAgg Union false [
      Fld "prog_fd" (CRef "__u32");
      Fld "map_fd" (CRef "__u32")]);
    Anon (CAgg Union false [
      Fld "target_fd" (CRef "__u32");
      Fld "target_ifindex" (CRef "__u32")]);
    Fld "attach_type" (CRef "__u32");
    Fld "flags" (CRef "__u32");
    Anon (CAgg Union false [
      Fld "target_btf_id" (CRef "__u32");
      Anon (CAgg Struct false [
        Fld "iter_info" (CRef "__u64");
        Fld "iter_info_len" (CRef "__u32")]);
      Fld "perf_event" (CAgg Struct false [
        Fld "bpf_cookie" (CRef "__u64")]);
      Fld "kprobe_multi" (CAgg Struct false [
        Fld "flags" (CRef "__u32");
        Fld "cnt" (CRef "__u32");
        Fld "syms" (CRef "__u64");
        Fld "addrs" (CRef "__u64");
        Fld "cookies" (CRef "__u64")]);
      Fld "tracing" (CAgg Struct false [
        Fld "target_btf_id" (CRef "__u32");
        Fld "cookie" (CRef "__u64")]);
      Fld "netfilter" (CAgg Struct false [
        Fld "pf" (CRef "__u32");
        Fld "hooknum" (CRef "__u32");
        Fld "priority" (CRef "__s32");
        Fld "flags" (CRef "__u32")]);
      Fld "tcx" (CAgg Struct false [
        Anon (CAgg Union false [
          Fld "relative_fd" (CRef "__u32");
          Fld "relative_id" (CRef "__u32")]);
        Fld "expected_revision" (CRef "__u64")]);
      Fld "uprobe_multi" (CAgg Struct false [
        Fld "path" (CRef "__u64");
        Fld "offsets" (CRef "__u64");
        Fld "ref_ctr_offsets" (CRef "__u64");
        Fld "cookies" (CRef "__u64");
        Fld "cnt" (CRef "__u32");
        Fld "flags" (CRef "__u32");
        Fld "pid" (CRef "__u32")]);
      Fld "netkit" (CAgg Struct false [
        Anon (CAgg Union false [
          Fld "relative_fd" (CRef "__u32");
          Fld "relative_id" (CRef "__u32")]);
        Fld "expected_revision" (CRef "__u64")]);
      Fld "cgroup" (CAgg Struct false [
        Anon (CAgg Union false [
          Fld "relative_fd" (CRef "__u32");
          Fld "relative_id" (CRef "__u32")]);
        Fld "expected_revision" (CRef "__u64")])])]);
  Fld "link_update" (CAgg Struct false [
    Fld "link_fd" (CRef "__u32");
    Anon (CAgg Union false [
      Fld "new_prog_fd" (CRef "__u32");
      Fld "new_map_fd" (CRef "__u32")]);
    Fld "flags" (CRef "__u32");
    Anon (CAgg Union false [
      Fld "old_prog_fd" (CRef "__u32");
      Fld "old_map_fd" (CRef "__u32")])]);
  Fld "link_detach" (CAgg Struct false [
    Fld "link_fd" (CRef "__u32")]);
  Fld "enable_stats" (CAgg Struct false [
    Fld "type" (CRef "__u32")]);
  Fld "iter_create" (CAgg Struct false [
    Fld "link_fd" (CRef "__u32");
    Fld "flags" (CRef "__u32")]);
  Fld "prog_bind_map" (CAgg Struct false [
    Fld "prog_fd" (CRef "__u32");
    Fld "map_fd" (CRef "__u32");
    Fld "flags" (CRef "__u32")]);
  Fld "token_create" (CAgg Struct false [
    Fld "flags" (CRef "__u32");
    Fld "bpffs_fd" (CRef "__u32")]);
  Fld "prog_stream_read" (CAgg Struct false [
    Fld "stream_buf" (CRef "__u64");
    Fld "stream_buf_len" (CRef "__u32");
    Fld "stream_id" (CRef "__u32");
    Fld "prog_fd" (CRef "__u32")])].

Definition union_bpf_attr : ctype :=
  CAgg Union false (union_bpf_attr_part1 ++ union_bpf_attr_part2).

Definition enum_bpf_prog_type : enum_decl := [
  ("BPF_PROG_TYPE_UNSPEC", 0);
  ("BPF_PROG_TYPE_SOCKET_FILTER", 1);
  ("BPF_PROG_TYPE_KPROBE", 2);
  ("BPF_PROG_TYPE_SCHED_CLS", 3);
  ("BPF_PROG_TYPE_SCHED_ACT", 4);
  ("BPF_PROG_TYPE_TRACEPOINT", 5);
  ("BPF_PROG_TYPE_XDP", 6);
  ("BPF_PROG_TYPE_PERF_EVENT", 7);
  ("BPF_PROG_TYPE_CGROUP_SKB", 8);
  ("BPF_PROG_TYPE_CGROUP_SOCK", 9);
  ("BPF_PROG_TYPE_LWT_IN", 10);
  ("BPF_PROG_TYPE_LWT_OUT", 11);
  ("BPF_PROG_TYPE_LWT_XMIT", 12);
  ("BPF_PROG_TYPE_SOCK_OPS", 13);
  ("BPF_PROG_TYPE_SK_SKB", 14);
  ("BPF_PROG_TYPE_CGROUP_DEVICE", 15);
  ("BPF_PROG_TYPE_SK_MSG", 16);
  ("BPF_PROG_TYPE_RAW_TRACEPOINT", 17);
  ("BPF_PROG_TYPE_CGROUP_SOCK_ADDR", 18);
  ("BPF_PROG_TYPE_LWT_SEG6LOCAL", 19);
  ("BPF_PROG_TYPE_LIRC_MODE2", 20);
  ("BPF_PROG_TYPE_SK_REUSEPORT", 21);
  ("BPF_PROG_TYPE_FLOW_DISSECTOR", 22);
  ("BPF_PROG_TYPE_CGROUP_SYSCTL", 23);
  ("BPF_PROG_TYPE_RAW_TRACEPOINT_WRITABLE", 24);
  ("BPF_PROG_TYPE_CGROUP_SOCKOPT", 25);
  ("BPF_PROG_TYPE_TRACING", 26);
  ("BPF_PROG_TYPE_STRUCT_OPS", 27);
  ("BPF_PROG_TYPE_EXT", 28);
  ("BPF_PROG_TYPE_LSM", 29);
  ("BPF_PROG_TYPE_SK_LOOKUP", 30);
  ("BPF_PROG_TYPE_SYSCALL", 31);
  ("BPF_PROG_TYPE_NETFILTER", 32);
  ("__MAX_BPF_PROG_TYPE", 33)].

Definition enum_bpf_attach_type : enum_decl := [
  ("BPF_CGROUP_INET_INGRESS", 0);
  ("BPF_CGROUP_INET_EGRESS", 1);
  ("BPF_CGROUP_INET_SOCK_CREATE", 2);
  ("BPF_CGROUP_SOCK_OPS", 3);
  ("BPF_SK_SKB_STREAM_PARSER", 4);
  ("BPF_SK_SKB_STREAM_VERDICT", 5);
  ("BPF_CGROUP_DEVICE", 6);
  ("BPF_SK_MSG_VERDICT", 7);
  ("BPF_CGROUP_INET4_BIND", 8);
  ("BPF_CGROUP_INET6_BIND", 9);
  ("BPF_CGROUP_INET4_CONNECT", 10);
  ("BPF_CGROUP_INET6_CONNECT", 11);
  ("BPF_CGROUP_INET4_POST_BIND", 12);
  ("BPF_CGROUP_INET6_POST_BIND", 13);
  ("BPF_CGROUP_UDP4_SENDMSG", 14);
  ("BPF_CGROUP_UDP6_SENDMSG", 15);
  ("BPF_LIRC_MODE2", 16);
  ("BPF_FLOW_DISSECTOR", 17);
  ("BPF_CGROUP_SYSCTL", 18);
  ("BPF_CGROUP_UDP4_RECVMSG", 19);
  ("BPF_CGROUP_UDP6_RECVMSG", 20);
  ("BPF_CGROUP_GETSOCKOPT", 21);
  ("BPF_CGROUP_SETSOCKOPT", 22);
  ("BPF_TRACE_RAW_TP", 23);
  ("BPF_TRACE_FENTRY", 24);
  ("BPF_TRACE_FEXIT", 25);
  ("BPF_MODIFY_RETURN", 26);
  ("BPF_LSM_MAC", 27);
  ("BPF_TRACE_ITER", 28);
  ("BPF_CGROUP_INET4_GETPEERNAME", 29);
  ("BPF_CGROUP_INET6_GETPEERNAME", 30);
  ("BPF_CGROUP_INET4_GETSOCKNAME", 31);
  ("BPF_CGROUP_INET6_GETSOCKNAME", 32);
  ("BPF_XDP_DEVMAP", 33);
  ("BPF_CGROUP_INET_SOCK_RELEASE", 34);
  ("BPF_XDP_CPUMAP", 35);
  ("BPF_SK_LOOKUP", 36);
  ("BPF_XDP", 37);
  ("BPF_SK_SKB_VERDICT", 38);
  ("BPF_SK_REUSEPORT_SELECT", 39);
  ("BPF_SK_REUSEPORT_SELECT_OR_MIGRATE", 40);
  ("BPF_PERF_EVENT", 41);
  ("BPF_TRACE_KPROBE_MULTI", 42);
  ("BPF_LSM_CGROUP", 43);
  ("BPF_STRUCT_OPS", 44);
  ("BPF_NETFILTER", 45);
  ("BPF_TCX_INGRESS", 46);
  ("BPF_TCX_EGRESS", 47);
  ("BPF_TRACE_UPROBE_MULTI", 48);
  ("BPF_CGROUP_UNIX_CONNECT", 49);
  ("BPF_CGROUP_UNIX_SENDMSG", 50);
  ("BPF_CGROUP_UNIX_RECVMSG", 51);
  ("BPF_CGROUP_UNIX_GETPEERNAME", 52);
  ("BPF_CGROUP_UNIX_GETSOCKNAME", 53);
  ("BPF_NETKIT_PRIMARY", 54);
  ("BPF_NETKIT_PEER", 55);
  ("BPF_TRACE_KPROBE_SESSION", 56);
  ("BPF_TRACE_UPROBE_SESSION", 57);
  ("__MAX_BPF_ATTACH_TYPE", 58)].

Definition struct_sock_filter : ctype := CAgg Struct false [
  Fld "code" (CRef "__u16");
  Fld "jt" (CRef "__u8");
  Fld "jf" (CRef "__u8");
  Fld "k" (CRef "__u32")].

Definition struct_bpf_insn : ctype := CAgg Struct false [
  Fld "code" (CRef "__u8");
  Bits "dst_reg" (CRef "__u8") 4;
  Bits "src_reg" (CRef "__u8") 4;
  Fld "off" (CRef "__s16");
  Fld "imm" (CRef "__s32")].

Definition struct_bpf_prog : ctype := CAgg Struct false [
  Fld "pages" (CRef "u16");
  Bits "jited" (CRef "u16") 1;
  Bits "jit_requested" (CRef "u16") 1;
  Bits "gpl_compatible" (CRef "u16") 1;
  Bits "cb_access" (CRef "u16") 1;
  Bits "dst_needed" (CRef "u16") 1;
  Bits "blinding_requested" (CRef "u16") 1;
  Bits "blinded" (CRef "u16") 1;
  Bits "is_func" (CRef "u16") 1;
  Bits "kprobe_override" (CRef "u16") 1;
  Bits "has_callchain_buf" (CRef "u16") 1;
  Bits "enforce_expected_attach_type" (CRef "u16") 1;
  Bits "call_get_stack" (CRef "u16") 1;
  Bits "call_get_func_ip" (CRef "u16") 1;
  Bits "tstamp_type_access" (CRef "u16") 1;
  Bits "sleepable" (CRef "u16") 1;
  Fld "type" (CRef "enum bpf_prog_type");
  Fld "expected_attach_type" (CRef "enum bpf_attach_type");
  Fld "len" (CRef "u32");
  Fld "jited_len" (CRef "u32");
  Fld "tag" (CArr 8 (CRef "u8"));
  Fld "stats" CPtr;
  Fld "active" CPtr;
  Fld "bpf_func" CPtr;
  Fld "aux" CPtr;
  Fld "orig_prog" CPtr;
  Anon (CAgg Union false [
    Anon (CAgg Struct false [
      Fld "__empty_insns" (CAgg Struct false []);
      Fld "insns" (CArr 0 (CRef "struct sock_filter"))]);
    Anon (CAgg Struct false [
      Fld "__empty_insnsi" (CAgg Struct false []);
      Fld "insnsi" (CArr 0 (CRef "struct bpf_insn"))])])].

Definition struct_bpf_map_ops : ctype := CAgg Struct false [
  Fld "map_alloc_check" CPtr;
  Fld "map_alloc" CPtr;
  Fld "map_release" CPtr;
  Fld "map_free" CPtr;
  Fld "map_get_next_key" CPtr;
  Fld "map_release_uref" CPtr;
  Fld "map_lookup_elem_sys_only" CPtr;
  Fld "map_lookup_batch" CPtr;
  Fld "map_lookup_and_delete_elem" CPtr;
  Fld "map_lookup_and_delete_batch" CPtr;
  Fld "map_update_batch" CPtr;
  Fld "map_delete_batch" CPtr;
  Fld "map_lookup_elem" CPtr;
  Fld "map_update_elem" CPtr;
  Fld "map_delete_elem" CPtr;
  Fld "map_push_elem" CPtr;
  Fld "map_pop_elem" CPtr;
  Fld "map_peek_elem" CPtr;
  Fld "map_lookup_percpu_elem" CPtr;
  Fld "map_fd_get_ptr" CPtr;
  Fld "map_fd_put_ptr" CPtr;
  Fld "map_gen_lookup" CPtr;
  Fld "map_fd_sys_lookup_elem" CPtr;
  Fld "map_seq_show_elem" CPtr;
  Fld "map_check_btf" CPtr;
  Fld "map_poke_track" CPtr;
  Fld "map_poke_untrack" CPtr;
  Fld "map_poke_run" CPtr;
  Fld "map_direct_value_addr" CPtr;
  Fld "map_direct_value_meta" CPtr;
  Fld "map_mmap" CPtr;
  Fld "map_poll" CPtr;
  Fld "map_get_unmapped_area" CPtr;
  Fld "map_local_storage_charge" CPtr;
  Fld "map_local_storage_uncharge" CPtr;
  Fld "map_owner_storage_ptr" CPtr;
  Fld "map_redirect" CPtr;
  Fld "map_meta_equal" CPtr;
  Fld "map_set_for_each_callback_args" CPtr;
  Fld "map_for_each_callback" CPtr;
  Fld "map_mem_usage" CPtr;
  Fld "map_btf_id" CPtr;
  Fld "iter_seq_info" CPtr].

Definition enum_xdp_action : enum_decl := [
  ("XDP_ABORTED", 0);
  ("XDP_DROP", 1);
  ("XDP_PASS", 2);
  ("XDP_TX", 3);
  ("XDP_REDIRECT", 4)].

Definition enum_bpf_func_id : enum_decl := [
  ("BPF_FUNC_unspec", 0);
  ("BPF_FUNC_map_lookup_elem", 1);
  ("BPF_FUNC_map_update_elem", 2);
  ("BPF_FUNC_map_delete_elem", 3);
  ("BPF_FUNC_probe_read", 4);
  ("BPF_FUNC_ktime_get_ns", 5);
  ("BPF_FUNC_trace_printk", 6);
  ("BPF_FUNC_get_prandom_u32", 7);
  ("BPF_FUNC_get_smp_processor_id", 8);
  ("BPF_FUNC_skb_store_bytes", 9);
  ("BPF_FUNC_l3_csum_replace", 10);
  ("BPF_FUNC_l4_csum_replace", 11);
  ("BPF_FUNC_tail_call", 12);
  ("BPF_FUNC_clone_redirect", 13);
  ("BPF_FUNC_get_current_pid_tgid", 14);
  ("BPF_FUNC_get_current_uid_gid", 15);
  ("BPF_FUNC_get_current_comm", 16);
  ("BPF_FUNC_get_cgroup_classid", 17);
  ("BPF_FUNC_skb_vlan_push", 18);
  ("BPF_FUNC_skb_vlan_pop", 19);
  ("BPF_FUNC_skb_get_tunnel_key", 20);
  ("BPF_FUNC_skb_set_tunnel_key", 21);
  ("BPF_FUNC_perf_event_read", 22);
  ("BPF_FUNC_redirect", 23);
  ("BPF_FUNC_get_route_realm", 24);
  ("BPF_FUNC_perf_event_output", 25);
  ("BPF_FUNC_skb_load_bytes", 26);
  ("BPF_FUNC_get_stackid", 27);
  ("BPF_FUNC_csum_diff", 28);
  ("BPF_FUNC_skb_get_tunnel_opt", 29);
  ("BPF_FUNC_skb_set_tunnel_opt", 30);
  ("BPF_FUNC_skb_change_proto", 31);
  ("BPF_FUNC_skb_change_type", 32);
  ("BPF_FUNC_skb_under_cgroup", 33);
  ("BPF_FUNC_get_hash_recalc", 34);
  ("BPF_FUNC_get_current_task", 35);
  ("BPF_FUNC_probe_write_user", 36);
  ("BPF_FUNC_current_task_under_cgroup", 37);
  ("BPF_FUNC_skb_change_tail", 38);
  ("BPF_FUNC_skb_pull_data", 39);
  ("BPF_FUNC_csum_update", 40);
  ("BPF_FUNC_set_hash_invalid", 41);
  ("BPF_FUNC_get_numa_node_id", 42);
  ("BPF_FUNC_skb_change_head", 43);
  ("BPF_FUNC_xdp_adjust_head", 44);
  ("BPF_FUNC_probe_read_str", 45);
  ("BPF_FUNC_get_socket_cookie", 46);
  ("BPF_FUNC_get_socket_uid", 47);
  ("BPF_FUNC_set_hash", 48);
  ("BPF_FUNC_setsockopt", 49);
  ("BPF_FUNC_skb_adjust_room", 50);
  ("BPF_FUNC_redirect_map", 51);
  ("BPF_FUNC_sk_redirect_map", 52);
  ("BPF_FUNC_sock_map_update", 53);
  ("BPF_FUNC_xdp_adjust_meta", 54);
  ("BPF_FUNC_perf_event_read_value", 55);
  ("BPF_FUNC_perf_prog_read_value", 56);
  ("BPF_FUNC_getsockopt", 57);
  ("BPF_FUNC_override_return", 58);
  ("BPF_FUNC_sock_ops_cb_flags_set", 59);
  ("BPF_FUNC_msg_redirect_map", 60);
  ("BPF_FUNC_msg_apply_bytes", 61);
  ("BPF_FUNC_msg_cork_bytes", 62);
  ("BPF_FUNC_msg_pull_data", 63);
  ("BPF_FUNC_bind", 64);
  ("BPF_FUNC_xdp_adjust_tail", 65);
  ("BPF_FUNC_skb_get_xfrm_state", 66);
  ("BPF_FUNC_get_stack", 67);
  ("BPF_FUNC_skb_load_bytes_relative", 68);
  ("BPF_FUNC_fib_lookup", 69);
  ("BPF_FUNC_sock_hash_update", 70);
  ("BPF_FUNC_msg_redirect_hash", 71);
  ("BPF_FUNC_sk_redirect_hash", 72);
  ("BPF_FUNC_lwt_push_encap", 73);
  ("BPF_FUNC_lwt_seg6_store_bytes", 74);
  ("BPF_FUNC_lwt_seg6_adjust_srh", 75);
  ("BPF_FUNC_lwt_seg6_action", 76);
  ("BPF_FUNC_rc_repeat", 77);
  ("BPF_FUNC_rc_keydown", 78);
  ("BPF_FUNC_skb_cgroup_id", 79);
  ("BPF_FUNC_get_current_cgroup_id", 80);
  ("BPF_FUNC_get_local_storage", 81);
  ("BPF_FUNC_sk_select_reuseport", 82);
  ("BPF_FUNC_skb_ancestor_cgroup_id", 83);
  ("BPF_FUNC_sk_lookup_tcp", 84);
  ("BPF_FUNC_sk_lookup_udp", 85);
  ("BPF_FUNC_sk_release", 86);
  ("BPF_FUNC_map_push_elem", 87);
  ("BPF_FUNC_map_pop_elem", 88);
  ("BPF_FUNC_map_peek_elem", 89);
  ("BPF_FUNC_msg_push_data", 90);
  ("BPF_FUNC_msg_pop_data", 91);
  ("BPF_FUNC_rc_pointer_rel", 92);
  ("BPF_FUNC_spin_lock", 93);
  ("BPF_FUNC_spin_unlock", 94);
  ("BPF_FUNC_sk_fullsock", 95);
  ("BPF_FUNC_tcp_sock", 96);
  ("BPF_FUNC_skb_ecn_set_ce", 97);
  ("BPF_FUNC_get_listener_sock", 98);
  ("BPF_FUNC_skc_lookup_tcp", 99);
  ("BPF_FUNC_tcp_check_syncookie", 100);
  ("BPF_FUNC_sysctl_get_name", 101);
  ("BPF_FUNC_sysctl_get_current_value", 102);
  ("BPF_FUNC_sysctl_get_new_value", 103);
  ("BPF_FUNC_sysctl_set_new_value", 104);
  ("BPF_FUNC_strtol", 105);
  ("BPF_FUNC_strtoul", 106);
  ("BPF_FUNC_sk_storage_get", 107);
  ("BPF_FUNC_sk_storage_delete", 108);
  ("BPF_FUNC_send_signal", 109);
  ("BPF_FUNC_tcp_gen_syncookie", 110);
  ("BPF_FUNC_skb_output", 111);
  ("BPF_FUNC_probe_read_user", 112);
  ("BPF_FUNC_probe_read_kernel", 113);
  ("BPF_FUNC_probe_read_user_str", 114);
  ("BPF_FUNC_probe_read_kernel_str", 115);
  ("BPF_FUNC_tcp_send_ack", 116);
  ("BPF_FUNC_send_signal_thread", 117);
  ("BPF_FUNC_jiffies64", 118);
  ("BPF_FUNC_read_branch_records", 119);
  ("BPF_FUNC_get_ns_current_pid_tgid", 120);
  ("BPF_FUNC_xdp_output", 121);
  ("BPF_FUNC_get_netns_cookie", 122);
  ("BPF_FUNC_get_current_ancestor_cgroup_id", 123);
  ("BPF_FUNC_sk_assign", 124);
  ("BPF_FUNC_ktime_get_boot_ns", 125);
  ("BPF_FUNC_seq_printf", 126);
  ("BPF_FUNC_seq_write", 127);
  ("BPF_FUNC_sk_cgroup_id", 128);
  ("BPF_FUNC_sk_ancestor_cgroup_id", 129);
  ("BPF_FUNC_ringbuf_output", 130);
  ("BPF_FUNC_ringbuf_reserve", 131);
  ("BPF_FUNC_ringbuf_submit", 132);
  ("BPF_FUNC_ringbuf_discard", 133);
  ("BPF_FUNC_ringbuf_query", 134);
  ("BPF_FUNC_csum_level", 135);
  ("BPF_FUNC_skc_to_tcp6_sock", 136);
  ("BPF_FUNC_skc_to_tcp_sock", 137);
  ("BPF_FUNC_skc_to_tcp_timewait_sock", 138);
  ("BPF_FUNC_skc_to_tcp_request_sock", 139);
  ("BPF_FUNC_skc_to_udp6_sock", 140);
  ("BPF_FUNC_get_task_stack", 141);
  ("BPF_FUNC_load_hdr_opt", 142);
  ("BPF_FUNC_store_hdr_opt", 143);
  ("BPF_FUNC_reserve_hdr_opt", 144);
  ("BPF_FUNC_inode_storage_get", 145);
  ("BPF_FUNC_inode_storage_delete", 146);
  ("BPF_FUNC_d_path", 147);
  ("BPF_FUNC_copy_from_user", 148);
  ("BPF_FUNC_snprintf_btf", 149);
  ("BPF_FUNC_seq_printf_btf", 150);
  ("BPF_FUNC_skb_cgroup_classid", 151);
  ("BPF_FUNC_redirect_neigh", 152);
  ("BPF_FUNC_per_cpu_ptr", 153);
  ("BPF_FUNC_this_cpu_ptr", 154);
  ("BPF_FUNC_redirect_peer", 155);
  ("BPF_FUNC_task_storage_get", 156);
  ("BPF_FUNC_task_storage_delete", 157);
  ("BPF_FUNC_get_current_task_btf", 158);
  ("BPF_FUNC_bprm_opts_set", 159);
  ("BPF_FUNC_ktime_get_coarse_ns", 160);
  ("BPF_FUNC_ima_inode_hash", 161);
  ("BPF_FUNC_sock_from_file", 162);
  ("BPF_FUNC_check_mtu", 163);
  ("BPF_FUNC_for_each_map_elem", 164);
  ("BPF_FUNC_snprintf", 165);
  ("BPF_FUNC_sys_bpf", 166);
  ("BPF_FUNC_btf_find_by_name_kind", 167);
  ("BPF_FUNC_sys_close", 168);
  ("BPF_FUNC_timer_init", 169);
  ("BPF_FUNC_timer_set_callback", 170);
  ("BPF_FUNC_timer_start", 171);
  ("BPF_FUNC_timer_cancel", 172);
  ("BPF_FUNC_get_func_ip", 173);
  ("BPF_FUNC_get_attach_cookie", 174);
  ("BPF_FUNC_task_pt_regs", 175);
  ("BPF_FUNC_get_branch_snapshot", 176);
  ("BPF_FUNC_trace_vprintk", 177);
  ("BPF_FUNC_skc_to_unix_sock", 178);
  ("BPF_FUNC_kallsyms_lookup_name", 179);
  ("BPF_FUNC_find_vma", 180);
  ("BPF_FUNC_loop", 181);
  ("BPF_FUNC_strncmp", 182);
  ("BPF_FUNC_get_func_arg", 183);
  ("BPF_FUNC_get_func_ret", 184);
  ("BPF_FUNC_get_func_arg_cnt", 185);
  ("BPF_FUNC_get_retval", 186);
  ("BPF_FUNC_set_retval", 187);
  ("BPF_FUNC_xdp_get_buff_len", 188);
  ("BPF_FUNC_xdp_load_bytes", 189);
  ("BPF_FUNC_xdp_store_bytes", 190);
  ("BPF_FUNC_copy_from_user_task", 191);
  ("BPF_FUNC_skb_set_tstamp", 192);
  ("BPF_FUNC_ima_file_hash", 193);
  ("BPF_FUNC_kptr_xchg", 194);
  ("BPF_FUNC_map_lookup_percpu_elem", 195);
  ("BPF_FUNC_skc_to_mptcp_sock", 196);
  ("BPF_FUNC_dynptr_from_mem", 197);
  ("BPF_FUNC_ringbuf_reserve_dynptr", 198);
  ("BPF_FUNC_ringbuf_submit_dynptr", 199);
  ("BPF_FUNC_ringbuf_discard_dynptr", 200);
  ("BPF_FUNC_dynptr_read", 201);
  ("BPF_FUNC_dynptr_write", 202);
  ("BPF_FUNC_dynptr_data", 203);
  ("BPF_FUNC_tcp_raw_gen_syncookie_ipv4", 204);
  ("BPF_FUNC_tcp_raw_gen_syncookie_ipv6", 205);
  ("BPF_FUNC_tcp_raw_check_syncookie_ipv4", 206);
  ("BPF_FUNC_tcp_raw_check_syncookie_ipv6", 207);
  ("BPF_FUNC_ktime_get_tai_ns", 208);
  ("BPF_FUNC_user_ringbuf_drain", 209);
  ("BPF_FUNC_cgrp_storage_get", 210);
  ("BPF_FUNC_cgrp_storage_delete", 211);
  ("__BPF_FUNC_MAX_ID", 212)].

Definition enum_bpf_cmd : enum_decl := [
  ("BPF_MAP_CREATE", 0);
  ("BPF_MAP_LOOKUP_ELEM", 1);
  ("BPF_MAP_UPDATE_ELEM", 2);
  ("BPF_MAP_DELETE_ELEM", 3);
  ("BPF_MAP_GET_NEXT_KEY", 4);
  ("BPF_PROG_LOAD", 5);
  ("BPF_OBJ_PIN", 6);
  ("BPF_OBJ_GET", 7);
  ("BPF_PROG_ATTACH", 8);
  ("BPF_PROG_DETACH", 9);
  ("BPF_PROG_TEST_RUN", 10);
  ("BPF_PROG_RUN", 10);
  ("BPF_PROG_GET_NEXT_ID", 11);
  ("BPF_MAP_GET_NEXT_ID", 12);
  ("BPF_PROG_GET_FD_BY_ID", 13);
  ("BPF_MAP_GET_FD_BY_ID", 14);
  ("BPF_OBJ_GET_INFO_BY_FD", 15);
  ("BPF_PROG_QUERY", 16);
  ("BPF_RAW_TRACEPOINT_OPEN", 17);
  ("BPF_BTF_LOAD", 18);
  ("BPF_BTF_GET_FD_BY_ID", 19);
  ("BPF_TASK_FD_QUERY", 20);
  ("BPF_MAP_LOOKUP_AND_DELETE_ELEM", 21);
  ("BPF_MAP_FREEZE", 22);
  ("BPF_BTF_GET_NEXT_ID", 23);
  ("BPF_MAP_LOOKUP_BATCH", 24);
  ("BPF_MAP_LOOKUP_AND_DELETE_BATCH", 25);
  ("BPF_MAP_UPDATE_BATCH", 26);
  ("BPF_MAP_DELETE_BATCH", 27);
  ("BPF_LINK_CREATE", 28);
  ("BPF_LINK_UPDATE", 29);
  ("BPF_LINK_GET_FD_BY_ID", 30);
  ("BPF_LINK_GET_NEXT_ID", 31);
  ("BPF_ENABLE_STATS", 32);
  ("BPF_ITER_CREATE", 33);
  ("BPF_LINK_DETACH", 34);
  ("BPF_PROG_BIND_MAP", 35);
  ("BPF_TOKEN_CREATE", 36);
  ("BPF_PROG_STREAM_READ_BY_FD", 37);
  ("__MAX_BPF_CMD", 38)].

Definition enum_bpf_link_type : enum_decl := [
  ("BPF_LINK_TYPE_UNSPEC", 0);
  ("BPF_LINK_TYPE_RAW_TRACEPOINT", 1);
  ("BPF_LINK_TYPE_TRACING", 2);
  ("BPF_LINK_TYPE_CGROUP", 3);
  ("BPF_LINK_TYPE_ITER", 4);
  ("BPF_LINK_TYPE_NETNS", 5);
  ("BPF_LINK_TYPE_XDP", 6);
  ("BPF_LINK_TYPE_PERF_EVENT", 7);
  ("BPF_LINK_TYPE_KPROBE_MULTI", 8);
  ("BPF_LINK_TYPE_STRUCT_OPS", 9);
  ("BPF_LINK_TYPE_NETFILTER", 10);
  ("BPF_LINK_TYPE_TCX", 11);
  ("BPF_LINK_TYPE_UPROBE_MULTI", 12);
  ("BPF_LINK_TYPE_NETKIT", 13);
  ("BPF_LINK_TYPE_SOCKMAP", 14);
  ("__MAX_BPF_LINK_TYPE", 15)].

(** ** The table: every declaration after the ones it uses. *)
Definition vmlinux : decls := [
  ("__u32", typedef___u32);
  ("struct xdp_md", struct_xdp_md);
  ("__u16", typedef___u16);
  ("__be16", typedef___be16);
  ("struct ethhdr", struct_ethhdr);
  ("__u8", typedef___u8);
  ("__sum16", typedef___sum16);
  ("__be32", typedef___be32);
  ("struct iphdr", struct_iphdr);
  ("struct in6_addr", struct_in6_addr);
  ("struct ipv6hdr", struct_ipv6hdr);
  ("struct tcphdr", struct_tcphdr);
  ("__u64", typedef___u64);
  ("struct user_pt_regs", struct_user_pt_regs);
  ("u64", typedef_u64);
  ("__s32", typedef___s32);
  ("s32", typedef_s32);
  ("u32", typedef_u32);
  ("struct frame_record", struct_frame_record);
  ("struct frame_record_meta", struct_frame_record_meta);
  ("struct pt_regs", struct_pt_regs);
  ("struct xdp_buff", struct_xdp_buff);
  ("struct xdp_mem_info", struct_xdp_mem_info);
  ("struct xdp_rxq_info", struct_xdp_rxq_info);
  ("enum bpf_map_type", enum_type enum_bpf_map_type);
  ("__s64", typedef___s64);
  ("s64", typedef_s64);
  ("atomic64_t", typedef_atomic64_t);
  ("atomic_long_t", typedef_atomic_long_t);
  ("atomic_t", typedef_atomic_t);
  ("u8", typedef_u8);
  ("u16", typedef_u16);
  ("struct qspinlock", struct_qspinlock);
  ("arch_spinlock_t", typedef_arch_spinlock_t);
  ("struct raw_spinlock", struct_raw_spinlock);
  ("raw_spinlock_t", typedef_raw_spinlock_t);
  ("struct optimistic_spin_queue", struct_optimistic_spin_queue);
  ("struct list_head", struct_list_head);
  ("struct mutex", struct_mutex);
  ("work_func_t", typedef_work_func_t);
  ("struct work_struct", struct_work_struct);
  ("struct callback_head", struct_callback_head);
  ("struct spinlock", struct_spinlock);
  ("spinlock_t", typedef_spinlock_t);
  ("bool", typedef_bool);
  ("struct bpf_map", struct_bpf_map);
  ("struct wait_queue_head", struct_wait_queue_head);
  ("wait_queue_head_t", typedef_wait_queue_head_t);
  ("struct llist_node", struct_llist_node);
  ("struct __call_single_node", struct___call_single_node);
  ("struct rcuwait", struct_rcuwait);
  ("struct irq_work", struct_irq_work);
  ("rqspinlock_t", typedef_rqspinlock_t);
  ("struct bpf_ringbuf", struct_bpf_ringbuf);
  ("struct bpf_ringbuf_map", struct_bpf_ringbuf_map);
  ("struct bpf_ringbuf_hdr", struct_bpf_ringbuf_hdr);
  ("struct bpf_mem_alloc", struct_bpf_mem_alloc);
  ("struct pcpu_freelist", struct_pcpu_freelist);
  ("struct bpf_lru_list", struct_bpf_lru_list);
  ("struct bpf_common_lru", struct_bpf_common_lru);
  ("del_from_htab_func", typedef_del_from_htab_func);
  ("struct bpf_lru", struct_bpf_lru);
  ("struct percpu_counter", struct_percpu_counter);
  ("struct bpf_htab", struct_bpf_htab);
  ("struct hlist_nulls_node", struct_hlist_nulls_node);
  ("struct pcpu_freelist_node", struct_pcpu_freelist_node);
  ("struct bpf_lru_node", struct_bpf_lru_node);
  ("struct htab_elem", struct_htab_elem);
  ("struct hlist_nulls_head", struct_hlist_nulls_head);
  ("struct bucket", struct_bucket);
  ("struct bpf_array", struct_bpf_array);
  ("struct thread_info", struct_thread_info);
  ("struct refcount_struct", struct_refcount_struct);
  ("refcount_t", typedef_refcount_t);
  ("struct load_weight", struct_load_weight);
  ("struct rb_node", struct_rb_node);
  ("struct sched_avg", struct_sched_avg);
  ("struct sched_entity", struct_sched_entity);
  ("struct sched_rt_entity", struct_sched_rt_entity);
  ("ktime_t", typedef_ktime_t);
  ("struct timerqueue_node", struct_timerqueue_node);
  ("struct hrtimer", struct_hrtimer);
  ("dl_server_pick_f", typedef_dl_server_pick_f);
  ("struct sched_dl_entity", struct_sched_dl_entity);
  ("struct scx_dsq_list_node", struct_scx_dsq_list_node);
  ("struct sched_ext_entity", struct_sched_ext_entity);
  ("struct uclamp_se", struct_uclamp_se);
  ("struct sched_statistics", struct_sched_statistics);
  ("struct hlist_head", struct_hlist_head);
  ("struct cpumask", struct_cpumask);
  ("cpumask_t", typedef_cpumask_t);
  ("union rcu_special", union_rcu_special);
  ("struct sched_info", struct_sched_info);
  ("struct plist_node", struct_plist_node);
  ("__kernel_clockid_t", typedef___kernel_clockid_t);
  ("clockid_t", typedef_clockid_t);
  ("enum timespec_type", enum_type enum_timespec_type);
  ("struct restart_block", struct_restart_block);
  ("__kernel_pid_t", typedef___kernel_pid_t);
  ("pid_t", typedef_pid_t);
  ("struct hlist_node", struct_hlist_node);
  ("struct prev_cputime", struct_prev_cputime);
  ("struct seqcount", struct_seqcount);
  ("seqcount_t", typedef_seqcount_t);
  ("enum vtime_state", enum_type enum_vtime_state);
  ("struct vtime", struct_vtime);
  ("struct rb_root", struct_rb_root);
  ("struct rb_root_cached", struct_rb_root_cached);
  ("struct timerqueue_head", struct_timerqueue_head);
  ("struct posix_cputimer_base", struct_posix_cputimer_base);
  ("struct posix_cputimers", struct_posix_cputimers);
  ("struct posix_cputimers_work", struct_posix_cputimers_work);
  ("struct sysv_sem", struct_sysv_sem);
  ("struct sysv_shm", struct_sysv_shm);
  ("sigset_t", typedef_sigset_t);
  ("struct sigpending", struct_sigpending);
  ("__kernel_ulong_t", typedef___kernel_ulong_t);
  ("__kernel_size_t", typedef___kernel_size_t);
  ("size_t", typedef_size_t);
  ("__kernel_uid32_t", typedef___kernel_uid32_t);
  ("uid_t", typedef_uid_t);
  ("kuid_t", typedef_kuid_t);
  ("struct seccomp", struct_seccomp);
  ("struct syscall_user_dispatch", struct_syscall_user_dispatch);
  ("struct wake_q_node", struct_wake_q_node);
  ("struct task_io_accounting", struct_task_io_accounting);
  ("nodemask_t", typedef_nodemask_t);
  ("struct seqcount_spinlock", struct_seqcount_spinlock);
  ("seqcount_spinlock_t", typedef_seqcount_spinlock_t);
  ("struct arch_tlbflush_unmap_batch", struct_arch_tlbflush_unmap_batch);
  ("struct tlbflush_unmap_batch", struct_tlbflush_unmap_batch);
  ("struct page_frag", struct_page_frag);
  ("struct latency_record", struct_latency_record);
  ("struct kmap_ctrl", struct_kmap_ctrl);
  ("struct timer_list", struct_timer_list);
  ("struct llist_head", struct_llist_head);
  ("struct cpu_context", struct_cpu_context);
  ("struct user_fpsimd_state", struct_user_fpsimd_state);
  ("enum fp_type", enum_type enum_fp_type);
  ("struct debug_info", struct_debug_info);
  ("struct ptrauth_key", struct_ptrauth_key);
  ("struct ptrauth_keys_user", struct_ptrauth_keys_user);
  ("struct ptrauth_keys_kernel", struct_ptrauth_keys_kernel);
  ("struct thread_struct", struct_thread_struct);
  ("struct task_struct", struct_task_struct);
  ("netdev_features_t", typedef_netdev_features_t);
  ("__s16", typedef___s16);
  ("s16", typedef_s16);
  ("struct netdev_tc_txq", struct_netdev_tc_txq);
  ("possible_net_t", typedef_possible_net_t);
  ("xdp_features_t", typedef_xdp_features_t);
  ("struct net_device_stats", struct_net_device_stats);
  ("struct netdev_hw_addr_list", struct_netdev_hw_addr_list);
  ("struct ref_tracker_dir", struct_ref_tracker_dir);
  ("enum netdev_ml_priv_type", enum_type enum_netdev_ml_priv_type);
  ("enum netdev_stat_type", enum_type enum_netdev_stat_type);
  ("struct kref", struct_kref);
  ("struct kobject", struct_kobject);
  ("enum dl_dev_state", enum_type enum_dl_dev_state);
  ("struct dev_links_info", struct_dev_links_info);
  ("struct pm_message", struct_pm_message);
  ("pm_message_t", typedef_pm_message_t);
  ("struct swait_queue_head", struct_swait_queue_head);
  ("struct completion", struct_completion);
  ("enum rpm_request", enum_type enum_rpm_request);
  ("enum rpm_status", enum_type enum_rpm_status);
  ("struct dev_pm_info", struct_dev_pm_info);
  ("struct dev_msi_info", struct_dev_msi_info);
  ("struct dev_archdata", struct_dev_archdata);
  ("__kernel_dev_t", typedef___kernel_dev_t);
  ("dev_t", typedef_dev_t);
  ("enum device_removable", enum_type enum_device_removable);
  ("struct device", struct_device);
  ("struct bpf_xdp_entity", struct_bpf_xdp_entity);
  ("netdevice_tracker", typedef_netdevice_tracker);
  ("struct net_device", struct_net_device);
  ("__wsum", typedef___wsum);
  ("sk_buff_data_t", typedef_sk_buff_data_t);
  ("struct sk_buff", struct_sk_buff);
  ("union bpf_attr", union_bpf_attr);
  ("enum bpf_prog_type", enum_type enum_bpf_prog_type);
  ("enum bpf_attach_type", enum_type enum_bpf_attach_type);
  ("struct sock_filter", struct_sock_filter);
  ("struct bpf_insn", struct_bpf_insn);
  ("struct bpf_prog", struct_bpf_prog);
  ("struct bpf_map_ops", struct_bpf_map_ops);
  ("enum xdp_action", enum_type enum_xdp_action);
  ("enum bpf_func_id", enum_type enum_bpf_func_id);
  ("enum bpf_cmd", enum_type enum_bpf_cmd);
  ("enum bpf_link_type", enum_type enum_bpf_link_type)].

