(* ===== verification/VmlinuxFacts.v ===== *)
(** * The layouts of vmlinux.h

    The layout table of [Vmlinux.vmlinux] and what the programs rely on: every
    declared type has a layout, the members of every aggregate are aligned,
    disjoint and inside it, the packet headers have their wire layout, and the
    positions of the ring buffer live on pages of their own. *)
From S2P Require Import Prelude CLayout Vmlinux.

Definition vm_env : env := default ∅ (build vmlinux ∅).

Definition vm_sizeof (tag : string) : Z := sizeof vm_env tag.

Definition vm_member (tag name : string) : member :=
  default (Member "" 0 0) (member_of vm_env vmlinux tag name).

#[export] Instance layout_eq_dec : EqDecision layout.
Proof. solve_decision. Defined.

Lemma vm_env_build : build vmlinux ∅ = Some vm_env.
Proof.
  assert (bool_decide (is_Some (build vmlinux ∅)) = true) as H by (vm_compute; reflexivity).
  apply bool_decide_eq_true in H as [e He]. unfold vm_env. by rewrite He.
Qed.

Lemma vm_env_wf : wf_env vm_env.
Proof. eapply build_wf; [apply wf_env_empty|apply vm_env_build]. Qed.

(** The layout recorded for a tag is the layout of its declaration. *)
Definition decl_settled (d : string * ctype) : bool :=
  match layout_of vm_env d.2, vm_env !! d.1 with
  | Some ly, Some ly' => bool_decide (ly = ly')
  | _, _ => false
  end.

Lemma vmlinux_settled : forallb decl_settled vmlinux = true.
Proof. vm_compute. reflexivity. Qed.

Lemma vmlinux_lookup tag t :
  (tag, t) ∈ vmlinux → ∃ ly, vm_env !! tag = Some ly ∧ layout_of vm_env t = Some ly.
Proof.
  intros Hin%list_elem_of_In.
  pose proof (proj1 (forallb_forall _ _) vmlinux_settled _ Hin) as Hd.
  unfold decl_settled in Hd. simpl in Hd.
  destruct (layout_of vm_env t) as [ly|], (vm_env !! tag) as [ly'|]; try discriminate Hd.
  apply bool_decide_eq_true in Hd as ->. by exists ly'.
Qed.

(** Every declaration taken from vmlinux.h is closed over the ones before it
    and has a layout, the one its tag is looked up with: a size that is a
    multiple of a power-of-two alignment. *)
Theorem vmlinux_layouts_wf :
  ∀ tag t, (tag, t) ∈ vmlinux →
  ∃ ly, vm_env !! tag = Some ly ∧ layout_of vm_env t = Some ly ∧ wf_layout ly.
Proof.
  intros tag t (ly & Htag & Hly)%vmlinux_lookup. exists ly.
  split_and!; [done..|]. by eapply layout_of_wf; [apply vm_env_wf|].
Qed.

Lemma vmlinux_layouts_wf_witness :
  ∃ ly, vm_env !! "struct iphdr"%string = Some ly ∧
        layout_of vm_env struct_iphdr = Some ly ∧ wf_layout ly.
Proof.
  apply (vmlinux_layouts_wf "struct iphdr" struct_iphdr).
  apply (list_elem_of_lookup_2 _ 8). reflexivity.
Defined.



(** The headers the XDP program dereferences have their wire layout: sizes
    14, 20, 40 and 20 bytes, the Ethernet type at byte 12, the IPv4 header
    length in the low nibble of byte 0 and the protocol at byte 9, the IPv6
    next header at byte 6, the TCP ports at bytes 0 and 2. *)
Theorem wire_header_layout :
  vm_sizeof "struct ethhdr" = 14 ∧ vm_sizeof "struct iphdr" = 20 ∧
  vm_sizeof "struct ipv6hdr" = 40 ∧ vm_sizeof "struct tcphdr" = 20 ∧
  member_of vm_env vmlinux "struct ethhdr" "h_proto" = Some (Member "h_proto" (8 * 12) 16) ∧
  member_of vm_env vmlinux "struct iphdr" "ihl" = Some (Member "ihl" 0 4) ∧
  member_of vm_env vmlinux "struct iphdr" "protocol" = Some (Member "protocol" (8 * 9) 8) ∧
  member_of vm_env vmlinux "struct ipv6hdr" "nexthdr" = Some (Member "nexthdr" (8 * 6) 8) ∧
  member_of vm_env vmlinux "struct tcphdr" "source" = Some (Member "source" 0 16) ∧
  member_of vm_env vmlinux "struct tcphdr" "dest" = Some (Member "dest" (8 * 2) 16).
Proof. split_and!; vm_compute; reflexivity. Qed.

(** The ring buffer both programs write to keeps the consumer position, the
    producer position and the data area at page boundaries of distinct pages,
    after one page of kernel-private state: this is what lets user space map
    the consumer page writable and the producer page read-only. *)
Theorem ringbuf_page_layout :
  vm_sizeof "struct bpf_ringbuf" = 3 * 4096 ∧
  (λ m, mb_off m / 8) <$> member_of vm_env vmlinux "struct bpf_ringbuf" "consumer_pos" = Some 4096 ∧
  (λ m, mb_off m / 8) <$> member_of vm_env vmlinux "struct bpf_ringbuf" "producer_pos" = Some (2 * 4096) ∧
  (λ m, mb_off m / 8) <$> member_of vm_env vmlinux "struct bpf_ringbuf" "data" = Some (3 * 4096) ∧
  Forall (λ name, ∃ m, member_of vm_env vmlinux "struct bpf_ringbuf" name = Some m ∧
                       mb_off m + mb_len m ≤ 8 * 4096)
    ["waitq"; "work"; "mask"; "pages"; "nr_pages"; "spinlock"; "busy"]%string.
Proof.
  split_and!; [vm_compute; reflexivity..|].
  repeat (apply Forall_cons_2; [eexists; split; [vm_compute; reflexivity|by vm_compute]|]).
  apply Forall_nil_2.
Qed.
