(* ===== verification/BpfHelpers.v ===== *)
(** * The kernel interface of the eBPF programs

    The helper functions [pgshadow_xdp.c] and [pgshadow_ssl.c] call
    ([bpf_map_lookup_elem], [bpf_ringbuf_reserve], [bpf_probe_read_kernel], ...)
    and the libbpf macros they use are kernel and library code.  They are the
    operations of the class [BpfHelpers] over an abstract kernel state [K]; what
    their documentation promises is the class [BpfHelpersOk].  The programs are
    verified against these two classes.  [SimKernel] at the end of the file is
    an executable instance: it shows the promises can be kept together and lets
    the programs run on concrete inputs. *)
From S2P Require Import Prelude CLayout.

(** An access outside the object it belongs to. *)
Inductive fault := OutOfBounds | BadSlot.

(** A program run: kernel state in, result and kernel state out. *)
Definition prog (K A : Type) : Type := K → result fault (A * K).

#[export] Instance prog_ret {K} : MRet (prog K) := λ A a k, Ok (a, k).
#[export] Instance prog_bind {K} : MBind (prog K) := λ A B f m k,
  match m k with Ok (a, k') => f a k' | Err e => Err e end.

Definition lift {K A} (r : result fault A) : prog K A := λ k,
  match r with Ok a => Ok (a, k) | Err e => Err e end.
Definition get_state {K A} (f : K → A) : prog K A := λ k, Ok (f k, k).
Definition upd_state {K} (f : K → K) : prog K unit := λ k, Ok (tt, f k).
Definition call {K A} (f : K → A * K) : prog K A := λ k, Ok (f k).

(** Map definitions: type, key and value type, entries. *)
Record map_def := MapDef {
  md_type : string; md_key : option string; md_value : option string; md_entries : Z }.

(** ** Operations *)
Class BpfHelpers (K : Type) := {
  (** byte order macro of bpf_endian.h *)
  bpf_ntohs : Z → Z;
  (** array maps: the value behind the pointer [bpf_map_lookup_elem] returns
      ([None] for NULL) and an atomic 64-bit addition through that pointer *)
  array_lookup : K → string → Z → option Z;
  array_add : K → string → Z → Z → K;
  (** the program's ring buffer: reserved records and their memory *)
  rslot : Type;
  ringbuf_reserve : K → Z → option rslot * K;
  slot_mem : K → rslot → option (list Z);
  slot_store : K → rslot → Z → list Z → K;
  ringbuf_submit : K → rslot → K;
  ringbuf_discard : K → rslot → K;
  (** the records handed to user space so far, oldest first *)
  ring_log : K → list (list Z);
  (** kernel and user memory, and the probing reads: return code and the bytes
      written to the destination *)
  kernel_mem : K → Z → Z → list Z;
  user_mem : K → Z → Z → list Z;
  bpf_probe_read_kernel : K → Z → Z → Z * list Z;
  bpf_probe_read_user : K → Z → Z → Z * list Z;
}.

(** What a program may observe of the kernel besides its own slot. *)
Definition same_arrays {K} `{BpfHelpers K} (k k' : K) : Prop :=
  ∀ m i, array_lookup k' m i = array_lookup k m i.
Definition same_memory {K} `{BpfHelpers K} (k k' : K) : Prop :=
  (∀ n a, kernel_mem k' n a = kernel_mem k n a) ∧
  (∀ n a, bpf_probe_read_kernel k' n a = bpf_probe_read_kernel k n a) ∧
  (∀ n a, user_mem k' n a = user_mem k n a) ∧
  (∀ n a, bpf_probe_read_user k' n a = bpf_probe_read_user k n a).
Definition same_ring {K} `{BpfHelpers K} (k k' : K) : Prop := ring_log k' = ring_log k.

(** ** Documented behaviour *)
Class BpfHelpersOk (K : Type) `{BpfHelpers K} := {
  ntohs_spec : ∀ x, in_width 16 x → bpf_ntohs x = be_value (le_bytes 2 x);
  (** an addition changes one counter, modulo 2^64 *)
  add_lookup : ∀ k m i n v, array_lookup k m i = Some v →
    array_lookup (array_add k m i n) m i = Some (wrap 64 (v + n));
  add_other : ∀ k m i n m' i', (m, i) ≠ (m', i') →
    array_lookup (array_add k m i n) m' i' = array_lookup k m' i';
  add_ring : ∀ k m i n, same_ring k (array_add k m i n);
  add_memory : ∀ k m i n, same_memory k (array_add k m i n);
  (** a reservation yields a live record of the requested size whose contents
      are whatever the ring held there before *)
  reserve_some : ∀ k sz s k', 0 ≤ sz → ringbuf_reserve k sz = (Some s, k') →
    ∃ mem, slot_mem k' s = Some mem ∧ zlen mem = sz ∧ bytes_ok mem;
  reserve_frame : ∀ k sz o k', ringbuf_reserve k sz = (o, k') →
    same_arrays k k' ∧ same_ring k k' ∧ same_memory k k';
  store_mem : ∀ k s mem off bs, slot_mem k s = Some mem →
    0 ≤ off → off + zlen bs ≤ zlen mem →
    slot_mem (slot_store k s off bs) s = Some (patch off bs mem);
  store_frame : ∀ k s off bs, same_arrays k (slot_store k s off bs) ∧
    same_ring k (slot_store k s off bs) ∧ same_memory k (slot_store k s off bs);
  (** submitting hands the record to user space, discarding drops it *)
  submit_log : ∀ k s mem, slot_mem k s = Some mem →
    ring_log (ringbuf_submit k s) = ring_log k ++ [mem];
  submit_frame : ∀ k s, same_arrays k (ringbuf_submit k s) ∧ same_memory k (ringbuf_submit k s);
  discard_frame : ∀ k s, same_arrays k (ringbuf_discard k s) ∧
    same_ring k (ringbuf_discard k s) ∧ same_memory k (ringbuf_discard k s);
  (** probing reads copy memory or fail with a negative code and zeroes *)
  kernel_read_spec : ∀ k n a ret bs, 0 ≤ n → bpf_probe_read_kernel k n a = (ret, bs) →
    bs = (if 0 <=? ret then kernel_mem k n a else replicate (Z.to_nat n) 0);
  kernel_mem_len : ∀ k n a, 0 ≤ n → zlen (kernel_mem k n a) = n;
  user_read_spec : ∀ k n a ret bs, 0 ≤ n → bpf_probe_read_user k n a = (ret, bs) →
    bs = (if 0 <=? ret then user_mem k n a else replicate (Z.to_nat n) 0);
  user_mem_len : ∀ k n a, 0 ≤ n → zlen (user_mem k n a) = n;
}.

(** ** Hash maps

    [bpf_map_lookup_elem] returns a pointer into the map; [hash_deref] reads the
    value behind it. *)
Class HashHelpers (K V : Type) := {
  hptr : Type;
  hash_lookup : K → string → Z → option hptr;
  hash_deref : K → hptr → V;
  hash_update : K → string → Z → V → Z * K;
  hash_delete : K → string → Z → Z * K;
}.

(** The contents of a map as a program sees them. *)
Definition hash_get {K V} `{HashHelpers K V} (k : K) (m : string) (key : Z) : option V :=
  hash_deref k <$> hash_lookup k m key.

(** No entry and no value behind a pointer changed. *)
Definition same_hashes {K V} `{HashHelpers K V} (k k' : K) : Prop :=
  (∀ m key, hash_lookup k' m key = hash_lookup k m key) ∧
  (∀ p, hash_deref k' p = hash_deref k p).

(** Documented behaviour: an update either fails with a negative code and
    changes nothing or stores the value; a deletion removes the entry; both
    leave other entries and the rest of the kernel alone; array and ring
    operations leave the hash maps alone. *)
Class HashHelpersOk (K V : Type) `{BpfHelpers K} `{HashHelpers K V} := {
  update_same : ∀ k m key v ret k', hash_update k m key v = (ret, k') →
    hash_get k' m key = if ret =? 0 then Some v else hash_get k m key;
  update_other : ∀ k m key v ret k' m' key', hash_update k m key v = (ret, k') →
    (m, key) ≠ (m', key') → hash_get k' m' key' = hash_get k m' key';
  update_quiet : ∀ k m key v ret k', hash_update k m key v = (ret, k') → same_arrays k k' ∧ same_ring k k' ∧ same_memory k k';
  delete_same : ∀ k m key ret k', hash_delete k m key = (ret, k') → hash_get k' m key = None;
  delete_other : ∀ k m key ret k' m' key', hash_delete k m key = (ret, k') →
    (m, key) ≠ (m', key') → hash_get k' m' key' = hash_get k m' key';
  delete_quiet : ∀ k m key ret k', hash_delete k m key = (ret, k') → same_arrays k k' ∧ same_ring k k' ∧ same_memory k k';
  add_hashes : ∀ k m i n, same_hashes k (array_add k m i n);
  reserve_hashes : ∀ k sz o k', ringbuf_reserve k sz = (o, k') → same_hashes k k';
  store_hashes : ∀ k s off bs, same_hashes k (slot_store k s off bs);
  submit_hashes : ∀ k s, same_hashes k (ringbuf_submit k s);
  discard_hashes : ∀ k s, same_hashes k (ringbuf_discard k s);
}.

(** What a program finds behind a pointer it looked up before it deleted the element:
    the memory of a deleted element may be given to another element at once. *)
Definition get_after_delete {K V} `{HashHelpers K V} (k : K) (m : string) (key : Z) : option V :=
  hash_deref (hash_delete k m key).2 <$> hash_lookup k m key.

(** ** Accesses of a program, checked

    Reads of a buffer at an address, stores through the pointer to a reserved
    record, and the release of a record fail when they leave their object or
    use a record that is not live. *)
Definition load (base : Z) (mem : list Z) (a n : Z) : result fault (list Z) :=
  if in_range (a - base) n (zlen mem) then Ok (slice (a - base) n mem) else Err OutOfBounds.

(** [p->name] for a member at bit offset [mb_off] of the object at [p]: the
    bytes that hold it, read little-endian, shifted and masked to its width. *)
Definition read_member (base : Z) (mem : list Z) (p : Z) (m : member) : result fault Z :=
  let lo := mb_off m / 8 in
  let hi := (mb_off m + mb_len m + 7) / 8 in
  bs ← load base mem (p + lo) (hi - lo);
  Ok (Z.land (Z.shiftr (le_value bs) (mb_off m mod 8)) (Z.ones (mb_len m))).

Section access.
Context {K : Type} `{BpfHelpers K}.

Definition store (s : rslot) (off : Z) (bs : list Z) : prog K unit := λ k,
  match slot_mem k s with
  | Some mem =>
      if in_range off (zlen bs) (zlen mem) then Ok (tt, slot_store k s off bs)
      else Err OutOfBounds
  | None => Err BadSlot
  end.

(** A sequence of stores [rec->x = ...; rec->y = ...;]. *)
Fixpoint stores (s : rslot) (ws : list (Z * list Z)) : prog K unit :=
  match ws with
  | [] => mret tt
  | (off, bs) :: ws => store s off bs ≫= λ _, stores s ws
  end.

Definition release (f : K → rslot → K) (s : rslot) : prog K unit := λ k,
  match slot_mem k s with
  | Some _ => Ok (tt, f k s)
  | None => Err BadSlot
  end.

(** [cnt = bpf_map_lookup_elem(&map, &key); if (cnt) __sync_fetch_and_add(cnt, 1)] *)
Definition bump (m : string) (i : Z) : prog K unit := λ k,
  match array_lookup k m i with
  | Some _ => Ok (tt, array_add k m i 1)
  | None => Ok (tt, k)
  end.
End access.

(** ** Frames

    [quiet k k']: the run from [k] to [k'] changed nothing outside its own
    record.  It composes, and every access of the interface has its frame. *)
Definition quiet {K} `{BpfHelpers K} (k k' : K) : Prop :=
  same_arrays k k' ∧ same_ring k k' ∧ same_memory k k'.

#[export] Instance same_arrays_preorder {K} `{BpfHelpers K} : PreOrder (same_arrays (K:=K)).
Proof.
  split; [done|]. intros k1 k2 k3 H1 H2 m i. by rewrite H2, H1.
Qed.

#[export] Instance same_memory_preorder {K} `{BpfHelpers K} : PreOrder (same_memory (K:=K)).
Proof.
  split; [by repeat split|].
  intros k1 k2 k3 (?&?&?&?) (?&?&?&?). repeat split; intros; congruence.
Qed.

#[export] Instance same_ring_preorder {K} `{BpfHelpers K} : PreOrder (same_ring (K:=K)).
Proof. split; [done|]. unfold same_ring. intros k1 k2 k3 H1 H2. by rewrite H2, H1. Qed.

#[export] Instance quiet_preorder {K} `{BpfHelpers K} : PreOrder (quiet (K:=K)).
Proof.
  split; [done|]. intros k1 k2 k3 (?&?&?) (?&?&?). split_and!; by etrans.
Qed.

#[export] Instance same_hashes_preorder {K V} `{HashHelpers K V} : PreOrder (same_hashes (K:=K) (V:=V)).
Proof.
  split; [by split|]. intros k1 k2 k3 [? ?] [? ?]. split; intros; congruence.
Qed.

Lemma same_hashes_get {K V} `{HashHelpers K V} (k k' : K) m key :
  same_hashes k k' → hash_get k' m key = hash_get k m key.
Proof.
  intros [Hl Hd]. unfold hash_get. rewrite Hl. by destruct (hash_lookup k m key); simpl; rewrite ?Hd.
Qed.

Section frames.
Context {K : Type} `{BpfHelpersOk K}.

Lemma reserve_quiet (k k' : K) sz o : ringbuf_reserve k sz = (o, k') → quiet k k'.
Proof. apply reserve_frame. Qed.

Lemma discard_quiet (k : K) s : quiet k (ringbuf_discard k s).
Proof. apply discard_frame. Qed.

Lemma store_ok (k : K) s mem off bs :
  slot_mem k s = Some mem → 0 ≤ off → off + zlen bs ≤ zlen mem →
  ∃ k', store s off bs k = Ok (tt, k') ∧ slot_mem k' s = Some (patch off bs mem) ∧
        quiet k k'.
Proof.
  intros Hs Hoff Hlen. exists (slot_store k s off bs). unfold store. rewrite Hs.
  assert (in_range off (zlen bs) (zlen mem) = true) as ->.
  { apply in_range_spec. pose proof (zlen_nonneg bs). lia. }
  split; [done|]. split; [by apply store_mem|]. apply store_frame.
Qed.

Lemma stores_ok (k : K) s mem ws :
  slot_mem k s = Some mem → writes_ok ws (zlen mem) →
  ∃ k', stores s ws k = Ok (tt, k') ∧ slot_mem k' s = Some (writes ws mem) ∧ quiet k k'.
Proof.
  revert k mem. induction ws as [|[off bs] ws IH]; intros k mem Hs Hok; simpl.
  { by exists k. }
  apply Forall_cons in Hok as [[? ?] Hok]. simpl in *.
  destruct (store_ok k s mem off bs) as (k1 & Hr & Hs1 & Q1); [done..|].
  destruct (IH k1 (patch off bs mem)) as (k' & Hr' & Hs' & Q'); [done| |].
  { by rewrite zlen_patch. }
  exists k'. unfold mbind, prog_bind. rewrite Hr, Hr'. split_and!; [done..|by etrans].
Qed.

Lemma release_ok (k : K) s mem f :
  slot_mem k s = Some mem → release f s k = Ok (tt, f k s).
Proof. intros Hs. unfold release. by rewrite Hs. Qed.

Lemma bump_ok (k : K) m i : ∃ k', bump m i k = Ok (tt, k').
Proof. unfold bump. destruct (array_lookup k m i); eauto. Qed.

Lemma bump_frame (k k' : K) m i u :
  bump m i k = Ok (u, k') → same_ring k k' ∧ same_memory k k'.
Proof.
  unfold bump. destruct (array_lookup k m i); intros [= _ <-].
  - split; [apply add_ring|apply add_memory].
  - by repeat split.
Qed.

Lemma bump_lookup (k k' : K) m i u m' i' :
  bump m i k = Ok (u, k') →
  array_lookup k' m' i' =
    if decide ((m, i) = (m', i')) then (λ v, wrap 64 (v + 1)) <$> array_lookup k m i
    else array_lookup k m' i'.
Proof.
  unfold bump. destruct (array_lookup k m i) as [v|] eqn:E; intros [= _ <-].
  - case_decide as Hd; simplify_eq/=; [by apply add_lookup|by apply add_other].
  - case_decide; simplify_eq/=; [by rewrite E|done].
Qed.
End frames.

Section hash_frames.
Context {K V : Type} `{HashHelpersOk K V}.

Lemma store_same_hashes (k k' : K) s off bs u :
  store s off bs k = Ok (u, k') → same_hashes k k'.
Proof.
  unfold store. repeat case_match; intros; simplify_eq. apply store_hashes.
Qed.

Lemma stores_same_hashes (k k' : K) s ws u :
  stores s ws k = Ok (u, k') → same_hashes k k'.
Proof.
  revert k. induction ws as [|[off bs] ws IH]; intros k; simpl.
  { by intros [= _ <-]. }
  unfold mbind, prog_bind. destruct (store s off bs k) as [[? k1]|] eqn:E; [|done].
  intros. etrans; [by eapply store_same_hashes|by eapply IH].
Qed.

Lemma stores_run `{!BpfHelpersOk K} (k : K) s mem ws :
  slot_mem k s = Some mem → writes_ok ws (zlen mem) →
  ∃ k', stores s ws k = Ok (tt, k') ∧ slot_mem k' s = Some (writes ws mem) ∧
        zlen (writes ws mem) = zlen mem ∧ quiet k k' ∧ same_hashes k k'.
Proof.
  intros Hs Hok. destruct (stores_ok k s mem ws Hs Hok) as (k' & Hr & Hs' & Q).
  exists k'. eauto 10 using zlen_writes, stores_same_hashes.
Qed.

Lemma bump_same_hashes (k k' : K) m i u : bump m i k = Ok (u, k') → same_hashes k k'.
Proof. unfold bump. case_match; intros; simplify_eq; [apply add_hashes|done]. Qed.
End hash_frames.

(** ** A simulated kernel

    Arrays as a finite map, reserved records as a heap, a ring with room for
    [sim_room] more records whose memory holds the byte [sim_stale] before a
    program writes it, memories given by functions from addresses to bytes, and
    two switches that make the probing reads fail.  A pointer into a hash map
    remembers the value it was returned for; once the element is deleted it
    reads that value, or the value of [reuse] when the element's memory has been
    given to another CPU. *)
Module SimKernel.
Record state (V : Type) := State {
  sim_arrays : gmap (string * Z) Z;
  sim_slots : gmap nat (list Z);
  sim_next : nat;
  sim_room : nat;
  sim_stale : Z;
  sim_log : list (list Z);
  sim_kmem : Z → Z;
  sim_umem : Z → Z;
  sim_kfail : bool;
  sim_ufail : bool;
  sim_hash : gmap (string * Z) V;
  sim_hroom : bool;
}.
Arguments State {V}.
Arguments sim_arrays {V}.
Arguments sim_slots {V}.
Arguments sim_next {V}.
Arguments sim_room {V}.
Arguments sim_stale {V}.
Arguments sim_log {V}.
Arguments sim_kmem {V}.
Arguments sim_umem {V}.
Arguments sim_kfail {V}.
Arguments sim_ufail {V}.
Arguments sim_hash {V}.
Arguments sim_hroom {V}.

Section sim.
Context {V : Type}.
Implicit Types k : state V.

(** Replacing the arrays, the ring (slots, next, room, log) or the hash maps. *)
Definition with_arrays f k : state V :=
  State (f (sim_arrays k)) (sim_slots k) (sim_next k) (sim_room k) (sim_stale k) (sim_log k)
    (sim_kmem k) (sim_umem k) (sim_kfail k) (sim_ufail k) (sim_hash k) (sim_hroom k).
Definition with_ring slots next room log k : state V :=
  State (sim_arrays k) slots next room (sim_stale k) log
    (sim_kmem k) (sim_umem k) (sim_kfail k) (sim_ufail k) (sim_hash k) (sim_hroom k).
Definition with_hash hash k : state V :=
  State (sim_arrays k) (sim_slots k) (sim_next k) (sim_room k) (sim_stale k) (sim_log k)
    (sim_kmem k) (sim_umem k) (sim_kfail k) (sim_ufail k) hash (sim_hroom k).

Definition mem_at (m : Z → Z) (n a : Z) : list Z := (λ i, m (a + i)) <$> seqZ 0 n.

Definition reserve k (sz : Z) : option nat * state V :=
  match sim_room k with
  | O => (None, k)
  | S room =>
      (Some (sim_next k),
       with_ring (<[sim_next k := replicate (Z.to_nat sz) (wrap 8 (sim_stale k))]> (sim_slots k))
         (S (sim_next k)) room (sim_log k) k)
  end.

Definition slots_map f k : state V :=
  with_ring (f (sim_slots k)) (sim_next k) (sim_room k) (sim_log k) k.

Definition submit k (s : nat) : state V :=
  with_ring (delete s (sim_slots k)) (sim_next k) (sim_room k)
    (sim_log k ++ option_list (sim_slots k !! s)) k.

Definition probe (fail : bool) (mem : Z → Z) (n a : Z) : Z * list Z :=
  if fail then (-14, replicate (Z.to_nat n) 0) else (0, mem_at mem n a).

#[global] Instance helpers : BpfHelpers (state V) := {|
  bpf_ntohs x := be_value (le_bytes 2 x);
  array_lookup k m i := sim_arrays k !! (m, i);
  array_add k m i n := with_arrays (alter (λ v, wrap 64 (v + n)) (m, i)) k;
  rslot := nat;
  ringbuf_reserve := reserve;
  slot_mem k s := sim_slots k !! s;
  slot_store k s off bs := slots_map (alter (patch off bs) s) k;
  ringbuf_submit := submit;
  ringbuf_discard k s := slots_map (delete s) k;
  ring_log := sim_log;
  kernel_mem k n a := mem_at (sim_kmem k) n a;
  user_mem k n a := mem_at (sim_umem k) n a;
  bpf_probe_read_kernel k n a := probe (sim_kfail k) (sim_kmem k) n a;
  bpf_probe_read_user k n a := probe (sim_ufail k) (sim_umem k) n a;
|}.

Definition update k (m : string) (key : Z) (v : V) : Z * state V :=
  if sim_hroom k then (0, with_hash (<[(m, key) := v]> (sim_hash k)) k) else (-7, k).

Definition remove k (m : string) (key : Z) : Z * state V :=
  match sim_hash k !! (m, key) with
  | None => (-2, k)
  | Some _ => (0, with_hash (delete (m, key) (sim_hash k)) k)
  end.

Definition hashes (reuse : option V) : HashHelpers (state V) V := {|
  hptr := (string * Z) * V;
  hash_lookup k m key := (λ v, ((m, key), v)) <$> sim_hash k !! (m, key);
  hash_deref k p :=
    match sim_hash k !! p.1 with
    | Some v => v
    | None => default p.2 reuse
    end;
  hash_update := update;
  hash_delete := remove;
|}.

Lemma mem_at_len m n a : 0 ≤ n → zlen (mem_at m n a) = n.
Proof. intros. unfold zlen, mem_at. rewrite length_fmap, length_seqZ. lia. Qed.

Lemma probe_spec fail mem n a ret bs :
  probe fail mem n a = (ret, bs) →
  bs = (if 0 <=? ret then mem_at mem n a else replicate (Z.to_nat n) 0).
Proof. unfold probe. destruct fail; intros [= <- <-]; done. Qed.

#[global] Instance helpers_ok : BpfHelpersOk (state V).
Proof.
  split.
  - done.
  - intros k m i n v Hv. simpl in *. by rewrite lookup_alter_eq, Hv.
  - intros k m i n m' i' Hne. simpl. by apply lookup_alter_ne.
  - done.
  - by repeat split.
  - intros k sz s k' ? Hr. simpl in Hr. unfold reserve in Hr.
    destruct (sim_room k); simplify_eq/=.
    eexists. rewrite lookup_insert_eq. split; [done|].
    unfold zlen. rewrite length_replicate. split; [lia|].
    apply Forall_replicate, wrap_range. lia.
  - intros k sz o k' Hr. simpl in Hr. unfold reserve in Hr.
    destruct (sim_room k); simplify_eq/=; by repeat split.
  - intros k s mem off bs Hs ? ?. simpl in *. by rewrite lookup_alter_eq, Hs.
  - by repeat split.
  - intros k s mem Hs. simpl in *. by rewrite Hs.
  - by repeat split.
  - by repeat split.
  - intros k n a ret bs ? Hp. by apply probe_spec in Hp.
  - intros. by apply mem_at_len.
  - intros k n a ret bs ? Hp. by apply probe_spec in Hp.
  - intros. by apply mem_at_len.
Qed.

Lemma hash_get_sim reuse k m key :
  hash_get (H := hashes reuse) k m key = sim_hash k !! (m, key).
Proof. unfold hash_get. simpl. by destruct (sim_hash k !! (m, key)) eqn:E; simpl; rewrite ?E. Qed.

Lemma hashes_ok reuse :
  HashHelpersOk (state V) V (H0 := hashes reuse).
Proof.
  split.
  - intros k m key v ret k'. rewrite !hash_get_sim. simpl. unfold update.
    destruct (sim_hroom k); intros [= <- <-]; [apply lookup_insert_eq|done].
  - intros k m key v ret k' m' key'. rewrite !hash_get_sim. simpl. unfold update.
    destruct (sim_hroom k); intros [= <- <-] Hne; [by apply lookup_insert_ne|done].
  - intros k m key v ret k'. simpl. unfold update.
    destruct (sim_hroom k); intros [= <- <-]; by repeat split.
  - intros k m key ret k'. rewrite !hash_get_sim. simpl. unfold remove.
    destruct (sim_hash k !! (m, key)) eqn:E; intros [= <- <-]; [apply lookup_delete_eq|done].
  - intros k m key ret k' m' key'. rewrite !hash_get_sim. simpl. unfold remove.
    destruct (sim_hash k !! (m, key)) eqn:E; intros [= <- <-] Hne; [by apply lookup_delete_ne|done].
  - intros k m key ret k'. simpl. unfold remove.
    destruct (sim_hash k !! (m, key)); intros [= <- <-]; by repeat split.
  - done.
  - intros k sz o k'. simpl. unfold reserve. destruct (sim_room k); intros [= <- <-]; done.
  - done.
  - done.
  - done.
Qed.

End sim.
Arguments state V : clear implicits.

(** A buffer mapped at an address. *)
Definition mapped (base : Z) (bs : list Z) (a : Z) : Z := nth (Z.to_nat (a - base)) bs 0.

Lemma mem_at_mapped base bs n :
  0 ≤ n ≤ zlen bs → mem_at (mapped base bs) n base = slice 0 n bs.
Proof.
  intros Hn. unfold zlen in Hn. apply list_eq. intros i. rewrite slice_lookup. unfold mem_at.
  rewrite list_lookup_fmap. case_decide.
  - rewrite (proj2 (lookup_seqZ 0 n i (0 + Z.of_nat i))) by lia. simpl. unfold mapped.
    replace (Z.to_nat (base + (0 + Z.of_nat i) - base)) with i by lia.
    destruct (lookup_lt_is_Some_2 bs i) as [x Hx]; [lia|].
    by rewrite nth_lookup, Hx.
  - rewrite (proj2 (lookup_ge_None _ _)); [done|]. rewrite length_seqZ. lia.
Qed.
End SimKernel.
