(* ===== verification/Xdp.v ===== *)
(** * The XDP program (src/pkg/capture/bpf/pgshadow_xdp.c)

    [pgshadow_xdp] parses a frame up to the TCP ports, compares them with the
    configured port and mirrors matching frames into the ring buffer, counting
    what it delivers and what it drops; it returns [XDP_PASS] on every path.
    The packet is a byte list mapped at the address [ctx_data]; every
    dereference is checked against [[data, data_end)], every store against the
    reserved record. *)
From S2P Require Import Prelude CLayout Vmlinux VmlinuxFacts BpfHelpers.

(** ** Declarations of the file *)
Definition FIXED_SNAP_LEN : Z := 4096.
Definition STATS_RECEIVED : Z := 0.
Definition STATS_DROPPED : Z := 1.

(** Maps. *)
Definition pkt_ring : map_def := MapDef "BPF_MAP_TYPE_RINGBUF" None None (64 * 1024 * 1024).
Definition stats : map_def :=
  MapDef "BPF_MAP_TYPE_PERCPU_ARRAY" (Some "__u32"%string) (Some "__u64"%string) 2.
Definition cfg_port : map_def :=
  MapDef "BPF_MAP_TYPE_ARRAY" (Some "__u32"%string) (Some "__u16"%string) 1.

Definition pkt_record : ctype := CAgg Struct false [
  Fld "len" (CRef "__u32");
  Fld "cap_len" (CRef "__u32");
  Fld "data" (CArr FIXED_SNAP_LEN (CRef "__u8"))].

Definition sizeof_pkt_record : Z :=
  Eval vm_compute in from_option ly_size 0 (layout_of vm_env pkt_record).
Definition pkt_record_member (name : string) : member :=
  default (Member "" 0 0) (find_member vm_env pkt_record name).
Definition rec_len : Z := Eval vm_compute in mb_off (pkt_record_member "len") / 8.
Definition rec_cap_len : Z := Eval vm_compute in mb_off (pkt_record_member "cap_len") / 8.
Definition rec_data : Z := Eval vm_compute in mb_off (pkt_record_member "data") / 8.

(** What the program uses of vmlinux.h. *)
Definition XDP_PASS : Z :=
  Eval vm_compute in default (-1) (enum_value enum_xdp_action "XDP_PASS").
Definition sizeof_ethhdr : Z := Eval vm_compute in vm_sizeof "struct ethhdr".
Definition sizeof_iphdr : Z := Eval vm_compute in vm_sizeof "struct iphdr".
Definition sizeof_ipv6hdr : Z := Eval vm_compute in vm_sizeof "struct ipv6hdr".
Definition sizeof_tcphdr : Z := Eval vm_compute in vm_sizeof "struct tcphdr".
Definition eth_h_proto : member := Eval vm_compute in vm_member "struct ethhdr" "h_proto".
Definition ip_protocol : member := Eval vm_compute in vm_member "struct iphdr" "protocol".
Definition ip_ihl : member := Eval vm_compute in vm_member "struct iphdr" "ihl".
Definition ip6_nexthdr : member := Eval vm_compute in vm_member "struct ipv6hdr" "nexthdr".
Definition tcp_source : member := Eval vm_compute in vm_member "struct tcphdr" "source".
Definition tcp_dest : member := Eval vm_compute in vm_member "struct tcphdr" "dest".

(** The context: the frame and the address it is mapped at. *)
Record xdp_ctx := XdpCtx { ctx_data : Z; ctx_pkt : list Z }.
Definition ctx_data_end (ctx : xdp_ctx) : Z := ctx_data ctx + zlen (ctx_pkt ctx).

(** ** The program *)
Section program.
Context {K : Type} `{BpfHelpers K}.

Definition deref (ctx : xdp_ctx) (p : Z) (m : member) : result fault Z :=
  read_member (ctx_data ctx) (ctx_pkt ctx) p m.

(** The header walk: the address of the TCP header, or [None] for an early
    [return XDP_PASS]. *)
Definition parse_tcp (ctx : xdp_ctx) : result fault (option Z) :=
  let data := ctx_data ctx in
  let data_end := ctx_data_end ctx in
  let eth := data in
  if eth + sizeof_ethhdr >? data_end then Ok None else
  h_proto ← deref ctx eth eth_h_proto;
  let eth_proto := bpf_ntohs h_proto in
  if eth_proto =? 0x0800 then
    let ip := eth + sizeof_ethhdr in
    if ip + sizeof_iphdr >? data_end then Ok None else
    protocol ← deref ctx ip ip_protocol;
    if negb (protocol =? 6) then Ok None else
    ihl ← deref ctx ip ip_ihl;
    let ip_hlen := wrap 32 (ihl * 4) in
    if (ip_hlen <? 20) || (ip_hlen >? 60) then Ok None else
    let tcp := ip + ip_hlen in
    if tcp + sizeof_tcphdr >? data_end then Ok None else Ok (Some tcp)
  else if eth_proto =? 0x86DD then
    let ip6 := eth + sizeof_ethhdr in
    if ip6 + sizeof_ipv6hdr >? data_end then Ok None else
    nexthdr ← deref ctx ip6 ip6_nexthdr;
    if negb (nexthdr =? 6) then Ok None else
    let tcp := ip6 + sizeof_ipv6hdr in
    if tcp + sizeof_tcphdr >? data_end then Ok None else Ok (Some tcp)
  else Ok None.

(** [tcp->source != *target_port && tcp->dest != *target_port]: the second
    operand is only evaluated when the first holds. *)
Definition ports_differ (ctx : xdp_ctx) (tcp target_port : Z) : result fault bool :=
  source ← deref ctx tcp tcp_source;
  if negb (source =? target_port) then
    dest ← deref ctx tcp tcp_dest; Ok (negb (dest =? target_port))
  else Ok false.

(** Filling and handing over a reserved record. *)
Definition fill_record (ctx : xdp_ctx) (rec : rslot) (frame_len cap_len : Z) : prog K Z :=
  store rec rec_len (le_bytes 4 frame_len) ≫= λ _,
  store rec rec_cap_len (le_bytes 4 cap_len) ≫= λ _,
  if ctx_data ctx + cap_len >? ctx_data_end ctx then
    release ringbuf_discard rec ≫= λ _, mret XDP_PASS
  else
    get_state (λ k, bpf_probe_read_kernel k
      (Z.land cap_len (FIXED_SNAP_LEN - 1)) (ctx_data ctx)) ≫= λ '(ret, bytes),
    store rec rec_data bytes ≫= λ _,
    if ret <? 0 then release ringbuf_discard rec ≫= λ _, mret XDP_PASS
    else
      release ringbuf_submit rec ≫= λ _,
      bump "stats" STATS_RECEIVED ≫= λ _,
      mret XDP_PASS.

Definition mirror (ctx : xdp_ctx) : prog K Z :=
  let frame_len := wrap 32 (ctx_data_end ctx - ctx_data ctx) in
  if frame_len =? 0 then mret XDP_PASS else
  let cap_len := if frame_len >? FIXED_SNAP_LEN then FIXED_SNAP_LEN else frame_len in
  call (λ k, ringbuf_reserve k sizeof_pkt_record) ≫= λ rec,
  match rec with
  | None => bump "stats" STATS_DROPPED ≫= λ _, mret XDP_PASS
  | Some rec => fill_record ctx rec frame_len cap_len
  end.

Definition pgshadow_xdp (ctx : xdp_ctx) : prog K Z :=
  lift (parse_tcp ctx) ≫= λ tcp,
  match tcp with
  | None => mret XDP_PASS
  | Some tcp =>
      get_state (λ k, array_lookup k "cfg_port" 0) ≫= λ target_port,
      match target_port with
      | None => mret XDP_PASS
      | Some target_port =>
          lift (ports_differ ctx tcp target_port) ≫= λ differ,
          if (differ : bool) then mret XDP_PASS else mirror ctx
      end
  end.

(** A sequence of frames, one program run each, with the verdicts. *)
Fixpoint run_frames (ctxs : list xdp_ctx) : prog K (list Z) :=
  match ctxs with
  | [] => mret []
  | ctx :: ctxs =>
      pgshadow_xdp ctx ≫= λ v, run_frames ctxs ≫= λ vs, mret (v :: vs)
  end.
End program.

(** ** What the header walk accepts

    The wire formats, stated on the frame alone: Ethernet, then IPv4 with TCP
    inside and a header of 5 to 15 words, or IPv6 with TCP as its next header,
    with room for a TCP header without options. *)
Definition be16 (off : Z) (pkt : list Z) : Z := be_value (slice off 2 pkt).
Definition byte_at (off : Z) (pkt : list Z) : Z := be_value (slice off 1 pkt).

Definition tcp_offset (pkt : list Z) : option Z :=
  if zlen pkt <? 14 then None
  else if be16 12 pkt =? 0x0800 then
    let ihl := byte_at 14 pkt mod 16 in
    if (34 <=? zlen pkt) && (byte_at 23 pkt =? 6) && (5 <=? ihl) &&
       (14 + 4 * ihl + 20 <=? zlen pkt)
    then Some (14 + 4 * ihl) else None
  else if be16 12 pkt =? 0x86DD then
    if (74 <=? zlen pkt) && (byte_at 20 pkt =? 6) then Some 54 else None
  else None.

(** The configured port is compared with the ports as loaded. *)
Definition port_match (v : Z) (pkt : list Z) (off : Z) : bool :=
  (le_value (slice off 2 pkt) =? v) || (le_value (slice (off + 2) 2 pkt) =? v).

(** Whether the program mirrors a frame, given the value in [cfg_port]. *)
Definition wanted (port : option Z) (pkt : list Z) : bool :=
  match port, tcp_offset pkt with
  | Some v, Some off => port_match v pkt off && negb (wrap 32 (zlen pkt) =? 0)
  | _, _ => false
  end.

(** ** Member reads *)
Lemma load_ok base mem a n :
  0 ≤ a - base → 0 ≤ n → a - base + n ≤ zlen mem →
  load base mem a n = Ok (slice (a - base) n mem).
Proof. intros. unfold load. by rewrite (proj2 (in_range_spec _ _ _)). Qed.

Lemma read_member_bytes base mem p name b w :
  0 ≤ w → 0 ≤ p + b - base → p + b - base + w ≤ zlen mem →
  read_member base mem p (Member name (8 * b) (8 * w)) =
  Ok (Z.land (le_value (slice (p + b - base) w mem)) (Z.ones (8 * w))).
Proof.
  intros. unfold read_member. simpl mb_off. simpl mb_len.
  replace (8 * b / 8) with b by (rewrite Z.mul_comm, Z.div_mul; lia).
  replace ((8 * b + 8 * w + 7) / 8) with (b + w) by (Z.div_mod_to_equations; lia).
  replace (8 * b mod 8) with 0 by (rewrite Z.mul_comm, Z.mod_mul; lia).
  replace (b + w - b) with w by lia.
  rewrite load_ok by lia. cbn. by rewrite Z.shiftr_0_r.
Qed.

(** Reading whole bytes of a buffer of bytes needs no masking. *)
Lemma land_ones_bytes w l :
  0 ≤ w → zlen l = w → bytes_ok l → Z.land (le_value l) (Z.ones (8 * w)) = le_value l.
Proof.
  intros Hw Hl Hb. rewrite Z.land_ones by lia. apply Z.mod_small.
  pose proof (le_value_range l Hb) as Hr. unfold zlen in Hl.
  rewrite Hl in Hr. by rewrite Z.pow_mul_r by lia.
Qed.

Section reads.
Variable ctx : xdp_ctx.
Abbreviation data := (ctx_data ctx).
Abbreviation pkt := (ctx_pkt ctx).

Lemma deref_ok o name b w :
  0 ≤ o → 0 ≤ b → 0 ≤ w → o + b + w ≤ zlen pkt →
  deref ctx (data + o) (Member name (8 * b) (8 * w)) =
  Ok (Z.land (le_value (slice (o + b) w pkt)) (Z.ones (8 * w))).
Proof.
  intros. unfold deref. rewrite read_member_bytes by lia.
  by replace (data + o + b - data) with (o + b) by lia.
Qed.

Lemma deref_value o name b w :
  0 ≤ o → 0 ≤ b → 0 ≤ w → o + b + w ≤ zlen pkt → bytes_ok pkt →
  deref ctx (data + o) (Member name (8 * b) (8 * w)) = Ok (le_value (slice (o + b) w pkt)).
Proof.
  intros. rewrite deref_ok by lia. f_equal. apply land_ones_bytes; [lia| |].
  - apply zlen_slice; lia.
  - by apply slice_bytes_ok.
Qed.

Lemma deref_ihl o :
  0 ≤ o → o + 1 ≤ zlen pkt →
  deref ctx (data + o) ip_ihl = Ok (le_value (slice o 1 pkt) mod 16).
Proof.
  intros. unfold deref, ip_ihl, read_member. cbn [mb_off mb_len].
  change (0 / 8) with 0. change ((0 + 4 + 7) / 8 - 0) with 1. change (0 mod 8) with 0.
  rewrite load_ok by lia. cbn [mbind result_bind]. rewrite Z.shiftr_0_r, Z.land_ones by lia.
  by replace (data + o + 0 - data) with o by lia.
Qed.
End reads.

(** One byte reads the same in both orders; two bytes swap. *)
Lemma le_be_value1 l : zlen l = 1 → le_value l = be_value l.
Proof. unfold zlen. destruct l as [|a [|b l]]; intros; simplify_eq/=; try lia; done. Qed.

Lemma ntohs_slice {K} `{BpfHelpersOk K} off pkt :
  bytes_ok pkt → 0 ≤ off → off + 2 ≤ zlen pkt →
  bpf_ntohs (le_value (slice off 2 pkt)) = be16 off pkt.
Proof.
  intros Hb ? ?.
  assert (length (slice off 2 pkt) = 2%nat) as Hl.
  { pose proof (zlen_slice off 2 pkt). unfold zlen in *. lia. }
  pose proof (le_value_range _ (slice_bytes_ok off 2 pkt Hb)) as Hr. rewrite Hl in Hr.
  rewrite ntohs_spec by exact Hr.
  unfold be16. rewrite <- Hl at 1. by rewrite le_bytes_value by by apply slice_bytes_ok.
Qed.

(** ** The header walk meets its specification *)
Section parse.
Context {K : Type} `{BpfHelpersOk K}.

Lemma parse_ipv4 ctx :
  bytes_ok (ctx_pkt ctx) → 14 ≤ zlen (ctx_pkt ctx) → be16 12 (ctx_pkt ctx) = 0x0800 →
  parse_tcp (K:=K) ctx = Ok (Z.add (ctx_data ctx) <$> tcp_offset (ctx_pkt ctx)).
Proof.
  intros Hb H14 Hty. unfold parse_tcp, ctx_data_end, tcp_offset. rewrite ?Z.gtb_ltb.
  rewrite (proj2 (Z.ltb_ge (zlen (ctx_pkt ctx)) 14)) by lia. rewrite Hty. cbn [Z.eqb Pos.eqb].
  rewrite (proj2 (Z.ltb_ge _ _)) by (unfold sizeof_ethhdr; lia).
  replace (ctx_data ctx) with (ctx_data ctx + 0) at 1 by lia.
  change eth_h_proto with (Member "h_proto" (8 * 12) (8 * 2)).
  rewrite deref_value by (done || lia). cbn [mbind result_bind]. rewrite ?Z.gtb_ltb.
  rewrite ntohs_slice by (done || lia). change (0 + 12) with 12. rewrite Hty. cbn [Z.eqb Pos.eqb].
  unfold sizeof_ethhdr, sizeof_iphdr, sizeof_tcphdr.
  destruct (34 <=? zlen (ctx_pkt ctx)) eqn:H34; zb; cycle 1.
  { by rewrite (proj2 (Z.ltb_lt _ _)) by lia. }
  rewrite (proj2 (Z.ltb_ge _ _)) by lia.
  change ip_protocol with (Member "protocol" (8 * 9) (8 * 1)).
  rewrite deref_value by (done || lia). cbn [mbind result_bind]. rewrite ?Z.gtb_ltb. change (14 + 9) with 23.
  rewrite (le_be_value1 (slice 23 1 _)) by (apply zlen_slice; lia).
  change (be_value (slice 23 1 (ctx_pkt ctx))) with (byte_at 23 (ctx_pkt ctx)).
  destruct (byte_at 23 (ctx_pkt ctx) =? 6); [|done]. cbn [negb andb].
  rewrite deref_ihl by lia. cbn [mbind result_bind]. rewrite ?Z.gtb_ltb.
  rewrite (le_be_value1 (slice 14 1 _)) by (apply zlen_slice; lia).
  change (be_value (slice 14 1 (ctx_pkt ctx))) with (byte_at 14 (ctx_pkt ctx)).
  pose proof (Z.mod_pos_bound (byte_at 14 (ctx_pkt ctx)) 16 ltac:(lia)).
  rewrite (wrap_small 32) by (unfold in_width; lia).
  set (ihl := byte_at 14 (ctx_pkt ctx) mod 16) in *.
  rewrite (proj2 (Z.ltb_ge 60 (ihl * 4))) by lia. rewrite orb_false_r.
  destruct (5 <=? ihl) eqn:H5; zb.
  - rewrite (proj2 (Z.ltb_ge (ihl * 4) 20)) by lia. cbn [andb].
    destruct (14 + 4 * ihl + 20 <=? _) eqn:Hl; zb.
    + rewrite (proj2 (Z.ltb_ge _ _)) by lia. cbn. do 2 f_equal. lia.
    + by rewrite (proj2 (Z.ltb_lt _ _)) by lia.
  - by rewrite (proj2 (Z.ltb_lt (ihl * 4) 20)) by lia.
Qed.

Lemma parse_ipv6 ctx :
  bytes_ok (ctx_pkt ctx) → 14 ≤ zlen (ctx_pkt ctx) → be16 12 (ctx_pkt ctx) ≠ 0x0800 →
  parse_tcp (K:=K) ctx = Ok (Z.add (ctx_data ctx) <$> tcp_offset (ctx_pkt ctx)).
Proof.
  intros Hb H14 Hty. unfold parse_tcp, ctx_data_end, tcp_offset. rewrite ?Z.gtb_ltb.
  rewrite (proj2 (Z.ltb_ge (zlen (ctx_pkt ctx)) 14)) by lia.
  rewrite (proj2 (Z.ltb_ge _ _)) by (unfold sizeof_ethhdr; lia).
  replace (ctx_data ctx) with (ctx_data ctx + 0) at 1 by lia.
  change eth_h_proto with (Member "h_proto" (8 * 12) (8 * 2)).
  rewrite deref_value by (done || lia). cbn [mbind result_bind]. rewrite ?Z.gtb_ltb.
  rewrite ntohs_slice by (done || lia). change (0 + 12) with 12.
  rewrite (proj2 (Z.eqb_neq _ _) Hty).
  unfold sizeof_ethhdr, sizeof_ipv6hdr, sizeof_tcphdr.
  destruct (be16 12 (ctx_pkt ctx) =? 0x86DD); [|done].
  destruct (54 <=? zlen (ctx_pkt ctx)) eqn:H54; zb; cycle 1.
  { rewrite (proj2 (Z.ltb_lt _ _)) by lia. by rewrite (proj2 (Z.leb_gt 74 _)) by lia. }
  rewrite (proj2 (Z.ltb_ge _ _)) by lia.
  change ip6_nexthdr with (Member "nexthdr" (8 * 6) (8 * 1)).
  rewrite deref_value by (done || lia). cbn [mbind result_bind]. rewrite ?Z.gtb_ltb. change (14 + 6) with 20.
  rewrite (le_be_value1 (slice 20 1 _)) by (apply zlen_slice; lia).
  change (be_value (slice 20 1 (ctx_pkt ctx))) with (byte_at 20 (ctx_pkt ctx)).
  destruct (74 <=? zlen (ctx_pkt ctx)) eqn:H74; zb.
  - rewrite (proj2 (Z.ltb_ge _ _)) by lia.
    destruct (byte_at 20 (ctx_pkt ctx) =? 6); [|done]. cbn. do 2 f_equal. lia.
  - rewrite (proj2 (Z.ltb_lt _ _)) by lia.
    by destruct (byte_at 20 (ctx_pkt ctx) =? 6).
Qed.

(** The walk never leaves the frame and finds exactly the TCP headers of the
    wire formats. *)
Lemma parse_tcp_spec ctx :
  bytes_ok (ctx_pkt ctx) →
  parse_tcp (K:=K) ctx = Ok (Z.add (ctx_data ctx) <$> tcp_offset (ctx_pkt ctx)).
Proof.
  intros Hb. destruct (decide (14 ≤ zlen (ctx_pkt ctx))) as [H14|H14].
  - destruct (decide (be16 12 (ctx_pkt ctx) = 0x0800)); auto using parse_ipv4, parse_ipv6.
  - unfold parse_tcp, ctx_data_end, tcp_offset, sizeof_ethhdr. rewrite ?Z.gtb_ltb.
    by rewrite !(proj2 (Z.ltb_lt _ _)) by lia.
Qed.

Lemma tcp_offset_bounds pkt off :
  tcp_offset pkt = Some off → 34 ≤ off ∧ off + 20 ≤ zlen pkt.
Proof.
  unfold tcp_offset. intros Ho. repeat case_match; simplify_eq; zb; lia.
Qed.

Lemma ports_differ_spec ctx off v :
  bytes_ok (ctx_pkt ctx) → tcp_offset (ctx_pkt ctx) = Some off →
  ports_differ ctx (ctx_data ctx + off) v = Ok (negb (port_match v (ctx_pkt ctx) off)).
Proof.
  intros Hb Ho%tcp_offset_bounds. unfold ports_differ, port_match.
  change tcp_source with (Member "source" (8 * 0) (8 * 2)).
  change tcp_dest with (Member "dest" (8 * 2) (8 * 2)).
  rewrite !deref_value by (done || lia). cbn [mbind result_bind]. rewrite ?Z.gtb_ltb.
  rewrite Z.add_0_r. by destruct (le_value _ =? v).
Qed.
End parse.

(** ** Runs of the program *)

(** The record as it leaves the program: header and copied bytes over what the
    slot held. *)
Definition record_image (frame_len cap_len : Z) (bytes mem : list Z) : list Z :=
  patch rec_data bytes (patch rec_cap_len (le_bytes 4 cap_len)
    (patch rec_len (le_bytes 4 frame_len) mem)).

Definition frame_len (pkt : list Z) : Z := wrap 32 (zlen pkt).
Definition cap_len (pkt : list Z) : Z := Z.min (frame_len pkt) FIXED_SNAP_LEN.

(** The size passed to the copying helper. *)
Definition copy_len (pkt : list Z) : Z := Z.land (cap_len pkt) (FIXED_SNAP_LEN - 1).

Lemma copy_len_mod pkt : copy_len pkt = cap_len pkt mod 4096.
Proof. unfold copy_len. change (FIXED_SNAP_LEN - 1) with (Z.ones 12). by rewrite Z.land_ones. Qed.

Lemma frame_len_le pkt : 0 ≤ frame_len pkt ≤ zlen pkt.
Proof.
  unfold frame_len, wrap. pose proof (zlen_nonneg pkt).
  split; [apply Z.mod_pos_bound|apply Z.mod_le]; lia.
Qed.

Lemma copy_len_range pkt : 0 ≤ copy_len pkt < 4096.
Proof. rewrite copy_len_mod. apply Z.mod_pos_bound. lia. Qed.

Section runs.
Context {K : Type} `{BpfHelpersOk K}.
Implicit Types (k : K) (ctx : xdp_ctx).

(** What a mirroring run leaves behind. *)
Definition captured ctx k bytes mem k' : Prop :=
  ∃ k2, bump "stats" STATS_RECEIVED k2 = Ok (tt, k') ∧
    same_arrays k k2 ∧ same_memory k k2 ∧
    ring_log k2 = ring_log k ++
      [record_image (frame_len (ctx_pkt ctx)) (cap_len (ctx_pkt ctx)) bytes mem].

Lemma probe_len k n a ret bytes :
  0 ≤ n → bpf_probe_read_kernel k n a = (ret, bytes) → zlen bytes = n.
Proof.
  intros Hn Hr. rewrite (kernel_read_spec _ _ _ _ _ Hn Hr).
  destruct (0 <=? ret); [by apply kernel_mem_len|].
  unfold zlen. rewrite length_replicate. lia.
Qed.

Lemma zlen_header flen cap mem :
  zlen mem = sizeof_pkt_record →
  zlen (patch rec_len (le_bytes 4 flen) mem) = 4104 ∧
  zlen (patch rec_cap_len (le_bytes 4 cap) (patch rec_len (le_bytes 4 flen) mem)) = 4104.
Proof.
  unfold sizeof_pkt_record, rec_len, rec_cap_len. intros.
  by rewrite !zlen_patch by (rewrite ?zlen_patch; rewrite ?zlen_le_bytes; lia).
Qed.

Lemma fill_record_spec ctx k s mem ret bytes :
  slot_mem k s = Some mem → zlen mem = sizeof_pkt_record →
  bpf_probe_read_kernel k (copy_len (ctx_pkt ctx)) (ctx_data ctx) = (ret, bytes) →
  ∃ k', fill_record ctx s (frame_len (ctx_pkt ctx)) (cap_len (ctx_pkt ctx)) k = Ok (XDP_PASS, k') ∧
    if ret <? 0 then quiet k k' else captured ctx k bytes mem k'.
Proof.
  intros Hs Hl Hr. destruct (zlen_header (frame_len (ctx_pkt ctx)) (cap_len (ctx_pkt ctx)) _ Hl)
    as [Hl1 Hl2]. unfold sizeof_pkt_record in Hl.
  pose proof (frame_len_le (ctx_pkt ctx)). pose proof (copy_len_range (ctx_pkt ctx)).
  assert (zlen bytes = copy_len (ctx_pkt ctx)) as Hbl by (eapply probe_len; [|done]; lia).
  unfold fill_record, mbind, prog_bind.
  destruct (store_ok k s mem rec_len (le_bytes 4 (frame_len (ctx_pkt ctx))) Hs)
    as (k1 & -> & Hs1 & Q1); [done|rewrite zlen_le_bytes; unfold rec_len; lia|].
  destruct (store_ok k1 s _ rec_cap_len (le_bytes 4 (cap_len (ctx_pkt ctx))) Hs1)
    as (k2 & -> & Hs2 & Q2); [done|rewrite zlen_le_bytes; unfold rec_cap_len; lia|].
  rewrite Z.gtb_ltb, (proj2 (Z.ltb_ge _ _)) by (unfold ctx_data_end, cap_len; lia).
  assert (quiet k k2) as Q by (by etrans).
  unfold get_state. change (Z.land _ (FIXED_SNAP_LEN - 1)) with (copy_len (ctx_pkt ctx)).
  rewrite (proj1 (proj2 (proj2 (proj2 Q)))), Hr.
  destruct (store_ok k2 s _ rec_data bytes Hs2) as (k3 & -> & Hs3 & Q3);
    [done|unfold rec_data; lia|].
  assert (quiet k k3) as (Qa & Qr & Qm) by (by etrans).
  destruct (ret <? 0); rewrite (release_ok _ _ _ _ Hs3).
  - exists (ringbuf_discard k3 s). split; [done|].
    etrans; [by split_and!|apply discard_quiet].
  - destruct (bump_ok (ringbuf_submit k3 s) "stats" STATS_RECEIVED) as (k4 & Hk4).
    rewrite Hk4. exists k4. split; [done|]. exists (ringbuf_submit k3 s).
    destruct (submit_frame k3 s) as [Sa Sm]. split_and!; [done|by etrans..|].
    rewrite (submit_log _ _ _ Hs3). by rewrite Qr.
Qed.

Lemma mirror_spec ctx k :
  frame_len (ctx_pkt ctx) ≠ 0 →
  ∃ k', mirror ctx k = Ok (XDP_PASS, k') ∧
  match ringbuf_reserve k sizeof_pkt_record with
  | (None, k1) => bump "stats" STATS_DROPPED k1 = Ok (tt, k')
  | (Some s, k1) =>
      ∃ mem, slot_mem k1 s = Some mem ∧ zlen mem = sizeof_pkt_record ∧ bytes_ok mem ∧
      let '(ret, bytes) := bpf_probe_read_kernel k (copy_len (ctx_pkt ctx)) (ctx_data ctx) in
      if ret <? 0 then quiet k k' else captured ctx k bytes mem k'
  end.
Proof.
  intros Hne. unfold mirror, ctx_data_end.
  replace (ctx_data ctx + zlen (ctx_pkt ctx) - ctx_data ctx) with (zlen (ctx_pkt ctx)) by lia.
  change (wrap 32 (zlen (ctx_pkt ctx))) with (frame_len (ctx_pkt ctx)).
  rewrite (proj2 (Z.eqb_neq _ _) Hne).
  replace (if _ >? _ then _ else _) with (cap_len (ctx_pkt ctx)); cycle 1.
  { unfold cap_len. rewrite Z.gtb_ltb. destruct (_ <? _) eqn:E; zb; lia. }
  unfold mbind, prog_bind, call.
  destruct (ringbuf_reserve k sizeof_pkt_record) as [[s|] k1] eqn:Er.
  - assert (0 ≤ sizeof_pkt_record) as Hsz by done.
    destruct (reserve_some _ _ _ _ Hsz Er) as (mem & Hm & Hl & Hb).
    apply reserve_quiet in Er as (Qa & Qr & Qm).
    destruct (bpf_probe_read_kernel k _ _) as [ret bytes] eqn:Hr.
    destruct (fill_record_spec ctx k1 s mem ret bytes) as (k' & -> & Hk'); [done..| |].
    { destruct Qm as (_ & -> & _). done. }
    exists k'. split; [done|]. exists mem. split_and!; [done..|].
    destruct (ret <? 0); [etrans; [|exact Hk']; by split_and!|].
    destruct Hk' as (k2 & ? & ? & ? & Hlog). exists k2. split_and!; [done|by etrans..|].
    by rewrite Hlog, Qr.
  - destruct (bump_ok k1 "stats" STATS_DROPPED) as (k' & Hk'). rewrite Hk'. by exists k'.
Qed.

(** A run either leaves the state as it was or mirrors the frame. *)
Lemma xdp_run ctx k :
  bytes_ok (ctx_pkt ctx) →
  pgshadow_xdp ctx k =
    if wanted (array_lookup k "cfg_port" 0) (ctx_pkt ctx) then mirror ctx k
    else Ok (XDP_PASS, k).
Proof.
  intros Hb. unfold pgshadow_xdp, wanted, mbind, prog_bind, lift.
  rewrite parse_tcp_spec by done.
  destruct (tcp_offset (ctx_pkt ctx)) as [off|] eqn:Ho; simpl; cycle 1.
  { by destruct (array_lookup k "cfg_port" 0). }
  unfold get_state. destruct (array_lookup k "cfg_port" 0) as [v|]; [|done].
  rewrite (ports_differ_spec _ _ _ Hb Ho).
  destruct (port_match v (ctx_pkt ctx) off); [|done]. simpl.
  change (wrap 32 (zlen (ctx_pkt ctx))) with (frame_len (ctx_pkt ctx)).
  destruct (frame_len (ctx_pkt ctx) =? 0) eqn:E; [|done]. simpl.
  unfold mirror, ctx_data_end.
  replace (ctx_data ctx + zlen (ctx_pkt ctx) - ctx_data ctx) with (zlen (ctx_pkt ctx)) by lia.
  by change (wrap 32 (zlen (ctx_pkt ctx))) with (frame_len (ctx_pkt ctx)); rewrite E.
Qed.

Lemma wanted_frame_len port pkt : wanted port pkt = true → frame_len pkt ≠ 0.
Proof.
  unfold wanted, frame_len. destruct port, (tcp_offset pkt); try done.
  intros [_ Hn]%andb_true_iff. by zb.
Qed.

(** ** The abstract capture

    What a mirror promises, without headers, slots or copies: a frame is
    ignored and nothing changes, or it is wanted and it is lost because the
    ring is full (counted), abandoned because it cannot be read (not
    counted), or delivered as one record (counted). *)
Inductive xdp_effect ctx k k' : Prop :=
| Ignored :
    wanted (array_lookup k "cfg_port" 0) (ctx_pkt ctx) = false → k' = k →
    xdp_effect ctx k k'
| Lost k1 :
    wanted (array_lookup k "cfg_port" 0) (ctx_pkt ctx) = true →
    ringbuf_reserve k sizeof_pkt_record = (None, k1) →
    bump "stats" STATS_DROPPED k1 = Ok (tt, k') →
    xdp_effect ctx k k'
| Abandoned s k1 :
    wanted (array_lookup k "cfg_port" 0) (ctx_pkt ctx) = true →
    ringbuf_reserve k sizeof_pkt_record = (Some s, k1) →
    (bpf_probe_read_kernel k (copy_len (ctx_pkt ctx)) (ctx_data ctx)).1 < 0 →
    quiet k k' →
    xdp_effect ctx k k'
| Delivered s k1 ret bytes mem :
    wanted (array_lookup k "cfg_port" 0) (ctx_pkt ctx) = true →
    ringbuf_reserve k sizeof_pkt_record = (Some s, k1) → slot_mem k1 s = Some mem →
    zlen mem = sizeof_pkt_record → bytes_ok mem →
    bpf_probe_read_kernel k (copy_len (ctx_pkt ctx)) (ctx_data ctx) = (ret, bytes) → 0 ≤ ret →
    captured ctx k bytes mem k' →
    xdp_effect ctx k k'.

Lemma xdp_effect_of_run ctx k :
  bytes_ok (ctx_pkt ctx) →
  ∃ k', pgshadow_xdp ctx k = Ok (XDP_PASS, k') ∧ xdp_effect ctx k k'.
Proof.
  intros Hb. rewrite xdp_run by done.
  destruct (wanted _ _) eqn:Hw; [|exists k; split; [done|by apply Ignored]].
  destruct (mirror_spec ctx k (wanted_frame_len _ _ Hw)) as (k' & -> & Hm).
  exists k'. split; [done|].
  destruct (ringbuf_reserve k sizeof_pkt_record) as [[s|] k1] eqn:Er.
  - destruct Hm as (mem & ? & ? & ? & Hm).
    destruct (bpf_probe_read_kernel _ _ _) as [ret bytes] eqn:Hp.
    destruct (ret <? 0) eqn:Hret; zb; [|by eapply Delivered].
    eapply Abandoned; [done|done| |done]. by rewrite Hp.
  - by eapply Lost.
Qed.

(** Runs leave memory and the configured port alone. *)
Lemma effect_frame ctx k k' :
  xdp_effect ctx k k' →
  same_memory k k' ∧ array_lookup k' "cfg_port" 0 = array_lookup k "cfg_port" 0.
Proof.
  destruct 1 as [_ ->|k1 _ Hr Hb|s k1 _ _ _ (Qa & _ & Qm)|s k1 ret bytes mem _ _ _ _ _ _ _ Hc].
  - done.
  - apply reserve_quiet in Hr as (Qa & _ & Qm). destruct (bump_frame _ _ _ _ _ Hb) as [_ Bm].
    split; [by etrans|]. rewrite (bump_lookup _ _ _ _ _ _ _ Hb). case_decide; [done|by rewrite Qa].
  - split; [done|by rewrite Qa].
  - destruct Hc as (k2 & Hb & Ha & Hm & _). destruct (bump_frame _ _ _ _ _ Hb) as [_ Bm].
    split; [by etrans|]. rewrite (bump_lookup _ _ _ _ _ _ _ Hb). case_decide; [done|by rewrite Ha].
Qed.
End runs.

(** ** Theorems *)
Section theorems.
Context {K : Type} `{BpfHelpersOk K}.

(** The frame lies at [ctx->data] in kernel memory. *)
Definition pkt_mapped (ctx : xdp_ctx) (k : K) : Prop :=
  ∀ n, 0 ≤ n ≤ zlen (ctx_pkt ctx) → kernel_mem k n (ctx_data ctx) = slice 0 n (ctx_pkt ctx).

(** The capture of a wanted frame when the ring has room and the copy works. *)
Definition capture_ready (ctx : xdp_ctx) (k k1 : K) (s : rslot) : Prop :=
  bytes_ok (ctx_pkt ctx) ∧ pkt_mapped ctx k ∧
  wanted (array_lookup k "cfg_port" 0) (ctx_pkt ctx) = true ∧
  ringbuf_reserve k sizeof_pkt_record = (Some s, k1) ∧
  0 ≤ (bpf_probe_read_kernel k (copy_len (ctx_pkt ctx)) (ctx_data ctx)).1.

Lemma cap_len_nonneg pkt : 0 ≤ cap_len pkt ≤ 4096.
Proof. pose proof (frame_len_le pkt). unfold cap_len, FIXED_SNAP_LEN. lia. Qed.

(** The parts of a record. *)
Lemma record_image_parts flen cap bytes mem :
  zlen mem = sizeof_pkt_record → zlen bytes ≤ 4096 →
  zlen (record_image flen cap bytes mem) = sizeof_pkt_record ∧
  slice rec_len 4 (record_image flen cap bytes mem) = le_bytes 4 flen ∧
  slice rec_cap_len 4 (record_image flen cap bytes mem) = le_bytes 4 cap ∧
  slice rec_data (zlen bytes) (record_image flen cap bytes mem) = bytes ∧
  slice (rec_data + zlen bytes) (4096 - zlen bytes) (record_image flen cap bytes mem) =
    slice (rec_data + zlen bytes) (4096 - zlen bytes) mem.
Proof.
  intros Hm Hb. destruct (zlen_header flen cap mem Hm) as [H1 H2].
  unfold record_image, sizeof_pkt_record, rec_len, rec_cap_len, rec_data in *.
  pose proof (zlen_nonneg bytes).
  assert (∀ z, zlen (le_bytes 4 z) = 4) as H4 by (intros; apply zlen_le_bytes).
  assert (8 + zlen bytes ≤ 4104) by lia.
  split_and!.
  - by rewrite zlen_patch by lia.
  - rewrite !slice_patch_ne by (rewrite ?H1, ?H2, ?H4; lia).
    apply slice_patch_eq; rewrite ?H4; lia.
  - rewrite slice_patch_ne by (rewrite ?H1, ?H2, ?H4; lia).
    apply slice_patch_eq; rewrite ?H4; lia.
  - apply slice_patch_eq; rewrite ?H2; lia.
  - rewrite !slice_patch_ne by (rewrite ?H1, ?H2, ?H4; lia). done.
Qed.

(** The run behind [capture_ready]. *)
Lemma capture_run ctx k k1 s :
  capture_ready ctx k k1 s →
  ∃ k' mem, pgshadow_xdp ctx k = Ok (XDP_PASS, k') ∧ slot_mem k1 s = Some mem ∧
    zlen mem = sizeof_pkt_record ∧
    captured ctx k (slice 0 (copy_len (ctx_pkt ctx)) (ctx_pkt ctx)) mem k'.
Proof.
  intros (Hb & Hmap & Hw & Hr & Hp). rewrite xdp_run, Hw by done.
  destruct (mirror_spec ctx k (wanted_frame_len _ _ Hw)) as (k' & -> & Hm).
  rewrite Hr in Hm. destruct Hm as (mem & Hs & Hl & _ & Hm).
  pose proof (copy_len_range (ctx_pkt ctx)) as Hc.
  destruct (bpf_probe_read_kernel k _ _) as [ret bytes] eqn:Hpr. simpl in Hp.
  rewrite (proj2 (Z.ltb_ge ret 0)) in Hm by lia.
  apply kernel_read_spec in Hpr; [|lia]. rewrite (proj2 (Z.leb_le 0 ret)) in Hpr by lia.
  rewrite Hmap in Hpr; [by subst; exists k', mem|].
  rewrite copy_len_mod in *. pose proof (frame_len_le (ctx_pkt ctx)).
  pose proof (cap_len_nonneg (ctx_pkt ctx)).
  pose proof (Z.mod_le (cap_len (ctx_pkt ctx)) 4096). unfold cap_len in *. lia.
Qed.

(** C1 Whatever the traffic, every run of the program returns XDP_PASS: for
    every sequence of frames and every kernel state no run reads outside its
    frame, stores outside its record or touches a record it no longer owns,
    and the kernel delivers each packet as if the program were not there. *)
Theorem xdp_always_passes (ctxs : list xdp_ctx) (k : K) :
  Forall (λ ctx, bytes_ok (ctx_pkt ctx)) ctxs →
  ∃ k', run_frames ctxs k = Ok (replicate (length ctxs) XDP_PASS, k').
Proof.
  intros Hb. revert k. induction Hb as [|ctx ctxs Hc _ IH]; intros k; [by exists k|].
  destruct (xdp_effect_of_run ctx k Hc) as (k1 & Hr & _). destruct (IH k1) as (k' & Hrs).
  exists k'. cbn. unfold mbind, prog_bind. by rewrite Hr, Hrs.
Qed.

(** Refinement to the abstract capture: a run on a frame has exactly one of
    the four effects of [xdp_effect] - ignored with the state untouched, lost
    and counted as dropped, abandoned with nothing visible changed, or
    delivered as one record and counted as received - and the frame is
    ignored exactly when it is not TCP over IPv4/IPv6 with one of its ports
    equal to the configured one. *)
Theorem xdp_refines_capture (ctx : xdp_ctx) (k : K) :
  bytes_ok (ctx_pkt ctx) →
  ∃ k', pgshadow_xdp ctx k = Ok (XDP_PASS, k') ∧ xdp_effect ctx k k'.
Proof. apply xdp_effect_of_run. Qed.

Lemma captured_counters ctx k bytes mem k' :
  captured ctx k bytes mem k' →
  ring_log k' = ring_log k ++
    [record_image (frame_len (ctx_pkt ctx)) (cap_len (ctx_pkt ctx)) bytes mem] ∧
  array_lookup k' "stats" STATS_RECEIVED =
    (λ v, wrap 64 (v + 1)) <$> array_lookup k "stats" STATS_RECEIVED ∧
  array_lookup k' "stats" STATS_DROPPED = array_lookup k "stats" STATS_DROPPED ∧
  array_lookup k' "cfg_port" 0 = array_lookup k "cfg_port" 0.
Proof.
  intros (k2 & Hbump & Ha & _ & Hlog).
  destruct (bump_frame _ _ _ _ _ Hbump) as [Hr _].
  split_and!; [by rewrite Hr|..]; rewrite (bump_lookup _ _ _ _ _ _ _ Hbump); case_decide;
    simplify_eq; by rewrite ?Ha.
Qed.

Lemma frame_len_width pkt : 0 ≤ frame_len pkt < 256 ^ Z.of_nat 4.
Proof. apply (wrap_range 32). lia. Qed.

Lemma cap_len_width pkt : 0 ≤ cap_len pkt < 256 ^ Z.of_nat 4.
Proof. pose proof (cap_len_nonneg pkt). change (256 ^ Z.of_nat 4) with 4294967296. lia. Qed.

(** A wanted frame of fewer than 4096 bytes is mirrored faithfully: one
    record is appended to the ring, its length fields both decode to the
    length of the frame and its data area starts with the frame itself; the
    received counter grows by one and the dropped counter does not change. *)
Theorem xdp_captures_frame (ctx : xdp_ctx) (k k1 : K) (s : rslot) :
  capture_ready ctx k k1 s → zlen (ctx_pkt ctx) < 4096 →
  ∃ k' rec, pgshadow_xdp ctx k = Ok (XDP_PASS, k') ∧
    ring_log k' = ring_log k ++ [rec] ∧ zlen rec = sizeof_pkt_record ∧
    le_value (slice rec_len 4 rec) = zlen (ctx_pkt ctx) ∧
    le_value (slice rec_cap_len 4 rec) = zlen (ctx_pkt ctx) ∧
    slice rec_data (zlen (ctx_pkt ctx)) rec = ctx_pkt ctx ∧
    array_lookup k' "stats" STATS_RECEIVED =
      (λ v, wrap 64 (v + 1)) <$> array_lookup k "stats" STATS_RECEIVED ∧
    array_lookup k' "stats" STATS_DROPPED = array_lookup k "stats" STATS_DROPPED.
Proof.
  intros Hc Hlt. destruct (capture_run _ _ _ _ Hc) as (k' & mem & Hrun & _ & Hm & Hcap).
  apply captured_counters in Hcap as (Hlog & Hrecv & Hdrop & _).
  pose proof (zlen_nonneg (ctx_pkt ctx)).
  assert (frame_len (ctx_pkt ctx) = zlen (ctx_pkt ctx)) as Hf.
  { apply (wrap_small 32). unfold in_width. lia. }
  assert (cap_len (ctx_pkt ctx) = zlen (ctx_pkt ctx)) as Hcl.
  { unfold cap_len, FIXED_SNAP_LEN. lia. }
  assert (copy_len (ctx_pkt ctx) = zlen (ctx_pkt ctx)) as Hco.
  { rewrite copy_len_mod, Hcl. apply Z.mod_small. lia. }
  rewrite Hco, slice_all in Hlog.
  destruct (record_image_parts (frame_len (ctx_pkt ctx)) (cap_len (ctx_pkt ctx))
    (ctx_pkt ctx) mem Hm ltac:(lia)) as (Hz & Hl1 & Hl2 & Hd & _).
  exists k'. eexists. split_and!; [exact Hrun|exact Hlog|done|..|exact Hd|done|done].
  - rewrite Hl1, le_value_bytes by apply frame_len_width. done.
  - rewrite Hl2, le_value_bytes by apply cap_len_width. done.
Qed.

(** When the ring has no room, a wanted frame is lost and counted: nothing
    is appended, the dropped counter grows by one, the received counter does
    not change. *)
Theorem xdp_counts_drops (ctx : xdp_ctx) (k k1 : K) :
  bytes_ok (ctx_pkt ctx) → wanted (array_lookup k "cfg_port" 0) (ctx_pkt ctx) = true →
  ringbuf_reserve k sizeof_pkt_record = (None, k1) →
  ∃ k', pgshadow_xdp ctx k = Ok (XDP_PASS, k') ∧ ring_log k' = ring_log k ∧
    array_lookup k' "stats" STATS_DROPPED =
      (λ v, wrap 64 (v + 1)) <$> array_lookup k "stats" STATS_DROPPED ∧
    array_lookup k' "stats" STATS_RECEIVED = array_lookup k "stats" STATS_RECEIVED.
Proof.
  intros Hb Hw Hr. rewrite xdp_run, Hw by done.
  destruct (mirror_spec ctx k (wanted_frame_len _ _ Hw)) as (k' & -> & Hm). rewrite Hr in Hm.
  exists k'. split; [done|]. apply reserve_quiet in Hr as (Ha & Hring & _).
  destruct (bump_frame _ _ _ _ _ Hm) as [Hr' _]. split; [by rewrite Hr', Hring|].
  split; rewrite (bump_lookup _ _ _ _ _ _ _ Hm); case_decide; simplify_eq; by rewrite Ha.
Qed.

(** C38 A wanted frame of 4096 bytes or more is not mirrored: the length passed
    to the copying helper is [cap_len & (FIXED_SNAP_LEN - 1)], which is 0 when
    [cap_len] is 4096.  The record announces 4096 captured bytes and its data
    area still holds what the ring held there before. *)
Theorem xdp_snap_len_not_copied (ctx : xdp_ctx) (k k1 : K) (s : rslot) (mem : list Z) :
  capture_ready ctx k k1 s → slot_mem k1 s = Some mem →
  4096 ≤ zlen (ctx_pkt ctx) < 2 ^ 32 →
  ∃ k' rec, pgshadow_xdp ctx k = Ok (XDP_PASS, k') ∧
    ring_log k' = ring_log k ++ [rec] ∧
    le_value (slice rec_len 4 rec) = zlen (ctx_pkt ctx) ∧
    le_value (slice rec_cap_len 4 rec) = 4096 ∧
    slice rec_data 4096 rec = slice rec_data 4096 mem.
Proof.
  intros Hc Hs Hlen. destruct (capture_run _ _ _ _ Hc) as (k' & mem' & Hrun & Hs' & Hm & Hcap).
  simplify_eq. apply captured_counters in Hcap as (Hlog & _).
  assert (frame_len (ctx_pkt ctx) = zlen (ctx_pkt ctx)) as Hf.
  { apply (wrap_small 32). unfold in_width. lia. }
  assert (cap_len (ctx_pkt ctx) = 4096) as Hcl.
  { unfold cap_len, FIXED_SNAP_LEN. lia. }
  assert (copy_len (ctx_pkt ctx) = 0) as Hco by (by rewrite copy_len_mod, Hcl).
  rewrite Hco in Hlog. change (slice 0 0 (ctx_pkt ctx)) with (@nil Z) in Hlog.
  destruct (record_image_parts (frame_len (ctx_pkt ctx)) (cap_len (ctx_pkt ctx))
    [] mem Hm ltac:(done)) as (_ & Hl1 & Hl2 & _ & Hd).
  exists k'. eexists. split_and!; [exact Hrun|exact Hlog|..|exact Hd].
  - rewrite Hl1, le_value_bytes by apply frame_len_width. done.
  - rewrite Hl2, le_value_bytes by apply cap_len_width. done.
Qed.

(** ** Accounting *)

(** The probing read of the frame works. *)
Definition readable (k : K) (ctx : xdp_ctx) : Prop :=
  0 ≤ (bpf_probe_read_kernel k (copy_len (ctx_pkt ctx)) (ctx_data ctx)).1.

Lemma readable_same k k' ctx : same_memory k k' → readable k ctx → readable k' ctx.
Proof. intros (_ & Hp & _). unfold readable. by rewrite Hp. Qed.

(** [account ok k k' r d n]: from counters [r] and [d], the step from [k] to [k']
    delivered records, lost and abandoned frames, [n] of them in all, none
    abandoned if [ok], and the counters moved accordingly. *)
Definition account (ok : Prop) (k k' : K) (r d n : Z) : Prop :=
  ∃ recs lost abandoned, 0 ≤ lost ∧ 0 ≤ abandoned ∧ (ok → abandoned = 0) ∧ zlen recs + lost + abandoned = n ∧
    ring_log k' = ring_log k ++ recs ∧
    array_lookup k' "stats" STATS_RECEIVED = Some (wrap 64 (r + zlen recs)) ∧
    array_lookup k' "stats" STATS_DROPPED = Some (wrap 64 (d + lost)).

Definition counters (k : K) (r d : Z) : Prop :=
  array_lookup k "stats" STATS_RECEIVED = Some (wrap 64 r) ∧
  array_lookup k "stats" STATS_DROPPED = Some (wrap 64 d).

Lemma effect_account ctx k k' r d :
  xdp_effect ctx k k' → counters k r d →
  account (readable k ctx) k k' r d (if wanted (array_lookup k "cfg_port" 0) (ctx_pkt ctx) then 1 else 0) ∧
  array_lookup k' "cfg_port" 0 = array_lookup k "cfg_port" 0.
Proof.
  intros He [Hr Hd]. split; [|by eapply effect_frame].
  destruct He as [Hw Hk|k1 Hw (Qa & Qr & _)%reserve_quiet Hb|s k1 Hw _ Hab (Qa & Qr & _)
    |s k1 ret bytes mem Hw _ _ _ _ _ _ Hc]; rewrite Hw.
  - subst k'. exists [], 0, 0.
    rewrite (@zlen_nil (list Z)), app_nil_r. split_and!; rewrite ?Z.add_0_r; done.
  - destruct (bump_frame _ _ _ _ _ Hb) as [Hr' _].
    assert (∀ m i, _ ) as Hlk by (intros m i; exact (bump_lookup _ _ _ _ _ m i Hb)).
    exists [], 1, 0; rewrite ?Hlk, ?(@zlen_nil (list Z)), ?Z.add_0_r, ?app_nil_r, ?Hr', ?Qr;
      repeat case_decide; simplify_eq; rewrite ?Qa, ?Hr, ?Hd; simpl; rewrite ?wrap_add_l.
    split_and!; done || lia.
  - exists [], 0, 1.
    rewrite (@zlen_nil (list Z)), app_nil_r, !Qa. split_and!; rewrite ?Z.add_0_r; try done.
    unfold readable. lia.
  - apply captured_counters in Hc as (Hlog & Hrecv & Hdrop & _).
    eexists [_], 0, 0. rewrite Hrecv, Hdrop, Hr, Hd, zlen_cons, (@zlen_nil (list Z)). simpl.
    rewrite wrap_add_l. split_and!; rewrite ?Z.add_0_r; done.
Qed.

(** The counters tell the truth over any traffic: after any sequence of
    frames the received counter has grown by the number of records appended to
    the ring, the dropped counter by the number of frames lost to a full ring,
    and delivered, lost and abandoned frames together are exactly the wanted
    ones (counters modulo 2^64); none is abandoned when the kernel can read
    the frames. *)
Theorem xdp_accounting (ctxs : list xdp_ctx) (k : K) (r d : Z) :
  Forall (λ ctx, bytes_ok (ctx_pkt ctx)) ctxs → counters k r d →
  ∃ vs k', run_frames ctxs k = Ok (vs, k') ∧
    account (Forall (readable k) ctxs) k k' r d
      (zlen (List.filter (λ ctx, wanted (array_lookup k "cfg_port" 0) (ctx_pkt ctx)) ctxs)).
Proof.
  intros Hb. revert k r d. induction Hb as [|ctx ctxs Hc _ IH]; intros k r d Hcnt.
  { exists [], k. split; [done|]. exists [], 0, 0. destruct Hcnt as [-> ->].
    by rewrite (@zlen_nil (list Z)), !Z.add_0_r, app_nil_r. }
  destruct (xdp_effect_of_run ctx k Hc) as (k1 & Hr & He).
  destruct (effect_account ctx k k1 r d He Hcnt)
    as ((recs1 & lost1 & ab1 & ? & ? & Ha1 & Hn1 & Hl1 & Hr1 & Hd1) & Hcfg).
  destruct (IH k1 (r + zlen recs1) (d + lost1) (conj Hr1 Hd1))
    as (vs & k' & Hrs & (recs2 & lost2 & ab2 & ? & ? & Ha2 & Hn2 & Hl2 & Hr2 & Hd2)).
  exists (XDP_PASS :: vs), k'. split.
  { cbn. unfold mbind, prog_bind. by rewrite Hr, Hrs. }
  exists (recs1 ++ recs2), (lost1 + lost2), (ab1 + ab2).
  rewrite zlen_app, !Z.add_assoc, Hr2, Hd2, Hl2, Hl1, app_assoc.
  rewrite Hcfg in Hn2. simpl. split_and!; try done; try lia.
  - intros [Hc1 Hc2]%Forall_cons. destruct (effect_frame _ _ _ He) as [Hm _].
    rewrite (Ha1 Hc1), Ha2; [done|]. eapply Forall_impl; [exact Hc2|]. intros c. by apply readable_same.
  - destruct (wanted _ (ctx_pkt ctx)); rewrite ?zlen_cons; lia.
Qed.
End theorems.

(** ** Concrete runs

    A TCP segment from port 50000 to port 5432 over IPv4, [n] payload bytes
    long, against the simulated kernel. *)
Module XdpDemo.
Definition frame (n : nat) : list Z :=
  replicate 12 0 ++ [0x08; 0x00] ++
  [0x45; 0; 0; 40; 0; 0; 0; 0; 64; 6; 0; 0; 10; 0; 0; 1; 10; 0; 0; 2] ++
  [0xC3; 0x50; 0x15; 0x38] ++ replicate 16 0 ++ replicate n 0x51.

Definition ctx (n : nat) : xdp_ctx := XdpCtx 4096 (frame n).

(** Port 5432 configured, counters at 0, [room] free records, stale bytes 0xAA. *)
Definition kernel (room n : nat) : (SimKernel.state unit) :=
  SimKernel.State
    {[ ("cfg_port"%string, 0) := 0x3815; ("stats"%string, 0) := 0; ("stats"%string, 1) := 0 ]}
    ∅ 0 room 0xAA [] (SimKernel.mapped 4096 (frame n)) (λ _, 0) false false ∅ true.

Lemma frame_mapped room n : pkt_mapped (ctx n) (kernel room n).
Proof. intros l Hl. by apply SimKernel.mem_at_mapped. Qed.

Definition after_reserve (room n : nat) : option nat * (SimKernel.state unit) :=
  ringbuf_reserve (kernel room n) sizeof_pkt_record.

Definition slot0 : rslot (K := SimKernel.state unit) := 0%nat.

Lemma xdp_ready n :
  bool_decide (bytes_ok (frame n)) = true → wanted (Some 0x3815) (frame n) = true →
  capture_ready (ctx n) (kernel 1 n) (after_reserve 1 n).2 slot0.
Proof.
  intros Hb Hw. split_and!; [by apply bool_decide_eq_true in Hb|apply frame_mapped|done|done|].
  simpl. lia.
Qed.
End XdpDemo.

Lemma xdp_always_passes_witness :
  ∃ k', run_frames [XdpDemo.ctx 3; XdpDemo.ctx 7] (XdpDemo.kernel 1 3) =
        Ok ([XDP_PASS; XDP_PASS], k').
Proof.
  apply (xdp_always_passes [XdpDemo.ctx 3; XdpDemo.ctx 7] (XdpDemo.kernel 1 3)).
  repeat constructor; by apply (bool_decide_eq_true_1 _); vm_compute.
Defined.

Lemma xdp_refines_capture_witness :
  ∃ k', pgshadow_xdp (XdpDemo.ctx 3) (XdpDemo.kernel 1 3) = Ok (XDP_PASS, k') ∧
        xdp_effect (XdpDemo.ctx 3) (XdpDemo.kernel 1 3) k'.
Proof.
  apply (xdp_refines_capture (XdpDemo.ctx 3) (XdpDemo.kernel 1 3)).
  apply (bool_decide_eq_true_1 _). vm_compute. reflexivity.
Defined.

Lemma xdp_captures_frame_witness :
  ∃ k' rec, pgshadow_xdp (XdpDemo.ctx 3) (XdpDemo.kernel 1 3) = Ok (XDP_PASS, k') ∧
    ring_log k' = [rec] ∧ slice rec_data 57 rec = XdpDemo.frame 3.
Proof.
  destruct (xdp_captures_frame (XdpDemo.ctx 3) (XdpDemo.kernel 1 3)
    (XdpDemo.after_reserve 1 3).2 XdpDemo.slot0) as (k' & rec & Hr & Hl & _ & _ & _ & Hd & _).
  - apply XdpDemo.xdp_ready; vm_compute; reflexivity.
  - vm_compute. reflexivity.
  - exists k', rec. auto.
Defined.

Lemma xdp_counts_drops_witness :
  ∃ k', pgshadow_xdp (XdpDemo.ctx 3) (XdpDemo.kernel 0 3) = Ok (XDP_PASS, k') ∧
    ring_log k' = [] ∧ array_lookup k' "stats" STATS_DROPPED = Some 1.
Proof.
  destruct (xdp_counts_drops (XdpDemo.ctx 3) (XdpDemo.kernel 0 3) (XdpDemo.kernel 0 3))
    as (k' & Hr & Hl & Hd & _).
  - apply (bool_decide_eq_true_1 _). vm_compute. reflexivity.
  - vm_compute. reflexivity.
  - reflexivity.
  - exists k'. auto.
Defined.

Lemma xdp_snap_len_not_copied_witness :
  ∃ k' rec, pgshadow_xdp (XdpDemo.ctx 5000) (XdpDemo.kernel 1 5000) = Ok (XDP_PASS, k') ∧
    ring_log k' = [rec] ∧ le_value (slice rec_cap_len 4 rec) = 4096 ∧
    slice rec_data 4096 rec = replicate 4096 0xAA.
Proof.
  destruct (xdp_snap_len_not_copied (XdpDemo.ctx 5000) (XdpDemo.kernel 1 5000)
    (XdpDemo.after_reserve 1 5000).2 XdpDemo.slot0 (replicate 4104 0xAA))
    as (k' & rec & Hr & Hl & _ & Hc & Hd).
  - apply XdpDemo.xdp_ready; vm_compute; reflexivity.
  - reflexivity.
  - vm_compute. split; [discriminate|reflexivity].
  - exists k', rec. split_and!; [exact Hr|exact Hl|exact Hc|].
    rewrite Hd. vm_compute. reflexivity.
Defined.

Lemma xdp_accounting_witness :
  ∃ vs k', run_frames [XdpDemo.ctx 3; XdpDemo.ctx 3] (XdpDemo.kernel 1 3) = Ok (vs, k') ∧
    account (Forall (readable (XdpDemo.kernel 1 3)) [XdpDemo.ctx 3; XdpDemo.ctx 3]) (XdpDemo.kernel 1 3) k' 0 0 2.
Proof.
  assert (zlen (List.filter (λ ctx, wanted (array_lookup (XdpDemo.kernel 1 3) "cfg_port" 0)
    (ctx_pkt ctx)) [XdpDemo.ctx 3; XdpDemo.ctx 3]) = 2) as <- by (vm_compute; reflexivity).
  apply (xdp_accounting [XdpDemo.ctx 3; XdpDemo.ctx 3] (XdpDemo.kernel 1 3) 0 0).
  - repeat constructor; by apply (bool_decide_eq_true_1 _); vm_compute.
  - split; reflexivity.
Defined.
