(* ===== verification/Ssl.v ===== *)
(** * The SSL probes (src/pkg/capture/bpf/pgshadow_ssl.c)

    Entry probes on SSL_read and SSL_write remember the buffer argument of the
    calling thread; return probes read that buffer and send its plaintext to
    user space as an [ssl_event].  The two pairs differ in their map and their
    direction only. *)
From S2P Require Import Prelude CLayout Vmlinux VmlinuxFacts BpfHelpers.

(** ** Declarations of the file *)
Definition MAX_DATA_LEN : Z := 4096.
Definition MAX_ENTRIES : Z := 10240.
Definition DIR_READ : Z := 0.
Definition DIR_WRITE : Z := 1.
Definition STATS_CAPTURED : Z := 0.
Definition STATS_DROPPED : Z := 1.

Definition ssl_event : ctype := CAgg Struct false [
  Fld "pid" (CRef "__u32");
  Fld "tid" (CRef "__u32");
  Fld "fd" (CRef "__u32");
  Fld "data_len" (CRef "__u32");
  Fld "direction" (CRef "__u8");
  Fld "_pad" (CArr 3 (CRef "__u8"));
  Fld "timestamp_ns" (CRef "__u64");
  Fld "data" (CArr MAX_DATA_LEN (CRef "__u8"))].

Definition ssl_events : map_def := MapDef "BPF_MAP_TYPE_RINGBUF" None None (64 * 1024 * 1024).

Record ssl_args := SslArgs { buf_ptr : Z; fd : Z }.

Definition ssl_read_args : map_def :=
  MapDef "BPF_MAP_TYPE_HASH" (Some "__u64"%string) (Some "struct ssl_args"%string) MAX_ENTRIES.
Definition ssl_write_args : map_def :=
  MapDef "BPF_MAP_TYPE_HASH" (Some "__u64"%string) (Some "struct ssl_args"%string) MAX_ENTRIES.
Definition target_pid : map_def :=
  MapDef "BPF_MAP_TYPE_ARRAY" (Some "__u32"%string) (Some "__u32"%string) 1.
Definition ssl_stats : map_def :=
  MapDef "BPF_MAP_TYPE_PERCPU_ARRAY" (Some "__u32"%string) (Some "__u64"%string) 2.

Definition sizeof_ssl_event : Z :=
  Eval vm_compute in from_option ly_size 0 (layout_of vm_env ssl_event).
Definition ssl_event_off (name : string) : Z :=
  from_option mb_off (-8) (find_member vm_env ssl_event name) / 8.
Definition ev_pid : Z := Eval vm_compute in ssl_event_off "pid".
Definition ev_tid : Z := Eval vm_compute in ssl_event_off "tid".
Definition ev_fd : Z := Eval vm_compute in ssl_event_off "fd".
Definition ev_data_len : Z := Eval vm_compute in ssl_event_off "data_len".
Definition ev_direction : Z := Eval vm_compute in ssl_event_off "direction".
Definition ev_timestamp_ns : Z := Eval vm_compute in ssl_event_off "timestamp_ns".
Definition ev_data : Z := Eval vm_compute in ssl_event_off "data".

(** What the helpers and register macros return in one probe invocation:
    [bpf_get_current_pid_tgid()], [PT_REGS_PARM2_CORE(ctx)],
    [PT_REGS_RC_CORE(ctx)] and [bpf_ktime_get_ns()]. *)
Record probe_env := ProbeEnv {
  pe_pid_tgid : Z; pe_parm2 : Z; pe_rc : Z; pe_ktime : Z }.

(** ** The probes *)
Section probes.
Context {K : Type} `{BpfHelpers K} `{HashHelpers K ssl_args}.

Definition should_trace (env : probe_env) : prog K bool :=
  get_state (λ k, array_lookup k "target_pid" 0) ≫= λ filter_pid,
  match filter_pid with
  | Some filter_pid =>
      if negb (filter_pid =? 0) then
        let pid := wrap 32 (Z.shiftr (pe_pid_tgid env) 32) in
        if negb (pid =? filter_pid) then mret false else mret true
      else mret true
  | None => mret true
  end.

Definition ssl_enter (m : string) (env : probe_env) : prog K Z :=
  should_trace env ≫= λ traced,
  if negb traced then mret 0 else
  let pid_tgid := pe_pid_tgid env in
  let args := SslArgs (pe_parm2 env) 0 in
  call (λ k, hash_update k m pid_tgid args) ≫= λ _,
  mret 0.

(** Filling and submitting a reserved event. *)
Definition fill_event (event : rslot) (args : hptr) (dir data_len : Z) (env : probe_env) : prog K Z :=
  let pid_tgid := pe_pid_tgid env in
  stores event [(ev_pid, le_bytes 4 (wrap 32 (Z.shiftr pid_tgid 32)));
                (ev_tid, le_bytes 4 (wrap 32 pid_tgid))] ≫= λ _,
  get_state (λ k, fd (hash_deref k args)) ≫= λ args_fd,
  stores event [(ev_fd, le_bytes 4 args_fd);
                (ev_data_len, le_bytes 4 data_len);
                (ev_direction, le_bytes 1 dir);
                (ev_timestamp_ns, le_bytes 8 (pe_ktime env))] ≫= λ _,
  get_state (λ k, bpf_probe_read_user k (Z.land data_len (MAX_DATA_LEN - 1))
    (buf_ptr (hash_deref k args))) ≫= λ '(_, bytes),
  stores event [(ev_data, bytes)] ≫= λ _,
  release ringbuf_submit event ≫= λ _,
  bump "ssl_stats" STATS_CAPTURED ≫= λ _,
  mret 0.

Definition ssl_exit (m : string) (dir : Z) (env : probe_env) : prog K Z :=
  should_trace env ≫= λ traced,
  if negb traced then mret 0 else
  let pid_tgid := pe_pid_tgid env in
  get_state (λ k, hash_lookup k m pid_tgid) ≫= λ args,
  match args with
  | None => mret 0
  | Some args =>
      let ret := signed 32 (pe_rc env) in
      call (λ k, hash_delete k m pid_tgid) ≫= λ _,
      if ret <=? 0 then mret 0 else
      let data_len := wrap 32 ret in
      let data_len := if data_len >? MAX_DATA_LEN then MAX_DATA_LEN else data_len in
      call (λ k, ringbuf_reserve k sizeof_ssl_event) ≫= λ event,
      match event with
      | None => bump "ssl_stats" STATS_DROPPED ≫= λ _, mret 0
      | Some event => fill_event event args dir data_len env
      end
  end.

Definition uprobe_ssl_read_enter := ssl_enter "ssl_read_args".
Definition uretprobe_ssl_read_exit := ssl_exit "ssl_read_args" DIR_READ.
Definition uprobe_ssl_write_enter := ssl_enter "ssl_write_args".
Definition uretprobe_ssl_write_exit := ssl_exit "ssl_write_args" DIR_WRITE.

(** A history of probe invocations, in the order they hit. *)
Inductive probe := ReadEnter | ReadExit | WriteEnter | WriteExit.

Definition run_probe (p : probe) : probe_env → prog K Z :=
  match p with
  | ReadEnter => uprobe_ssl_read_enter
  | ReadExit => uretprobe_ssl_read_exit
  | WriteEnter => uprobe_ssl_write_enter
  | WriteExit => uretprobe_ssl_write_exit
  end.

Fixpoint run_probes (ps : list (probe * probe_env)) : prog K (list Z) :=
  match ps with
  | [] => mret []
  | (p, env) :: ps => run_probe p env ≫= λ r, run_probes ps ≫= λ rs, mret (r :: rs)
  end.
End probes.

(** ** What the probes mean *)

(** The stores that build an event. *)
Definition event_writes (env : probe_env) (dir data_len : Z) (a : ssl_args) (bytes : list Z)
    : list (Z * list Z) :=
  [(ev_pid, le_bytes 4 (wrap 32 (Z.shiftr (pe_pid_tgid env) 32)));
   (ev_tid, le_bytes 4 (wrap 32 (pe_pid_tgid env)));
   (ev_fd, le_bytes 4 (fd a));
   (ev_data_len, le_bytes 4 data_len);
   (ev_direction, le_bytes 1 dir);
   (ev_timestamp_ns, le_bytes 8 (pe_ktime env));
   (ev_data, bytes)].

#[global] Arguments event_writes : simpl never.

(** The bytes an SSL call reported, capped: [data_len] of the return probe. *)
Definition event_len (env : probe_env) : Z := Z.min (signed 32 (pe_rc env)) MAX_DATA_LEN.

(** The size passed to [bpf_probe_read_user]. *)
Definition event_copy_len (env : probe_env) : Z := Z.land (event_len env) (MAX_DATA_LEN - 1).

Lemma signed_range w z : 0 < w → - 2 ^ (w - 1) ≤ signed w z < 2 ^ (w - 1).
Proof.
  intros Hw. pose proof (wrap_range w z ltac:(lia)) as [? Hlt].
  unfold signed. replace w with (Z.succ (w - 1)) in Hlt at 2 by lia.
  rewrite Z.pow_succ_r in Hlt by lia.
  assert (2 ^ w = 2 * 2 ^ (w - 1)) as E.
  { rewrite <- Z.pow_succ_r by lia. f_equal. lia. }
  destruct (_ <? _) eqn:?; zb; lia.
Qed.

Lemma event_len_code env :
  0 < signed 32 (pe_rc env) →
  (if wrap 32 (signed 32 (pe_rc env)) >? MAX_DATA_LEN then MAX_DATA_LEN
   else wrap 32 (signed 32 (pe_rc env))) = event_len env.
Proof.
  intros Hp. pose proof (signed_range 32 (pe_rc env) ltac:(lia)).
  rewrite wrap_small by (unfold in_width; lia). unfold event_len.
  rewrite Z.gtb_ltb. destruct (_ <? _) eqn:?; zb; lia.
Qed.

Lemma event_len_range env : 0 < signed 32 (pe_rc env) → 0 < event_len env ≤ 4096.
Proof. unfold event_len, MAX_DATA_LEN. lia. Qed.

Lemma event_copy_len_mod env : event_copy_len env = event_len env mod 4096.
Proof. unfold event_copy_len. change (MAX_DATA_LEN - 1) with (Z.ones 12). by rewrite Z.land_ones. Qed.

Lemma event_copy_len_range env : 0 ≤ event_copy_len env < 4096.
Proof. rewrite event_copy_len_mod. apply Z.mod_pos_bound. lia. Qed.

(** Whether the pid filter lets an invocation through. *)
Definition traced (filter : option Z) (env : probe_env) : bool :=
  match filter with
  | Some f => (f =? 0) || (wrap 32 (Z.shiftr (pe_pid_tgid env) 32) =? f)
  | None => true
  end.

Section runs.
Context {K : Type} `{!BpfHelpers K} `{!HashHelpers K ssl_args}.
Context `{!BpfHelpersOk K} `{!HashHelpersOk K ssl_args}.
Implicit Types (k : K) (env : probe_env).

Lemma should_trace_spec env k :
  should_trace env k = Ok (traced (array_lookup k "target_pid" 0) env, k).
Proof.
  unfold should_trace, traced, mbind, prog_bind, get_state.
  destruct (array_lookup k "target_pid" 0) as [f|]; [|done].
  destruct (f =? 0); [done|]. cbn [negb orb]. by destruct (_ =? f).
Qed.

Lemma probe_user_len k n a ret bytes :
  0 ≤ n → bpf_probe_read_user k n a = (ret, bytes) → zlen bytes = n.
Proof.
  intros Hn Hr. rewrite (user_read_spec _ _ _ _ _ Hn Hr).
  destruct (0 <=? ret); [by apply user_mem_len|].
  unfold zlen. rewrite length_replicate. lia.
Qed.

(** An event that left the program: the ring grew by its image. *)
Definition sent env dir (a : ssl_args) bytes mem k k' : Prop :=
  ∃ k2, bump "ssl_stats" STATS_CAPTURED k2 = Ok (tt, k') ∧
    same_arrays k k2 ∧ same_memory k k2 ∧ same_hashes k k2 ∧
    ring_log k2 = ring_log k ++ [writes (event_writes env dir (event_len env) a bytes) mem].

Lemma event_writes_ok env dir len a bytes :
  zlen bytes ≤ 4096 → writes_ok (event_writes env dir len a bytes) sizeof_ssl_event.
Proof.
  intros. unfold writes_ok, event_writes, sizeof_ssl_event, ev_pid, ev_tid, ev_fd, ev_data_len,
    ev_direction, ev_timestamp_ns, ev_data.
  repeat (apply Forall_cons_2; [cbn [fst snd]; rewrite ?zlen_le_bytes; lia|]).
  apply Forall_nil_2.
Qed.

Lemma fill_event_spec env dir k s p mem ret bytes :
  slot_mem k s = Some mem → zlen mem = sizeof_ssl_event →
  bpf_probe_read_user k (event_copy_len env) (buf_ptr (hash_deref k p)) = (ret, bytes) →
  ∃ k', fill_event s p dir (event_len env) env k = Ok (0, k') ∧
        sent env dir (hash_deref k p) bytes mem k k'.
Proof.
  intros Hs Hl Hr. pose proof (event_copy_len_range env).
  assert (zlen bytes = event_copy_len env) as Hb by (eapply probe_user_len; [|done]; lia).
  pose proof (event_writes_ok env dir (event_len env) (hash_deref k p) bytes ltac:(lia)) as Hok.
  rewrite <- Hl in Hok. unfold fill_event, mbind, prog_bind.
  unfold event_writes in Hok |- *. unfold writes_ok in Hok.
  change (?a :: ?b :: ?c :: ?d :: ?e :: ?f :: [?g]) with ([a; b] ++ [c; d; e; f] ++ [g]) in Hok.
  apply Forall_app in Hok as [Hok1 Hok]. apply Forall_app in Hok as [Hok2 Hok3].
  destruct (stores_run k s mem _ Hs Hok1) as (k1 & -> & Hs1 & Hz1 & Q1 & Hh1).
  unfold get_state. rewrite (proj2 Hh1 p).
  destruct (stores_run k1 s _ _ Hs1 ltac:(by rewrite Hz1; exact Hok2))
    as (k2 & -> & Hs2 & Hz2 & Q2 & Hh2).
  assert (quiet k k2 ∧ same_hashes k k2) as [Q Hh] by (split; by etrans). clear Q1 Q2 Hh1 Hh2.
  rewrite (proj2 Hh p). destruct Q as (Qa & Qr & Qm).
  change (Z.land (event_len env) (MAX_DATA_LEN - 1)) with (event_copy_len env).
  rewrite (proj2 (proj2 (proj2 Qm))), Hr.
  destruct (stores_run k2 s _ _ Hs2 ltac:(by rewrite Hz2, Hz1; exact Hok3))
    as (k3 & -> & Hs3 & _ & (Qa3 & Qr3 & Qm3) & Hh3).
  rewrite (release_ok _ _ _ _ Hs3).
  destruct (bump_ok (ringbuf_submit k3 s) "ssl_stats" STATS_CAPTURED) as (k4 & Hk4).
  rewrite Hk4. exists k4. split; [done|]. exists (ringbuf_submit k3 s).
  destruct (submit_frame k3 s) as [Sa Sm].
  split_and!; [done|etrans; [exact Qa|by etrans]|etrans; [exact Qm|by etrans]|
    etrans; [exact Hh|etrans; [exact Hh3|apply submit_hashes]]|].
  by rewrite (submit_log _ _ _ Hs3), Qr3, Qr.
Qed.

(** What a traced return probe does: nothing without saved arguments; otherwise
    it forgets them and, when bytes were transferred, sends one event or loses
    it to a full ring. *)
Inductive exit_effect (m : string) (dir : Z) env k k' : Prop :=
| NoArgs :
    hash_lookup k m (pe_pid_tgid env) = None → k' = k → exit_effect m dir env k k'
| Finished p :
    hash_lookup k m (pe_pid_tgid env) = Some p → signed 32 (pe_rc env) ≤ 0 →
    k' = (hash_delete k m (pe_pid_tgid env)).2 → exit_effect m dir env k k'
| EventLost p k1 k2 :
    hash_lookup k m (pe_pid_tgid env) = Some p → 0 < signed 32 (pe_rc env) →
    k1 = (hash_delete k m (pe_pid_tgid env)).2 →
    ringbuf_reserve k1 sizeof_ssl_event = (None, k2) →
    bump "ssl_stats" STATS_DROPPED k2 = Ok (tt, k') → exit_effect m dir env k k'
| EventSent p k1 k2 s mem ret bytes :
    hash_lookup k m (pe_pid_tgid env) = Some p → 0 < signed 32 (pe_rc env) →
    k1 = (hash_delete k m (pe_pid_tgid env)).2 →
    ringbuf_reserve k1 sizeof_ssl_event = (Some s, k2) →
    slot_mem k2 s = Some mem → zlen mem = sizeof_ssl_event →
    bpf_probe_read_user k (event_copy_len env) (buf_ptr (hash_deref k1 p)) = (ret, bytes) →
    sent env dir (hash_deref k1 p) bytes mem k1 k' → exit_effect m dir env k k'.

Lemma delete_frame k m key : quiet k (hash_delete k m key).2.
Proof.
  destruct (hash_delete k m key) as [ret k1] eqn:E. simpl. by eapply delete_quiet.
Qed.

Lemma sent_reserve env dir a bytes mem k1 k2 k' :
  same_hashes k1 k2 → quiet k1 k2 → sent env dir a bytes mem k2 k' →
  sent env dir a bytes mem k1 k'.
Proof.
  intros Hh (Qa & Qr & Qm) (k3 & Hb & ? & ? & ? & Hlog). exists k3.
  split_and!; [done|by etrans..|]. by rewrite Hlog, Qr.
Qed.

Lemma ssl_exit_spec m dir env k :
  traced (array_lookup k "target_pid" 0) env = true →
  ∃ k', ssl_exit m dir env k = Ok (0, k') ∧ exit_effect m dir env k k'.
Proof.
  intros Ht. unfold ssl_exit. unfold mbind at 1, prog_bind at 1.
  rewrite should_trace_spec, Ht. cbn [negb]. unfold mbind, prog_bind, get_state.
  destruct (hash_lookup k m (pe_pid_tgid env)) as [p|] eqn:Hp; cycle 1.
  { exists k. split; [done|by apply NoArgs]. }
  unfold call. pose proof (delete_frame k m (pe_pid_tgid env)) as Qd.
  destruct (hash_delete k m (pe_pid_tgid env)) as [dret k1] eqn:Hd. simpl in Qd.
  destruct (signed 32 (pe_rc env) <=? 0) eqn:Hrc; zb.
  { exists k1. split; [done|]. eapply Finished; [done|done|]. by rewrite Hd. }
  rewrite event_len_code by done.
  destruct (ringbuf_reserve k1 sizeof_ssl_event) as [[s|] k2] eqn:Hr; cycle 1.
  { destruct (bump_ok k2 "ssl_stats" STATS_DROPPED) as (k' & Hb). rewrite Hb.
    exists k'. split; [done|]. eapply EventLost; [done|done| |exact Hr|exact Hb]. by rewrite Hd. }
  assert (0 ≤ sizeof_ssl_event) as Hsz by done.
  destruct (reserve_some _ _ _ _ Hsz Hr) as (mem & Hs & Hl & _).
  pose proof (reserve_quiet _ _ _ _ Hr) as Qr. pose proof (reserve_hashes _ _ _ _ Hr) as Hh.
  destruct (bpf_probe_read_user k (event_copy_len env) (buf_ptr (hash_deref k1 p)))
    as [ret bytes] eqn:Hpr.
  destruct (fill_event_spec env dir k2 s p mem ret bytes) as (k' & -> & Hsent); [done|done| |].
  { rewrite (proj2 Hh). assert (quiet k k2) as (_ & _ & _ & _ & _ & Hu) by (by etrans).
    by rewrite Hu. }
  rewrite (proj2 Hh) in Hsent.
  exists k'. split; [done|].
  eapply EventSent; [done|done|by rewrite Hd|exact Hr|exact Hs|exact Hl|exact Hpr|].
  by eapply sent_reserve.
Qed.

Lemma ssl_enter_spec m env k :
  traced (array_lookup k "target_pid" 0) env = true →
  ssl_enter m env k =
    Ok (0, (hash_update k m (pe_pid_tgid env) (SslArgs (pe_parm2 env) 0)).2).
Proof.
  intros Ht. unfold ssl_enter. unfold mbind, prog_bind. rewrite should_trace_spec, Ht.
  cbn [negb]. unfold call. by destruct (hash_update _ _ _ _).
Qed.

Lemma untraced_run p env k :
  traced (array_lookup k "target_pid" 0) env = false → run_probe p env k = Ok (0, k).
Proof.
  intros Ht. destruct p; unfold run_probe, uprobe_ssl_read_enter, uretprobe_ssl_read_exit,
    uprobe_ssl_write_enter, uretprobe_ssl_write_exit, ssl_enter, ssl_exit, mbind, prog_bind;
    by rewrite should_trace_spec, Ht.
Qed.

Lemma run_probe_ok p env k : ∃ k', run_probe p env k = Ok (0, k').
Proof.
  destruct (traced (array_lookup k "target_pid" 0) env) eqn:Ht.
  - destruct p; simpl; unfold uprobe_ssl_read_enter, uretprobe_ssl_read_exit,
      uprobe_ssl_write_enter, uretprobe_ssl_write_exit; eauto using ssl_enter_spec.
    + destruct (ssl_exit_spec "ssl_read_args" DIR_READ env k Ht) as (k' & ? & _); eauto.
    + destruct (ssl_exit_spec "ssl_write_args" DIR_WRITE env k Ht) as (k' & ? & _); eauto.
  - exists k. by apply untraced_run.
Qed.
End runs.

(** ** Reading events back *)

(** The header of an event as user space decodes it: pid, tid, data_len,
    direction, timestamp. *)
Definition event_header (ev : list Z) : Z * Z * Z * Z * Z :=
  (le_value (slice ev_pid 4 ev), le_value (slice ev_tid 4 ev),
   le_value (slice ev_data_len 4 ev), le_value (slice ev_direction 1 ev),
   le_value (slice ev_timestamp_ns 8 ev)).

#[global] Arguments event_header : simpl never.

(** The header an invocation of a return probe announces. *)
Definition announced (dir : Z) (env : probe_env) : Z * Z * Z * Z * Z :=
  (wrap 32 (Z.shiftr (pe_pid_tgid env) 32), wrap 32 (pe_pid_tgid env),
   event_len env, dir, wrap 64 (pe_ktime env)).

Lemma le_value_wrap n z : le_value (le_bytes n z) = wrap (8 * Z.of_nat n) z.
Proof. rewrite le_value_bytes_mod. unfold wrap. by rewrite Z.pow_mul_r by lia. Qed.

Lemma wrap_wrap w z : 0 ≤ w → wrap w (wrap w z) = wrap w z.
Proof. intros. by apply wrap_small, wrap_range. Qed.

(** Reads of single fields of [writes (event_writes ...)]. *)
Lemma event_field env dir len a bytes mem ws1 ws2 off n bs :
  event_writes env dir len a bytes = ws1 ++ (off, bs) :: ws2 → zlen bs = n →
  zlen bytes ≤ 4096 → zlen mem = sizeof_ssl_event →
  Forall (λ w, off + n ≤ w.1 ∨ w.1 + zlen w.2 ≤ off) ws2 →
  slice off n (writes (event_writes env dir len a bytes) mem) = bs.
Proof.
  intros E Hn Hb Hm Hne. pose proof (event_writes_ok env dir len a bytes Hb) as Hok.
  rewrite <- Hm in Hok. rewrite E in *. by apply slice_writes_eq.
Qed.

Ltac solve_disjoint :=
  unfold event_writes, ev_pid, ev_tid, ev_fd, ev_data_len, ev_direction, ev_timestamp_ns, ev_data;
  repeat (apply Forall_cons_2; [cbn [fst snd]; rewrite ?zlen_le_bytes; lia|]);
  apply Forall_nil_2.

Ltac event_field ws1 :=
  match goal with |- slice ?off ?n (writes (event_writes ?env ?dir ?len ?a ?bytes) ?mem) = ?bs =>
    eapply (event_field env dir len a bytes mem ws1);
    [reflexivity|first [apply zlen_le_bytes|reflexivity]|assumption|assumption|solve_disjoint]
  end.

Section reading.
Context (env : probe_env) (dir len : Z) (a : ssl_args) (bytes mem : list Z).
Hypothesis Hb : zlen bytes ≤ 4096.
Hypothesis Hm : zlen mem = sizeof_ssl_event.
Abbreviation ev := (writes (event_writes env dir len a bytes) mem).
Abbreviation ws := (event_writes env dir len a bytes).

Lemma event_pid : slice ev_pid 4 ev = le_bytes 4 (wrap 32 (Z.shiftr (pe_pid_tgid env) 32)).
Proof. event_field (take 0 ws). Qed.
Lemma event_tid : slice ev_tid 4 ev = le_bytes 4 (wrap 32 (pe_pid_tgid env)).
Proof. event_field (take 1 ws). Qed.
Lemma event_fd : slice ev_fd 4 ev = le_bytes 4 (fd a).
Proof. event_field (take 2 ws). Qed.
Lemma event_data_len : slice ev_data_len 4 ev = le_bytes 4 len.
Proof. event_field (take 3 ws). Qed.
Lemma event_direction : slice ev_direction 1 ev = le_bytes 1 dir.
Proof. event_field (take 4 ws). Qed.
Lemma event_timestamp : slice ev_timestamp_ns 8 ev = le_bytes 8 (pe_ktime env).
Proof. event_field (take 5 ws). Qed.
Lemma event_data : slice ev_data (zlen bytes) ev = bytes.
Proof. event_field (take 6 ws). Qed.

(** Nothing is written past the copied bytes. *)
Lemma event_tail :
  slice (ev_data + zlen bytes) (4096 - zlen bytes) ev =
  slice (ev_data + zlen bytes) (4096 - zlen bytes) mem.
Proof.
  pose proof (zlen_nonneg bytes). pose proof (event_writes_ok env dir len a bytes Hb) as Hok.
  rewrite <- Hm in Hok.
  apply slice_writes_ne; [unfold ev_data; lia|lia|done|solve_disjoint].
Qed.

Lemma event_header_announced :
  len = event_len env → in_width 8 dir → 0 ≤ len < 2 ^ 32 →
  event_header ev = announced dir env.
Proof.
  intros Hl Hd Hr. unfold event_header, announced.
  rewrite event_pid, event_tid, event_data_len, event_direction, event_timestamp, !le_value_wrap.
  change (8 * Z.of_nat 4) with 32. change (8 * Z.of_nat 1) with 8. change (8 * Z.of_nat 8) with 64.
  rewrite !wrap_wrap, (wrap_small 32 len), (wrap_small 8 dir) by (done || lia). by rewrite Hl.
Qed.
End reading.

(** ** Theorems *)
Section theorems.
Context {K : Type} `{!BpfHelpers K} `{!HashHelpers K ssl_args}.
Context `{!BpfHelpersOk K} `{!HashHelpersOk K ssl_args}.
Implicit Types (k : K) (env : probe_env).

(** Every probe returns 0 on every path and touches memory only inside the
    record it reserved, for every history of invocations on any threads: the
    probed process never notices the probes. *)
Theorem ssl_probes_total (ps : list (probe * probe_env)) (k : K) :
  ∃ k', run_probes ps k = Ok (replicate (length ps) 0, k').
Proof.
  revert k. induction ps as [|[p env] ps IH]; intros k; [by exists k|].
  destruct (run_probe_ok p env k) as (k1 & Hr). destruct (IH k1) as (k' & Hrs).
  exists k'. cbn [run_probes]. unfold mbind, prog_bind. by rewrite Hr, Hrs.
Qed.

(** With a target pid configured, the probes of any other process leave the
    kernel state exactly as it was. *)
Theorem ssl_untraced_silent (p : probe) (env : probe_env) (k : K) (pid : Z) :
  array_lookup k "target_pid" 0 = Some pid → pid ≠ 0 →
  wrap 32 (Z.shiftr (pe_pid_tgid env) 32) ≠ pid →
  run_probe p env k = Ok (0, k).
Proof.
  intros Hf Hne Hpid. apply untraced_run. rewrite Hf. unfold traced.
  apply orb_false_iff. by rewrite !Z.eqb_neq.
Qed.

(** A return probe that will send an event: traced, with saved arguments, a positive
    return value and room in the ring.  [a] are the arguments as the probe reads
    them, after it has deleted their element: those the entry probe of the thread
    saved, unless the element has been given to another thread in between. *)
Definition exit_ready (m : string) env k (a : ssl_args) (s : rslot) (mem : list Z) : Prop :=
  traced (array_lookup k "target_pid" 0) env = true ∧
  get_after_delete k m (pe_pid_tgid env) = Some a ∧ 0 < signed 32 (pe_rc env) ∧
  ∃ k2, ringbuf_reserve (hash_delete k m (pe_pid_tgid env)).2 sizeof_ssl_event = (Some s, k2) ∧
        slot_mem k2 s = Some mem.

Lemma sent_observed env dir a bytes mem k k' :
  sent env dir a bytes mem k k' →
  ring_log k' = ring_log k ++ [writes (event_writes env dir (event_len env) a bytes) mem] ∧
  same_hashes k k' ∧ same_memory k k' ∧
  array_lookup k' "target_pid" 0 = array_lookup k "target_pid" 0 ∧
  array_lookup k' "ssl_stats" STATS_CAPTURED =
    (λ v, wrap 64 (v + 1)) <$> array_lookup k "ssl_stats" STATS_CAPTURED.
Proof.
  intros (k2 & Hb & Ha & Hm & Hh & Hlog). destruct (bump_frame _ _ _ _ _ Hb) as [Hr Hm'].
  pose proof (bump_same_hashes _ _ _ _ _ Hb).
  split_and!; [by rewrite Hr|by etrans|by etrans|..];
    rewrite (bump_lookup _ _ _ _ _ _ _ Hb); case_decide; simplify_eq; by rewrite ?Ha.
Qed.

(** What a ready return probe leaves behind. *)
Lemma exit_run m dir env k a s mem :
  exit_ready m env k a s mem →
  ∃ k' ret bytes, ssl_exit m dir env k = Ok (0, k') ∧ zlen mem = sizeof_ssl_event ∧
    bpf_probe_read_user k (event_copy_len env) (buf_ptr a) = (ret, bytes) ∧
    ring_log k' = ring_log k ++ [writes (event_writes env dir (event_len env) a bytes) mem] ∧
    hash_get k' m (pe_pid_tgid env) = None ∧
    array_lookup k' "ssl_stats" STATS_CAPTURED =
      (λ v, wrap 64 (v + 1)) <$> array_lookup k "ssl_stats" STATS_CAPTURED.
Proof.
  intros (Ht & Hg & Hrc & k2 & Hr & Hs).
  destruct (ssl_exit_spec m dir env k Ht) as (k' & Hrun & He).
  pose proof (delete_frame k m (pe_pid_tgid env)) as (Qa & Qr & Qm).
  unfold get_after_delete in Hg. destruct (hash_lookup k m _) as [p|] eqn:Hp; simplify_eq/=.
  destruct (hash_delete k m (pe_pid_tgid env)) as [dret k1] eqn:Hd; simpl in *.
  destruct He as [Hn|? _ ?|? ? ? _ _ -> Hr'|p' ? ? s' mem' ret bytes Hp' _ -> Hr' Hs' Hm' Hpr Hsent];
    [congruence|lia|rewrite Hd in Hr'; simpl in Hr'; congruence|].
  rewrite Hd in *. simpl in *. rewrite Hr in Hr'. injection Hr' as <- <-.
  rewrite Hs in Hs'. injection Hs' as <-. rewrite Hp in Hp'. injection Hp' as <-.
  apply sent_observed in Hsent as (Hlog & Hh & _ & _ & Hcnt).
  exists k', ret, bytes. split_and!; [done..|by rewrite Hlog, Qr| |by rewrite Hcnt, Qa].
  rewrite (same_hashes_get _ _ _ _ Hh). by eapply delete_same.
Qed.

Lemma event_run m dir env k a s mem :
  exit_ready m env k a s mem → in_width 8 dir → signed 32 (pe_rc env) < 4096 →
  0 ≤ (bpf_probe_read_user k (signed 32 (pe_rc env)) (buf_ptr a)).1 →
  ∃ k' ev, ssl_exit m dir env k = Ok (0, k') ∧ ring_log k' = ring_log k ++ [ev] ∧
    zlen ev = sizeof_ssl_event ∧
    event_header ev =
      (wrap 32 (Z.shiftr (pe_pid_tgid env) 32), wrap 32 (pe_pid_tgid env),
       signed 32 (pe_rc env), dir, wrap 64 (pe_ktime env)) ∧
    slice ev_data (signed 32 (pe_rc env)) ev = user_mem k (signed 32 (pe_rc env)) (buf_ptr a) ∧
    hash_get k' m (pe_pid_tgid env) = None ∧
    array_lookup k' "ssl_stats" STATS_CAPTURED =
      (λ v, wrap 64 (v + 1)) <$> array_lookup k "ssl_stats" STATS_CAPTURED.
Proof.
  intros Hready Hdir Hlt Hok. pose proof (proj1 (proj2 (proj2 Hready))) as Hpos.
  destruct (exit_run m dir env k a s mem Hready) as (k' & ret & bytes & Hrun & Hm & Hpr & Hlog & ? & ?).
  assert (event_len env = signed 32 (pe_rc env)) as Hel.
  { unfold event_len, MAX_DATA_LEN. lia. }
  assert (event_copy_len env = signed 32 (pe_rc env)) as Hcl.
  { rewrite event_copy_len_mod, Hel. apply Z.mod_small. lia. }
  rewrite Hcl in Hpr. rewrite Hpr in Hok. simpl in Hok.
  assert (zlen bytes = signed 32 (pe_rc env)) as Hbl
    by (eapply probe_user_len; [|exact Hpr]; lia).
  apply user_read_spec in Hpr; [|lia]. rewrite (proj2 (Z.leb_le 0 ret) Hok) in Hpr.
  exists k'. eexists. split_and!; [done|exact Hlog| | | |done|done].
  - rewrite zlen_writes; [done|]. rewrite Hm. apply event_writes_ok. lia.
  - rewrite event_header_announced; [|lia|done|done|done|rewrite Hel; lia].
    unfold announced. by rewrite Hel.
  - rewrite <- Hbl at 1. rewrite event_data by (done || lia). done.
Qed.

(** The return probe captures what the call transferred: when SSL_read or
    SSL_write of a traced thread returns fewer than 4096 bytes, the event sent
    carries the thread's pid and tid, the byte count, direction and time, and
    the plaintext at the buffer the saved arguments name when they are read; they
    are gone from the map and the captured counter has grown by one. *)
Theorem ssl_event_faithful (m : string) (dir : Z) (env : probe_env) (k : K) (a : ssl_args) (s : rslot) (mem : list Z) :
  exit_ready m env k a s mem → in_width 8 dir → signed 32 (pe_rc env) < 4096 →
  0 ≤ (bpf_probe_read_user k (signed 32 (pe_rc env)) (buf_ptr a)).1 →
  ∃ k' ev, ssl_exit m dir env k = Ok (0, k') ∧ ring_log k' = ring_log k ++ [ev] ∧
    event_header ev =
      (wrap 32 (Z.shiftr (pe_pid_tgid env) 32), wrap 32 (pe_pid_tgid env),
       signed 32 (pe_rc env), dir, wrap 64 (pe_ktime env)) ∧
    slice ev_data (signed 32 (pe_rc env)) ev = user_mem k (signed 32 (pe_rc env)) (buf_ptr a) ∧
    hash_get k' m (pe_pid_tgid env) = None ∧
    array_lookup k' "ssl_stats" STATS_CAPTURED =
      (λ v, wrap 64 (v + 1)) <$> array_lookup k "ssl_stats" STATS_CAPTURED.
Proof.
  intros Hready Hdir Hlt Hok.
  destruct (event_run m dir env k a s mem Hready Hdir Hlt Hok) as (k' & ev & ? & ? & _ & ?).
  by exists k', ev.
Qed.

(** C39 A call that transfers 4096 bytes or more is not captured: the size passed
    to the copying helper is [data_len & (MAX_DATA_LEN - 1)], 0 for a capped
    length.  The event announces 4096 bytes and its data area holds what the
    ring held there before. *)
Theorem ssl_full_buffer_not_copied (m : string) (dir : Z) (env : probe_env) (k : K) (a : ssl_args) (s : rslot) (mem : list Z) :
  exit_ready m env k a s mem → 4096 ≤ signed 32 (pe_rc env) →
  ∃ k' ev, ssl_exit m dir env k = Ok (0, k') ∧ ring_log k' = ring_log k ++ [ev] ∧
    le_value (slice ev_data_len 4 ev) = 4096 ∧
    slice ev_data 4096 ev = slice ev_data 4096 mem.
Proof.
  intros Hready Hge. destruct (exit_run m dir env k a s mem Hready)
    as (k' & ret & bytes & Hrun & Hm & Hpr & Hlog & _).
  assert (event_len env = 4096) as Hel by (unfold event_len, MAX_DATA_LEN; lia).
  assert (event_copy_len env = 0) as Hcl by (by rewrite event_copy_len_mod, Hel).
  rewrite Hcl in Hpr.
  assert (zlen bytes = 0) as Hbl by (eapply probe_user_len; [|exact Hpr]; lia).
  exists k'. eexists. split_and!; [done|exact Hlog|..].
  - by rewrite event_data_len, Hel by (done || lia).
  - pose proof (event_tail env dir (event_len env) a bytes mem ltac:(lia) Hm) as Ht.
    by rewrite Hbl, Z.add_0_r, Z.sub_0_r in Ht.
Qed.

(** A failing read of the user buffer goes unnoticed: the return code of
    [bpf_probe_read_user] is ignored, so the event is sent with the byte count
    of the call, zeroes for data, and is counted as captured. *)
Theorem ssl_failed_read_sent (m : string) (dir : Z) (env : probe_env) (k : K) (a : ssl_args) (s : rslot) (mem : list Z) :
  exit_ready m env k a s mem → signed 32 (pe_rc env) < 4096 →
  (bpf_probe_read_user k (signed 32 (pe_rc env)) (buf_ptr a)).1 < 0 →
  ∃ k' ev, ssl_exit m dir env k = Ok (0, k') ∧ ring_log k' = ring_log k ++ [ev] ∧
    le_value (slice ev_data_len 4 ev) = signed 32 (pe_rc env) ∧
    slice ev_data (signed 32 (pe_rc env)) ev = replicate (Z.to_nat (signed 32 (pe_rc env))) 0 ∧
    array_lookup k' "ssl_stats" STATS_CAPTURED =
      (λ v, wrap 64 (v + 1)) <$> array_lookup k "ssl_stats" STATS_CAPTURED.
Proof.
  intros Hready Hlt Hfail. pose proof (proj1 (proj2 (proj2 Hready))) as Hpos.
  destruct (exit_run m dir env k a s mem Hready) as (k' & ret & bytes & Hrun & Hm & Hpr & Hlog & _ & ?).
  assert (event_len env = signed 32 (pe_rc env)) as Hel.
  { unfold event_len, MAX_DATA_LEN. lia. }
  assert (event_copy_len env = signed 32 (pe_rc env)) as Hcl.
  { rewrite event_copy_len_mod, Hel. apply Z.mod_small. lia. }
  rewrite Hcl in Hpr. rewrite Hpr in Hfail. simpl in Hfail.
  assert (zlen bytes = signed 32 (pe_rc env)) as Hbl
    by (eapply probe_user_len; [|exact Hpr]; lia).
  apply user_read_spec in Hpr; [|lia]. rewrite (proj2 (Z.leb_gt 0 ret) Hfail) in Hpr.
  exists k'. eexists. split_and!; [done|exact Hlog|..|done].
  - rewrite event_data_len, le_value_bytes; [done|..]; try done; [|lia].
    change (256 ^ Z.of_nat 4) with 4294967296. lia.
  - rewrite <- Hbl at 1. by rewrite event_data by (done || lia).
Qed.

(** A return probe whose thread saved no arguments (the call was entered
    before the probes were attached, or its arguments did not fit the map)
    changes nothing; one whose call failed forgets the arguments, leaves those
    of other threads in place and sends nothing. *)
Theorem ssl_exit_without_data (m : string) (dir : Z) (env : probe_env) (k : K) :
  traced (array_lookup k "target_pid" 0) env = true →
  hash_get k m (pe_pid_tgid env) = None ∨ signed 32 (pe_rc env) ≤ 0 →
  ∃ k', ssl_exit m dir env k = Ok (0, k') ∧ quiet k k' ∧
    hash_get k' m (pe_pid_tgid env) = None ∧
    ∀ m' key', (m, pe_pid_tgid env) ≠ (m', key') → hash_get k' m' key' = hash_get k m' key'.
Proof.
  intros Ht Hcase. destruct (ssl_exit_spec m dir env k Ht) as (k' & Hrun & He).
  exists k'. split; [done|].
  destruct He as [Hn ->|p Hp Hrc ->|p k1 k2 Hp Hrc _ _ _|p k1 k2 s mem ret bytes Hp Hrc _ _ _ _ _ _].
  - split_and!; [done| |done]. unfold hash_get. by rewrite Hn.
  - destruct (hash_delete k m (pe_pid_tgid env)) as [dret k1] eqn:Hd. simpl.
    split_and!; [by eapply delete_quiet|by eapply delete_same|]. intros. by eapply delete_other.
  - unfold hash_get in Hcase. rewrite Hp in Hcase. destruct Hcase; [done|lia].
  - unfold hash_get in Hcase. rewrite Hp in Hcase. destruct Hcase; [done|lia].
Qed.

(** ** Histories

    The abstract tracer: which buffers are pending, by map and thread, and the
    headers announced so far.  It knows nothing of maps with pointers, rings or
    records. *)
Definition probe_map (p : probe) : string :=
  match p with
  | ReadEnter | ReadExit => "ssl_read_args"
  | WriteEnter | WriteExit => "ssl_write_args"
  end.
Definition probe_dir (p : probe) : Z :=
  match p with ReadEnter | ReadExit => DIR_READ | WriteEnter | WriteExit => DIR_WRITE end.
Definition is_enter (p : probe) : bool :=
  match p with ReadEnter | WriteEnter => true | ReadExit | WriteExit => false end.

Abbreviation pending := (gmap (string * Z) ssl_args).

Definition tracer_step (filter : option Z) (p : probe) env (pend : pending)
    : pending * list (Z * Z * Z * Z * Z) :=
  let key := (probe_map p, pe_pid_tgid env) in
  if negb (traced filter env) then (pend, [])
  else if is_enter p then (<[key := SslArgs (pe_parm2 env) 0]> pend, [])
  else (delete key pend,
        if bool_decide (is_Some (pend !! key)) && (0 <? signed 32 (pe_rc env))
        then [announced (probe_dir p) env] else []).

Fixpoint tracer (filter : option Z) (ps : list (probe * probe_env)) (pend : pending)
    : pending * list (Z * Z * Z * Z * Z) :=
  match ps with
  | [] => (pend, [])
  | (p, env) :: ps =>
      let '(pend1, hs1) := tracer_step filter p env pend in
      let '(pend2, hs2) := tracer filter ps pend1 in (pend2, hs1 ++ hs2)
  end.

Definition tracks k (pend : pending) : Prop :=
  ∀ m key, hash_get k m key = pend !! (m, key).

(** The entry probes of the history find room in their maps. *)
Fixpoint updates_fit (ps : list (probe * probe_env)) k : Prop :=
  match ps with
  | [] => True
  | (p, env) :: ps =>
      (is_enter p = true →
       (hash_update k (probe_map p) (pe_pid_tgid env) (SslArgs (pe_parm2 env) 0)).1 = 0) ∧
      match run_probe p env k with Ok (_, k1) => updates_fit ps k1 | Err _ => True end
  end.

(** The return probes of the history find room in the ring. *)
Fixpoint ring_has_room (ps : list (probe * probe_env)) k : Prop :=
  match ps with
  | [] => True
  | (p, env) :: ps =>
      (is_enter p = false →
       (ringbuf_reserve (hash_delete k (probe_map p) (pe_pid_tgid env)).2 sizeof_ssl_event).1 ≠ None) ∧
      match run_probe p env k with Ok (_, k1) => ring_has_room ps k1 | Err _ => True end
  end.

(** The two counters. *)
Definition ssl_counters k (c d : Z) : Prop :=
  array_lookup k "ssl_stats" STATS_CAPTURED = Some (wrap 64 c) ∧
  array_lookup k "ssl_stats" STATS_DROPPED = Some (wrap 64 d).

Lemma run_probe_exit p env k :
  is_enter p = false → run_probe p env k = ssl_exit (probe_map p) (probe_dir p) env k.
Proof. by destruct p. Qed.

Lemma run_probe_enter p env k :
  is_enter p = true → run_probe p env k = ssl_enter (probe_map p) env k.
Proof. by destruct p. Qed.

Lemma enter_tracks m env k pend k1 :
  tracks k pend → hash_update k m (pe_pid_tgid env) (SslArgs (pe_parm2 env) 0) = (0, k1) →
  tracks k1 (<[(m, pe_pid_tgid env) := SslArgs (pe_parm2 env) 0]> pend).
Proof.
  intros Ht Hu m' key. destruct (decide ((m, pe_pid_tgid env) = (m', key))) as [E|E].
  - simplify_eq. rewrite lookup_insert_eq. by rewrite (update_same _ _ _ _ _ _ Hu).
  - rewrite lookup_insert_ne by done. by rewrite (update_other _ _ _ _ _ _ _ _ Hu E).
Qed.

Lemma delete_tracks m key k pend :
  tracks k pend → tracks (hash_delete k m key).2 (delete (m, key) pend).
Proof.
  intros Ht m' key'. destruct (hash_delete k m key) as [ret k1] eqn:Hd. simpl.
  destruct (decide ((m, key) = (m', key'))) as [E|E].
  - simplify_eq. rewrite lookup_delete_eq. by eapply delete_same.
  - rewrite lookup_delete_ne by done. by rewrite (delete_other _ _ _ _ _ _ _ Hd E).
Qed.

Lemma same_hashes_tracks k k' pend : same_hashes k k' → tracks k pend → tracks k' pend.
Proof. intros Hh Ht m key. by rewrite (same_hashes_get _ _ _ _ Hh). Qed.

(** [traces k k' c d hs room]: the step sent the events [hs] announces, in order, less
    those it lost and counted, and lost none when there was [room]. *)
Definition traces k k' (c d : Z) (hs : list (Z * Z * Z * Z * Z)) (room : Prop) : Prop :=
  ∃ evs lost, ring_log k' = ring_log k ++ evs ∧ (event_header <$> evs) `sublist_of` hs ∧ 0 ≤ lost ∧
    zlen evs + lost = zlen hs ∧ ssl_counters k' (c + zlen evs) (d + lost) ∧ (room → lost = 0).

Lemma traces_nothing k k' c d room : ring_log k' = ring_log k → ssl_counters k' c d → traces k k' c d [] room.
Proof.
  intros Hl Hc. exists [], 0. rewrite app_nil_r. cbn. rewrite !Z.add_0_r. split_and!; [done|apply sublist_nil_l|done|done|done|done].
Qed.

Lemma same_counters k k' c d : same_arrays k k' → ssl_counters k c d → ssl_counters k' c d.
Proof. intros Ha [? ?]. by split; rewrite Ha. Qed.

Lemma exit_tracks m dir env k k' pend c d :
  in_width 8 dir → exit_effect m dir env k k' → tracks k pend → ssl_counters k c d →
  tracks k' (delete (m, pe_pid_tgid env) pend) ∧
  array_lookup k' "target_pid" 0 = array_lookup k "target_pid" 0 ∧
  traces k k' c d
    (if bool_decide (is_Some (pend !! (m, pe_pid_tgid env))) && (0 <? signed 32 (pe_rc env)) then [announced dir env] else [])
    ((ringbuf_reserve (hash_delete k m (pe_pid_tgid env)).2 sizeof_ssl_event).1 ≠ None).
Proof.
  intros Hdir He Ht Hc. pose proof (Ht m (pe_pid_tgid env)) as Hg. unfold hash_get in Hg.
  pose proof (delete_frame k m (pe_pid_tgid env)) as (Qa & Qr & Qm).
  pose proof (delete_tracks m (pe_pid_tgid env) k pend Ht) as Htd. pose proof (same_counters _ _ _ _ Qa Hc) as Hcd.
  destruct He as [Hn ->|p Hp Hrc ->|p k1 k2 Hp Hrc -> Hr Hb
    |p k1 k2 s mem ret bytes Hp Hrc -> Hr Hs Hm Hpr Hsent].
  - rewrite Hn in Hg. cbn in Hg. rewrite delete_id by done. split_and!; [done|done|]. rewrite <- Hg. by apply traces_nothing.
  - split_and!; [done|by rewrite Qa|]. rewrite (proj2 (Z.ltb_ge _ _) Hrc), andb_false_r. by apply traces_nothing.
  - pose proof (reserve_quiet _ _ _ _ Hr) as (Ra & Rr & _).
    pose proof (bump_same_hashes _ _ _ _ _ Hb). pose proof (reserve_hashes _ _ _ _ Hr).
    destruct (bump_frame _ _ _ _ _ Hb) as [Br _]. split_and!.
    + eapply same_hashes_tracks; [|exact Htd]. by etrans.
    + rewrite (bump_lookup _ _ _ _ _ _ _ Hb). case_decide; simplify_eq. by rewrite Ra, Qa.
    + rewrite Hp in Hg. cbn in Hg. rewrite <- Hg, bool_decide_eq_true_2, (proj2 (Z.ltb_lt _ _) Hrc) by done. cbn [andb].
      exists [], 1. rewrite app_nil_r, Br, Rr, Qr, Hr. split_and!; [done|apply sublist_nil_l|done|done| |done].
      destruct (same_counters _ _ _ _ Ra Hcd) as [Hc1 Hc2]. cbn. rewrite Z.add_0_r.
      split; rewrite (bump_lookup _ _ _ _ _ _ _ Hb); case_decide; simplify_eq; [done|]. rewrite Hc2. cbn. by rewrite wrap_add_l.
  - destruct Hsent as (k3 & Hb & Sa & Sm & Sh & Hlog). destruct (bump_frame _ _ _ _ _ Hb) as [Br _].
    pose proof (bump_same_hashes _ _ _ _ _ Hb) as Bh. split_and!.
    + eapply same_hashes_tracks; [|exact Htd]. by etrans.
    + rewrite (bump_lookup _ _ _ _ _ _ _ Hb). case_decide; simplify_eq. by rewrite Sa, Qa.
    + rewrite Hp in Hg. cbn in Hg. rewrite <- Hg, bool_decide_eq_true_2, (proj2 (Z.ltb_lt _ _) Hrc) by done. cbn [andb].
      eexists [_], 0. rewrite Br, Hlog, Qr. split_and!; [done| |done|done| |done].
      * cbn [fmap list_fmap]. pose proof (event_copy_len_range env). pose proof (event_len_range env Hrc).
        rewrite event_header_announced; [done| |done|done|done|lia].
        assert (zlen bytes = event_copy_len env) by (eapply probe_user_len; [|exact Hpr]; lia). lia.
      * destruct (same_counters _ _ _ _ Sa Hcd) as [Hc1 Hc2]. rewrite Z.add_0_r.
        split; rewrite (bump_lookup _ _ _ _ _ _ _ Hb); case_decide; simplify_eq; [|done]. rewrite Hc1. cbn. by rewrite wrap_add_l.
Qed.

Lemma step_tracks p env k pend c d :
  tracks k pend → ssl_counters k c d →
  (is_enter p = true →
     (hash_update k (probe_map p) (pe_pid_tgid env) (SslArgs (pe_parm2 env) 0)).1 = 0) →
  ∃ k', run_probe p env k = Ok (0, k') ∧
    array_lookup k' "target_pid" 0 = array_lookup k "target_pid" 0 ∧
    let '(pend', hs) := tracer_step (array_lookup k "target_pid" 0) p env pend in
    tracks k' pend' ∧ traces k k' c d hs (is_enter p = false →
      (ringbuf_reserve (hash_delete k (probe_map p) (pe_pid_tgid env)).2 sizeof_ssl_event).1 ≠ None).
Proof.
  intros Ht Hc Hfit. unfold tracer_step.
  destruct (traced (array_lookup k "target_pid" 0) env) eqn:Htr; cbn [negb]; cycle 1.
  { exists k. split_and!; [by apply untraced_run|done..|by apply traces_nothing]. }
  destruct (is_enter p) eqn:Hp.
  - rewrite (run_probe_enter p env k Hp), (ssl_enter_spec _ _ _ Htr). specialize (Hfit eq_refl).
    destruct (hash_update _ _ _ _) as [ret k1] eqn:Hu. cbn in *. subst ret.
    pose proof (update_quiet _ _ _ _ _ _ Hu) as (Qa & Qr & _).
    exists k1. rewrite Qa. split_and!; [done..|by eapply enter_tracks|]. apply traces_nothing; [done|by eapply same_counters].
  - rewrite (run_probe_exit p env k Hp).
    destruct (ssl_exit_spec (probe_map p) (probe_dir p) env k Htr) as (k' & Hrun & He).
    assert (in_width 8 (probe_dir p)) as Hd by (by destruct p).
    destruct (exit_tracks _ _ _ _ _ pend c d Hd He Ht Hc) as (Ht' & Hf & evs & lost & Htr').
    exists k'. split_and!; [done..|]. exists evs, lost. naive_solver.
Qed.

Lemma traces_app k k1 k2 c d hs1 hs2 (room1 room2 : Prop) :
  traces k k1 c d hs1 room1 → (∀ c d, ssl_counters k1 c d → traces k1 k2 c d hs2 room2) →
  traces k k2 c d (hs1 ++ hs2) (room1 ∧ room2).
Proof.
  intros (evs1 & lost1 & Hl1 & Hs1 & Hp1 & Hn1 & Hc1 & Hr1) H2. destruct (H2 _ _ Hc1) as (evs2 & lost2 & Hl2 & Hs2 & Hp2 & Hn2 & Hc2 & Hr2).
  exists (evs1 ++ evs2), (lost1 + lost2). rewrite Hl2, Hl1, app_assoc, fmap_app, !zlen_app, !Z.add_assoc.
  split_and!; [done|by apply sublist_app|lia|lia|done|]. intros [Ha Hb]. rewrite (Hr1 Ha), (Hr2 Hb). done.
Qed.

Lemma history_tracks (ps : list (probe * probe_env)) k (pend : pending) c d :
  tracks k pend → updates_fit ps k → ssl_counters k c d →
  ∃ rs k', run_probes ps k = Ok (rs, k') ∧ tracks k' (tracer (array_lookup k "target_pid" 0) ps pend).1 ∧
    traces k k' c d (tracer (array_lookup k "target_pid" 0) ps pend).2 (ring_has_room ps k).
Proof.
  revert k pend c d. induction ps as [|[p env] ps IH]; intros k pend c d Ht Hfit Hc.
  { exists [], k. split_and!; [done..|by apply traces_nothing]. }
  destruct Hfit as [Hfit1 Hfit].
  destruct (step_tracks p env k pend c d Ht Hc Hfit1) as (k1 & Hrun & Hf & Hstep).
  rewrite Hrun in Hfit. cbn [tracer ring_has_room]. rewrite Hrun.
  destruct (tracer_step (array_lookup k "target_pid" 0) p env pend) as [pend1 hs1]. destruct Hstep as [Ht1 Htr1].
  pose proof Htr1 as (evs1 & lost1 & _ & _ & _ & _ & Hc1 & _).
  destruct (IH k1 pend1 _ _ Ht1 Hfit Hc1) as (rs & k' & Hruns & Ht2 & Htr2). rewrite Hf in Ht2.
  exists (0 :: rs), k'. cbn [run_probes]. unfold mbind, prog_bind. rewrite Hrun, Hruns. split; [done|].
  destruct (tracer (array_lookup k "target_pid" 0) ps pend1) as [pend2 hs2] eqn:E. cbn in Ht2 |- *. split; [done|].
  eapply traces_app; [exact Htr1|]. intros c' d' Hc'. destruct (IH k1 pend1 c' d' Ht1 Hfit Hc') as (rs' & k'' & Hruns' & _ & Htr').
  rewrite Hruns in Hruns'. injection Hruns' as <- <-. by rewrite Hf, E in Htr'.
Qed.

End theorems.

(** ** Concrete runs

    Thread 7 of process 42, whose buffer at 0x1000 holds "SELECT 1" and whose
    neighbour's buffer at 0x2000 holds zeroes. *)
Module SslDemo.
Definition sim : Type := SimKernel.state ssl_args.

#[export] Instance sim_hashes : HashHelpers sim ssl_args := SimKernel.hashes None.
#[export] Instance sim_helpers : BpfHelpers sim := SimKernel.helpers.
#[export] Instance sim_helpers_ok : BpfHelpersOk sim := SimKernel.helpers_ok.
#[export] Instance sim_hashes_ok : HashHelpersOk sim ssl_args := SimKernel.hashes_ok None.

Definition tid : Z := 42 * 2 ^ 32 + 7.
Definition env (rc : Z) : probe_env := ProbeEnv tid 0x1000 rc 123456789.
Definition other (rc : Z) : probe_env := ProbeEnv (42 * 2 ^ 32 + 8) 0x2000 rc 123456790.
Definition text : list Z := [0x53; 0x45; 0x4C; 0x45; 0x43; 0x54; 0x20; 0x31].

(** Free records, failing user reads, saved arguments. *)
Definition kernel (room : nat) (ufail : bool) (args : gmap (string * Z) ssl_args) : sim :=
  SimKernel.State
    {[ ("target_pid"%string, 0) := 42; ("ssl_stats"%string, 0) := 0; ("ssl_stats"%string, 1) := 0 ]}
    ∅ 0 room 0xAA [] (λ _, 0) (SimKernel.mapped 0x1000 text) false ufail args true.

Definition saved : gmap (string * Z) ssl_args :=
  {[ ("ssl_read_args"%string, tid) := SslArgs 0x1000 0 ]}.

Definition slot0 : rslot (K := sim) := 0%nat.

Lemma ssl_ready rc ufail :
  (0 <? signed 32 rc) = true →
  exit_ready "ssl_read_args" (env rc) (kernel 1 ufail saved) (SslArgs 0x1000 0) slot0
    (replicate 4128 0xAA).
Proof.
  intros Hrc. zb. split_and!; [by vm_compute|by vm_compute|done|].
  eexists. split; [reflexivity|]. by vm_compute.
Qed.
End SslDemo.
Import SslDemo.

Lemma ssl_probes_total_witness :
  ∃ k', run_probes [(ReadEnter, env 0); (ReadExit, env 8)] (kernel 1 false ∅) = Ok ([0; 0], k').
Proof. exact (ssl_probes_total [(ReadEnter, env 0); (ReadExit, env 8)] (kernel 1 false ∅)). Defined.

Lemma ssl_untraced_silent_witness :
  run_probe ReadEnter (ProbeEnv (43 * 2 ^ 32) 0x1000 0 0) (kernel 1 false ∅) =
    Ok (0, kernel 1 false ∅).
Proof.
  apply (ssl_untraced_silent ReadEnter _ (kernel 1 false ∅) 42);
    [reflexivity|discriminate|vm_compute; discriminate].
Defined.

Lemma ssl_event_faithful_witness :
  ∃ k' ev, uretprobe_ssl_read_exit (env 8) (kernel 1 false saved) = Ok (0, k') ∧
    ring_log k' = [ev] ∧ event_header ev = (42, 7, 8, DIR_READ, 123456789) ∧
    slice ev_data 8 ev = text.
Proof.
  destruct (ssl_event_faithful "ssl_read_args" DIR_READ (env 8) (kernel 1 false saved)
    (SslArgs 0x1000 0) slot0 (replicate 4128 0xAA)) as (k' & ev & Hr & Hl & Hh & Hd & _).
  - apply ssl_ready. reflexivity.
  - split; [discriminate|reflexivity].
  - reflexivity.
  - vm_compute. discriminate.
  - exists k', ev. split_and!; [exact Hr|exact Hl|rewrite Hh; vm_compute; reflexivity|].
    etrans; [exact Hd|]. vm_compute. reflexivity.
Defined.

Lemma ssl_full_buffer_not_copied_witness :
  ∃ k' ev, uretprobe_ssl_read_exit (env 5000) (kernel 1 false saved) = Ok (0, k') ∧
    ring_log k' = [ev] ∧ le_value (slice ev_data_len 4 ev) = 4096 ∧
    slice ev_data 4096 ev = replicate 4096 0xAA.
Proof.
  destruct (ssl_full_buffer_not_copied "ssl_read_args" DIR_READ (env 5000) (kernel 1 false saved)
    (SslArgs 0x1000 0) slot0 (replicate 4128 0xAA)) as (k' & ev & Hr & Hl & Hn & Hd).
  - apply ssl_ready. reflexivity.
  - vm_compute. discriminate.
  - exists k', ev. split_and!; [exact Hr|exact Hl|exact Hn|]. rewrite Hd. vm_compute. reflexivity.
Defined.

Lemma ssl_failed_read_sent_witness :
  ∃ k' ev, uretprobe_ssl_read_exit (env 8) (kernel 1 true saved) = Ok (0, k') ∧
    ring_log k' = [ev] ∧ slice ev_data 8 ev = replicate 8 0.
Proof.
  destruct (ssl_failed_read_sent "ssl_read_args" DIR_READ (env 8) (kernel 1 true saved)
    (SslArgs 0x1000 0) slot0 (replicate 4128 0xAA)) as (k' & ev & Hr & Hl & _ & Hd & _).
  - apply ssl_ready. reflexivity.
  - reflexivity.
  - vm_compute. reflexivity.
  - exists k', ev. split_and!; [exact Hr|exact Hl|exact Hd].
Defined.

Lemma ssl_exit_without_data_witness :
  ∃ k', uretprobe_ssl_read_exit (env 0) (kernel 1 false saved) = Ok (0, k') ∧
    hash_get k' "ssl_read_args" tid = None.
Proof.
  destruct (ssl_exit_without_data "ssl_read_args" DIR_READ (env 0) (kernel 1 false saved))
    as (k' & Hr & _ & Hn & _).
  - vm_compute. reflexivity.
  - right. vm_compute. discriminate.
  - exists k'. split; [exact Hr|exact Hn].
Defined.


(** The saved arguments are read through the map pointer after the element was
    deleted.  With helpers that keep every documented promise but hand the
    deleted element to another CPU, the event attributed to thread 7 carries the
    bytes of the other thread's buffer instead of its own "SELECT 1". *)
Theorem ssl_args_read_after_delete :
  let H := SimKernel.hashes (V := ssl_args) (Some (SslArgs 0x2000 0)) in
  HashHelpersOk sim ssl_args (H0 := H) ∧
  hash_get (H := H) (kernel 1 false saved) "ssl_read_args" tid = Some (SslArgs 0x1000 0) ∧
  ∃ k' ev, uretprobe_ssl_read_exit (H0 := H) (env 8) (kernel 1 false saved) = Ok (0, k') ∧
    ring_log k' = [ev] ∧ event_header ev = announced DIR_READ (env 8) ∧
    slice ev_data 8 ev = user_mem (kernel 1 false saved) 8 0x2000 ∧
    user_mem (kernel 1 false saved) 8 0x1000 = text ∧
    slice ev_data 8 ev ≠ text.
Proof.
  split; [apply SimKernel.hashes_ok|]. split; [vm_compute; reflexivity|].
  eexists _, _. split; [vm_compute; reflexivity|]. split; [vm_compute; reflexivity|].
  split_and!; [vm_compute; reflexivity..|vm_compute; discriminate].
Qed.
