(* ===== verification/EbpfSource.v ===== *)
(** * User space of the XDP capture (src/pkg/capture/source_ebpf.go)

    [newEBPFSource] stores the port in the map the program compares with;
    [readLoop] decodes the records of the ring and forwards packets on a channel
    of 4096 slots without blocking; [Stats] merges kernel and user counters. *)
From S2P Require Import Prelude BpfHelpers Xdp.

Definition pktRecordHeaderSize : Z := 8.
Definition fixedSnapLen : Z := 4096.
Definition DefaultPort : Z := 5432.

(** [hostToNet16]: PutUint16 big-endian, read back little-endian. *)
Definition hostToNet16 (v : Z) : Z := le_value (be_bytes 2 v).

(** The value [newEBPFSource] stores in [cfg_port] for [cfg.Port]. *)
Definition configured_port (cfgPort : Z) : Z :=
  let port := if cfgPort =? 0 then DefaultPort else cfgPort in
  hostToNet16 (wrap 16 port).

Section source.
(** [gopacket.NewPacket(data, LayerTypeEthernet, NoCopy)] *)
Context {Packet : Type} (NewPacket : list Z → Packet).

Record ebpfSource := EbpfSource {
  packets : list Packet;   (** the channel's contents, oldest first *)
  received : Z;
  dropped : Z }.

(** [make(chan gopacket.Packet, 4096)] *)
Definition chan_cap : Z := 4096.

(** The body of the loop for one record of the ring. *)
Definition read_record (s : ebpfSource) (raw : list Z) : result panic ebpfSource :=
  if zlen raw <? pktRecordHeaderSize + 1 then Ok s else
  frameLen ← go_slice 0 4 raw;
  capBytes ← go_slice 4 8 raw;
  let capLen := le_value capBytes in
  let dataStart := pktRecordHeaderSize in
  let capLen := if capLen >? fixedSnapLen then fixedSnapLen else capLen in
  if wrap 32 (zlen raw - dataStart) <? capLen then Ok s else
  pktData ← go_slice dataStart (dataStart + capLen) raw;
  let pkt := NewPacket pktData in
  let received := wrap 64 (received s + 1) in
  if zlen (packets s) <? chan_cap then Ok (EbpfSource (packets s ++ [pkt]) received (dropped s))
  else Ok (EbpfSource (packets s) received (wrap 64 (dropped s + 1))).

(** [readLoop] until the reader is closed, interleaved with the consumer of the
    channel: [Read raw] is the loop's iteration on the next ring record,
    [Receive] the consumer's receive from the channel (which waits when it is
    empty).  The second component is what the consumer received. *)
Inductive event := Read (raw : list Z) | Receive.

Definition receive (s : ebpfSource) : option Packet * ebpfSource :=
  match packets s with
  | [] => (None, s)
  | p :: ps => (Some p, EbpfSource ps (received s) (dropped s))
  end.

Fixpoint readLoop (s : ebpfSource) (evs : list event) : result panic (list Packet * ebpfSource) :=
  match evs with
  | [] => Ok ([], s)
  | Read raw :: evs => s' ← read_record s raw; readLoop s' evs
  | Receive :: evs =>
      let '(p, s') := receive s in
      '(out, s'') ← readLoop s' evs; Ok (option_list p ++ out, s'')
  end.

(** [Stats]: per-CPU kernel counters ([None] when the lookup failed). *)
Definition sum64 (vs : option (list Z)) : Z :=
  from_option (foldl (λ a v, wrap 64 (a + v)) 0) 0 vs.

Definition Stats (s : ebpfSource) (kRecv kDrop : option (list Z)) : Z * Z :=
  let kernelReceived := sum64 kRecv in
  let kernelDropped := sum64 kDrop in
  let received := if kernelReceived >? received s then kernelReceived else received s in
  (received, wrap 64 (dropped s + kernelDropped)).

(** ** Proofs *)

(** The frame a record carries, [None] for a malformed or truncated one. *)
Definition record_frame (raw : list Z) : option (list Z) :=
  let cap := Z.min (le_value (slice 4 4 raw)) fixedSnapLen in
  if (9 <=? zlen raw) && (cap <=? wrap 32 (zlen raw - 8)) then Some (slice 8 cap raw) else None.

Definition deliver (s : ebpfSource) (pkt : Packet) : ebpfSource :=
  if zlen (packets s) <? chan_cap
  then EbpfSource (packets s ++ [pkt]) (wrap 64 (received s + 1)) (dropped s)
  else EbpfSource (packets s) (wrap 64 (received s + 1)) (wrap 64 (dropped s + 1)).

Lemma read_record_spec s raw :
  bytes_ok raw →
  read_record s raw = Ok (from_option (λ f, deliver s (NewPacket f)) s (record_frame raw)).
Proof.
  intros Hb. unfold read_record, record_frame, pktRecordHeaderSize. change (8 + 1) with 9.
  destruct (9 <=? zlen raw) eqn:H9; zb; cycle 1.
  { by rewrite (proj2 (Z.ltb_lt _ _)) by lia. }
  rewrite (proj2 (Z.ltb_ge _ _)) by lia.
  rewrite !go_slice_ok by lia. cbn [mbind result_bind].
  change (4 - 0) with 4. change (8 - 4) with 4.
  replace (if le_value (slice 4 4 raw) >? fixedSnapLen then fixedSnapLen
           else le_value (slice 4 4 raw))
    with (Z.min (le_value (slice 4 4 raw)) fixedSnapLen)
    by (rewrite Z.gtb_ltb; destruct (_ <? _) eqn:?; zb; lia).
  pose proof (le_value_range _ (slice_bytes_ok 4 4 raw Hb)) as [Hnn _].
  set (cap := Z.min (le_value (slice 4 4 raw)) fixedSnapLen) in *.
  assert (0 ≤ cap) by (unfold cap, fixedSnapLen; lia).
  destruct (cap <=? wrap 32 (zlen raw - 8)) eqn:Hc; zb; cbn [andb].
  - rewrite (proj2 (Z.ltb_ge _ _)) by lia.
    assert (wrap 32 (zlen raw - 8) ≤ zlen raw - 8) by (apply Z.mod_le; lia).
    rewrite go_slice_ok by lia. cbn [mbind result_bind].
    replace (8 + cap - 8) with cap by lia. simpl. unfold deliver.
    by destruct (zlen (packets s) <? chan_cap).
  - by rewrite (proj2 (Z.ltb_lt _ _)) by lia.
Qed.

(** The frames of the well-formed records an interleaving reads. *)
Definition frames_of (evs : list event) : list (list Z) :=
  omap (λ e, match e with Read raw => record_frame raw | Receive => None end) evs.

Definition reads_bytes (e : event) : Prop :=
  match e with Read raw => bytes_ok raw | Receive => True end.

(** The records an interleaving reads. *)
Definition reads (evs : list event) : list (list Z) :=
  omap (λ e, match e with Read raw => Some raw | Receive => None end) evs.

Lemma frames_of_reads evs : frames_of evs = omap record_frame (reads evs).
Proof.
  induction evs as [|[raw|] evs IH]; [done| |done].
  unfold frames_of, reads in *. simpl. destruct (record_frame raw); [f_equal|]; exact IH.
Qed.

Lemma reads_bytes_ok evs : Forall bytes_ok (reads evs) → Forall reads_bytes evs.
Proof.
  induction evs as [|[raw|] evs IH]; unfold reads; simpl; [done|..].
  - intros [? ?]%Forall_cons. constructor; [done|by apply IH].
  - intros ?. constructor; [done|by apply IH].
Qed.

(** [conserved s frames out s']: packets in the channel plus [frames] became
    [out] and the new channel, in order, with the losses counted. *)
Definition conserved (s : ebpfSource) (frames : list (list Z)) (out : list Packet)
    (s' : ebpfSource) : Prop :=
  ∃ lost, 0 ≤ lost ∧
    out ++ packets s' `sublist_of` packets s ++ (NewPacket <$> frames) ∧
    zlen (out ++ packets s') + lost = zlen (packets s) + zlen frames ∧
    wrap 64 (received s') = wrap 64 (received s + zlen frames) ∧
    wrap 64 (dropped s') = wrap 64 (dropped s + lost).

Lemma deliver_conserved s f frames out s' :
  conserved (deliver s (NewPacket f)) frames out s' → conserved s (f :: frames) out s'.
Proof.
  unfold deliver. intros (lost & ? & Hsub & Hlen & Hr & Hd). rewrite zlen_app in Hlen.
  destruct (zlen (packets s) <? chan_cap); cbn [packets received dropped] in *.
  - exists lost. rewrite wrap_add_l in Hr. rewrite <- app_assoc in Hsub.
    rewrite !zlen_app, (zlen_cons f) in *. rewrite zlen_cons, (@zlen_nil Packet) in Hlen.
    split_and!; [done|done|lia|by rewrite Hr; f_equal; lia|done].
  - exists (lost + 1). rewrite wrap_add_l in Hr, Hd. rewrite !zlen_app, zlen_cons in *.
    split_and!; [lia| |lia|by rewrite Hr; f_equal; lia|by rewrite Hd; f_equal; lia].
    etrans; [exact Hsub|]. apply sublist_app; [done|]. simpl. by apply sublist_cons.
Qed.

Lemma receive_conserved s p s1 frames out s' :
  receive s = (p, s1) → conserved s1 frames out s' →
  conserved s frames (option_list p ++ out) s'.
Proof.
  unfold receive. intros Hrec (lost & ? & Hsub & Hlen & Hr & Hd).
  destruct (packets s) as [|q ps] eqn:Hps; simplify_eq/=; exists lost; rewrite Hps in *.
  - split_and!; done.
  - simpl. rewrite !zlen_cons. split_and!; [done|by apply sublist_skip|lia|done|done].
Qed.

Lemma readLoop_conserved s evs :
  Forall reads_bytes evs →
  ∃ out s', readLoop s evs = Ok (out, s') ∧ conserved s (frames_of evs) out s'.
Proof.
  intros Hb. revert s. induction Hb as [|[raw|] evs Hr _ IH]; intros s; cbn [readLoop].
  - exists [], s. split; [done|]. exists 0. simpl. rewrite (@zlen_nil (list Z)), app_nil_r.
    split_and!; [done|done|lia|by rewrite Z.add_0_r..].
  - rewrite read_record_spec by done. cbn [mbind result_bind].
    unfold frames_of. simpl. destruct (record_frame raw) as [f|]; simpl; [|apply IH].
    destruct (IH (deliver s (NewPacket f))) as (out & s' & Hrun & Hc).
    exists out, s'. split; [done|]. by apply deliver_conserved.
  - destruct (receive s) as [p s1] eqn:Hp. destruct (IH s1) as (out & s' & Hrun & Hc).
    exists (option_list p ++ out), s'. rewrite Hrun. split; [done|].
    by eapply receive_conserved.
Qed.

(** The consumer keeps up: with [n] packets waiting, there is room at every read. *)
Fixpoint keeps_up (n : Z) (evs : list event) : Prop :=
  match evs with
  | [] => True
  | Read _ :: evs => n < chan_cap ∧ keeps_up (n + 1) evs
  | Receive :: evs => keeps_up (Z.max 0 (n - 1)) evs
  end.

Lemma readLoop_lossless s evs n :
  Forall reads_bytes evs → zlen (packets s) ≤ n → keeps_up n evs →
  ∃ out s', readLoop s evs = Ok (out, s') ∧ out ++ packets s' = packets s ++ (NewPacket <$> frames_of evs).
Proof.
  intros Hb. revert s n. induction Hb as [|[raw|] evs Hr _ IH]; intros s n Hn Hk; cbn [readLoop].
  - exists [], s. split; [done|]. by rewrite app_nil_r.
  - destruct Hk as [Hroom Hk]. rewrite read_record_spec by done. cbn [mbind result_bind].
    unfold frames_of. cbn [omap list_omap]. fold (frames_of evs).
    destruct (record_frame raw) as [f|]; cbn [from_option]; [|apply (IH s (n + 1)); [lia|done]].
    unfold deliver. rewrite (proj2 (Z.ltb_lt _ _)) by lia.
    destruct (IH (EbpfSource (packets s ++ [NewPacket f]) (wrap 64 (received s + 1)) (dropped s)) (n + 1)) as (out & s' & Hrun & E);
      [cbn [packets]; rewrite zlen_app, zlen_cons, (@zlen_nil Packet); lia|done|].
    exists out, s'. split; [done|]. rewrite E. cbn. by rewrite <- app_assoc.
  - unfold receive. destruct (packets s) as [|q ps] eqn:Hps.
    + destruct (IH s (Z.max 0 (n - 1))) as (out & s' & Hrun & E); [rewrite Hps, (@zlen_nil Packet); lia|done|].
      exists out, s'. rewrite Hrun. split; [done|]. by rewrite E, Hps.
    + destruct (IH (EbpfSource ps (received s) (dropped s)) (Z.max 0 (n - 1))) as (out & s' & Hrun & E);
        [rewrite zlen_cons in Hn; cbn [packets]; lia|done|].
      exists (q :: out), s'. rewrite Hrun. split; [done|]. cbn in E |- *. by rewrite E.
Qed.

(** The loop never panics and accounts for every record, whatever the
    records and however the consumer interleaves: what the consumer received
    followed by what waits in the channel is an in-order selection of the frames
    of the well-formed records, every such frame is counted as received, and the
    frames missing from the selection are exactly those counted as dropped
    (counters modulo 2^64). *)
Theorem readLoop_accounting (s : ebpfSource) (evs : list event) :
  Forall reads_bytes evs →
  ∃ out s', readLoop s evs = Ok (out, s') ∧ conserved s (frames_of evs) out s'.
Proof. apply readLoop_conserved. Qed.
End source.

(** ** From the wire to the channel *)

(** A frame the user asked for: TCP with the port [p] on either side. *)
Definition on_port (p : Z) (pkt : list Z) : bool :=
  match tcp_offset pkt with
  | Some off => (be16 off pkt =? p) || (be16 (off + 2) pkt =? p)
  | None => false
  end.

(** The two byte orders of a port agree: the loaded value of two wire bytes
    equals the stored one exactly when their network value is the port. *)
Lemma hostToNet16_match p l :
  in_width 16 p → bytes_ok l → zlen l = 2 →
  (le_value l =? hostToNet16 p) = (be_value l =? p).
Proof.
  intros Hp Hb Hl. apply eq_bool_prop_intro. rewrite !Is_true_true, !Z.eqb_eq.
  assert (length l = 2%nat) as Hl2 by (unfold zlen in Hl; lia). unfold hostToNet16. split.
  - intros E. apply (f_equal (le_bytes 2)) in E. rewrite <- Hl2 in E at 1.
    rewrite le_bytes_value in E by done.
    rewrite <- (be_bytes_length 2 p) in E at 1. rewrite le_bytes_value in E by apply be_bytes_ok.
    rewrite E. by apply be_value_bytes.
  - intros <-. by rewrite <- Hl2, be_bytes_value.
Qed.

Lemma wanted_configured p pkt :
  0 < p < 65536 → bytes_ok pkt → zlen pkt < 2 ^ 32 →
  wanted (Some (configured_port p)) pkt = on_port p pkt.
Proof.
  intros Hp Hb Hl. unfold wanted, on_port.
  destruct (tcp_offset pkt) as [off|] eqn:Ho; [|done].
  apply tcp_offset_bounds in Ho as [? ?].
  rewrite (wrap_small 32) by (unfold in_width; lia).
  rewrite (proj2 (Z.eqb_neq (zlen pkt) 0)) by lia. rewrite andb_true_r.
  unfold port_match, configured_port. rewrite (proj2 (Z.eqb_neq p 0)) by lia.
  rewrite (wrap_small 16) by (unfold in_width; lia).
  rewrite !hostToNet16_match by
    (try apply slice_bytes_ok; try apply zlen_slice; unfold in_width; (done || lia)).
  done.
Qed.

Lemma patch_bytes_ok off bs l : bytes_ok bs → bytes_ok l → bytes_ok (patch off bs l).
Proof.
  intros. unfold patch, bytes_ok. rewrite !Forall_app.
  split_and!; [by apply Forall_take|done|by apply Forall_drop].
Qed.

(** A record of a short frame decodes to the frame. *)
Lemma record_frame_image pkt mem :
  0 < zlen pkt < 4096 → zlen mem = sizeof_pkt_record →
  record_frame (record_image (frame_len pkt) (cap_len pkt) pkt mem) = Some pkt.
Proof.
  intros Hl Hm.
  assert (frame_len pkt = zlen pkt) as Hf by (apply (wrap_small 32); unfold in_width; lia).
  assert (cap_len pkt = zlen pkt) as Hc by (unfold cap_len, FIXED_SNAP_LEN; lia).
  destruct (record_image_parts (frame_len pkt) (cap_len pkt) pkt mem Hm ltac:(lia))
    as (Hz & _ & Hcap & Hd & _).
  assert (Z.min (le_value (slice 4 4 (record_image (frame_len pkt) (cap_len pkt) pkt mem)))
    fixedSnapLen = zlen pkt) as Hmin.
  { change (slice 4 4 ?r) with (slice rec_cap_len 4 r). rewrite Hcap.
    rewrite le_value_bytes by apply cap_len_width. unfold fixedSnapLen. lia. }
  unfold record_frame. cbv zeta. rewrite Hmin, Hz. change (wrap 32 (sizeof_pkt_record - 8)) with 4096.
  rewrite (proj2 (Z.leb_le (zlen pkt) _)) by lia. cbn -[slice]. f_equal. exact Hd.
Qed.

Section pipeline.
Context {K : Type} `{BpfHelpersOk K}.

Definition short_frame (k : K) (ctx : xdp_ctx) : Prop :=
  bytes_ok (ctx_pkt ctx) ∧ pkt_mapped ctx k ∧ zlen (ctx_pkt ctx) < 4096.

(** The ring has room for the record of a frame of the configured port. *)
Definition has_room (k : K) (ctx : xdp_ctx) : Prop :=
  wanted (array_lookup k "cfg_port" 0) (ctx_pkt ctx) = true → (ringbuf_reserve k sizeof_pkt_record).1 ≠ None.

Fixpoint ring_keeps_up (ctxs : list xdp_ctx) (k : K) : Prop :=
  match ctxs with
  | [] => True
  | ctx :: ctxs => has_room k ctx ∧ match pgshadow_xdp ctx k with Ok (_, k1) => ring_keeps_up ctxs k1 | Err _ => True end
  end.

(** [recorded k k' frames ok]: the ring grew by well-formed records of some of the
    [frames], in order, and of all of them if [ok]. *)
Definition recorded (k k' : K) (frames : list (list Z)) (ok : Prop) (recs : list (list Z)) : Prop :=
  ring_log k' = ring_log k ++ recs ∧ Forall bytes_ok recs ∧ Forall (λ r, is_Some (record_frame r)) recs ∧
  omap record_frame recs `sublist_of` frames ∧ (ok → omap record_frame recs = frames).

Lemma recorded_nothing k k' frames (ok : Prop) :
  ring_log k' = ring_log k → (ok → frames = []) → recorded k k' frames ok [].
Proof. intros Hl Ho. split_and!; [by rewrite app_nil_r|done|done|apply sublist_nil_l|]. intros Hok. by rewrite Ho. Qed.

(** One frame adds at most its own record to the ring. *)
Lemma effect_records p ctx (k k' : K) :
  0 < p < 65536 → array_lookup k "cfg_port" 0 = Some (configured_port p) →
  short_frame k ctx → xdp_effect ctx k k' →
  ∃ recs, recorded k k' (List.filter (on_port p) [ctx_pkt ctx]) (readable k ctx ∧ has_room k ctx) recs.
Proof.
  intros Hp Hcfg (Hb & Hmap & Hlt) He. pose proof (zlen_nonneg (ctx_pkt ctx)) as Hnn.
  assert (wanted (array_lookup k "cfg_port" 0) (ctx_pkt ctx) = on_port p (ctx_pkt ctx)) as Hon
    by (rewrite Hcfg; apply wanted_configured; try done; lia).
  destruct He as [Hw Hk|k1 Hw Hr Hbm|s k1 Hw _ Hbad (_ & Qr & _)
    |s k1 ret bytes mem Hw _ _ Hm Hmb Hpr Hret Hc].
  - exists []. apply recorded_nothing; [by subst|]. intros _. cbn. by rewrite <- Hon, Hw.
  - exists []. apply recorded_nothing; [|intros [_ Hroom]; specialize (Hroom Hw); by rewrite Hr in Hroom].
    destruct (bump_frame _ _ _ _ _ Hbm) as [-> _]. by apply reserve_quiet in Hr as (_ & -> & _).
  - exists []. apply recorded_nothing; [done|]. intros [Hread _]. unfold readable in Hread. lia.
  - pose proof (wanted_frame_len _ _ Hw) as Hnz. apply captured_counters in Hc as (Hlog & _). rewrite Hon in Hw.
    assert (frame_len (ctx_pkt ctx) = zlen (ctx_pkt ctx)) as Hf
      by (apply (wrap_small 32); unfold in_width; lia).
    assert (copy_len (ctx_pkt ctx) = zlen (ctx_pkt ctx)) as Hcl.
    { rewrite copy_len_mod. unfold cap_len, FIXED_SNAP_LEN. rewrite Z.mod_small; lia. }
    rewrite Hcl in Hpr. apply kernel_read_spec in Hpr; [|lia].
    rewrite (proj2 (Z.leb_le 0 ret)), Hmap, slice_all in Hpr by lia. subst bytes.
    eexists [_]. split; [exact Hlog|]. cbn [omap list_omap List.filter]. rewrite record_frame_image, Hw by lia.
    split_and!; [|apply Forall_singleton; by rewrite record_frame_image by lia|done|done].
    apply Forall_singleton. unfold record_image. auto 10 using patch_bytes_ok with bytes.
Qed.

Lemma traffic_recorded p ctxs (k : K) :
  0 < p < 65536 → array_lookup k "cfg_port" 0 = Some (configured_port p) → Forall (short_frame k) ctxs →
  ∃ vs k' recs, run_frames ctxs k = Ok (vs, k') ∧
    recorded k k' (List.filter (on_port p) (ctx_pkt <$> ctxs)) (Forall (readable k) ctxs ∧ ring_keeps_up ctxs k) recs.
Proof.
  intros Hp. revert k. induction ctxs as [|ctx ctxs IH]; intros k Hcfg Hs.
  { exists [], k, []. split; [done|]. by apply recorded_nothing. }
  apply Forall_cons in Hs as [Hc Hs].
  destruct (xdp_effect_of_run ctx k (proj1 Hc)) as (k1 & Hr & He).
  destruct (effect_records p ctx k k1 Hp Hcfg Hc He) as (recs1 & Hl1 & Hb1 & Hd1 & Hs1 & Ha1).
  destruct (effect_frame _ _ _ He) as [Hsame Hcfg1].
  destruct (IH k1) as (vs & k' & recs2 & Hrs & Hl2 & Hb2 & Hd2 & Hs2 & Ha2).
  { by rewrite Hcfg1. }
  { eapply Forall_impl; [exact Hs|]. intros c (? & Hm & ?). split_and!; [done| |done].
    intros n Hn. by rewrite (proj1 Hsame), Hm. }
  change (ctx_pkt <$> ctx :: ctxs) with ([ctx_pkt ctx] ++ (ctx_pkt <$> ctxs)). rewrite List.filter_app.
  exists (XDP_PASS :: vs), k', (recs1 ++ recs2). cbn [run_frames ring_keeps_up]. unfold mbind, prog_bind. rewrite Hr, Hrs.
  split; [done|]. split; [by rewrite Hl2, Hl1, app_assoc|]. rewrite omap_app.
  split_and!; [by apply Forall_app|by apply Forall_app|by apply sublist_app|].
  intros [[Hr1 Hr2]%Forall_cons [Hk1 Hk2]]. rewrite (Ha1 (conj Hr1 Hk1)), Ha2; [done|]. split; [|done].
  eapply Forall_impl; [exact Hr2|]. intros c. by apply readable_same.
Qed.

Lemma traffic_records p ctxs (k : K) :
  0 < p < 65536 → array_lookup k "cfg_port" 0 = Some (configured_port p) →
  Forall (short_frame k) ctxs →
  ∃ vs k' recs, run_frames ctxs k = Ok (vs, k') ∧ ring_log k' = ring_log k ++ recs ∧
    Forall bytes_ok recs ∧ Forall (λ r, is_Some (record_frame r)) recs ∧
    omap record_frame recs `sublist_of` List.filter (on_port p) (ctx_pkt <$> ctxs).
Proof.
  intros Hp Hc Hs. destruct (traffic_recorded p ctxs k Hp Hc Hs) as (vs & k' & recs & Hr & Hl & Hb & Hd & Hsub & _).
  by exists vs, k', recs.
Qed.

(** C2 End to end, from the wire to the consumer, with the port the user configured
    stored by [newEBPFSource] and frames shorter than 4096 bytes: however the
    consumer interleaves with the read loop, it only ever gets TCP frames on that
    port, byte for byte and in the order they arrived; and when the kernel can read
    the frames, the ring has room for each of them and the channel has room at each
    read, it gets every one of them. *)
Theorem capture_end_to_end {Packet} (NewPacket : list Z → Packet) (p : Z)
    (ctxs : list xdp_ctx) (k : K) :
  0 < p < 65536 → array_lookup k "cfg_port" 0 = Some (configured_port p) →
  Forall (short_frame k) ctxs →
  let frames := List.filter (on_port p) (ctx_pkt <$> ctxs) in
  ∃ vs k' recs, run_frames ctxs k = Ok (vs, k') ∧ ring_log k' = ring_log k ++ recs ∧
    ∀ evs, reads evs = recs →
    ∃ out s', readLoop NewPacket (EbpfSource [] 0 0) evs = Ok (out, s') ∧
      out ++ packets s' `sublist_of` NewPacket <$> frames ∧
      (Forall (readable k) ctxs → ring_keeps_up ctxs k → keeps_up 0 evs → out ++ packets s' = NewPacket <$> frames).
Proof.
  intros Hp Hcfg Hs. destruct (traffic_recorded p ctxs k Hp Hcfg Hs)
    as (vs & k' & recs & Hr & Hl & Hb & _ & Hsub & Hall).
  exists vs, k', recs. split_and!; [done|done|]. intros evs Hevs.
  assert (Forall reads_bytes evs) as Hbs by (apply reads_bytes_ok; by rewrite Hevs).
  destruct (readLoop_conserved NewPacket (EbpfSource [] 0 0) evs Hbs) as (out & s' & Hrun & _ & _ & Hsub' & _).
  exists out, s'. split; [done|]. rewrite frames_of_reads, Hevs in Hsub'. split.
  - etrans; [exact Hsub'|]. by apply fmap_sublist.
  - intros Hread Hring Hk.
    destruct (readLoop_lossless NewPacket (EbpfSource [] 0 0) evs 0 Hbs) as (out' & s'' & Hrun' & E); [done|done|].
    rewrite Hrun in Hrun'. injection Hrun' as <- <-. rewrite E, frames_of_reads, Hevs, Hall by done. done.
Qed.
End pipeline.

(** ** Concrete runs *)
Lemma readLoop_accounting_witness :
  let rec := le_bytes 4 3 ++ le_bytes 4 3 ++ [7; 8; 9; 0; 0] in
  ∃ out s', readLoop id (EbpfSource [] 0 0) [Read rec; Read [1]; Receive; Read rec] = Ok (out, s') ∧
    conserved id (EbpfSource [] 0 0) [[7; 8; 9]; [7; 8; 9]] out s'.
Proof.
  intros rec. apply (readLoop_accounting id (EbpfSource [] 0 0) [Read rec; Read [1]; Receive; Read rec]).
  repeat constructor; vm_compute; done.
Defined.

Lemma capture_end_to_end_witness :
  ∃ vs k' rec, run_frames [XdpDemo.ctx 3] (XdpDemo.kernel 1 3) = Ok (vs, k') ∧
    ring_log k' = [rec] ∧
    ∃ out s', readLoop id (EbpfSource [] 0 0) [Receive; Read rec; Receive] = Ok (out, s') ∧ out ++ packets s' = [XdpDemo.frame 3].
Proof.
  destruct (capture_end_to_end id 5432 [XdpDemo.ctx 3] (XdpDemo.kernel 1 3))
    as (vs & k' & recs & Hr & Hl & Hread).
  - lia.
  - vm_compute. reflexivity.
  - apply Forall_singleton. split_and!; [|apply XdpDemo.frame_mapped|vm_compute; reflexivity].
    apply (bool_decide_eq_true_1 _). vm_compute. reflexivity.
  - assert (∃ rec, recs = [rec]) as [rec ->].
    { assert (ring_log <$> (snd <$> (match run_frames [XdpDemo.ctx 3] (XdpDemo.kernel 1 3) with Ok r => Some r | Err _ => None end)) = Some recs)
        as E by (rewrite Hr; exact (f_equal Some Hl)).
      revert E. vm_compute. intros [= <-]. by eexists. }
    destruct (Hread [Receive; Read rec; Receive] eq_refl) as (out & s' & Hrun & _ & Hall).
    exists vs, k', rec. split_and!; [exact Hr|exact Hl|]. exists out, s'. split; [exact Hrun|].
    etrans; [apply Hall|vm_compute; reflexivity].
    + apply Forall_singleton. vm_compute. discriminate.
    + vm_compute. split; [discriminate|exact I].
    + vm_compute. done.
Defined.
