(* ===== verification/EbpfSslSource.v ===== *)
(** * User space of the SSL capture (src/pkg/capture/source_ebpf_ssl.go)

    [readLoop] decodes the [ssl_event]s of the ring, numbers the bytes of every
    (process, thread, direction) like a TCP stream ([nextSeq], with a periodic
    [purgeStaleSeqs]) and wraps the plaintext into synthetic TCP segments. *)
From S2P Require Import Prelude CLayout Vmlinux VmlinuxFacts BpfHelpers Ssl EbpfSource.

Record sslEvent := SslEvent {
  PID : Z; TID : Z; FD : Z; DataLen : Z; Direction : Z; TimestampNs : Z; Data : list Z }.

Definition sslEventSize : Z := 4 + 4 + 4 + 4 + 1 + 7 + 8 + 4096.

(** [copy(ev.Data[:], src)] on a zeroed [[4096]byte]. *)
Definition copy_data (src : list Z) : list Z :=
  let n := Z.min 4096 (zlen src) in slice 0 n src ++ replicate (Z.to_nat (4096 - n)) 0.

Definition parseSslEvent (raw : list Z) : result panic sslEvent :=
  pid ← go_slice 0 4 raw;
  tid ← go_slice 4 8 raw;
  fd ← go_slice 8 12 raw;
  dataLen ← go_slice 12 16 raw;
  direction ← go_index 16 raw;
  ts ← go_slice 24 32 raw;
  data ← go_slice 32 (zlen raw) raw;
  Ok (SslEvent (le_value pid) (le_value tid) (le_value fd) (le_value dataLen) direction
        (le_value ts) (copy_data data)).

(** The layers [buildSyntheticPacket] passes to gopacket's serializer, with the
    fields it sets. *)
Record Ethernet := EthLayer { SrcMAC : list Z; DstMAC : list Z; EthernetType : Z }.
Record IPv4 := Ipv4Layer {
  Version : Z; IHL : Z; TTL : Z; Protocol : Z; SrcIP : list Z; DstIP : list Z; Length : Z }.
Record TCP := TcpLayer {
  SrcPort : Z; DstPort : Z; Seq : Z; PSH : bool; ACK : bool; Window : Z }.
Record segment := Segment { eth : Ethernet; ip : IPv4; tcp : TCP; Payload : list Z }.

Definition buildSyntheticPacket (payload : list Z) (direction pid tid tsNs seq : Z) : segment :=
  let srcIP := [10; wrap 8 (Z.shiftr pid 8); wrap 8 pid; wrap 8 (Z.shiftr tid 16)] in
  let dstIP := [127; 0; 0; 1] in
  let srcPort := Z.land tid 0xFFFF in
  let srcPort := if srcPort =? 5432 then 5433 else srcPort in
  let dstPort := 5432 in
  let '(srcPort, dstPort, srcIP, dstIP) :=
    if direction =? 1 then (dstPort, srcPort, dstIP, srcIP) else (srcPort, dstPort, srcIP, dstIP) in
  Segment
    (EthLayer [0; 0; 0; 0; 0; 1] [0; 0; 0; 0; 0; 2] 0x0800)
    (Ipv4Layer 4 5 64 6 srcIP dstIP (wrap 16 (20 + 20 + zlen payload)))
    (TcpLayer srcPort dstPort seq true true 65535)
    payload.

(** The numbering state of the loop. *)
Record seqState := SeqState {
  seqNums : gmap Z Z; seqLastSeen : gmap Z Z; seqPurgeCounter : Z }.

Definition staleThreshold : Z := 500000.

(** The body of the purge's [range] loop; the range visits every entry once. *)
Definition purge_entry (cutoff : Z) (m : gmap Z Z * gmap Z Z) (e : Z * Z) : gmap Z Z * gmap Z Z :=
  let '(key, lastSeen) := e in
  if lastSeen <? cutoff then (delete key m.1, delete key m.2) else m.

Definition purgeStaleSeqs (s : seqState) : seqState :=
  let cutoff := wrap 64 (seqPurgeCounter s - staleThreshold) in
  let m := foldl (purge_entry cutoff) (seqNums s, seqLastSeen s) (map_to_list (seqLastSeen s)) in
  SeqState m.1 m.2 (seqPurgeCounter s).

(** [(uint64(pid)<<32 | uint64(tid))<<1 | uint64(direction)] *)
Definition seq_key (pid tid direction : Z) : Z :=
  Z.lor (wrap 64 (Z.shiftl (Z.lor (wrap 64 (Z.shiftl pid 32)) tid) 1)) direction.

Definition nextSeq (pid tid direction dataLen : Z) (s : seqState) : Z * seqState :=
  let key := seq_key pid tid direction in
  let seq := default 1 (seqNums s !! key) in
  let s := SeqState (<[key := wrap 32 (seq + dataLen)]> (seqNums s))
             (<[key := seqPurgeCounter s]> (seqLastSeen s)) (wrap 64 (seqPurgeCounter s + 1)) in
  let s := if seqPurgeCounter s mod 100000 =? 0 then purgeStaleSeqs s else s in
  (seq, s).

Section source.
(** [gopacket.NewPacket] of the serialized layers *)
Context {Packet : Type} (serialize : segment → Packet).

(** The channel and its counters are those of the XDP source. *)
Record ebpfSSLSource := EbpfSSLSource {
  chan : ebpfSource (Packet := Packet); seqs : seqState }.

(** The body of the loop for one record of the ring. *)
Definition read_event (s : ebpfSSLSource) (raw : list Z) : result panic ebpfSSLSource :=
  if zlen raw <? sslEventSize then Ok s else
  ev ← parseSslEvent raw;
  if DataLen ev =? 0 then Ok s else
  let dataLen := if DataLen ev >? 4096 then 4096 else DataLen ev in
  let '(seq, seqs) := nextSeq (PID ev) (TID ev) (Direction ev) dataLen (seqs s) in
  payload ← go_slice 0 dataLen (Data ev);
  let pkt := serialize
    (buildSyntheticPacket payload (Direction ev) (PID ev) (TID ev) (TimestampNs ev) seq) in
  Ok (EbpfSSLSource (deliver (chan s) pkt) seqs).

Fixpoint ssl_readLoop (s : ebpfSSLSource) (raws : list (list Z)) : result panic ebpfSSLSource :=
  match raws with
  | [] => Ok s
  | raw :: raws => s' ← read_event s raw; ssl_readLoop s' raws
  end.

(** [Stats] *)
Definition ssl_Stats (s : ebpfSSLSource) : Z * Z := (received (chan s), dropped (chan s)).
End source.

(** ** Decoding *)
Lemma copy_data_full src : zlen src = 4096 → copy_data src = src.
Proof.
  intros Hl. unfold copy_data. rewrite Hl. change (Z.to_nat (4096 - _)) with 0%nat.
  rewrite Z.min_id, <- Hl, slice_all. simpl. apply app_nil_r.
Qed.

(** The offsets [parseSslEvent] reads are those of the C struct. *)
Lemma parse_event raw :
  zlen raw = sizeof_ssl_event →
  ∃ ev, parseSslEvent raw = Ok ev ∧
    (PID ev, TID ev, DataLen ev, Direction ev, TimestampNs ev) = event_header raw ∧
    FD ev = le_value (slice ev_fd 4 raw) ∧ Data ev = slice ev_data 4096 raw.
Proof.
  unfold sizeof_ssl_event. intros Hl. unfold parseSslEvent. rewrite Hl.
  rewrite !go_slice_ok by lia. cbn [mbind result_bind]. rewrite go_index_ok by lia.
  cbn [mbind result_bind]. eexists. split; [reflexivity|]. split_and!; [done|done|].
  cbn [Data]. apply copy_data_full. rewrite zlen_slice; unfold ev_data; lia.
Qed.

Section events.
Context {Packet : Type} (serialize : segment → Packet).
Implicit Types s : ebpfSSLSource (Packet := Packet).

Lemma slice_slice {A} off n m (l : list A) :
  0 ≤ m ≤ n → slice 0 m (slice off n l) = slice off m l.
Proof.
  intros. unfold slice. change (Z.to_nat 0) with 0%nat. rewrite drop_0, take_take. f_equal. lia.
Qed.

(** What one event adds: a segment of its data at the next stream position. *)
Lemma read_event_spec s raw pid tid len dir ts :
  zlen raw = sizeof_ssl_event → event_header raw = (pid, tid, len, dir, ts) → 0 < len ≤ 4096 →
  read_event serialize s raw =
    Ok (EbpfSSLSource
      (deliver (chan s) (serialize (buildSyntheticPacket (slice ev_data len raw) dir pid tid ts
        (nextSeq pid tid dir len (seqs s)).1)))
      (nextSeq pid tid dir len (seqs s)).2).
Proof.
  intros Hl Hh Hlen. unfold read_event. rewrite Hl.
  change (sizeof_ssl_event <? sslEventSize) with false. cbv iota.
  destruct (parse_event raw Hl) as (ev & -> & He & _ & Hd). rewrite Hh in He. simplify_eq.
  cbn [mbind result_bind]. rewrite (proj2 (Z.eqb_neq _ 0)) by lia.
  rewrite Z.gtb_ltb, (proj2 (Z.ltb_ge _ _)) by lia.
  destruct (nextSeq _ _ _ _ _) as [seq st]. rewrite Hd, go_slice_ok; [|lia|lia|].
  - cbn [mbind result_bind]. rewrite Z.sub_0_r, slice_slice by lia. done.
  - rewrite zlen_slice; unfold ev_data, sizeof_ssl_event in *; lia.
Qed.
End events.


(** ** Sequence numbers *)

(** A call of [nextSeq]: pid, tid, direction, length. *)
Record seq_op := SeqOp { op_pid : Z; op_tid : Z; op_dir : Z; op_len : Z }.
Definition op_key (o : seq_op) : Z := seq_key (op_pid o) (op_tid o) (op_dir o).
Definition next (o : seq_op) (s : seqState) : Z * seqState :=
  nextSeq (op_pid o) (op_tid o) (op_dir o) (op_len o) s.
Definition seq_init : seqState := SeqState ∅ ∅ 0.
Definition run_seqs (ops : list seq_op) (s : seqState) : seqState :=
  foldl (λ s o, (next o s).2) s ops.

(** The bytes of stream [key] among [ops]. *)
Definition stream_len (key : Z) (ops : list seq_op) : Z :=
  foldr (λ o n, (if op_key o =? key then op_len o else 0) + n) 0 ops.

Lemma run_seqs_snoc ops o s : run_seqs (ops ++ [o]) s = (next o (run_seqs ops s)).2.
Proof. unfold run_seqs. by rewrite foldl_app. Qed.

Lemma stream_len_snoc key ops o :
  stream_len key (ops ++ [o]) = stream_len key ops + (if op_key o =? key then op_len o else 0).
Proof.
  induction ops as [|o' ops IH]; cbn [stream_len foldr app]; [simpl; lia|].
  fold (stream_len key (ops ++ [o])). fold (stream_len key ops). rewrite IH. lia.
Qed.

(** The purge, as one pass over a list of distinct entries. *)
Lemma foldl_purge cutoff es m1 m2 key :
  NoDup es.*1 →
  let m := foldl (purge_entry cutoff) (m1, m2) es in
  let gone := existsb (λ e, (e.1 =? key) && (e.2 <? cutoff)) es in
  m.1 !! key = (if gone then None else m1 !! key) ∧
  m.2 !! key = (if gone then None else m2 !! key).
Proof.
  revert m1 m2. induction es as [|[k t] es IH]; intros m1 m2 Hnd; [done|].
  apply NoDup_cons in Hnd as [Hk Hnd]. cbn [foldl existsb fst snd purge_entry].
  destruct (t <? cutoff); rewrite ?andb_false_r; cbn [orb]; [|by apply IH].
  rewrite andb_true_r. destruct (IH (delete k m1) (delete k m2) Hnd) as [-> ->].
  destruct (k =? key) eqn:E; zb; subst; cbn [orb].
  - rewrite !lookup_delete_eq. by destruct (existsb _ es).
  - by rewrite !lookup_delete_ne by done.
Qed.

(** Whether the purge removes [key]. *)
Definition stale (s : seqState) (key : Z) : bool :=
  match seqLastSeen s !! key with
  | Some t => t <? wrap 64 (seqPurgeCounter s - staleThreshold)
  | None => false
  end.

Lemma purge_lookup s key :
  seqNums (purgeStaleSeqs s) !! key = (if stale s key then None else seqNums s !! key) ∧
  seqLastSeen (purgeStaleSeqs s) !! key = (if stale s key then None else seqLastSeen s !! key).
Proof.
  unfold stale.
  set (cutoff := wrap 64 (seqPurgeCounter s - staleThreshold)).
  pose proof (foldl_purge cutoff (map_to_list (seqLastSeen s)) (seqNums s) (seqLastSeen s) key
    (NoDup_fst_map_to_list _)) as [H1 H2].
  assert (existsb (λ e, (e.1 =? key) && (e.2 <? cutoff)) (map_to_list (seqLastSeen s)) =
    match seqLastSeen s !! key with Some t => t <? cutoff | None => false end) as E.
  { apply eq_bool_prop_intro. rewrite !Is_true_true, existsb_exists. split.
    - intros ([k t] & Hin & Hb). zb. simpl in *. subst.
      apply list_elem_of_In, elem_of_map_to_list in Hin. rewrite Hin. by apply Z.ltb_lt.
    - intros Hb. destruct (seqLastSeen s !! key) as [t|] eqn:Ht; [|done].
      exists (key, t). rewrite <- list_elem_of_In, elem_of_map_to_list. simpl.
      by rewrite Z.eqb_refl. }
  rewrite E in *. done.
Qed.

(** The state before the periodic purge of a call. *)
Definition touched (o : seq_op) (s : seqState) : seqState :=
  SeqState (<[op_key o := wrap 32 (default 1 (seqNums s !! op_key o) + op_len o)]> (seqNums s))
    (<[op_key o := seqPurgeCounter s]> (seqLastSeen s)) (wrap 64 (seqPurgeCounter s + 1)).

Lemma next_spec o s :
  next o s = (default 1 (seqNums s !! op_key o),
    if wrap 64 (seqPurgeCounter s + 1) mod 100000 =? 0
    then purgeStaleSeqs (touched o s) else touched o s).
Proof. reflexivity. Qed.

(** *** The invariant of the numbering state

    After [c] calls, the last of which to purge was [c - c mod 100000]: both
    maps have the same keys, every entry carries the index of the call that
    last used it, no two the same one, and none older than the last purge's
    cutoff. *)
Definition seq_inv (c : Z) (s : seqState) : Prop :=
  seqPurgeCounter s = c ∧
  (∀ key, is_Some (seqNums s !! key) ↔ is_Some (seqLastSeen s !! key)) ∧
  (∀ key t, seqLastSeen s !! key = Some t → 0 ≤ t < c ∧ c - c mod 100000 - 500000 ≤ t) ∧
  (∀ k1 k2 t, seqLastSeen s !! k1 = Some t → seqLastSeen s !! k2 = Some t → k1 = k2).

Lemma touched_seen c s o key t :
  seq_inv c s → seqLastSeen (touched o s) !! key = Some t →
  (key = op_key o ∧ t = c) ∨ (key ≠ op_key o ∧ seqLastSeen s !! key = Some t ∧ 0 ≤ t < c ∧
     c - c mod 100000 - 500000 ≤ t).
Proof.
  intros (Hc & _ & Hr & _) Ht. simpl in Ht.
  destruct (decide (key = op_key o)) as [->|Hne].
  - rewrite lookup_insert_eq in Ht. simplify_eq. auto.
  - rewrite lookup_insert_ne in Ht by done. right. destruct (Hr _ _ Ht). auto.
Qed.

Lemma touched_inv c s o :
  seq_inv c s → 0 ≤ c → c + 1 < 2 ^ 64 →
  seqPurgeCounter (touched o s) = c + 1 ∧
  (∀ key, is_Some (seqNums (touched o s) !! key) ↔ is_Some (seqLastSeen (touched o s) !! key)) ∧
  (∀ key t, seqLastSeen (touched o s) !! key = Some t →
     0 ≤ t < c + 1 ∧ c - c mod 100000 - 500000 ≤ t) ∧
  (∀ k1 k2 t, seqLastSeen (touched o s) !! k1 = Some t →
     seqLastSeen (touched o s) !! k2 = Some t → k1 = k2).
Proof.
  intros Hinv Hc Hw. pose proof Hinv as (Hcnt & Hdom & Hr & Hinj). split_and!.
  - simpl. rewrite Hcnt. apply wrap_small. unfold in_width. lia.
  - intros key. simpl. destruct (decide (key = op_key o)) as [->|Hne].
    + by rewrite !lookup_insert_eq.
    + rewrite !lookup_insert_ne by done. apply Hdom.
  - intros key t Ht. pose proof (Z.mod_pos_bound c 100000).
    destruct (touched_seen c s o key t Hinv Ht) as [[-> ->]|(_ & _ & ?)]; lia.
  - intros k1 k2 t H1 H2.
    destruct (touched_seen c s o _ _ Hinv H1) as [[-> ->]|(? & ? & ?)],
      (touched_seen c s o _ _ Hinv H2) as [[-> ?]|(? & ? & ?)]; try done; try lia; eauto.
Qed.

Lemma next_inv c s o :
  seq_inv c s → 0 ≤ c → c + 1 < 2 ^ 64 → seq_inv (c + 1) (next o s).2.
Proof.
  intros Hinv Hc Hw. destruct (touched_inv c s o Hinv Hc Hw) as (Hcnt & Hdom & Hr & Hinj).
  rewrite next_spec. cbn [snd].
  change (wrap 64 (seqPurgeCounter s + 1)) with (seqPurgeCounter (touched o s)). rewrite Hcnt.
  destruct ((c + 1) mod 100000 =? 0) eqn:Hp; zb.
  - split_and!; [done|..].
    + intros key. destruct (purge_lookup (touched o s) key) as [-> ->].
      destruct (stale _ key); [done|apply Hdom].
    + intros key t. destruct (purge_lookup (touched o s) key) as [_ ->].
      unfold stale. rewrite Hcnt.
      destruct (seqLastSeen (touched o s) !! key) as [t'|] eqn:Ht; [|done].
      destruct (t' <? _) eqn:Hlt; intros [= <-]. zb. destruct (Hr _ _ Ht). rewrite Hp.
      unfold staleThreshold in Hlt. split; [lia|].
      destruct (decide (500000 ≤ c + 1)); [|lia].
      rewrite wrap_small in Hlt by (unfold in_width; lia). lia.
    + intros k1 k2 t. destruct (purge_lookup (touched o s) k1) as [_ ->].
      destruct (purge_lookup (touched o s) k2) as [_ ->].
      destruct (stale _ k1); [done|].
      destruct (stale _ k2); [done|]. apply Hinj.
  - split_and!; [done|apply Hdom| |apply Hinj].
    intros key t Ht. destruct (Hr _ _ Ht). split; [lia|].
    assert (c mod 100000 < (c + 1) mod 100000 ∨ (c + 1) mod 100000 = c mod 100000 + 1)
      by (Z.div_mod_to_equations; lia). Z.div_mod_to_equations; lia.
Qed.

Lemma run_inv ops : zlen ops < 2 ^ 64 → seq_inv (zlen ops) (run_seqs ops seq_init).
Proof.
  induction ops as [|o ops IH] using rev_ind; intros Hl.
  - split_and!; [done|intros key; simpl; by rewrite !lookup_empty|..]; simpl; intros *;
      by rewrite lookup_empty.
  - rewrite zlen_app, zlen_cons, (@zlen_nil seq_op) in *. rewrite run_seqs_snoc.
    pose proof (zlen_nonneg ops). replace (zlen ops + (1 + 0)) with (zlen ops + 1) by lia.
    apply next_inv; [apply IH|..]; lia.
Qed.

(** Until the first purge a stream's next number is its length so far. *)
Lemma run_unpurged ops key :
  zlen ops < 100000 →
  default 1 (seqNums (run_seqs ops seq_init) !! key) = wrap 32 (1 + stream_len key ops).
Proof.
  induction ops as [|o ops IH] using rev_ind; intros Hl.
  { simpl. by rewrite lookup_empty. }
  rewrite zlen_app, zlen_cons, (@zlen_nil seq_op) in Hl. pose proof (zlen_nonneg ops).
  rewrite run_seqs_snoc, stream_len_snoc, next_spec. cbn [snd].
  destruct (run_inv ops ltac:(lia)) as (-> & _).
  rewrite wrap_small by (unfold in_width; lia). rewrite Z.mod_small by lia.
  rewrite (proj2 (Z.eqb_neq _ 0)) by lia. simpl.
  destruct (op_key o =? key) eqn:Hk; zb; subst.
  - rewrite lookup_insert_eq, IH by lia. simpl. rewrite wrap_add_l. f_equal. lia.
  - rewrite lookup_insert_ne, IH by (done || lia). f_equal. lia.
Qed.

(** Stream numbering: among the first 100000 segments the source builds, the
    sequence number of each is one past the bytes of the earlier segments of its
    own process, thread and direction, modulo 2^32, whatever the other streams
    do in between - so a reassembler finds each stream contiguous and in order. *)
Theorem seq_contiguous (ops : list seq_op) (o : seq_op) :
  zlen ops < 100000 →
  (next o (run_seqs ops seq_init)).1 = wrap 32 (1 + stream_len (op_key o) ops).
Proof. intros Hl. rewrite next_spec. by apply run_unpurged. Qed.

Lemma purge_early c s :
  seq_inv c s → 0 < c < 500000 → ∀ key, seqNums (purgeStaleSeqs s) !! key = None.
Proof.
  intros (Hc & Hdom & Hr & _) Hlt key. destruct (purge_lookup s key) as [-> _].
  unfold stale. destruct (seqLastSeen s !! key) as [t|] eqn:Ht.
  - destruct (Hr _ _ Ht). rewrite Hc. unfold staleThreshold.
    replace (wrap 64 (c - 500000)) with (2 ^ 64 + c - 500000).
    + by rewrite (proj2 (Z.ltb_lt _ _)) by lia.
    + unfold wrap. rewrite <- (Z_mod_plus_full _ 1), Z.mod_small; lia.
  - specialize (Hdom key). rewrite Ht in Hdom.
    destruct (seqNums s !! key); [|done]. by destruct (proj1 Hdom).
Qed.

(** The first purge forgets live streams: [seqPurgeCounter - staleThreshold]
    is computed in [uint64] and wraps below 500000, so at the 100000th segment
    every entry counts as stale.  Whatever was captured, the next segment of
    every stream starts again at sequence number 1. *)
Theorem seq_restarts_at_first_purge (ops : list seq_op) (o : seq_op) :
  zlen ops = 100000 → (next o (run_seqs ops seq_init)).1 = 1.
Proof.
  intros Hl. destruct (exists_last (l := ops)) as (ops' & o' & ->).
  { intros ->. by rewrite zlen_nil in Hl. }
  rewrite zlen_app, zlen_cons, (@zlen_nil seq_op) in Hl.
  rewrite run_seqs_snoc, (next_spec o'), next_spec. cbn [fst snd].
  pose proof (run_inv ops' ltac:(lia)) as Hinv.
  destruct (touched_inv _ _ o' Hinv ltac:(lia) ltac:(lia)) as (Hcnt & Hdom & Hr & Hinj).
  change (wrap 64 (seqPurgeCounter (run_seqs ops' seq_init) + 1))
    with (seqPurgeCounter (touched o' (run_seqs ops' seq_init))).
  rewrite Hcnt. replace (zlen ops' + 1) with 100000 in * by lia. cbn [Z.eqb Z.modulo].
  change (100000 mod 100000 =? 0) with true. cbv iota.
  rewrite (purge_early 100000); [done| |lia].
  split_and!; [done|done| |done]. intros key t Ht. destruct (Hr _ _ Ht).
  change (100000 - 100000 mod 100000 - 500000) with (-400000). lia.
Qed.

(** From the 500000th segment on the purge does what it says: it removes
    exactly the streams not used in the last 500000 segments and leaves every
    other one, number included, as it was. *)
Theorem seq_purge_exact (s : seqState) (key : Z) :
  500000 ≤ seqPurgeCounter s < 2 ^ 64 →
  let recent := match seqLastSeen s !! key with
                | Some t => seqPurgeCounter s - 500000 <=? t
                | None => true
                end in
  seqNums (purgeStaleSeqs s) !! key = (if recent then seqNums s !! key else None) ∧
  seqLastSeen (purgeStaleSeqs s) !! key = (if recent then seqLastSeen s !! key else None) ∧
  seqPurgeCounter (purgeStaleSeqs s) = seqPurgeCounter s.
Proof.
  intros Hc. destruct (purge_lookup s key) as [-> ->]. unfold stale, staleThreshold.
  rewrite wrap_small by (unfold in_width; lia).
  destruct (seqLastSeen s !! key) as [t|]; [|done].
  rewrite Z.ltb_antisym. by destruct (_ <=? t).
Qed.

(** Distinct integers of an interval are at most its length. *)
Lemma interval_size (m : gmap Z Z) lo n :
  0 ≤ n →
  (∀ key t, m !! key = Some t → lo ≤ t < lo + n) →
  (∀ k1 k2 t, m !! k1 = Some t → m !! k2 = Some t → k1 = k2) →
  Z.of_nat (size m) ≤ n.
Proof.
  intros Hn Hr Hinj. rewrite <- length_map_to_list, <- (length_fmap snd).
  assert (length (map_to_list m).*2 ≤ length (seqZ lo n))%nat as H.
  { apply submseteq_length, NoDup_submseteq.
    - apply NoDup_fmap_2_strong; [|apply NoDup_map_to_list].
      intros [k1 t1] [k2 t2] H1%elem_of_map_to_list H2%elem_of_map_to_list. simpl. intros ->.
      by rewrite (Hinj _ _ _ H1 H2).
    - intros t Ht. apply list_elem_of_fmap in Ht as ([key t'] & -> & Hin).
      apply elem_of_map_to_list in Hin. apply elem_of_seqZ. by eapply Hr. }
  rewrite length_seqZ in H. lia.
Qed.

(** The purge bounds the memory of the numbering state: however long the
    source runs (fewer than 2^64 segments), neither map ever holds more than
    600000 entries. *)
Theorem seq_state_bounded (ops : list seq_op) :
  zlen ops < 2 ^ 64 →
  Z.of_nat (size (seqLastSeen (run_seqs ops seq_init))) ≤ 600000 ∧
  Z.of_nat (size (seqNums (run_seqs ops seq_init))) ≤ 600000.
Proof.
  intros Hl. destruct (run_inv ops Hl) as (Hc & Hdom & Hr & Hinj).
  assert (Z.of_nat (size (seqLastSeen (run_seqs ops seq_init))) ≤ 600000) as Hs.
  { apply (interval_size _ (zlen ops - 600000)); [lia| |done].
    intros key t Ht. destruct (Hr _ _ Ht).
    pose proof (Z.mod_pos_bound (zlen ops) 100000). lia. }
  split; [done|]. rewrite <- !size_dom in *.
  replace (dom (seqNums (run_seqs ops seq_init))) with (dom (seqLastSeen (run_seqs ops seq_init)));
    [done|]. apply leibniz_equiv. intros key. rewrite !elem_of_dom. symmetry. apply Hdom.
Qed.

(** ** Stream identities *)

Lemma lor_shift_add a b n :
  0 ≤ n → in_width n b → Z.lor (Z.shiftl a n) b = a * 2 ^ n + b.
Proof.
  intros Hn [Hb1 Hb2]. rewrite Z.shiftl_mul_pow2 by done.
  rewrite <- Z.add_lor_land. rewrite <- (Z.add_0_r (Z.lor _ _)) at 1. f_equal. symmetry.
  apply Z.bits_inj'. intros i Hi. rewrite Z.land_spec, Z.bits_0.
  destruct (decide (i < n)); [by rewrite Z.mul_pow2_bits_low|].
  replace (Z.testbit b i) with false; [apply andb_false_r|].
  symmetry. rewrite <- (Z.mod_small b (2 ^ n)) by lia. apply Z.mod_pow2_bits_high. lia.
Qed.

Lemma seq_key_value pid tid dir :
  0 ≤ pid < 2 ^ 31 → in_width 32 tid → 0 ≤ dir < 2 →
  seq_key pid tid dir = (pid * 2 ^ 32 + tid) * 2 + dir.
Proof.
  intros Hp Ht Hd. unfold seq_key. pose proof Ht as [? ?].
  assert (0 ≤ pid * 2 ^ 32) by lia.
  rewrite (wrap_small 64 (Z.shiftl pid 32)).
  2: { unfold in_width. rewrite Z.shiftl_mul_pow2 by lia. lia. }
  rewrite (lor_shift_add pid tid 32) by (done || lia).
  rewrite (wrap_small 64).
  2: { unfold in_width. rewrite Z.shiftl_mul_pow2 by lia. lia. }
  rewrite (lor_shift_add _ dir 1); [done|lia|unfold in_width; lia].
Qed.

(** Streams do not share sequence numbers: for process ids below 2^31 the map
    key determines process, thread and direction. *)
Theorem seq_key_injective (pid tid dir pid' tid' dir' : Z) :
  0 ≤ pid < 2 ^ 31 → in_width 32 tid → 0 ≤ dir < 2 →
  0 ≤ pid' < 2 ^ 31 → in_width 32 tid' → 0 ≤ dir' < 2 →
  seq_key pid tid dir = seq_key pid' tid' dir' → pid = pid' ∧ tid = tid' ∧ dir = dir'.
Proof.
  intros. rewrite !seq_key_value in * by done. unfold in_width in *. lia.
Qed.

(** The connection a reassembler sees: both endpoints of a segment. *)
Definition four_tuple (s : segment) : list Z * list Z * Z * Z :=
  (SrcIP (ip s), DstIP (ip s), SrcPort (tcp s), DstPort (tcp s)).

Definition stream_tuple (pid tid dir : Z) : list Z * list Z * Z * Z :=
  four_tuple (buildSyntheticPacket [] dir pid tid 0 0).

Lemma tuple_fields pid tid pid' tid' dir :
  stream_tuple pid tid dir = stream_tuple pid' tid' dir →
  wrap 8 (Z.shiftr pid 8) = wrap 8 (Z.shiftr pid' 8) ∧ wrap 8 pid = wrap 8 pid' ∧
  wrap 8 (Z.shiftr tid 16) = wrap 8 (Z.shiftr tid' 16).
Proof.
  unfold stream_tuple, four_tuple, buildSyntheticPacket.
  destruct (dir =? 1); cbn; intros E; by simplify_eq.
Qed.

(** The processes PostgreSQL runs one connection each in, whose thread id is
    their process id, get different connections: for ids below 2^24 the
    synthetic four-tuple determines the process. *)
Theorem process_tuple_injective (pid pid' dir : Z) :
  0 ≤ pid < 2 ^ 24 → 0 ≤ pid' < 2 ^ 24 →
  stream_tuple pid pid dir = stream_tuple pid' pid' dir → pid = pid'.
Proof.
  intros Hp Hp' (H1 & H2 & H3)%tuple_fields. unfold wrap in *.
  rewrite !Z.shiftr_div_pow2 in * by lia. change (2 ^ 8) with 256 in *.
  change (2 ^ 16) with 65536 in *. change (2 ^ 24) with 16777216 in *.
  Z.div_mod_to_equations. lia.
Qed.

(** The four-tuple is not unique per (pid, tid) pair: two threads of one
    process whose ids end in 5432 and 5433 modulo 2^16 share theirs, and so do
    two processes 2^16 apart with the same thread id, while their streams are
    numbered apart. *)
Theorem thread_tuple_collision :
  stream_tuple 4242 5432 0 = stream_tuple 4242 5433 0 ∧
  stream_tuple 4242 70968 0 = stream_tuple 4242 70969 0 ∧
  stream_tuple 4242 4242 0 = stream_tuple (4242 + 65536) 4242 0 ∧
  seq_key 4242 5432 0 ≠ seq_key 4242 5433 0.
Proof. split_and!; vm_compute; congruence. Qed.

(** ** Concrete runs *)
Module SslSourceDemo.
Definition src : ebpfSSLSource (Packet := segment) := EbpfSSLSource (EbpfSource [] 0 0) seq_init.
Definition op (len : Z) : seq_op := SeqOp 4242 4242 0 len.
Definition many (n : Z) : list seq_op := replicate (Z.to_nat n) (op 10).
Lemma zlen_many n : 0 ≤ n → zlen (many n) = n.
Proof. intros. unfold zlen, many. rewrite length_replicate. lia. Qed.
End SslSourceDemo.
Import SslSourceDemo SslDemo.


Lemma seq_contiguous_witness :
  (next (op 3) (run_seqs (many 4) seq_init)).1 = 41.
Proof. apply (seq_contiguous (many 4) (op 3)). reflexivity. Defined.

Lemma seq_restarts_at_first_purge_witness :
  (next (op 3) (run_seqs (many 100000) seq_init)).1 = 1.
Proof. apply (seq_restarts_at_first_purge (many 100000) (op 3)). by apply zlen_many. Defined.

Lemma seq_purge_exact_witness :
  seqNums (purgeStaleSeqs (SeqState {[ 1 := 5; 2 := 6 ]} {[ 1 := 99999; 2 := 100000 ]} 600000))
    !! 2 = Some 6.
Proof.
  destruct (seq_purge_exact (SeqState {[ 1 := 5; 2 := 6 ]} {[ 1 := 99999; 2 := 100000 ]} 600000) 2)
    as [H _].
  - split; [discriminate|reflexivity].
  - rewrite H. vm_compute. reflexivity.
Defined.

Lemma seq_state_bounded_witness :
  Z.of_nat (size (seqLastSeen (run_seqs (many 700000) seq_init))) ≤ 600000.
Proof. refine (proj1 (seq_state_bounded (many 700000) _)). by rewrite zlen_many. Defined.

Lemma seq_key_injective_witness : seq_key 4242 7 0 ≠ seq_key 4242 7 1.
Proof.
  intros E. destruct (seq_key_injective 4242 7 0 4242 7 1) as (_ & _ & [=]);
    [lia|split; vm_compute; congruence|lia|lia|split; vm_compute; congruence|lia|exact E].
Defined.

Lemma process_tuple_injective_witness : stream_tuple 5432 5432 0 ≠ stream_tuple 5433 5433 0.
Proof.
  intros E. assert (5432 = 5433) as [=].
  apply (process_tuple_injective 5432 5433 0); [lia|lia|exact E].
Defined.
