(* ===== verification/Core.v ===== *)
(** * Shared data types (src/pkg/core/types.go)

    The types that flow through the pipeline.  Strings are their bytes, times and
    durations nanoseconds; [netip.Addr] is the part of it the sources use. *)
From S2P Require Import Prelude.

(** [netip.Addr]: the zero address, IPv4 or IPv6 without zone. *)
Inductive Addr := AddrZero | Addr4 (b : list Z) | Addr16 (b : list Z).

Definition Is4 (a : Addr) : bool := match a with Addr4 _ => true | _ => false end.
Definition As16 (a : Addr) : list Z :=
  match a with
  | AddrZero => replicate 16 0
  | Addr4 b => replicate 10 0 ++ [255; 255] ++ b
  | Addr16 b => b
  end.
Definition As4 (a : Addr) : list Z := match a with Addr4 b => b | _ => [] end.

#[export] Instance Addr_eq_dec : EqDecision Addr.
Proof. solve_decision. Defined.

#[export] Instance Addr_countable : Countable Addr.
Proof.
  refine (inj_countable'
    (λ a, match a with AddrZero => inl () | Addr4 b => inr (inl b) | Addr16 b => inr (inr b) end)
    (λ s, match s with inl () => AddrZero | inr (inl b) => Addr4 b | inr (inr b) => Addr16 b end) _).
  by intros [].
Defined.

(** The four-tuple of a captured connection; Go compares it field by field. *)
Record ConnID := MkConnID { SrcIP : Addr; SrcPort : Z; DstIP : Addr; DstPort : Z }.

#[export] Instance ConnID_eq_dec : EqDecision ConnID.
Proof. solve_decision. Defined.

#[export] Instance ConnID_countable : Countable ConnID.
Proof.
  refine (inj_countable' (λ c, (SrcIP c, SrcPort c, DstIP c, DstPort c))
    (λ '(a, p, b, q), MkConnID a p b q) _).
  by intros [].
Defined.

(** [Value] is [None] for a nil slice (SQL NULL). *)
Record ParamInfo := Param { OID : Z; Value : option (list Z); Format : Z }.

Record SQLEvent := SqlEvent {
  Conn : ConnID; SQL : list Z; Timestamp : Z; TxID : Z; Seq : Z; Extended : bool;
  StmtName : list Z; Params : list ParamInfo; CopyData : list (list Z);
  SourceExecTime : Z; User : list Z }.

Record PGMessage := PgMessage { Type_ : Z; Length_ : Z; Payload_ : list Z }.

#[export] Instance PGMessage_eq_dec : EqDecision PGMessage.
Proof. solve_decision. Defined.

Inductive TxStatus := TxIdle | TxInTx | TxFailed.

#[export] Instance TxStatus_eq_dec : EqDecision TxStatus.
Proof. solve_decision. Defined.
