(* ===== verification/Framing.v ===== *)
(** * Wire-protocol framing (src/pkg/protocol/framing.go)

    A [streamParser] turns the byte stream of one direction of one connection
    into [PGMessage]s: untyped startup messages first on the client side, typed
    messages after them.  [Feed] appends a chunk, frames what is complete and
    keeps the rest. *)
From S2P Require Import Prelude Core.

Definition protocolVersion30 : Z := 196608.
Definition sslRequestCode : Z := 80877103.
Definition gssEncRequestCode : Z := 80877104.
Definition cancelRequestCode : Z := 80877102.
Definition typedHeaderLen : Z := 5.
Definition startupHeaderLen : Z := 4.
Definition maxStalledBuffer : Z := Z.shiftl 1 20.
Definition startupMsgType : Z := 0.
Definition maxFrameLength : Z := 256 * 1024 * 1024.

(** The errors of the two framing functions, with the values they print. *)
Inductive frame_error :=
| InvalidLength (length typ : Z)
| FrameTooLong (length typ : Z)
| InvalidStartupLength (length : Z).

Record streamParser := StreamParser {
  fromClient : bool; inStartup : bool; buf : list Z; stalled : bool }.

Definition NewParser (fromClient : bool) : streamParser :=
  StreamParser fromClient fromClient [] false.

(** [binary.BigEndian.Uint32] of the four bytes at [off]; both callers check the
    length first. *)
Definition be32 (off : Z) (l : list Z) : Z := be_value (slice off 4 l).

(** The message and the bytes consumed, or [None] when more bytes are needed. *)
Definition frameTyped (buf : list Z) : result frame_error (option (PGMessage * Z)) :=
  if zlen buf <? typedHeaderLen then Ok None else
  let typ := be_value (slice 0 1 buf) in
  let length := be32 1 buf in
  if length <? 4 then Err (InvalidLength length typ) else
  if length >? maxFrameLength then Err (FrameTooLong length typ) else
  let total := 1 + length in
  if zlen buf <? total then Ok None else
  Ok (Some (PgMessage typ length (slice typedHeaderLen (total - typedHeaderLen) buf), total)).

Definition frameStartup (buf : list Z) : result frame_error (option (PGMessage * Z)) :=
  if zlen buf <? startupHeaderLen then Ok None else
  let length := be32 0 buf in
  if length <? 4 then Err (InvalidStartupLength length) else
  let total := length in
  if zlen buf <? total then Ok None else
  Ok (Some (PgMessage startupMsgType length
       (slice startupHeaderLen (total - startupHeaderLen) buf), total)).

Definition transitionToTyped (msg : PGMessage) : bool :=
  if zlen (Payload_ msg) <? 4 then true else
  let code := be32 0 (Payload_ msg) in
  if (code =? sslRequestCode) || (code =? gssEncRequestCode) || (code =? cancelRequestCode)
  then false else true.

Definition frame (inStartup : bool) (buf : list Z) : result frame_error (option (PGMessage * Z)) :=
  if inStartup then frameStartup buf else frameTyped buf.

(** The loop of [Feed]: messages, phase, retained bytes, error.  [None] when the
    fuel runs out. *)
Fixpoint feed_loop (fuel : nat) (inStartup : bool) (buf : list Z) (msgs : list PGMessage)
    : option (list PGMessage * bool * list Z * option frame_error) :=
  match fuel with
  | O => None
  | S fuel =>
      match frame inStartup buf with
      | Err e => Some (msgs, inStartup, buf, Some e)
      | Ok None => Some (msgs, inStartup, buf, None)
      | Ok (Some (msg, consumed)) =>
          feed_loop fuel (inStartup && negb (transitionToTyped msg))
            (drop (Z.to_nat consumed) buf) (msgs ++ [msg])
      end
  end.

Definition hasValidPendingFrame (p : streamParser) : bool :=
  if inStartup p then
    if zlen (buf p) >=? startupHeaderLen then
      let length := be32 0 (buf p) in (length >=? 4) && (length <=? 256 * 1024 * 1024)
    else false
  else if zlen (buf p) >=? typedHeaderLen then
    let length := be32 1 (buf p) in (length >=? 4) && (length <=? 256 * 1024 * 1024)
  else false.

(** [compact] replaces the backing array; the contents stay. *)
Definition compact (p : streamParser) : streamParser :=
  if zlen (buf p) =? 0 then StreamParser (fromClient p) (inStartup p) [] (stalled p) else p.

(** Every frame consumes at least four bytes, so one step per byte is enough. *)
Definition Feed (p : streamParser) (data : list Z)
    : option (list PGMessage * option frame_error * streamParser) :=
  if stalled p then Some ([], None, p) else
  let buf := buf p ++ data in
  '(msgs, st, rest, err) ← feed_loop (S (length buf)) (inStartup p) buf [];
  let p' := StreamParser (fromClient p) st rest (stalled p) in
  match err with
  | Some e => Some (msgs, Some e, p')
  | None =>
      if (zlen msgs =? 0) && (zlen rest >? maxStalledBuffer) && negb (hasValidPendingFrame p')
      then Some ([], None, StreamParser (fromClient p) st [] true)
      else Some (msgs, None, compact p')
  end.

(** A stream arriving in chunks: all messages in order and the final parser. *)
Fixpoint feeds (p : streamParser) (chunks : list (list Z)) : option (list PGMessage * streamParser) :=
  match chunks with
  | [] => Some ([], p)
  | c :: cs =>
      '(msgs, _, p') ← Feed p c;
      '(msgs', p'') ← feeds p' cs;
      Some (msgs ++ msgs', p'')
  end.

(** ** Frames *)
Lemma be32_range off l : bytes_ok l → 0 ≤ be32 off l.
Proof. intros. by apply be_value_range, slice_bytes_ok. Qed.

Lemma slice_app {A} off n (l1 l2 : list A) :
  0 ≤ off → 0 ≤ n → off + n ≤ zlen l1 → slice off n (l1 ++ l2) = slice off n l1.
Proof.
  unfold slice, zlen. intros. rewrite drop_app_le by lia.
  apply take_app_le. rewrite length_drop. lia.
Qed.

Lemma be32_app off l1 l2 :
  0 ≤ off → off + 4 ≤ zlen l1 → be32 off (l1 ++ l2) = be32 off l1.
Proof. intros. unfold be32. by rewrite slice_app by lia. Qed.

(** What a framed message takes from the buffer. *)
Lemma frame_consumed st b msg n :
  frame st b = Ok (Some (msg, n)) → 4 ≤ n ≤ zlen b.
Proof.
  unfold frame, frameStartup, frameTyped. intros H. destruct st; repeat case_match; simplify_eq;
    zb; lia.
Qed.

(** More bytes change neither a framed message nor an error. *)
Lemma frame_app st b more r :
  bytes_ok b → frame st b = r → r ≠ Ok None → frame st (b ++ more) = r.
Proof.
  intros Hb <- Hr. unfold frame, frameStartup, frameTyped in *.
  pose proof (zlen_nonneg more). pose proof (be32_range 0 b Hb). pose proof (be32_range 1 b Hb).
  rewrite zlen_app.
  destruct st; unfold startupHeaderLen, typedHeaderLen in *.
  - destruct (zlen b <? 4) eqn:E1; [done|]. zb.
    rewrite (proj2 (Z.ltb_ge _ _)) by lia. rewrite be32_app by lia.
    destruct (be32 0 b <? 4) eqn:E2; [done|]. zb.
    destruct (zlen b <? be32 0 b) eqn:E3; [done|]. zb.
    rewrite (proj2 (Z.ltb_ge _ _)) by lia. by rewrite slice_app by lia.
  - destruct (zlen b <? 5) eqn:E1; [done|]. zb.
    rewrite (proj2 (Z.ltb_ge _ _)) by lia. rewrite be32_app, slice_app by lia.
    destruct (be32 1 b <? 4) eqn:E2; [done|]. zb.
    destruct (be32 1 b >? maxFrameLength) eqn:E4; [done|].
    destruct (zlen b <? 1 + be32 1 b) eqn:E3; [done|]. zb.
    rewrite (proj2 (Z.ltb_ge _ _)) by lia. by rewrite slice_app by lia.
Qed.

(** ** Greedy decoding

    The reference: frame from the front until a frame is incomplete or wrong. *)
Inductive decodes : bool → list Z → list PGMessage → bool → list Z → option frame_error → Prop :=
| DecodeMore st b : frame st b = Ok None → decodes st b [] st b None
| DecodeErr st b e : frame st b = Err e → decodes st b [] st b (Some e)
| DecodeMsg st b msg n ms st' rest err :
    frame st b = Ok (Some (msg, n)) →
    decodes (st && negb (transitionToTyped msg)) (drop (Z.to_nat n) b) ms st' rest err →
    decodes st b (msg :: ms) st' rest err.

Lemma decodes_det st b ms1 st1 r1 e1 ms2 st2 r2 e2 :
  decodes st b ms1 st1 r1 e1 → decodes st b ms2 st2 r2 e2 →
  ms1 = ms2 ∧ st1 = st2 ∧ r1 = r2 ∧ e1 = e2.
Proof.
  intros H. revert ms2 st2 r2 e2. induction H as [st b Hf|st b e Hf|st b msg n ms st' rest err Hf _ IH];
    intros ms2 st2 r2 e2 H2; inversion H2; simplify_eq; try by rewrite Hf in *; simplify_eq.
  assert (msg0 = msg ∧ n0 = n) as [-> ->] by (rewrite Hf in *; by simplify_eq).
  match goal with H : decodes _ _ _ _ _ _ |- _ => destruct (IH _ _ _ _ H) as (-> & -> & -> & ->) end.
  done.
Qed.

(** The loop computes it, and never runs out of fuel. *)
Lemma feed_loop_decodes fuel st b acc :
  (length b < fuel)%nat →
  ∃ ms st' rest err, feed_loop fuel st b acc = Some (acc ++ ms, st', rest, err) ∧
    decodes st b ms st' rest err.
Proof.
  revert st b acc. induction fuel as [|fuel IH]; intros st b acc Hf; [lia|]. simpl.
  destruct (frame st b) as [[[msg n]|]|e] eqn:E.
  - apply frame_consumed in E as Hn. unfold zlen in Hn.
    destruct (IH (st && negb (transitionToTyped msg)) (drop (Z.to_nat n) b) (acc ++ [msg]))
      as (ms & st' & rest & err & Hl & Hd); [rewrite length_drop; lia|].
    exists (msg :: ms), st', rest, err. rewrite Hl, <- app_assoc. split; [done|].
    by eapply DecodeMsg.
  - exists [], st, b, None. rewrite app_nil_r. split; [done|by apply DecodeMore].
  - exists [], st, b, (Some e). rewrite app_nil_r. split; [done|by apply DecodeErr].
Qed.

(** Decoding in two steps is decoding at once. *)
Lemma decodes_app st b ms st1 r1 e1 more ms2 st2 r2 e2 :
  bytes_ok b → decodes st b ms st1 r1 e1 → decodes st1 (r1 ++ more) ms2 st2 r2 e2 →
  decodes st (b ++ more) (ms ++ ms2) st2 r2 e2.
Proof.
  intros Hb H. revert Hb. induction H as [st b Hf|st b e Hf|st b msg n ms st' rest err Hf _ IH];
    intros Hb Hd; [done..|].
  eapply DecodeMsg; [by eapply frame_app|].
  apply frame_consumed in Hf. unfold zlen in Hf. rewrite drop_app_le by lia.
  apply IH; [by apply Forall_drop|done].
Qed.

Lemma decodes_bytes st b ms st' rest err :
  bytes_ok b → decodes st b ms st' rest err → bytes_ok rest.
Proof. intros Hb. induction 1; auto. by apply IHdecodes, Forall_drop. Qed.

(** Where decoding stopped, and why. *)
Lemma decodes_stop st b ms st' rest err :
  decodes st b ms st' rest err →
  frame st' rest = match err with Some e => Err e | None => Ok None end.
Proof. by induction 1. Qed.

Lemma compact_id p : compact p = p.
Proof.
  unfold compact. destruct (zlen (buf p) =? 0) eqn:E; [|done]. zb.
  destruct p as [c i b s]. simpl in *. by destruct b.
Qed.

(** When the guard of [Feed] gives the stream up. *)
Definition gives_up (ms : list PGMessage) (p' : streamParser) : bool :=
  (zlen ms =? 0) && (zlen (buf p') >? maxStalledBuffer) && negb (hasValidPendingFrame p').

Lemma Feed_spec p data :
  stalled p = false →
  ∃ ms st rest err, decodes (inStartup p) (buf p ++ data) ms st rest err ∧
    let p' := StreamParser (fromClient p) st rest false in
    Feed p data = Some (
      if bool_decide (err = None) && gives_up ms p'
      then ([], None, StreamParser (fromClient p) st [] true) else (ms, err, p')).
Proof.
  intros Hs. destruct (feed_loop_decodes (S (length (buf p ++ data))) (inStartup p) (buf p ++ data) [])
    as (ms & st & rest & err & Hl & Hd); [lia|].
  exists ms, st, rest, err. split; [done|]. unfold Feed. rewrite Hs, Hl. cbn [mbind option_bind app].
  destruct err as [e|]; [done|]. rewrite compact_id. unfold gives_up. cbn [buf].
  by destruct (_ && negb _).
Qed.

(** Feeding never fails to return: for every parser state and every chunk,
    [Feed] frames what there is and terminates. *)
Lemma Feed_answers (p : streamParser) (data : list Z) :
  ∃ ms err p', Feed p data = Some (ms, err, p').
Proof.
  destruct (stalled p) eqn:Hs; [by exists [], None, p; unfold Feed; rewrite Hs|].
  destruct (Feed_spec p data Hs) as (ms & st & rest & err & _ & ->).
  destruct (_ && _); eauto.
Qed.

Lemma feeds_stalled p chunks ms p' :
  stalled p = true → feeds p chunks = Some (ms, p') → p' = p.
Proof.
  intros Hs. revert ms p'. induction chunks as [|c cs IH]; intros ms p' Hf; simpl in Hf; [by simplify_eq|].
  unfold Feed in Hf. rewrite Hs in Hf. cbn [mbind option_bind] in Hf.
  destruct (feeds p cs) as [[ms2 p2]|] eqn:Hf2; simplify_eq/=. by eapply IH.
Qed.

(** Running [feeds] from a parser that still reads. *)
Lemma feeds_decode p chunks ms p' :
  stalled p = false → bytes_ok (buf p) → Forall bytes_ok chunks →
  feeds p chunks = Some (ms, p') → stalled p' = false →
  (chunks = [] ∧ ms = [] ∧ p' = p) ∨
  ∃ err, decodes (inStartup p) (buf p ++ concat chunks) ms (inStartup p') (buf p') err.
Proof.
  intros Hs Hb Hc. revert p ms p' Hs Hb.
  induction Hc as [|c cs Hc Hcs IH]; intros p ms p' Hs Hb Hf Hs'; simpl in Hf; [simplify_eq; auto|].
  right. destruct (Feed_spec p c Hs) as (ms1 & st & rest & err & Hd & HF). rewrite HF in Hf.
  assert (bytes_ok (buf p ++ c)) as Hbc by (by apply Forall_app).
  destruct (bool_decide (err = None) && _) eqn:Hg; cbn [mbind option_bind] in Hf.
  { destruct (feeds _ cs) as [[ms2 p2]|] eqn:Hf2; simplify_eq/=.
    apply feeds_stalled in Hf2; [|done]. by subst. }
  destruct (feeds _ cs) as [[ms2 p2]|] eqn:Hf2; simplify_eq/=.
  rewrite app_assoc.
  apply IH in Hf2 as [(-> & -> & ->)|(err2 & Hd2)]; [..|done|by eapply decodes_bytes|done].
  - simpl. rewrite !app_nil_r. by exists err.
  - exists err2. by eapply decodes_app.
Qed.

(** ** Phases and the stall guard *)
Lemma decodes_typed b ms st' rest err : decodes false b ms st' rest err → st' = false.
Proof. intros H. remember false as st eqn:E. induction H; simpl in *; subst; auto. Qed.

(** An incomplete typed frame announces an acceptable length. *)
Lemma pending_typed p :
  inStartup p = false → frame false (buf p) = Ok None → 5 ≤ zlen (buf p) →
  hasValidPendingFrame p = true ∧ zlen (buf p) ≤ maxFrameLength.
Proof.
  intros Hst Hf Hl. unfold hasValidPendingFrame. rewrite Hst.
  unfold frame, frameTyped, typedHeaderLen, maxFrameLength in *.
  rewrite (proj2 (Z.ltb_ge _ _)) in Hf by lia.
  rewrite Z.geb_leb, (proj2 (Z.leb_le _ _)) by lia.
  destruct (be32 1 (buf p) <? 4) eqn:E1; [done|]. rewrite Z.gtb_ltb in Hf.
  destruct (_ <? be32 1 (buf p)) eqn:E2; [done|]. zb.
  destruct (zlen (buf p) <? _) eqn:E3; [zb|done].
  rewrite Z.geb_leb, !(proj2 (Z.leb_le _ _)) by lia. lia.
Qed.

Lemma gives_up_typed p ms :
  inStartup p = false → frame false (buf p) = Ok None → gives_up ms p = false.
Proof.
  intros Hst Hf. unfold gives_up. destruct (zlen (buf p) >? maxStalledBuffer) eqn:E.
  - rewrite Z.gtb_ltb in E. zb. change maxStalledBuffer with 1048576 in E.
    destruct (pending_typed p Hst Hf ltac:(lia)) as [-> _]. apply andb_false_r.
  - by rewrite andb_false_r.
Qed.

Lemma Feed_typed p data :
  stalled p = false → inStartup p = false →
  ∃ ms rest err, decodes false (buf p ++ data) ms false rest err ∧
    Feed p data = Some (ms, err, StreamParser (fromClient p) false rest false).
Proof.
  intros Hs Hst. destruct (Feed_spec p data Hs) as (ms & st & rest & err & Hd & HF).
  rewrite Hst in Hd. assert (st = false) as -> by (by eapply decodes_typed).
  exists ms, rest, err. split; [done|]. rewrite HF. destruct err as [e|]; [done|].
  rewrite gives_up_typed; [done|done|]. by apply (decodes_stop _ _ _ _ _ _ Hd).
Qed.

Lemma feeds_typed p chunks :
  stalled p = false → inStartup p = false → bytes_ok (buf p) → Forall bytes_ok chunks →
  ∃ ms p', feeds p chunks = Some (ms, p') ∧ stalled p' = false ∧ inStartup p' = false.
Proof.
  intros Hs Hst Hb Hc. revert p Hs Hst Hb. induction Hc as [|c cs Hc _ IH]; intros p Hs Hst Hb.
  { by exists [], p. }
  destruct (Feed_typed p c Hs Hst) as (ms & rest & err & Hd & HF). simpl. rewrite HF. cbn.
  destruct (IH (StreamParser (fromClient p) false rest false)) as (ms' & p' & -> & ?); [done|done| |].
  { eapply decodes_bytes; [|exact Hd]. by apply Forall_app. }
  cbn. eauto.
Qed.

(** Once in the typed phase, a stream is never given up: the stall guard
    against non-PostgreSQL streams (over 1 MiB without a message) cannot fire,
    because a length outside [4, 256 MiB] has already made [Feed] return an
    error and any other length counts as a valid pending frame. *)
Theorem typed_never_stalls (p : streamParser) (data : list Z) ms err p' :
  inStartup p = false → stalled p = false → Feed p data = Some (ms, err, p') →
  stalled p' = false ∧ inStartup p' = false ∧
  (err = None → zlen (buf p') ≤ maxFrameLength).
Proof.
  intros Hst Hs HF. destruct (Feed_typed p data Hs Hst) as (ms' & rest & err' & Hd & HF').
  rewrite HF' in HF. simplify_eq. split_and!; [done..|]. intros ->. cbn [buf].
  destruct (decide (5 ≤ zlen rest)); [|unfold maxFrameLength; lia].
  apply (pending_typed (StreamParser (fromClient p) false rest false)); [done| |done].
  by apply (decodes_stop _ _ _ _ _ _ Hd).
Qed.

(** One bad frame ends a direction: after [Feed] has returned an error, every
    later chunk yields no message at all and is appended to the buffer, which
    grows without bound; the parser neither resynchronises nor gives up. *)
Theorem frame_error_wedges (p : streamParser) (data : list Z) ms e p' (chunks : list (list Z)) :
  bytes_ok (buf p) → bytes_ok data → Forall bytes_ok chunks → stalled p = false →
  Feed p data = Some (ms, Some e, p') →
  ∃ p'', feeds p' chunks = Some ([], p'') ∧ buf p'' = buf p' ++ concat chunks ∧
    stalled p'' = false.
Proof.
  intros Hb Hdb Hc Hs HF. destruct (Feed_spec p data Hs) as (ms1 & st & rest & err & Hd & HF').
  rewrite HF' in HF. destruct (bool_decide _ && _) eqn:Hg; simplify_eq.
  apply (decodes_stop _ _ _ _ _ _) in Hd as Herr.
  apply decodes_bytes in Hd; [|by apply Forall_app]. clear HF' Hg Hs Hb.
  revert rest Hd Herr. induction Hc as [|c cs Hc _ IH]; intros rest Hrb Herr.
  { eexists. split; [done|]. by rewrite app_nil_r. }
  assert (frame st (rest ++ c) = Err e) as Hf by (by eapply frame_app).
  simpl. unfold Feed at 1. cbn [stalled buf inStartup]. cbn [feed_loop]. rewrite Hf.
  cbn [mbind option_bind]. destruct (IH (rest ++ c)) as (p'' & Hfs & Hbuf & ?); [by apply Forall_app|done|].
  cbn [fromClient] in *. rewrite Hfs. exists p''. split; [done|]. split; [|done].
  rewrite Hbuf. cbn [buf concat]. by rewrite <- app_assoc.
Qed.

(** A refused SSL request silences the server direction for good: the server
    answers SSLRequest with the single untyped byte 'N', which the typed framing
    reads as a message type, so the first bytes of the following 'R' message
    become a length of 0x52000000.  However the stream is chunked and whatever
    follows, no server message is ever framed. *)
Theorem ssl_refused_silences_server (chunks : list (list Z)) (rest : list Z) :
  Forall bytes_ok chunks → concat chunks = [0x4E; 0x52; 0; 0; 0] ++ rest →
  ∃ p', feeds (NewParser false) chunks = Some ([], p') ∧ buf p' = concat chunks.
Proof.
  intros Hc Hcat.
  destruct (feeds_typed (NewParser false) chunks) as (ms & p' & Hf & Hs & _); [done..|by constructor|done|].
  exists p'. apply feeds_decode in Hf as Hd; [|done|by constructor|done|done].
  destruct Hd as [(-> & _)|(err & Hd)]; [done|]. cbn [NewParser buf inStartup app] in Hd.
  assert (frame false (concat chunks) = Err (FrameTooLong 0x52000000 0x4E)) as He.
  { assert (bytes_ok ([0x4E; 0x52; 0; 0; 0] : list Z)) by (by apply (bool_decide_eq_true_1 _)).
    rewrite Hcat. by apply (frame_app false [0x4E; 0x52; 0; 0; 0]). }
  destruct (decodes_det _ _ _ _ _ _ _ _ _ _ Hd (DecodeErr _ _ _ He)) as (-> & _ & -> & _). done.
Qed.

(** ** Sessions on the wire

    The protocol's own encoding: untyped until a startup message that switches
    to typed framing, typed from there on. *)
Definition encode (st : bool) (m : PGMessage) : list Z :=
  (if st then [] else [Type_ m]) ++ be_bytes 4 (Length_ m) ++ Payload_ m.

Definition after (st : bool) (m : PGMessage) : bool := st && negb (transitionToTyped m).

Fixpoint encode_session (st : bool) (ms : list PGMessage) : list Z :=
  match ms with
  | [] => []
  | m :: ms => encode st m ++ encode_session (after st m) ms
  end.

Definition wf_message (st : bool) (m : PGMessage) : Prop :=
  Length_ m = 4 + zlen (Payload_ m) ∧ Length_ m ≤ maxFrameLength ∧ bytes_ok (Payload_ m) ∧
  if st then Type_ m = startupMsgType else is_byte (Type_ m).

Fixpoint wf_session (st : bool) (ms : list PGMessage) : Prop :=
  match ms with
  | [] => True
  | m :: ms => wf_message st m ∧ wf_session (after st m) ms
  end.

Lemma zlen_encode st m :
  wf_message st m → zlen (encode st m) = (if st then 0 else 1) + Length_ m.
Proof.
  intros (Hl & _). unfold encode. rewrite !zlen_app, zlen_be_bytes.
  destruct st; rewrite ?zlen_cons, ?(@zlen_nil Z); lia.
Qed.

Lemma slice_mid {A} (a b c : list A) : slice (zlen a) (zlen b) (a ++ b ++ c) = b.
Proof.
  unfold slice, zlen. rewrite !Nat2Z.id, drop_app_length, take_app_length. done.
Qed.

Lemma encode_length st m more :
  wf_message st m → be32 (if st then 0 else 1) (encode st m ++ more) = Length_ m.
Proof.
  intros (Hl & Hmax & _). pose proof (zlen_nonneg (Payload_ m)). unfold be32, encode.
  rewrite <- !app_assoc.
  replace (slice _ _ _) with (be_bytes 4 (Length_ m)).
  - apply be_value_bytes. change (256 ^ Z.of_nat 4) with 4294967296. unfold maxFrameLength in Hmax. lia.
  - symmetry. destruct st; [apply (slice_mid [] (be_bytes 4 (Length_ m)))|].
    apply (slice_mid [Type_ m] (be_bytes 4 (Length_ m))).
Qed.

Lemma encode_payload st m more :
  wf_message st m →
  slice (if st then 4 else 5) (Length_ m - 4) (encode st m ++ more) = Payload_ m.
Proof.
  intros (Hl & _). unfold encode. rewrite <- !app_assoc.
  replace (Length_ m - 4) with (zlen (Payload_ m)) by lia.
  destruct st; [apply (slice_mid (be_bytes 4 (Length_ m)))|].
  rewrite app_assoc. apply (slice_mid ([Type_ m] ++ be_bytes 4 (Length_ m))).
Qed.

Lemma frame_encode st m more :
  wf_message st m → frame st (encode st m ++ more) = Ok (Some (m, zlen (encode st m))).
Proof.
  intros Hwf. pose proof Hwf as (Hl & Hmax & _ & Hty). pose proof (zlen_nonneg more).
  pose proof (zlen_nonneg (Payload_ m)). pose proof (zlen_encode st m Hwf) as Hz.
  pose proof (encode_length st m more Hwf) as Hlen. pose proof (encode_payload st m more Hwf) as Hpay.
  unfold frame, frameStartup, frameTyped, startupHeaderLen, typedHeaderLen, maxFrameLength in *.
  destruct st; rewrite zlen_app, Hz, Hlen; rewrite ?Z.gtb_ltb, !(proj2 (Z.ltb_ge _ _)) by lia.
  - do 3 f_equal. destruct m as [ty len pay]. simpl in *. subst ty. by rewrite Hpay.
  - replace (1 + Length_ m - 5) with (Length_ m - 4) by lia.
    replace (be_value (slice 0 1 (encode false m ++ more))) with (Type_ m).
    + rewrite Hpay. by destruct m.
    + unfold encode, slice, be_value. simpl. destruct (Type_ m); done.
Qed.

Lemma encode_bytes st m : wf_message st m → bytes_ok (encode st m).
Proof.
  intros (_ & _ & Hp & Hty). unfold encode. apply Forall_app. split.
  - destruct st; [constructor|by apply Forall_singleton].
  - apply Forall_app. split; [apply be_bytes_ok|done].
Qed.

(** Decoding a prefix of a session finds a prefix of its messages and stops at
    the next one. *)
Lemma decodes_prefix st b more msgs ms st' rest err :
  bytes_ok b → wf_session st msgs → b ++ more = encode_session st msgs →
  decodes st b ms st' rest err →
  err = None ∧ ∃ msgs', msgs = ms ++ msgs' ∧ wf_session st' msgs' ∧
    rest ++ more = encode_session st' msgs'.
Proof.
  intros Hb Hwf E Hd. revert msgs Hb Hwf E.
  induction Hd as [st b Hf|st b e Hf|st b msg n ms st' rest err Hf _ IH]; intros msgs Hb Hwf E.
  - split; [done|]. by exists msgs.
  - exfalso. apply (frame_app _ _ more) in Hf; [|done|done]. rewrite E in Hf.
    destruct msgs as [|m msgs]; simpl in *; [by destruct st|].
    destruct Hwf as [Hm _]. by rewrite frame_encode in Hf.
  - apply frame_consumed in Hf as Hn. apply (frame_app _ _ more) in Hf; [|done|done].
    rewrite E in Hf. destruct msgs as [|m msgs]; simpl in *; [by destruct st|].
    destruct Hwf as [Hm Hwf]. rewrite frame_encode in Hf by done. simplify_eq.
    unfold zlen in Hn. destruct (IH msgs) as (He & msgs' & -> & Hwf' & Hrest).
    + by apply Forall_drop.
    + done.
    + unfold zlen. rewrite <- drop_app_le by lia. rewrite E. by rewrite Nat2Z.id, drop_app_length.
    + split; [done|]. by exists msgs'.
Qed.

(** A partial frame of a session is never taken for garbage. *)
Lemma session_not_given_up fc st rest more msgs ms :
  wf_session st msgs → rest ++ more = encode_session st msgs →
  gives_up ms (StreamParser fc st rest false) = false.
Proof.
  intros Hwf E. unfold gives_up. cbn [buf].
  destruct (zlen rest >? maxStalledBuffer) eqn:Hl; [|by rewrite andb_false_r].
  rewrite Z.gtb_ltb in Hl. zb. change maxStalledBuffer with 1048576 in Hl.
  destruct msgs as [|m msgs]; simpl in *.
  { apply app_eq_nil in E as [-> _]. by rewrite (@zlen_nil Z) in Hl. }
  destruct Hwf as [Hm _]. pose proof (encode_length st m (encode_session (after st m) msgs) Hm) as Hlen.
  rewrite <- E in Hlen. rewrite be32_app in Hlen by (destruct st; lia).
  destruct Hm as (Hml & Hmax & _). pose proof (zlen_nonneg (Payload_ m)). unfold maxFrameLength in Hmax.
  unfold hasValidPendingFrame, startupHeaderLen, typedHeaderLen. cbn [inStartup buf].
  destruct st; rewrite Hlen, !Z.geb_leb, !(proj2 (Z.leb_le _ _)) by lia; apply andb_false_r.
Qed.

Lemma feeds_session fc st b chunks msgs :
  bytes_ok b → Forall bytes_ok chunks → frame st b = Ok None →
  wf_session st msgs → b ++ concat chunks = encode_session st msgs →
  ∃ st', feeds (StreamParser fc st b false) chunks = Some (msgs, StreamParser fc st' [] false).
Proof.
  intros Hb Hc. revert st b msgs Hb. induction Hc as [|c cs Hc _ IH]; intros st b msgs Hb Hf Hwf E.
  - simpl in E. rewrite app_nil_r in E. subst b. exists st. destruct msgs as [|m msgs]; [done|].
    destruct Hwf as [Hm _]. simpl in Hf. by rewrite frame_encode in Hf.
  - simpl in E. rewrite app_assoc in E. assert (bytes_ok (b ++ c)) by (by apply Forall_app).
    destruct (Feed_spec (StreamParser fc st b false) c) as (ms & st1 & rest & err & Hd & HF); [done|].
    cbn [inStartup buf fromClient] in *.
    destruct (decodes_prefix _ _ _ _ _ _ _ _ ltac:(done) Hwf E Hd) as (-> & msgs' & -> & Hwf' & E').
    cbn [feeds]. rewrite HF, (session_not_given_up _ _ _ _ _ _ Hwf' E'). cbn.
    destruct (IH st1 rest msgs') as (st' & ->); [by eapply decodes_bytes| |done|done|].
    + by apply (decodes_stop _ _ _ _ _ _ Hd).
    + by exists st'.
Qed.

(** C9 Framing inverts the protocol's encoding, in any chunking: for every
    session of well-formed messages in either direction - negotiation and
    startup messages first on the client side - and every way the network cuts
    its bytes into chunks, the messages that come out are exactly the messages
    that went in, in order, and no byte is left over. *)
Theorem framing_roundtrip (fc : bool) (msgs : list PGMessage) (chunks : list (list Z)) :
  wf_session fc msgs → Forall bytes_ok chunks → concat chunks = encode_session fc msgs →
  ∃ st, feeds (NewParser fc) chunks = Some (msgs, StreamParser fc st [] false).
Proof. intros. apply feeds_session; [by constructor|done|by destruct fc|done|done]. Qed.

(** The network's chunking is invisible even on arbitrary bytes: two ways of
    delivering the same byte stream to a fresh parser, neither of which is given
    up as non-PostgreSQL, yield the same messages, phase and retained bytes. *)
Theorem framing_chunking (fc : bool) (cs1 cs2 : list (list Z)) ms1 ms2 p1 p2 :
  Forall bytes_ok cs1 → Forall bytes_ok cs2 → concat cs1 = concat cs2 →
  feeds (NewParser fc) cs1 = Some (ms1, p1) → feeds (NewParser fc) cs2 = Some (ms2, p2) →
  stalled p1 = false → stalled p2 = false →
  ms1 = ms2 ∧ inStartup p1 = inStartup p2 ∧ buf p1 = buf p2.
Proof.
  intros H1 H2 E F1 F2 S1 S2.
  assert (∀ cs ms p, Forall bytes_ok cs → feeds (NewParser fc) cs = Some (ms, p) → stalled p = false →
    ∃ err, decodes fc (concat cs) ms (inStartup p) (buf p) err) as Hdec.
  { intros cs ms p Hc Hf Hs. destruct (feeds_decode (NewParser fc) _ _ _ eq_refl (Forall_nil_2 _) Hc Hf Hs)
      as [(-> & -> & ->)|[err Hd]]; [|by exists err].
    exists None. apply DecodeMore. by destruct fc. }
  destruct (Hdec _ _ _ H1 F1 S1) as (e1 & D1). destruct (Hdec _ _ _ H2 F2 S2) as (e2 & D2).
  rewrite E in D1. by destruct (decodes_det _ _ _ _ _ _ _ _ _ _ D1 D2) as (-> & -> & -> & _).
Qed.

(** ** Concrete sessions *)
Module FramingDemo.
(** An SSLRequest, a startup message and the query "SELECT 1". *)
Definition ssl : PGMessage := PgMessage 0 8 [4; 210; 22; 47].
Definition startup : PGMessage := PgMessage 0 9 [0; 3; 0; 0; 0].
Definition query : PGMessage := PgMessage 0x51 13 [0x53; 0x45; 0x4C; 0x45; 0x43; 0x54; 0x20; 0x31; 0].
Definition client : list PGMessage := [ssl; startup; query].
Definition wire : list Z := Eval vm_compute in encode_session true client.
(** A typed message with length 3. *)
Definition bad : list Z := [0x51; 0; 0; 0; 3].
Definition server : streamParser := NewParser false.
End FramingDemo.
Import FramingDemo.

Lemma typed_never_stalls_witness :
  ∃ p', Feed server [0x5A; 0; 0] = Some ([], None, p') ∧ stalled p' = false.
Proof.
  eexists. split; [vm_compute; reflexivity|].
  apply (typed_never_stalls server [0x5A; 0; 0] [] None); vm_compute; reflexivity.
Defined.

Lemma frame_error_wedges_witness :
  ∃ p', Feed server bad = Some ([], Some (InvalidLength 3 0x51), p') ∧
  ∃ p'', feeds p' [encode false query] = Some ([], p'') ∧ zlen (buf p'') = 19.
Proof.
  eexists. split; [vm_compute; reflexivity|].
  destruct (frame_error_wedges server bad [] (InvalidLength 3 0x51)
    (StreamParser false false bad false) [encode false query]) as (p'' & Hf & Hb & _).
  - constructor.
  - apply (bool_decide_eq_true_1 _). vm_compute. reflexivity.
  - apply Forall_singleton, (bool_decide_eq_true_1 _). vm_compute. reflexivity.
  - reflexivity.
  - vm_compute. reflexivity.
  - exists p''. split; [exact Hf|]. rewrite Hb. vm_compute. reflexivity.
Defined.

Lemma ssl_refused_silences_server_witness :
  ∃ p', feeds server [[0x4E]; [0x52; 0; 0; 0; 8; 0; 0; 0; 0]; [0x5A; 0; 0; 0; 5; 0x49]] = Some ([], p').
Proof.
  destruct (ssl_refused_silences_server
    [[0x4E]; [0x52; 0; 0; 0; 8; 0; 0; 0; 0]; [0x5A; 0; 0; 0; 5; 0x49]]
    [8; 0; 0; 0; 0; 0x5A; 0; 0; 0; 5; 0x49]) as (p' & Hf & _).
  - repeat (constructor; [apply (bool_decide_eq_true_1 _); vm_compute; reflexivity|]). constructor.
  - reflexivity.
  - exists p'. exact Hf.
Defined.

Lemma framing_roundtrip_witness :
  ∃ st, feeds (NewParser true) [take 3 wire; drop 3 wire] =
    Some (client, StreamParser true st [] false).
Proof.
  apply (framing_roundtrip true client [take 3 wire; drop 3 wire]).
  - repeat split; try (apply (bool_decide_eq_true_1 _); vm_compute; reflexivity);
      vm_compute; congruence.
  - repeat (constructor; [apply (bool_decide_eq_true_1 _); vm_compute; reflexivity|]). constructor.
  - vm_compute. reflexivity.
Defined.

Lemma framing_chunking_witness :
  ∃ p1 p2, feeds server [bad; [7]] = Some ([], p1) ∧ feeds server [[0x51; 0]; [0; 0; 3; 7]] = Some ([], p2) ∧
    buf p1 = buf p2.
Proof.
  eexists _, _. split; [vm_compute; reflexivity|]. split; [vm_compute; reflexivity|].
  eapply (framing_chunking false [bad; [7]] [[0x51; 0]; [0; 0; 3; 7]]).
  - repeat (constructor; [apply (bool_decide_eq_true_1 _); vm_compute; reflexivity|]). constructor.
  - repeat (constructor; [apply (bool_decide_eq_true_1 _); vm_compute; reflexivity|]). constructor.
  - reflexivity.
  - vm_compute. reflexivity.
  - vm_compute. reflexivity.
  - reflexivity.
  - reflexivity.
Defined.
