(* ===== verification/QueueSpec.v ===== *)
(** * The queue interface (src/pkg/queue/queue.go)

    What the processor and the replayer rely on: a bounded FIFO list with an
    overflow policy.  The memory and the file backend refine it and are instances
    of [QueueImpl]; the Kafka backend, which may reorder and lose, is not one, and
    has theorems of its own in [KafkaQueue].  What holds of the bounded list is
    proved here, once, for the backends that refine it. *)
From S2P Require Import Prelude.

Inductive OverflowPolicy := DropOldest | DropNewest | Block.

(** What an operation did while it held the lock: it returned [out], waking
    waiters or not, or it found it must wait. *)
Inductive outcome (A : Type) := Return (out : A) (signal : bool) | Wait.
Arguments Return {A} out signal.
Arguments Wait {A}.

Section spec.
Context {E : Type}.

(** The queue as its clients see it: the waiting events, oldest first. *)
Definition enqueue_spec (cap : Z) (p : OverflowPolicy) (closed : bool) (l : list E) (ev : E)
    : outcome bool * list E :=
  if closed then (Return false false, l)
  else if zlen l <? cap then (Return false true, l ++ [ev])
  else match p with
       | DropNewest => (Return true false, l)
       | Block => (Wait, l)
       | DropOldest => (Return true true, list.tail l ++ [ev])
       end.

Definition dequeue_spec (closed cancelled : bool) (l : list E) : outcome (option E) * list E :=
  match l with
  | [] => (if closed || cancelled then Return None false else Wait, [])
  | ev :: l => (Return (Some ev) true, l)
  end.

(** The operations of the interface; [cancelled] is [ctx.Err() != nil]. *)
Inductive op := OpEnqueue (ev : E) | OpDequeue (cancelled : bool) | OpClose.

(** What the caller of an operation gets. *)
Inductive answer := Enqueued (o : outcome bool) | Dequeued (o : outcome (option E)) | Closed.

Record bounded := Bounded { b_cap : Z; b_policy : OverflowPolicy; b_closed : bool; b_list : list E }.

Definition spec_op (b : bounded) (o : op) : answer * bounded :=
  match o with
  | OpEnqueue ev =>
      let '(a, l) := enqueue_spec (b_cap b) (b_policy b) (b_closed b) (b_list b) ev in
      (Enqueued a, Bounded (b_cap b) (b_policy b) (b_closed b) l)
  | OpDequeue c =>
      let '(a, l) := dequeue_spec (b_closed b) c (b_list b) in
      (Dequeued a, Bounded (b_cap b) (b_policy b) (b_closed b) l)
  | OpClose => (Closed, Bounded (b_cap b) (b_policy b) true (b_list b))
  end.

Fixpoint spec_ops (b : bounded) (os : list op) : list answer * bounded :=
  match os with
  | [] => ([], b)
  | o :: os => let '(a, b1) := spec_op b o in let '(as_, b2) := spec_ops b1 os in (a :: as_, b2)
  end.

Lemma spec_ops_app b os1 os2 :
  spec_ops b (os1 ++ os2) =
    ((spec_ops b os1).1 ++ (spec_ops (spec_ops b os1).2 os2).1,
     (spec_ops (spec_ops b os1).2 os2).2).
Proof.
  revert b. induction os1 as [|o os IH]; intros b; simpl.
  - by destruct (spec_ops b os2).
  - destruct (spec_op b o) as [a b1]. rewrite IH. by destruct (spec_ops b1 os).
Qed.

Lemma spec_op_cap b o : b_cap (spec_op b o).2 = b_cap b ∧ b_policy (spec_op b o).2 = b_policy b.
Proof.
  destruct o; simpl; [destruct (enqueue_spec _ _ _ _ _)|destruct (dequeue_spec _ _ _)|]; done.
Qed.

Lemma spec_ops_cap b os : b_cap (spec_ops b os).2 = b_cap b ∧ b_policy (spec_ops b os).2 = b_policy b.
Proof.
  revert b. induction os as [|o os IH]; intros b; [done|]. simpl.
  destruct (spec_op_cap b o) as [H1 H2]. destruct (spec_op b o) as [a b1]. simpl in *.
  specialize (IH b1). destruct (spec_ops b1 os) as [as' b2]. simpl in *.
  by rewrite <- H1, <- H2.
Qed.

(** *** Bound *)
Definition fits_cap (b : bounded) : Prop := zlen (b_list b) ≤ b_cap b.

Lemma tail_zlen (l : list E) : l ≠ [] → zlen (list.tail l) = zlen l - 1.
Proof. destruct l as [|e l]; [done|]. intros _. simpl. rewrite zlen_cons. lia. Qed.

Lemma spec_op_fits b o : 0 < b_cap b → fits_cap b → fits_cap (spec_op b o).2.
Proof.
  unfold fits_cap. intros Hc Hf. destruct o as [ev|c|]; simpl; [| |done].
  - unfold enqueue_spec. destruct (b_closed b); [done|].
    destruct (zlen (b_list b) <? b_cap b) eqn:Hl; zb.
    { simpl. rewrite zlen_app, zlen_cons, (@zlen_nil E). lia. }
    destruct (b_policy b); [|done..]. simpl. rewrite zlen_app, zlen_cons, (@zlen_nil E), tail_zlen.
    + lia.
    + intros Hn. rewrite Hn, (@zlen_nil E) in Hl. lia.
  - destruct (b_list b) as [|ev l]; simpl; [done|]. rewrite zlen_cons in Hf. lia.
Qed.

Lemma spec_ops_fits b os : 0 < b_cap b → fits_cap b → fits_cap (spec_ops b os).2.
Proof.
  revert b. induction os as [|o os IH]; intros b Hc Hf; [done|]. simpl.
  pose proof (spec_op_fits b o Hc Hf) as H1. destruct (spec_op_cap b o) as [H2 _].
  destruct (spec_op b o) as [a b1]. simpl in *. specialize (IH b1 ltac:(lia) H1).
  by destruct (spec_ops b1 os).
Qed.

(** *** Order *)
Definition enqueued (os : list op) : list E :=
  omap (λ o, match o with OpEnqueue ev => Some ev | _ => None end) os.
Definition dequeued (as_ : list answer) : list E :=
  omap (λ a, match a with Dequeued (Return (Some ev) _) => Some ev | _ => None end) as_.

#[local] Arguments enqueued : simpl never.
#[local] Arguments dequeued : simpl never.

Lemma spec_ops_order b os :
  dequeued (spec_ops b os).1 ++ b_list (spec_ops b os).2 `sublist_of` b_list b ++ enqueued os.
Proof.
  revert b. induction os as [|o os IH]; intros b; [by rewrite app_nil_r|]. simpl.
  destruct (spec_op b o) as [a b1] eqn:Hop. specialize (IH b1).
  destruct (spec_ops b1 os) as [as' b2]. simpl in *. destruct o as [ev|c|]; simpl in *.
  - unfold enqueue_spec in Hop.
    assert (dequeued (a :: as') = dequeued as') as ->.
    { by destruct (b_closed b), (zlen (b_list b) <? b_cap b), (b_policy b); simplify_eq/=. }
    etrans; [exact IH|]. unfold enqueued. simpl. rewrite cons_middle, app_assoc.
    apply sublist_app; [|done].
    destruct (b_closed b), (zlen (b_list b) <? b_cap b), (b_policy b); simplify_eq/=;
      first [done|by apply sublist_inserts_r|apply sublist_app; [|done]];
      destruct (b_list b); [done|by apply sublist_cons].
  - destruct (b_list b) as [|ev l]; simplify_eq/=.
    + replace (dequeued (_ :: as')) with (dequeued as'); [exact IH|].
      by destruct (b_closed b || c).
    + unfold dequeued. simpl. by apply sublist_skip.
  - simplify_eq/=. exact IH.
Qed.

(** *** Overflow *)
Lemma tail_drop n (l : list E) : list.tail (drop n l) = drop (S n) l.
Proof. revert n. induction l as [|a l IH]; intros [|n]; simpl; auto. Qed.

Definition enqueue_all (cap : Z) (p : OverflowPolicy) (evs : list E) : list E :=
  foldl (λ l ev, (enqueue_spec cap p false l ev).2) [] evs.

Lemma enqueue_all_oldest cap evs :
  0 < cap → enqueue_all cap DropOldest evs = drop (length evs - Z.to_nat cap) evs.
Proof.
  intros Hcap. unfold enqueue_all. induction evs as [|ev evs IH] using rev_ind; [done|].
  rewrite foldl_app. cbn [foldl]. rewrite IH. unfold enqueue_spec, zlen. rewrite length_drop, length_app. simpl.
  destruct (_ <? cap) eqn:Hl; zb; simpl.
  - rewrite drop_app_le by lia. do 2 f_equal. lia.
  - rewrite drop_app_le, tail_drop by lia. do 2 f_equal. lia.
Qed.

Lemma enqueue_all_newest cap evs :
  0 < cap → enqueue_all cap DropNewest evs = take (Z.to_nat cap) evs.
Proof.
  intros Hcap. unfold enqueue_all. induction evs as [|ev evs IH] using rev_ind; [by rewrite take_nil|].
  rewrite foldl_app. cbn [foldl]. rewrite IH. unfold enqueue_spec, zlen. rewrite length_take.
  destruct (_ <? cap) eqn:Hl; zb; simpl.
  - rewrite !take_ge; [done|rewrite length_app; simpl; lia|lia].
  - rewrite take_app_le by lia. done.
Qed.

Lemma spec_enqueues cap p l evs :
  b_list (spec_ops (Bounded cap p false l) (OpEnqueue <$> evs)).2 =
  foldl (λ l ev, (enqueue_spec cap p false l ev).2) l evs.
Proof.
  revert l. induction evs as [|ev evs IH]; intros l; [done|]. cbn -[enqueue_spec].
  destruct (enqueue_spec cap p false l ev) as [a l1]. specialize (IH l1).
  by destruct (spec_ops _ (OpEnqueue <$> evs)).
Qed.
End spec.
Arguments op E : clear implicits.
Arguments answer E : clear implicits.
Arguments bounded E : clear implicits.

(** ** Backends that refine the list

    [q_run] is the backend's critical section for an operation, [q_fits] the
    events it can hold, [q_store] what it keeps of an event, [q_rel] the
    simulation relation. *)
Definition store_op {E} (f : E → E) (o : op E) : op E :=
  match o with OpEnqueue ev => OpEnqueue (f ev) | OpDequeue c => OpDequeue c | OpClose => OpClose end.

Lemma store_op_id {E} (o : op E) : store_op (λ ev, ev) o = o.
Proof. by destruct o. Qed.

Definition op_fits {E} (fits : E → Prop) (o : op E) : Prop :=
  match o with OpEnqueue ev => fits ev | _ => True end.

Class QueueImpl (Q E : Type) := {
  q_run : Q → op E → result panic (answer E * Q);
  q_fits : E → Prop;
  q_store : E → E;
  q_rel : Q → bounded E → Prop;
  q_refines : ∀ q b o, q_rel q b → op_fits q_fits o →
    ∃ q', q_run q o = Ok ((spec_op b (store_op q_store o)).1, q') ∧
          q_rel q' (spec_op b (store_op q_store o)).2;
}.

Section clients.
Context {Q E : Type} `{QueueImpl Q E}.

Fixpoint run_ops (q : Q) (os : list (op E)) : result panic (list (answer E) * Q) :=
  match os with
  | [] => Ok ([], q)
  | o :: os => '(a, q1) ← q_run q o; '(as_, q2) ← run_ops q1 os; Ok (a :: as_, q2)
  end.

Lemma run_ops_refines os q b :
  q_rel q b → Forall (op_fits q_fits) os →
  ∃ q', run_ops q os = Ok ((spec_ops b (store_op q_store <$> os)).1, q') ∧
        q_rel q' (spec_ops b (store_op q_store <$> os)).2.
Proof.
  intros Hrel Hf. revert q b Hrel. induction Hf as [|o os Ho _ IH]; intros q b Hrel; [by exists q|].
  cbn. destruct (q_refines q b o Hrel Ho) as (q1 & -> & H1). cbn.
  destruct (spec_op b (store_op q_store o)) as [a b1]. destruct (IH q1 b1 H1) as (q2 & -> & H2). cbn in *.
  destruct (spec_ops b1 _) as [as' b2]. by exists q2.
Qed.

Lemma enqueued_store os : enqueued (store_op q_store <$> os) = q_store <$> enqueued os.
Proof.
  unfold enqueued. induction os as [|o os IH]; [done|]. simpl. destruct o; simpl; [f_equal|..]; exact IH.
Qed.


(** The overflow policies keep the right events on every such backend: filled past
    its capacity without a consumer, an empty queue ends up with the newest
    [cap] events under drop_oldest and with the first [cap] under drop_newest,
    in order, and never with more than [cap]. *)
Theorem queue_overflow (q : Q) (cap : Z) (p : OverflowPolicy) (evs : list E) :
  0 < cap → q_rel q (Bounded cap p false []) → Forall q_fits evs →
  ∃ as_ q' b, run_ops q (OpEnqueue <$> evs) = Ok (as_, q') ∧ q_rel q' b ∧ zlen (b_list b) ≤ cap ∧
    match p with
    | DropOldest => b_list b = q_store <$> drop (length evs - Z.to_nat cap) evs
    | DropNewest => b_list b = q_store <$> take (Z.to_nat cap) evs
    | Block => True
    end.
Proof.
  intros Hcap Hrel Hf. destruct (run_ops_refines (OpEnqueue <$> evs) q _ Hrel) as (q' & Hr & Hrel').
  { by rewrite Forall_fmap. }
  eexists _, q', _. split_and!; [exact Hr|exact Hrel'|..].
  - destruct (spec_ops_cap (Bounded cap p false []) (store_op q_store <$> (OpEnqueue <$> evs))) as [Hc _].
    pose proof (spec_ops_fits (Bounded cap p false []) (store_op q_store <$> (OpEnqueue <$> evs)) Hcap)
      as Hfit. unfold fits_cap in Hfit. rewrite Hc in Hfit. apply Hfit. cbn [b_list b_cap].
    rewrite (@zlen_nil E). lia.
  - rewrite <- list_fmap_compose.
    change (store_op q_store ∘ OpEnqueue) with (OpEnqueue ∘ q_store). rewrite list_fmap_compose, spec_enqueues.
    change (foldl _ [] ?l) with (enqueue_all cap p l).
    destruct p; [|by rewrite enqueue_all_newest, fmap_take|done].
    by rewrite enqueue_all_oldest, length_fmap, fmap_drop.
Qed.
End clients.
