(* ===== verification/RingBuffer.v ===== *)
(** * The in-memory queue (src/pkg/queue/ringbuffer.go)

    A circular buffer behind a mutex and one condition variable.  Part one
    models the critical sections as functions and refines them to a bounded
    list; part two interleaves producer and consumer goroutines that park on the
    condition variable. *)
From S2P Require Import Prelude QueueSpec.

(** [l[i] = v] *)
Definition set_index {A} (i : Z) (v : A) (l : list A) : result panic (list A) :=
  if (0 <=? i) && (i <? zlen l) then Ok (<[Z.to_nat i := v]> l) else Err IndexBounds.

Definition get_index {A} (i : Z) (l : list A) : result panic A :=
  if 0 <=? i then of_option IndexBounds (l !! Z.to_nat i) else Err IndexBounds.

Section ring.
Context {E : Type}.

(** [None] is a nil pointer. *)
Record ringBuffer := RingBuffer {
  slots : list (option E); capacity : Z; head : Z; tail : Z; count : Z;
  closed : bool; overflow : OverflowPolicy }.

Definition newRingBuffer (capacity : Z) (overflow : OverflowPolicy) : ringBuffer :=
  RingBuffer (replicate (Z.to_nat capacity) None) capacity 0 0 0 false overflow.

Definition push (r : ringBuffer) (ev : E) : result panic ringBuffer :=
  slots' ← set_index (tail r) (Some ev) (slots r);
  Ok (RingBuffer slots' (capacity r) (head r) ((tail r + 1) mod capacity r) (count r + 1)
        (closed r) (overflow r)).

(** [Enqueue] with the lock held, up to its return or [cond.Wait].  A producer
    woken from the wait re-tests the same conditions, so the body is run again. *)
Definition Enqueue (r : ringBuffer) (ev : E) : result panic (outcome bool * ringBuffer) :=
  if closed r then Ok (Return false false, r) else
  if count r <? capacity r then r' ← push r ev; Ok (Return false true, r') else
  match overflow r with
  | DropNewest => Ok (Return true false, r)
  | Block =>
      if (count r =? capacity r) && negb (closed r) then Ok (Wait, r) else
      r' ← push r ev; Ok (Return false true, r')
  | DropOldest =>
      let r1 := RingBuffer (slots r) (capacity r) ((head r + 1) mod capacity r) (tail r)
                  (count r - 1) (closed r) (overflow r) in
      r' ← push r1 ev; Ok (Return true true, r')
  end.

(** [Dequeue] with the lock held; [cancelled] is [ctx.Err() != nil]. *)
Definition Dequeue (cancelled : bool) (r : ringBuffer)
    : result panic (outcome (option E) * ringBuffer) :=
  if (count r =? 0) && negb (closed r) && negb cancelled then Ok (Wait, r) else
  if count r =? 0 then Ok (Return None false, r) else
  ev ← get_index (head r) (slots r);
  slots' ← set_index (head r) None (slots r);
  Ok (Return ev true,
      RingBuffer slots' (capacity r) ((head r + 1) mod capacity r) (tail r) (count r - 1)
        (closed r) (overflow r)).

Definition Depth (r : ringBuffer) : Z := count r.

Definition Close (r : ringBuffer) : ringBuffer :=
  RingBuffer (slots r) (capacity r) (head r) (tail r) (count r) true (overflow r).

(** ** The invariant

    The [count] slots from [head] on, around the end, hold the events of [l];
    every other slot is nil, so a dequeued event is not kept alive. *)
Definition slot_at (r : ringBuffer) (i : Z) : nat := Z.to_nat ((head r + i) mod capacity r).

Record holds (r : ringBuffer) (l : list E) : Prop := Holds {
  h_cap : 0 < capacity r;
  h_len : zlen (slots r) = capacity r;
  h_head : 0 ≤ head r < capacity r;
  h_count : count r = zlen l;
  h_bound : zlen l ≤ capacity r;
  h_tail : tail r = (head r + count r) mod capacity r;
  h_slots : ∀ i, 0 ≤ i < capacity r → slots r !! slot_at r i = Some (l !! Z.to_nat i) }.

Lemma mod_index_inj a i j n :
  0 ≤ i < n → 0 ≤ j < n → (a + i) mod n = (a + j) mod n → i = j.
Proof.
  intros Hi Hj E'. assert ((i - j) mod n = 0) as Hz.
  { replace (i - j) with ((a + i) - (a + j)) by lia.
    rewrite Zminus_mod, E', Z.sub_diag. apply Z.mod_0_l. lia. }
  apply Z.mod_divide in Hz; [|lia]. destruct Hz as [k Hk].
  assert (k = 0) by (destruct (Z.lt_trichotomy k 0) as [?|[?|?]]; [nia|done|nia]). lia.
Qed.

Lemma new_holds n p : 0 < n → holds (newRingBuffer n p) [].
Proof.
  intros Hn. split; cbn -[Z.modulo zlen]; rewrite ?(@zlen_nil E); try done; try lia.
  - unfold zlen. rewrite length_replicate. lia.
  - intros i Hi. unfold slot_at. cbn -[Z.modulo]. rewrite lookup_nil.
    apply lookup_replicate_2. pose proof (Z.mod_pos_bound (0 + i) n Hn). lia.
Qed.

Lemma set_index_ok {A} i (v : A) l :
  0 ≤ i < zlen l → set_index i v l = Ok (<[Z.to_nat i := v]> l).
Proof.
  intros [H1 H2]. unfold set_index. by rewrite (proj2 (Z.leb_le _ _) H1), (proj2 (Z.ltb_lt _ _) H2).
Qed.

Lemma zlen_insert {A} i (v : A) l : zlen (<[i := v]> l) = zlen l.
Proof. unfold zlen. by rewrite length_insert. Qed.

Lemma push_holds r l ev :
  holds r l → zlen l < capacity r →
  ∃ r', push r ev = Ok r' ∧ holds r' (l ++ [ev]) ∧
    capacity r' = capacity r ∧ closed r' = closed r ∧ overflow r' = overflow r.
Proof.
  intros [Hcap Hlen Hhead Hcount Hbound Htail Hslots] Hroom. unfold push.
  pose proof (Z.mod_pos_bound (head r + count r) (capacity r) Hcap) as Hmod. pose proof (zlen_nonneg l).
  rewrite set_index_ok by lia. cbn [mbind result_bind]. eexists. split; [done|].
  split; [|done]. split; cbn -[Z.modulo]; try done; try lia.
  - by rewrite zlen_insert.
  - rewrite zlen_app, zlen_cons, (@zlen_nil E). lia.
  - rewrite zlen_app, zlen_cons, (@zlen_nil E). lia.
  - rewrite Htail, Zplus_mod_idemp_l. f_equal. lia.
  - intros i Hi. unfold slot_at in *. cbn -[Z.modulo].
    pose proof (Z.mod_pos_bound (head r + i) (capacity r) Hcap) as Hmi.
    destruct (decide (i = count r)) as [->|Hne].
    + rewrite Htail, list_lookup_insert_eq by (unfold zlen in Hlen; lia).
      rewrite Hcount. unfold zlen. rewrite Nat2Z.id.
      f_equal. symmetry. rewrite lookup_app_r by done. by rewrite Nat.sub_diag.
    + rewrite list_lookup_insert_ne.
      * rewrite Hslots by lia. f_equal. destruct (decide (i < zlen l)) as [Hlt|Hge].
        -- rewrite lookup_app_l; [done|unfold zlen in Hlt; lia].
        -- unfold zlen in *. rewrite !lookup_ge_None_2; [done|rewrite length_app; simpl; lia|lia].
      * rewrite Htail. intros Heq. apply Hne. apply (mod_index_inj (head r) i (count r) (capacity r));
          [lia|lia|]. lia.
Qed.

(** Advancing [head] over the oldest event, with its slot cleared or not. *)
Lemma pop_slots r ev l i :
  holds r (ev :: l) → 0 ≤ i < capacity r - 1 →
  Z.to_nat (((head r + 1) mod capacity r + i) mod capacity r) = slot_at r (i + 1) ∧
  slot_at r (i + 1) ≠ Z.to_nat (head r) ∧
  slots r !! slot_at r (i + 1) = Some (l !! Z.to_nat i).
Proof.
  intros [Hcap Hlen Hhead Hcount Hbound Htail Hslots] Hi. unfold slot_at in *.
  pose proof (Z.mod_pos_bound (head r + (i + 1)) (capacity r) Hcap). split_and!.
  - rewrite Zplus_mod_idemp_l. do 2 f_equal. lia.
  - intros Heq. assert (i + 1 = 0); [|lia].
    apply (mod_index_inj (head r) (i + 1) 0 (capacity r)); [lia|lia|].
    rewrite Z.add_0_r, (Z.mod_small (head r)) by lia. lia.
  - rewrite Hslots by lia. replace (Z.to_nat (i + 1)) with (S (Z.to_nat i)) by lia. done.
Qed.

(** ** Refinement to a bounded list *)

(** [shape r r']: the operations keep capacity, policy and (but for [Close])
    the closed flag. *)
Definition shape (r r' : ringBuffer) : Prop :=
  capacity r' = capacity r ∧ closed r' = closed r ∧ overflow r' = overflow r.

Lemma evict_holds r ev l ev' :
  holds r (ev :: l) → capacity r = zlen (ev :: l) →
  let r1 := RingBuffer (slots r) (capacity r) ((head r + 1) mod capacity r) (tail r)
              (count r - 1) (closed r) (overflow r) in
  ∃ r', push r1 ev' = Ok r' ∧ holds r' (l ++ [ev']) ∧ shape r r'.
Proof.
  intros Hh Hfull. pose proof Hh as [Hcap Hlen Hhead Hcount Hbound Htail Hslots].
  rewrite zlen_cons in *. pose proof (zlen_nonneg l).
  assert (tail r = head r) as Hth.
  { rewrite Htail, Hcount, <- Hfull. rewrite <- (Z.mul_1_l (capacity r)) at 1.
    rewrite Z_mod_plus_full. apply Z.mod_small. lia. }
  unfold push. cbn -[Z.modulo]. rewrite set_index_ok by lia. cbn [mbind result_bind].
  eexists. split; [done|]. split; [|done]. split; cbn -[Z.modulo zlen]; try done; try lia.
  - by rewrite zlen_insert.
  - apply Z.mod_pos_bound. lia.
  - rewrite zlen_app, zlen_cons, (@zlen_nil E). lia.
  - rewrite zlen_app, zlen_cons, (@zlen_nil E). lia.
  - rewrite Hth, Zplus_mod_idemp_l. replace (count r - 1 + 1) with (capacity r) by lia.
    replace (head r + 1 + capacity r) with (head r + 1 + 1 * capacity r) by lia.
    by rewrite Z_mod_plus_full.
  - intros i Hi. unfold slot_at. cbn -[Z.modulo]. rewrite Hth.
    destruct (decide (i = capacity r - 1)) as [->|Hne].
    + rewrite Zplus_mod_idemp_l. replace (head r + 1 + (capacity r - 1)) with (head r + 1 * capacity r) by lia.
      rewrite Z_mod_plus_full, Z.mod_small by lia.
      rewrite list_lookup_insert_eq by (unfold zlen in Hlen; lia).
      f_equal. symmetry. rewrite lookup_app_r by (unfold zlen in *; lia).
      replace (_ - _)%nat with 0%nat by (unfold zlen in *; lia). done.
    + destruct (pop_slots r ev l i Hh ltac:(lia)) as (-> & Hne' & Hs).
      rewrite list_lookup_insert_ne, Hs by done.
      by rewrite lookup_app_l by (unfold zlen in *; lia).
Qed.

Lemma pop_holds r ev l :
  holds r (ev :: l) →
  get_index (head r) (slots r) = Ok (Some ev) ∧
  ∃ slots', set_index (head r) None (slots r) = Ok slots' ∧
    holds (RingBuffer slots' (capacity r) ((head r + 1) mod capacity r) (tail r) (count r - 1)
             (closed r) (overflow r)) l.
Proof.
  intros Hh. pose proof Hh as [Hcap Hlen Hhead Hcount Hbound Htail Hslots].
  rewrite zlen_cons in *. pose proof (zlen_nonneg l). split.
  { unfold get_index. rewrite (proj2 (Z.leb_le _ _)) by lia. specialize (Hslots 0 ltac:(lia)).
    unfold slot_at in Hslots. rewrite Z.add_0_r, Z.mod_small in Hslots by lia. by rewrite Hslots. }
  rewrite set_index_ok by lia. eexists. split; [done|].
  split; cbn -[Z.modulo zlen]; try done; try lia.
  - by rewrite zlen_insert.
  - apply Z.mod_pos_bound. lia.
  - rewrite Htail, Zplus_mod_idemp_l. f_equal. lia.
  - intros i Hi. unfold slot_at. cbn -[Z.modulo].
    destruct (decide (i = capacity r - 1)) as [->|Hne].
    + rewrite Zplus_mod_idemp_l. replace (head r + 1 + (capacity r - 1)) with (head r + 1 * capacity r) by lia.
      rewrite Z_mod_plus_full, Z.mod_small by lia.
      rewrite list_lookup_insert_eq by (unfold zlen in Hlen; lia).
      f_equal. symmetry. apply lookup_ge_None_2. unfold zlen in *. lia.
    + destruct (pop_slots r ev l i Hh ltac:(lia)) as (-> & Hne' & Hs).
      by rewrite list_lookup_insert_ne.
Qed.

Lemma Enqueue_refines r l ev :
  holds r l →
  ∃ r', Enqueue r ev = Ok ((enqueue_spec (capacity r) (overflow r) (closed r) l ev).1, r') ∧
    holds r' (enqueue_spec (capacity r) (overflow r) (closed r) l ev).2 ∧ shape r r'.
Proof.
  intros Hh. pose proof Hh as [Hcap _ _ Hcount Hbound _ _]. unfold Enqueue, enqueue_spec.
  destruct (closed r) eqn:Hc; [by exists r|]. rewrite Hcount.
  destruct (zlen l <? capacity r) eqn:Hl; zb.
  { destruct (push_holds r l ev Hh Hl) as (r' & -> & ? & ?). by exists r'. }
  assert (zlen l = capacity r) as Hfull by lia.
  destruct (overflow r) eqn:Ho.
  - destruct l as [|e l]; [rewrite (@zlen_nil E) in *; lia|].
    destruct (evict_holds r e l ev Hh (eq_sym Hfull)) as (r' & Hp & Hh' & Hs).
    rewrite Ho, Hc, Hcount in Hp. rewrite Hp. by exists r'.
  - by exists r.
  - rewrite (proj2 (Z.eqb_eq _ _) Hfull). by exists r.
Qed.

Lemma Dequeue_refines r l cancelled :
  holds r l →
  ∃ r', Dequeue cancelled r = Ok ((dequeue_spec (closed r) cancelled l).1, r') ∧
    holds r' (dequeue_spec (closed r) cancelled l).2 ∧ shape r r'.
Proof.
  intros Hh. unfold Dequeue. rewrite (h_count _ _ Hh). destruct l as [|ev l].
  - rewrite (@zlen_nil E). exists r. destruct (closed r), cancelled; done.
  - rewrite zlen_cons. pose proof (zlen_nonneg l).
    rewrite (proj2 (Z.eqb_neq (1 + zlen l) 0)) by lia. cbn [andb].
    destruct (pop_holds r ev l Hh) as (-> & slots' & Hset & Hh'). cbn [mbind result_bind].
    rewrite Hset. cbn [mbind result_bind]. eexists. split; [done|].
    rewrite (h_count _ _ Hh), zlen_cons in Hh'. by split.
Qed.
End ring.
Arguments ringBuffer E : clear implicits.

Section operations.
Context {E : Type}.
Implicit Types (r : ringBuffer E) (l : list E).

(** One operation of the queue interface. *)
Definition run_op r (o : op E) : result panic (answer E * ringBuffer E) :=
  match o with
  | OpEnqueue ev => '(a, r') ← Enqueue r ev; Ok (Enqueued a, r')
  | OpDequeue c => '(a, r') ← Dequeue c r; Ok (Dequeued a, r')
  | OpClose => Ok (Closed, Close r)
  end.

(** The simulation relation. *)
Definition implements r (b : bounded E) : Prop :=
  holds r (b_list b) ∧ capacity r = b_cap b ∧ overflow r = b_policy b ∧ closed r = b_closed b.

Lemma run_op_refines r b o :
  implements r b → ∃ r', run_op r o = Ok ((spec_op b o).1, r') ∧ implements r' (spec_op b o).2.
Proof.
  intros (Hh & Hc & Hp & Hcl). destruct o as [ev|c|]; simpl.
  - destruct (Enqueue_refines r _ ev Hh) as (r' & -> & Hh' & Hs & Hs' & Hs''). exists r'.
    rewrite Hc, Hp, Hcl in *. cbn. destruct (enqueue_spec _ _ _ _ _).
    split; [done|]. unfold implements. cbn in *. by split_and!; try congruence.
  - destruct (Dequeue_refines r _ c Hh) as (r' & -> & Hh' & Hs & Hs' & Hs''). exists r'.
    rewrite Hcl in *. cbn. destruct (dequeue_spec _ _ _).
    split; [done|]. unfold implements. cbn in *. by split_and!; try congruence.
  - eexists. split; [done|]. split; [|done]. by destruct Hh.
Qed.

Lemma ring_op_refines r b o :
  implements r b → op_fits (λ _ : E, True) o →
  ∃ r', run_op r o = Ok ((spec_op b (store_op (λ ev, ev) o)).1, r') ∧
        implements r' (spec_op b (store_op (λ ev, ev) o)).2.
Proof. intros Hrel _. rewrite store_op_id. by apply run_op_refines. Qed.

#[export] Instance ring_queue : QueueImpl (ringBuffer E) E := {|
  q_run := run_op; q_fits := λ _, True; q_store := λ ev, ev; q_rel := implements;
  q_refines := ring_op_refines |}.

Lemma store_ops_id (os : list (op E)) : store_op q_store <$> os = os.
Proof. induction os as [|[] os IH]; [done|..]; rewrite fmap_cons, IH; done. Qed.

Lemma new_implements cap p :
  0 < cap → q_rel (newRingBuffer (E := E) cap p) (Bounded cap p false []).
Proof. intros. split; [by apply new_holds|done]. Qed.

(** C10 The ring buffer is a bounded FIFO queue: from an empty buffer of positive
    capacity, every sequence of enqueues, dequeues and closes runs without a
    panic and gives exactly the answers - returned values, drop reports, signals
    and the decision to wait - of a plain list with the configured overflow
    policy, and the depth is the length of that list, never over capacity. *)
Theorem ring_refines_fifo (cap : Z) (p : OverflowPolicy) (os : list (op E)) :
  0 < cap →
  let '(as_, b) := spec_ops (Bounded cap p false []) os in
  ∃ r', run_ops (newRingBuffer cap p) os = Ok (as_, r') ∧ holds r' (b_list b) ∧
    Depth r' = zlen (b_list b) ∧ Depth r' ≤ cap.
Proof.
  intros Hcap. destruct (run_ops_refines os (newRingBuffer cap p) _ (new_implements cap p Hcap)) as (r' & Hr & Hrel).
  { apply Forall_true. by intros []. }
  rewrite store_ops_id in Hr, Hrel. destruct Hrel as (Hh & Hc & _).
  destruct (spec_ops_cap (Bounded cap p false []) os) as [Hb _].
  destruct (spec_ops _ os) as [as_ b]. simpl in *. exists r'. split_and!; [done..| |].
  - apply (h_count _ _ Hh).
  - unfold Depth. rewrite (h_count _ _ Hh), <- Hb, <- Hc. apply (h_bound _ _ Hh).
Qed.
End operations.

(** ** Goroutines

    Producers and consumers share the lock and one condition variable.  A step
    is one critical section; [cond.Wait] parks the thread, [Signal] wakes any one
    parked thread, [Broadcast] all of them.  A woken thread runs its body again. *)
Section goroutines.
Context {E : Type}.

Inductive role := Producer (todo : list E) | Consumer (got : list E) | Finished (got : list E).
Record thread := Thread { t_role : role; t_parked : bool }.
Record system := System { s_ring : ringBuffer E; s_cancelled : bool; s_threads : list thread }.

Definition unpark (t : thread) : thread := Thread (t_role t) false.

Inductive wake : bool → list thread → list thread → Prop :=
| WakeNone ts : wake false ts ts
| WakeNobody ts : Forall (λ t, t_parked t = false) ts → wake true ts ts
| WakeOne ts j t : ts !! j = Some t → t_parked t = true → wake true ts (<[j := unpark t]> ts).

Inductive step : system → system → Prop :=
| StepEnqueue r c ts i ev todo d sig r' ts' :
    ts !! i = Some (Thread (Producer (ev :: todo)) false) →
    Enqueue r ev = Ok (Return d sig, r') →
    wake sig (<[i := Thread (Producer todo) false]> ts) ts' →
    step (System r c ts) (System r' c ts')
| StepEnqueueWait r c ts i ev todo r' :
    ts !! i = Some (Thread (Producer (ev :: todo)) false) →
    Enqueue r ev = Ok (Wait, r') →
    step (System r c ts) (System r' c (<[i := Thread (Producer (ev :: todo)) true]> ts))
| StepDequeue r c ts i got ev sig r' ts' :
    ts !! i = Some (Thread (Consumer got) false) →
    Dequeue c r = Ok (Return (Some ev) sig, r') →
    wake sig (<[i := Thread (Consumer (got ++ [ev])) false]> ts) ts' →
    step (System r c ts) (System r' c ts')
| StepDequeueEnd r c ts i got sig r' ts' :
    ts !! i = Some (Thread (Consumer got) false) →
    Dequeue c r = Ok (Return None sig, r') →
    wake sig (<[i := Thread (Finished got) false]> ts) ts' →
    step (System r c ts) (System r' c ts')
| StepDequeueWait r c ts i got r' :
    ts !! i = Some (Thread (Consumer got) false) →
    Dequeue c r = Ok (Wait, r') →
    step (System r c ts) (System r' c (<[i := Thread (Consumer got) true]> ts))
| StepClose r c ts : step (System r c ts) (System (Close r) c (unpark <$> ts))
| StepCancel r c ts : step (System r c ts) (System r true ts)
| StepWatcher r ts : step (System r true ts) (System r true (unpark <$> ts)).

Definition start (cap : Z) (p : OverflowPolicy) (rs : list role) : system :=
  System (newRingBuffer cap p) false ((λ r, Thread r false) <$> rs).

Definition reachable (cap : Z) (p : OverflowPolicy) (rs : list role) (s : system) : Prop :=
  rtc step (start cap p rs) s.

(** *** One producer and one consumer *)
Implicit Types (r : ringBuffer E) (l : list E).

Lemma Enqueue_block r l ev o r' :
  holds r l → overflow r = Block → Enqueue r ev = Ok (o, r') →
  shape r r' ∧
  ((closed r = true ∧ o = Return false false ∧ holds r' l) ∨
   (closed r = false ∧ zlen l < capacity r ∧ o = Return false true ∧ holds r' (l ++ [ev])) ∨
   (closed r = false ∧ zlen l = capacity r ∧ o = Wait ∧ holds r' l)).
Proof.
  intros Hh Hp He. destruct (Enqueue_refines r l ev Hh) as (r1 & He' & Hh' & Hs).
  rewrite He in He'. simplify_eq. split; [done|]. pose proof (h_bound _ _ Hh). rewrite Hp in *.
  unfold enqueue_spec in *. destruct (closed r); [by left|].
  destruct (zlen l <? capacity r) eqn:Hl; zb; [by right; left|].
  right; right. split_and!; [done|lia|done|done].
Qed.

Lemma Dequeue_cases r l c o r' :
  holds r l → Dequeue c r = Ok (o, r') →
  shape r r' ∧
  ((l = [] ∧ (closed r || c) = true ∧ o = Return None false ∧ holds r' l) ∨
   (l = [] ∧ closed r = false ∧ o = Wait ∧ holds r' l) ∨
   (∃ ev l', l = ev :: l' ∧ o = Return (Some ev) true ∧ holds r' l')).
Proof.
  intros Hh He. destruct (Dequeue_refines r l c Hh) as (r1 & He' & Hh' & Hs).
  rewrite He in He'. simplify_eq. split; [done|]. destruct l as [|ev l]; simpl in *.
  - destruct (closed r); [by left|]. destruct c; [by left|by right; left].
  - right; right. by exists ev, l.
Qed.

Lemma wake_first sig (r1 r2 : role) b ts' :
  wake sig [Thread r1 false; Thread r2 b] ts' →
  ts' = [Thread r1 false; Thread r2 (b && negb sig)].
Proof.
  intros H. inversion H as [ts|ts Hf|ts [|[|j]] t Ht Hp]; simplify_eq/=.
  - by rewrite andb_true_r.
  - apply Forall_cons in Hf as [_ [Hb _]%Forall_cons]. simpl in Hb. by subst.
  - done.
Qed.

Lemma wake_second sig (r1 r2 : role) b ts' :
  wake sig [Thread r1 b; Thread r2 false] ts' →
  ts' = [Thread r1 (b && negb sig); Thread r2 false].
Proof.
  intros H. inversion H as [ts|ts Hf|ts [|[|j]] t Ht Hp]; simplify_eq/=.
  - by rewrite andb_true_r.
  - apply Forall_cons in Hf as [Hb _]. simpl in Hb. by subst.
  - done.
Qed.

(** The consumer's state: still running with [got] received, or returned. *)
Definition consuming (cr : role) (got : list E) (parked : bool) : Prop :=
  cr = Consumer got ∨ (cr = Finished got ∧ parked = false).

Record spsc (cap : Z) (all : list E) (s : system) (todo got l : list E) (pp cp : bool) (cr : role)
    : Prop := Spsc {
  sp_threads : s_threads s = [Thread (Producer todo) pp; Thread cr cp];
  sp_consumer : consuming cr got cp;
  sp_holds : holds (s_ring s) l;
  sp_cap : capacity (s_ring s) = cap;
  sp_block : overflow (s_ring s) = Block;
  sp_full : pp = true → zlen l = cap ∧ closed (s_ring s) = false;
  sp_empty : cp = true → l = [] ∧ closed (s_ring s) = false;
  sp_open : closed (s_ring s) = false → got ++ l ++ todo = all;
  sp_closed : closed (s_ring s) = true → (got ++ l) `prefix_of` all }.

Definition spsc_ok (cap : Z) (all : list E) (s : system) : Prop :=
  ∃ todo got l pp cp cr, spsc cap all s todo got l pp cp cr.

Lemma producer_index todo pp cr cp got i t b :
  consuming cr got cp →
  [Thread (Producer todo) pp; Thread cr cp] !! i = Some (Thread (Producer t) b) →
  i = 0%nat ∧ pp = b ∧ todo = t.
Proof.
  intros Hco Hi. destruct i as [|[|i]]; simplify_eq/=; [done|]. by destruct Hco as [?|[? _]].
Qed.

Lemma consumer_index todo pp cr cp got i g b :
  consuming cr got cp →
  [Thread (Producer todo) pp; Thread cr cp] !! i = Some (Thread (Consumer g) b) →
  i = 1%nat ∧ cp = b ∧ cr = Consumer got ∧ g = got.
Proof.
  intros Hco Hi. destruct i as [|[|i]]; simplify_eq/=. destruct Hco as [?|[? _]]; by simplify_eq.
Qed.

Lemma consuming_awake cr got cp : consuming cr got cp → consuming cr got false.
Proof. intros [->|[-> _]]; [by left|by right]. Qed.

(** The producer's critical section. *)
Lemma spsc_produce cap all r c ts i ev todo o r' :
  spsc_ok cap all (System r c ts) → ts !! i = Some (Thread (Producer (ev :: todo)) false) →
  Enqueue r ev = Ok (o, r') →
  match o with
  | Return _ sig => ∀ ts', wake sig (<[i := Thread (Producer todo) false]> ts) ts' →
      spsc_ok cap all (System r' c ts')
  | Wait => spsc_ok cap all (System r' c (<[i := Thread (Producer (ev :: todo)) true]> ts))
  end.
Proof.
  intros (todo' & got & l & pp & cp & cr & [Ht Hco Hh Hc Hp Hf He Ho Hcl]) Hi HE. simpl in *. subst ts.
  destruct (producer_index _ _ _ _ _ _ _ _ Hco Hi) as (-> & -> & ->).
  destruct (Enqueue_block r l ev _ r' Hh Hp HE) as ((S1 & S2 & S3) & [(Hcr & -> & Hh')|
    [(Hcr & Hl & -> & Hh')|(Hcr & Hl & -> & Hh')]]); [intros ts' Hw|intros ts' Hw|].
  - apply wake_first in Hw as ->. exists todo, got, l, false, cp, cr.
    split; simpl; rewrite ?andb_true_r, ?S1, ?S2, ?S3; try done. congruence.
  - apply wake_first in Hw as ->. exists todo, got, (l ++ [ev]), false, false, cr.
    split; simpl; rewrite ?andb_false_r, ?S1, ?S2, ?S3; try done.
    + by eapply consuming_awake.
    + intros _. by rewrite <- (Ho Hcr), <- !app_assoc.
    + congruence.
  - exists (ev :: todo), got, l, true, cp, cr. split; simpl; rewrite ?S1, ?S2, ?S3; try done.
    intros _. split; [lia|done].
Qed.

(** The consumer's critical section. *)
Lemma spsc_consume cap all r c ts i got o r' :
  spsc_ok cap all (System r c ts) → ts !! i = Some (Thread (Consumer got) false) →
  Dequeue c r = Ok (o, r') →
  match o with
  | Return (Some ev) sig => ∀ ts', wake sig (<[i := Thread (Consumer (got ++ [ev])) false]> ts) ts' →
      spsc_ok cap all (System r' c ts')
  | Return _ sig => ∀ ts', wake sig (<[i := Thread (Finished got) false]> ts) ts' →
      spsc_ok cap all (System r' c ts')
  | Wait => spsc_ok cap all (System r' c (<[i := Thread (Consumer got) true]> ts))
  end.
Proof.
  intros (todo & got' & l & pp & cp & cr & [Ht Hco Hh Hc Hp Hf He Ho Hcl]) Hi HD. simpl in *. subst ts.
  destruct (consumer_index _ _ _ _ _ _ _ _ Hco Hi) as (-> & -> & -> & ->).
  destruct (Dequeue_cases r l c _ r' Hh HD) as ((S1 & S2 & S3) & [(-> & _ & -> & Hh')|
    [(-> & Hcr & -> & Hh')|(ev & l' & -> & -> & Hh')]]); [intros ts' Hw| |intros ts' Hw].
  - apply wake_second in Hw as ->. exists todo, got', [], pp, false, (Finished got').
    split; simpl; rewrite ?andb_true_r, ?S1, ?S2, ?S3; try done. by right.
  - exists todo, got', [], pp, true, (Consumer got').
    split; simpl; rewrite ?S1, ?S2, ?S3; try done. by left.
  - apply wake_second in Hw as ->. exists todo, (got' ++ [ev]), l', false, false, (Consumer (got' ++ [ev])).
    split; simpl; rewrite ?andb_false_r, ?S1, ?S2, ?S3; try done.
    + by left.
    + intros Hcr. by rewrite <- (Ho Hcr), <- app_assoc.
    + intros Hcr. rewrite <- app_assoc. by apply Hcl.
Qed.

(** A broadcast, after [Close] or a cancellation. *)
Lemma spsc_broadcast cap all r c ts (close : bool) :
  spsc_ok cap all (System r c ts) →
  spsc_ok cap all (System (if close then Close r else r) c (unpark <$> ts)).
Proof.
  intros (todo & got & l & pp & cp & cr & [Ht Hco Hh Hc Hp Hf He Ho Hcl]). simpl in *. subst ts.
  exists todo, got, l, false, false, cr.
  destruct close; split; simpl; try done; try by eapply consuming_awake.
  - by destruct Hh.
  - intros _. destruct (closed r) eqn:Hcr; [by apply Hcl|].
    rewrite <- (Ho eq_refl), app_assoc. by apply prefix_app_r.
Qed.

Lemma spsc_step cap all s s' : spsc_ok cap all s → step s s' → spsc_ok cap all s'.
Proof.
  intros Hok Hstep. destruct Hstep as [? ? ? ? ? ? ? ? ? ? Hi HE Hw|? ? ? ? ? ? ? Hi HE
    |? ? ? ? ? ? ? ? ? Hi HD Hw|? ? ? ? ? ? ? ? Hi HD Hw|? ? ? ? ? ? Hi HD|r c ts|r c ts|r ts].
  - by eapply (spsc_produce _ _ _ _ _ _ _ _ _ _ Hok Hi HE).
  - by eapply (spsc_produce _ _ _ _ _ _ _ _ _ _ Hok Hi HE).
  - by eapply (spsc_consume _ _ _ _ _ _ _ _ _ Hok Hi HD).
  - by eapply (spsc_consume _ _ _ _ _ _ _ _ _ Hok Hi HD).
  - by eapply (spsc_consume _ _ _ _ _ _ _ _ _ Hok Hi HD).
  - by apply (spsc_broadcast _ _ _ _ _ true).
  - destruct Hok as (todo & got & l & pp & cp & cr & []). by exists todo, got, l, pp, cp, cr.
  - by apply (spsc_broadcast _ _ _ _ _ false).
Qed.

(** C30 With the block policy and the program's one producer and one consumer,
    nothing is lost and nobody sleeps through a chance to run: in every reachable
    state the consumer has received a prefix of the producer's events in order
    (as long as the queue is open, received, buffered and pending events are
    together exactly all of them), a parked producer implies a full buffer and a
    parked consumer an empty one - so the two are never parked together. *)
Theorem ring_spsc (cap : Z) (all : list E) (s : system) :
  0 < cap → reachable cap Block [Producer all; Consumer []] s →
  ∃ todo got l pp cp cr, s_threads s = [Thread (Producer todo) pp; Thread cr cp] ∧
    consuming cr got cp ∧ holds (s_ring s) l ∧
    (got ++ l) `prefix_of` all ∧
    (closed (s_ring s) = false → got ++ l ++ todo = all) ∧
    (pp = true → Depth (s_ring s) = cap) ∧ (cp = true → Depth (s_ring s) = 0) ∧
    pp && cp = false.
Proof.
  intros Hcap Hreach.
  assert (spsc_ok cap all s) as (todo & got & l & pp & cp & cr & [Ht Hco Hh Hc Hp Hf He Ho Hcl]).
  { unfold reachable in Hreach. remember (start cap Block _) as s0 eqn:Hs0.
    assert (spsc_ok cap all s0) as H0.
    { subst s0. exists all, [], [], false, false, (Consumer []).
      split; try done; [by left|by apply new_holds]. }
    clear Hs0. induction Hreach; eauto using spsc_step. }
  exists todo, got, l, pp, cp, cr. unfold Depth. rewrite (h_count _ _ Hh).
  split_and!; [done..| |done|by intros [? _]%Hf| |].
  - destruct (closed (s_ring s)); [by apply Hcl|].
    rewrite <- (Ho eq_refl), app_assoc. by apply prefix_app_r.
  - intros [-> _]%He. apply zlen_nil.
  - destruct pp, cp; try done. destruct (Hf eq_refl), (He eq_refl). subst l.
    rewrite (@zlen_nil E) in *. lia.
Qed.
End goroutines.
Arguments role E : clear implicits.
Arguments thread E : clear implicits.
Arguments system E : clear implicits.

(** ** Concrete executions *)
Module RingDemo.
(** One slot, two producers and two consumers. *)
Definition threads : list (role Z) := [Producer [1]; Producer [2]; Consumer []; Consumer []].
Definition sys (r : ringBuffer Z) (p2 c1 c2 : bool) (t1 t2 g1 : list Z) : system Z :=
  System r false [Thread (Producer t1) false; Thread (Producer t2) p2;
                  Thread (Consumer g1) c1; Thread (Consumer []) c2].
Definition ring0 : ringBuffer Z := newRingBuffer 1 Block.
Definition ring1 : ringBuffer Z := RingBuffer [Some 1] 1 0 0 1 false Block.

(** A thread that can run: not parked and with work to do. *)
Definition can_run (t : thread Z) : bool :=
  negb (t_parked t) && match t_role t with Producer (_ :: _) | Consumer _ => true | _ => false end.
End RingDemo.
Import RingDemo.

(** With more than one producer and one consumer, the single condition
    variable loses wake-ups: a consumer's [Signal] for "space is free" can wake
    another consumer instead of the blocked producer.  Two producers and two
    consumers on one slot reach a state in which the queue is open and empty, one
    producer still holds an event it is blocked on, both consumers are blocked
    waiting for events, and no thread can run. *)
Theorem ring_lost_wakeup :
  ∃ s, reachable 1 Block threads s ∧
    Depth (s_ring s) = 0 ∧ closed (s_ring s) = false ∧
    s_threads s !! 1%nat = Some (Thread (Producer [2]) true) ∧
    forallb (λ t, negb (can_run t)) (s_threads s) = true.
Proof.
  exists (sys ring0 true true true [] [2] [1]). split; [|done]. unfold reachable.
  (* both consumers find the queue empty *)
  eapply rtc_l. { by eapply (StepDequeueWait _ _ _ 2%nat). }
  eapply rtc_l. { by eapply (StepDequeueWait _ _ _ 3%nat). }
  (* producer 1 fills the slot and wakes consumer 1; producer 2 blocks *)
  eapply rtc_l. { eapply (StepEnqueue _ _ _ 0%nat); [done|done|by apply (WakeOne _ 2%nat)]. }
  eapply rtc_l. { by eapply (StepEnqueueWait _ _ _ 1%nat). }
  (* consumer 1 takes the event and wakes consumer 2, which blocks again *)
  eapply rtc_l. { eapply (StepDequeue _ _ _ 2%nat); [done|done|by apply (WakeOne _ 3%nat)]. }
  eapply rtc_l. { by eapply (StepDequeueWait _ _ _ 3%nat). }
  eapply rtc_l. { by eapply (StepDequeueWait _ _ _ 2%nat). }
  done.
Qed.

Lemma ring_refines_fifo_witness :
  ∃ as_ r', run_ops (newRingBuffer 2 DropOldest) [OpEnqueue 1; OpEnqueue 2; OpEnqueue 3; OpDequeue false] =
    Ok (as_, r') ∧ holds r' [3].
Proof.
  destruct (ring_refines_fifo 2 DropOldest [OpEnqueue 1; OpEnqueue 2; OpEnqueue 3; OpDequeue false])
    as (r' & Hr & Hh & _).
  - reflexivity.
  - eexists _, r'. split; [exact Hr|exact Hh].
Defined.

Lemma queue_overflow_witness :
  ∃ as_ r b, run_ops (newRingBuffer 2 DropOldest) (OpEnqueue <$> [1; 2; 3]) = Ok (as_, r) ∧
    q_rel r b ∧ b_list b = [2; 3].
Proof.
  destruct (queue_overflow (newRingBuffer 2 DropOldest) 2 DropOldest [1; 2; 3])
    as (as_ & r & b & Hr & Hrel & _ & Hl).
  - reflexivity.
  - apply new_implements. reflexivity.
  - repeat constructor.
  - exists as_, r, b. split_and!; [exact Hr|exact Hrel|exact Hl].
Defined.


Lemma ring_spsc_witness :
  let s := System ring1 false [Thread (Producer [2]) true; Thread (Consumer []) false] in
  reachable 1 Block [Producer [1; 2]; Consumer []] s ∧
  ∃ todo got pp cp cr, s_threads s = [Thread (Producer todo) pp; Thread cr cp] ∧
    consuming cr got cp ∧ (pp = true → Depth (s_ring s) = 1).
Proof.
  intros s.
  assert (reachable 1 Block [Producer [1; 2]; Consumer []] s) as Hs.
  { unfold reachable.
    eapply rtc_l. { eapply (StepEnqueue _ _ _ 0%nat); [done|done|]. apply WakeNobody. by repeat constructor. }
    eapply rtc_l. { by eapply (StepEnqueueWait _ _ _ 0%nat). }
    done. }
  split; [exact Hs|].
  destruct (ring_spsc 1 [1; 2] s) as (todo & got & l & pp & cp & cr & ? & ? & _ & _ & _ & ? & _);
    [reflexivity|exact Hs|].
  exists todo, got, pp, cp, cr. auto.
Defined.
