(* ===== verification/FileCodec.v ===== *)
(** * The binary event codec (src/pkg/queue/filequeue_codec.go)

    [encodeBinary] lays a [SQLEvent] out in little-endian fields with length
    prefixes; [decodeBinary] walks the payload with a cursor, checking bounds
    with [need] before each read. *)
From S2P Require Import Prelude Core.

(** ** Encoding *)
Definition encode_addr (a : Addr) : list Z :=
  let len := if Is4 a then 4 else 16 in
  len :: if len =? 4 then As4 a else As16 a.

(** A length as [uint32] and the bytes. *)
Definition encode_bytes (b : list Z) : list Z := le_bytes 4 (zlen b) ++ b.

Definition encode_param (p : ParamInfo) : list Z :=
  le_bytes 4 (OID p) ++ le_bytes 2 (Format p) ++ encode_bytes (default [] (Value p)).

Definition encodeBinary (ev : SQLEvent) : list Z :=
  encode_addr (SrcIP (Conn ev)) ++ le_bytes 2 (SrcPort (Conn ev)) ++
  encode_addr (DstIP (Conn ev)) ++ le_bytes 2 (DstPort (Conn ev)) ++
  encode_bytes (SQL ev) ++
  le_bytes 8 (Timestamp ev) ++ le_bytes 8 (TxID ev) ++ le_bytes 8 (Seq ev) ++
  [if Extended ev then 1 else 0] ++
  encode_bytes (StmtName ev) ++
  le_bytes 4 (zlen (Params ev)) ++ concat (encode_param <$> Params ev) ++
  le_bytes 4 (zlen (CopyData ev)) ++ concat (encode_bytes <$> CopyData ev) ++
  le_bytes 8 (SourceExecTime ev).

(** ** Decoding *)
Inductive decode_error := EmptyPayload | ShortRead (off need have : Z) | Panicked (p : panic).

Section decode.
Variable data : list Z.

(** A computation that moves the cursor [off]. *)
Definition rd (A : Type) : Type := Z → result decode_error (A * Z).
#[local] Instance rd_ret : MRet rd := λ A a off, Ok (a, off).
#[local] Instance rd_bind : MBind rd := λ A B f m off,
  match m off with Ok (a, off') => f a off' | Err e => Err e end.

Definition need (n : Z) : rd unit := λ off,
  if off + n >? zlen data then Err (ShortRead off n (zlen data - off)) else Ok (tt, off).

(** [data[off:off+n]] and advancing by [adv]. *)
Definition take_bytes (n adv : Z) : rd (list Z) := λ off,
  match go_slice off (off + n) data with Ok b => Ok (b, off + adv) | Err p => Err (Panicked p) end.

Definition u (n : Z) : rd Z := b ← take_bytes n n; mret (le_value b).

Definition decode_addr : rd Addr :=
  need 1 ≫= λ _, u 1 ≫= λ len, need len ≫= λ _,
  if len =? 4 then b ← take_bytes 4 len; mret (Addr4 b)
  else b ← take_bytes 16 len; mret (Addr16 b).

Definition decode_string : rd (list Z) :=
  need 4 ≫= λ _, u 4 ≫= λ len, need len ≫= λ _, take_bytes len len.

Definition decode_param : rd ParamInfo :=
  need 10 ≫= λ _, u 4 ≫= λ oid, u 2 ≫= λ format, u 4 ≫= λ vLen, need vLen ≫= λ _,
  take_bytes vLen vLen ≫= λ v,
  mret (Param oid (if vLen >? 0 then Some v else None) (signed 16 format)).

(** The counted loops. *)
Fixpoint decode_many {A} (count : nat) (item : rd A) : rd (list A) :=
  match count with
  | O => mret []
  | S count => item ≫= λ a, decode_many count item ≫= λ as_, mret (a :: as_)
  end.

Definition decode_list {A} (item : rd A) : rd (list A) :=
  need 4 ≫= λ _, u 4 ≫= λ count, decode_many (Z.to_nat count) item.

Definition decode_event : rd SQLEvent :=
  decode_addr ≫= λ srcIP, need 2 ≫= λ _, u 2 ≫= λ srcPort,
  decode_addr ≫= λ dstIP, need 2 ≫= λ _, u 2 ≫= λ dstPort,
  decode_string ≫= λ sql,
  need 8 ≫= λ _, u 8 ≫= λ ts,
  need 16 ≫= λ _, u 8 ≫= λ txid, u 8 ≫= λ seq,
  need 1 ≫= λ _, u 1 ≫= λ ext,
  decode_string ≫= λ stmt,
  decode_list decode_param ≫= λ params,
  decode_list decode_string ≫= λ copies,
  need 8 ≫= λ _, u 8 ≫= λ exec,
  mret (SqlEvent (MkConnID srcIP srcPort dstIP dstPort) sql (signed 64 ts) txid seq (ext =? 1) stmt
          params copies (signed 64 exec) []).

Definition decodeBinary : result decode_error SQLEvent :=
  if zlen data <? 1 then Err EmptyPayload else
  match decode_event 0 with Ok (ev, _) => Ok ev | Err e => Err e end.
End decode.

#[local] Existing Instances rd_ret rd_bind.

(** ** Reading what was written *)
Section reading.
Variable data : list Z.

(** The cursor stands before [suf]. *)
Definition at_suffix (off : Z) (suf : list Z) : Prop :=
  0 ≤ off ∧ off + zlen suf = zlen data ∧ drop (Z.to_nat off) data = suf.

(** [m] consumes exactly [bs] and returns [a]. *)
Definition reads {A} (m : rd A) (bs : list Z) (a : A) : Prop :=
  ∀ off rest, at_suffix off (bs ++ rest) → m off = Ok (a, off + zlen bs).

Lemma at_advance off bs rest : at_suffix off (bs ++ rest) → at_suffix (off + zlen bs) rest.
Proof.
  intros (H1 & H2 & H3). rewrite zlen_app in H2. pose proof (zlen_nonneg bs). split_and!; [lia|lia|].
  rewrite Z2Nat.inj_add, <- drop_drop, H3 by lia. unfold zlen. by rewrite Nat2Z.id, drop_app_length.
Qed.

Lemma reads_ret {A} (a : A) : reads (mret a) [] a.
Proof. intros off rest _. by rewrite (@zlen_nil Z), Z.add_0_r. Qed.

Lemma reads_bind {A B} (m : rd A) (f : A → rd B) b1 b2 a b :
  reads m b1 a → reads (f a) b2 b → reads (m ≫= f) (b1 ++ b2) b.
Proof.
  intros H1 H2 off rest Hat. rewrite <- app_assoc in Hat. unfold mbind, rd_bind.
  rewrite (H1 _ _ Hat). rewrite (H2 _ rest (at_advance _ _ _ Hat)). by rewrite zlen_app, Z.add_assoc.
Qed.

Lemma reads_map {A B} (m : rd A) (f : A → rd B) bs a b :
  reads m bs a → reads (f a) [] b → reads (m ≫= f) bs b.
Proof. intros H1 H2. rewrite <- (app_nil_r bs). by eapply reads_bind. Qed.

(** A bounds check passes when what follows reads at least as much. *)
Lemma reads_need {A} (m : rd A) n bs a :
  reads m bs a → n ≤ zlen bs → reads (need data n ≫= λ _, m) bs a.
Proof.
  intros H Hn off rest Hat. unfold mbind, rd_bind, need. pose proof Hat as (H1 & H2 & _).
  rewrite zlen_app in H2. pose proof (zlen_nonneg rest).
  rewrite Z.gtb_ltb, (proj2 (Z.ltb_ge _ _)) by lia. by apply H with rest.
Qed.

(** Taking a prefix and skipping [adv] bytes. *)
Lemma reads_take n adv bs :
  n = zlen bs → adv = n → reads (take_bytes data n adv) bs bs.
Proof.
  intros -> -> off rest (H1 & H2 & H3). rewrite zlen_app in H2. pose proof (zlen_nonneg rest).
  pose proof (zlen_nonneg bs). unfold take_bytes. rewrite go_slice_ok by lia.
  replace (off + zlen bs - off) with (zlen bs) by lia. unfold slice. rewrite H3.
  do 3 f_equal. unfold zlen. by rewrite Nat2Z.id, take_app_length.
Qed.

Lemma reads_u n z : reads (u data (Z.of_nat n)) (le_bytes n z) (z mod 256 ^ Z.of_nat n).
Proof.
  unfold u. eapply reads_map; [apply reads_take; [by rewrite zlen_le_bytes|done]|].
  rewrite le_value_bytes_mod. apply reads_ret.
Qed.

Lemma reads_byte b : reads (u data 1) [b] b.
Proof.
  unfold u. eapply reads_map; [by apply reads_take|].
  replace (le_value [b]) with b by (simpl; lia). apply reads_ret.
Qed.

Lemma u32_small z : 0 ≤ z < 2 ^ 32 → z mod 256 ^ Z.of_nat 4 = z.
Proof. apply Z.mod_small. Qed.

Lemma reads_string b : zlen b < 2 ^ 32 → reads (decode_string data) (encode_bytes b) b.
Proof.
  intros Hb. pose proof (zlen_nonneg b). unfold decode_string, encode_bytes.
  apply reads_need; [|rewrite zlen_app, zlen_le_bytes; lia].
  eapply reads_bind; [apply (reads_u 4)|]. rewrite u32_small by lia.
  apply reads_need; [by apply reads_take|lia].
Qed.

(** What a decoded address is: the zero address comes back as [::]. *)
Definition stored_addr (a : Addr) : Addr :=
  match a with AddrZero => Addr16 (replicate 16 0) | _ => a end.

Definition wf_addr (a : Addr) : Prop :=
  match a with AddrZero => True | Addr4 b => zlen b = 4 | Addr16 b => zlen b = 16 end.

Lemma reads_addr a : wf_addr a → reads (decode_addr data) (encode_addr a) (stored_addr a).
Proof.
  intros Ha.
  assert (∃ len body, encode_addr a = [len] ++ body ∧ zlen body = len ∧
    (if len =? 4 then Addr4 body else Addr16 body) = stored_addr a ∧ (len = 4 ∨ len = 16))
    as (len & body & -> & Hl & <- & Hlen).
  { destruct a as [|b|b]; [exists 16, (replicate 16 0)|exists 4, b|exists 16, b]; auto. }
  unfold decode_addr. apply reads_need; [|rewrite zlen_app, zlen_cons, (@zlen_nil Z); lia].
  eapply reads_bind; [apply reads_byte|]. apply reads_need; [|lia].
  destruct Hlen as [-> | ->]; cbn [Z.eqb Pos.eqb];
    (eapply reads_map; [by apply reads_take|apply reads_ret]).
Qed.

(** Items of a counted list. *)
Lemma reads_many {A B} (item : rd B) (enc : A → list Z) (f : A → B) l :
  Forall (λ a, reads item (enc a) (f a)) l →
  reads (decode_many (length l) item) (concat (enc <$> l)) (f <$> l).
Proof.
  induction 1 as [|a l Ha _ IH]; [apply reads_ret|]. cbn [decode_many length].
  rewrite !fmap_cons. cbn [concat]. eapply reads_bind; [exact Ha|].
  eapply reads_map; [exact IH|]. apply reads_ret.
Qed.

Lemma reads_list {A B} (item : rd B) (enc : A → list Z) (f : A → B) l :
  zlen l < 2 ^ 32 → Forall (λ a, reads item (enc a) (f a)) l →
  reads (decode_list data item) (le_bytes 4 (zlen l) ++ concat (enc <$> l)) (f <$> l).
Proof.
  intros Hl Hall. pose proof (zlen_nonneg l). unfold decode_list.
  apply reads_need; [|rewrite zlen_app, zlen_le_bytes; pose proof (zlen_nonneg (concat (enc <$> l))); lia].
  eapply reads_bind; [apply (reads_u 4)|]. rewrite u32_small by lia.
  unfold zlen. rewrite Nat2Z.id. by apply reads_many.
Qed.

(** ** Parameters *)
Definition stored_param (p : ParamInfo) : ParamInfo :=
  Param (OID p) (match Value p with Some (b :: v) => Some (b :: v) | _ => None end) (Format p).

Definition wf_param (p : ParamInfo) : Prop :=
  in_width 32 (OID p) ∧ - 2 ^ 15 ≤ Format p < 2 ^ 15 ∧ zlen (default [] (Value p)) < 2 ^ 32.

Lemma reads_param p : wf_param p → reads (decode_param data) (encode_param p) (stored_param p).
Proof.
  intros (Ho & Hf & Hv). pose proof (zlen_nonneg (default [] (Value p))).
  unfold decode_param, encode_param, encode_bytes.
  apply reads_need; [|rewrite !zlen_app, !zlen_le_bytes; lia].
  eapply reads_bind; [apply (reads_u 4)|]. rewrite u32_small by exact Ho.
  eapply reads_bind; [apply (reads_u 2)|].
  eapply reads_bind; [apply (reads_u 4)|]. rewrite u32_small by lia.
  apply reads_need; [|lia]. eapply reads_map; [by apply reads_take|].
  replace (mret _) with (mret (M := rd) (stored_param p)); [apply reads_ret|].
  f_equal. unfold stored_param. f_equal.
  - by destruct (Value p) as [[|b v]|].
  - symmetry. apply (signed_mod 16); [lia|exact Hf].
Qed.

(** ** Events *)

(** What the log keeps of an event: the user is not written, an empty value and
    a NULL are the same zero length, and the zero address is written as [::]. *)
Definition stored (ev : SQLEvent) : SQLEvent :=
  SqlEvent (MkConnID (stored_addr (SrcIP (Conn ev))) (SrcPort (Conn ev))
      (stored_addr (DstIP (Conn ev))) (DstPort (Conn ev)))
    (SQL ev) (Timestamp ev) (TxID ev) (Seq ev) (Extended ev) (StmtName ev)
    (stored_param <$> Params ev) (CopyData ev) (SourceExecTime ev) [].

(** The ranges of the Go types, and lengths that fit their [uint32] prefix. *)
Definition wf_event (ev : SQLEvent) : Prop :=
  wf_addr (SrcIP (Conn ev)) ∧ in_width 16 (SrcPort (Conn ev)) ∧ wf_addr (DstIP (Conn ev)) ∧ in_width 16 (DstPort (Conn ev)) ∧
  zlen (SQL ev) < 2 ^ 32 ∧ - 2 ^ 63 ≤ Timestamp ev < 2 ^ 63 ∧ in_width 64 (TxID ev) ∧
  in_width 64 (Seq ev) ∧ zlen (StmtName ev) < 2 ^ 32 ∧
  zlen (Params ev) < 2 ^ 32 ∧ Forall wf_param (Params ev) ∧
  zlen (CopyData ev) < 2 ^ 32 ∧ Forall (λ c, zlen c < 2 ^ 32) (CopyData ev) ∧
  - 2 ^ 63 ≤ SourceExecTime ev < 2 ^ 63.

Lemma need_len {n} bs (rest : list Z) : n ≤ zlen bs → n ≤ zlen (bs ++ rest).
Proof. rewrite zlen_app. pose proof (zlen_nonneg rest). lia. Qed.

Lemma reads_event ev : wf_event ev → reads (decode_event data) (encodeBinary ev) (stored ev).
Proof.
  intros (Hsa & Hsp & Hda & Hdp & Hsql & Hts & Htx & Hsq & Hst & Hpl & Hp & Hcl & Hc & Hex).
  unfold decode_event, encodeBinary.
  eapply reads_bind; [by apply reads_addr|].
  apply reads_need; [|apply need_len; by rewrite zlen_le_bytes].
  eapply reads_bind; [apply (reads_u 2)|]. rewrite (Z.mod_small (SrcPort (Conn ev))) by exact Hsp.
  eapply reads_bind; [by apply reads_addr|].
  apply reads_need; [|apply need_len; by rewrite zlen_le_bytes].
  eapply reads_bind; [apply (reads_u 2)|]. rewrite (Z.mod_small (DstPort (Conn ev))) by exact Hdp.
  eapply reads_bind; [by apply reads_string|].
  apply reads_need; [|apply need_len; by rewrite zlen_le_bytes].
  eapply reads_bind; [apply (reads_u 8)|].
  apply reads_need; [|rewrite app_assoc; apply need_len; by rewrite zlen_app, !zlen_le_bytes].
  eapply reads_bind; [apply (reads_u 8)|]. rewrite (Z.mod_small (TxID ev)) by exact Htx.
  eapply reads_bind; [apply (reads_u 8)|]. rewrite (Z.mod_small (Seq ev)) by exact Hsq.
  apply reads_need; [|by apply need_len].
  eapply reads_bind; [apply reads_byte|].
  eapply reads_bind; [by apply reads_string|].
  rewrite (app_assoc (le_bytes 4 (zlen (Params ev)))).
  eapply reads_bind.
  { apply (reads_list _ encode_param stored_param); [done|].
    eapply Forall_impl; [exact Hp|]. intros. by apply reads_param. }
  rewrite (app_assoc (le_bytes 4 (zlen (CopyData ev)))).
  eapply reads_bind.
  { apply (reads_list _ encode_bytes id); [done|].
    eapply Forall_impl; [exact Hc|]. intros. by apply reads_string. }
  apply reads_need; [|by rewrite zlen_le_bytes].
  eapply reads_map; [apply (reads_u 8)|]. rewrite list_fmap_id.
  replace (mret _) with (mret (M := rd) (stored ev)); [apply reads_ret|]. f_equal. unfold stored. f_equal.
  - symmetry. apply (signed_mod 64); [lia|exact Hts].
  - by destruct (Extended ev).
  - symmetry. apply (signed_mod 64); [lia|exact Hex].
Qed.
End reading.

Lemma zlen_encode_pos ev : 1 ≤ zlen (encodeBinary ev).
Proof.
  unfold encodeBinary, encode_addr. rewrite zlen_app, zlen_cons.
  pose proof (zlen_nonneg (if (if Is4 (SrcIP (Conn ev)) then 4 else 16) =? 4 then As4 (SrcIP (Conn ev)) else As16 (SrcIP (Conn ev)))).
  match goal with |- _ ≤ _ + zlen ?l => pose proof (zlen_nonneg l) end. lia.
Qed.

Lemma decode_encode ev : wf_event ev → decodeBinary (encodeBinary ev) = Ok (stored ev).
Proof.
  intros Hwf. unfold decodeBinary. pose proof (zlen_encode_pos ev).
  rewrite (proj2 (Z.ltb_ge _ _)) by lia.
  rewrite (reads_event (encodeBinary ev) ev Hwf 0 []); [done|].
  split_and!; [done|by rewrite app_nil_r|]. by rewrite app_nil_r.
Qed.

Lemma stored_params_id ps : Forall (λ p, Value p ≠ Some []) ps → stored_param <$> ps = ps.
Proof.
  induction 1 as [|p ps Hv _ IH]; [done|]. rewrite fmap_cons, IH. f_equal.
  by destruct p as [oid [[|b v]|] f].
Qed.

(** C17 Decoding inverts encoding: every event whose fields are in the ranges of
    their Go types comes back from its encoding, with each field as it was apart
    from the user, NULL-or-empty parameter values and the zero address, as
    [stored] says; in particular an event with no user, no empty parameter value
    and two real addresses comes back exactly. *)
Theorem codec_roundtrip (ev : SQLEvent) :
  wf_event ev →
  decodeBinary (encodeBinary ev) = Ok (stored ev) ∧
  (User ev = [] → SrcIP (Conn ev) ≠ AddrZero → DstIP (Conn ev) ≠ AddrZero →
   Forall (λ p, Value p ≠ Some []) (Params ev) → stored ev = ev).
Proof.
  intros Hwf. split; [by apply decode_encode|]. intros Hu Hs Hd Hp.
  destruct ev as [[src sp dst dp] sql ts tx sq ext st ps cs ex us]. simpl in *. unfold stored. simpl.
  f_equal; [f_equal; [by destruct src|by destruct dst]|by apply stored_params_id|done].
Qed.

(** The log does not tell NULL from an empty string, and forgets the user: two
    events that differ only in a bound parameter being NULL in one and empty in
    the other, or only in their user, have the same encoding. *)
Theorem codec_null_is_empty (ev : SQLEvent) (oid fmt : Z) (user : list Z) :
  let with_value v u := SqlEvent (Conn ev) (SQL ev)
    (Timestamp ev) (TxID ev) (Seq ev) (Extended ev) (StmtName ev) [Param oid v fmt]
    (CopyData ev) (SourceExecTime ev) u in
  encodeBinary (with_value None user) = encodeBinary (with_value (Some []) user) ∧
  encodeBinary (with_value None user) = encodeBinary (with_value None []).
Proof. done. Qed.

(** A corrupt payload can crash the process: [decodeBinary] checks that the
    announced address length fits but then slices 16 bytes for every length other
    than 4, so a payload announcing a 5-byte address in 6 bytes panics instead of
    returning an error. *)
Theorem decode_panics :
  decodeBinary [5; 0; 0; 0; 0; 0] = Err (Panicked SliceBounds).
Proof. reflexivity. Qed.


(** ** A concrete event *)
Module CodecDemo.
(** Two parameters, one NULL and one empty, and a COPY chunk. *)
Definition ev : SQLEvent :=
  SqlEvent (MkConnID (Addr4 [10; 0; 0; 1]) 50000 (Addr16 (replicate 15 0 ++ [1])) 5432)
    [0x53; 0x31] (-5) 7 9 true [0x70]
    [Param 23 None 0; Param 25 (Some []) 1; Param 25 (Some [1; 2]) (-1)] [[3]; []] 1000 [].

Lemma ev_wf : wf_event ev.
Proof.
  unfold wf_event, in_width. cbn [ev Conn SrcIP DstIP wf_addr Params CopyData].
  split_and!; lazymatch goal with |- Forall _ _ => idtac | _ => vm_compute; congruence end.
  - repeat (apply Forall_cons_2; [unfold wf_param, in_width; split_and!; vm_compute; congruence|]).
    apply Forall_nil_2.
  - repeat (apply Forall_cons_2; [vm_compute; congruence|]). apply Forall_nil_2.
Qed.
End CodecDemo.

Lemma codec_roundtrip_witness : decodeBinary (encodeBinary CodecDemo.ev) = Ok (stored CodecDemo.ev).
Proof. apply (codec_roundtrip CodecDemo.ev). exact CodecDemo.ev_wf. Defined.
