(* ===== verification/FileQueue.v ===== *)
(** * The write-ahead-log queue (src/pkg/queue/filequeue.go)

    Length-prefixed records appended at [writeOff] and consumed at [readOff] of
    one file, truncated whenever it drains.  The file is its bytes.  A write may
    fail half way and a truncation may fail; a read fails past the end of the
    file.  The encoding buffer is kept with its arrays, because a producer that
    waits keeps a slice of it. *)
From S2P Require Import Prelude Core QueueSpec FileCodec.

Definition frameHeaderLen : Z := 4.
Definition maxFramePayload : Z := Z.shiftl 64 20.

(** [f] is [None] once the file is closed and removed.  [encodeArrays] are the
    arrays [encodeBinary] allocated, [encodeBuf] being on the last one. *)
Record fileQueue := FileQueue {
  f : option (list Z); fq_capacity : Z; fq_overflow : OverflowPolicy; fq_closed : bool;
  writeOff : Z; readOff : Z; fq_count : Z; encodeArrays : list (list Z) }.

Definition newFileQueue (capacity : Z) (overflow : OverflowPolicy) : fileQueue :=
  FileQueue (Some []) capacity overflow false 0 0 0 [].

(** What the disk does during a call: how many bytes of a record land before the
    write fails ([None]: all of them, it does not), and whether [Truncate] works. *)
Record disk := Disk { d_short : option nat; d_truncates : bool }.
Definition healthy : disk := Disk None true.

Definition with_file (file : option (list Z)) (q : fileQueue) : fileQueue :=
  FileQueue file (fq_capacity q) (fq_overflow q) (fq_closed q) (writeOff q) (readOff q)
    (fq_count q) (encodeArrays q).

(** [WriteAt], filling a gap with zeroes, and [ReadAt]. *)
Definition write_at (off : Z) (b file : list Z) : list Z :=
  take (Z.to_nat off) (file ++ replicate (Z.to_nat off - length file) 0) ++ b ++
  drop (Z.to_nat off + length b) file.
Definition read_at (off n : Z) (file : option (list Z)) : option (list Z) :=
  match file with
  | Some l => if (0 <=? off) && (off + n <=? zlen l) then Some (slice off n l) else None
  | None => None
  end.

(** [writeRecord]: whether it succeeds, and what it leaves of the file. *)
Definition writeRecord (d : disk) (payload : list Z) (q : fileQueue) : bool * fileQueue :=
  match f q with
  | Some file =>
      let b := be_bytes 4 (zlen payload) ++ payload in
      match d_short d with
      | None =>
          (true, FileQueue (Some (write_at (writeOff q) b file)) (fq_capacity q) (fq_overflow q)
             (fq_closed q) (writeOff q + zlen b) (readOff q) (fq_count q) (encodeArrays q))
      | Some n => (false, with_file (Some (write_at (writeOff q) (take n b) file)) q)
      end
  | None => (false, q)
  end.

Definition readLenAt (off : Z) (q : fileQueue) : option Z :=
  be_value <$> read_at off frameHeaderLen (f q).

Definition releaseLocked (q : fileQueue) : fileQueue := with_file None q.

Definition compactIfDrained (d : disk) (q : fileQueue) : fileQueue :=
  if negb (fq_count q =? 0) then q
  else if fq_closed q then releaseLocked q
  else FileQueue (if d_truncates d then const [] <$> f q else f q) (fq_capacity q) (fq_overflow q)
         (fq_closed q) 0 0 (fq_count q) (encodeArrays q).

(** Moving the read cursor by [n] bytes, over one record. *)
Definition skip (n : Z) (q : fileQueue) : fileQueue :=
  FileQueue (f q) (fq_capacity q) (fq_overflow q) (fq_closed q) (writeOff q)
    (readOff q + n) (fq_count q - 1) (encodeArrays q).

Definition dropOldest (d : disk) (q : fileQueue) : option fileQueue :=
  n ← readLenAt (readOff q) q;
  Some (compactIfDrained d (skip (frameHeaderLen + n) q)).

Definition counted (q : fileQueue) : fileQueue :=
  FileQueue (f q) (fq_capacity q) (fq_overflow q) (fq_closed q) (writeOff q) (readOff q)
    (fq_count q + 1) (encodeArrays q).

(** [encodeBinary ev q.encodeBuf]: the record goes to the start of the array of
    [encodeBuf] when that is large enough for the estimate, to a new one of the
    estimated size otherwise.  The payload is a slice: an array and a length. *)
Definition estimateEventSize (ev : SQLEvent) : Z :=
  (1 + 16 + 2 + 1 + 16 + 2) + (4 + zlen (SQL ev)) + (8 + 8 + 8 + 1) + (4 + zlen (StmtName ev)) + 4 +
  foldr (λ p n, 4 + 2 + 4 + zlen (default [] (Value p)) + n) 0 (Params ev) + 4 +
  foldr (λ c n, 4 + zlen c + n) 0 (CopyData ev) + 8.

Record payload := Payload { p_array : nat; p_len : nat }.

Definition encode_into (ev : SQLEvent) (arrays : list (list Z)) : payload * list (list Z) :=
  let b := encodeBinary ev in
  let i := pred (length arrays) in
  let fresh := (Payload (length arrays) (length b),
    arrays ++ [b ++ replicate (Z.to_nat (estimateEventSize ev) - length b) 0]) in
  match arrays !! i with
  | Some a =>
      if zlen a >=? estimateEventSize ev then
        (Payload i (length b), <[i := b ++ drop (length b) a]> arrays)
      else fresh
  | None => fresh
  end.

(** The bytes a payload stands for now. *)
Definition payload_bytes (arrays : list (list Z)) (p : payload) : list Z :=
  take (p_len p) (default [] (arrays !! p_array p)).

Definition with_arrays (arrays : list (list Z)) (q : fileQueue) : fileQueue :=
  FileQueue (f q) (fq_capacity q) (fq_overflow q) (fq_closed q) (writeOff q) (readOff q)
    (fq_count q) arrays.

(** Writing the record and counting it, answering [dropped] when it is written. *)
Definition append (d : disk) (p : payload) (dropped : bool) (q : fileQueue) : outcome bool * fileQueue :=
  match writeRecord d (payload_bytes (encodeArrays q) p) q with
  | (false, q') => (Return true false, q')
  | (true, q') => (Return dropped true, counted q')
  end.

(** The wait of the block policy and what follows it, from the loop test on: how a
    woken producer goes on with the payload it holds. *)
Definition fq_resume (d : disk) (p : payload) (q : fileQueue) : outcome bool * fileQueue :=
  if (fq_count q =? fq_capacity q) && negb (fq_closed q) then (Wait, q)
  else if fq_closed q then (Return false false, q)
  else append d p false q.

(** [Enqueue] with the lock held, up to its return or [cond.Wait], with the
    payload it holds. *)
Definition fq_Enqueue (d : disk) (ev : SQLEvent) (q : fileQueue) : outcome bool * payload * fileQueue :=
  if fq_closed q then (Return false false, Payload 0 0, q) else
  let '(p, arrays) := encode_into ev (encodeArrays q) in
  let q := with_arrays arrays q in
  let '(a, q') :=
    if fq_count q <? fq_capacity q then append d p false q else
    match fq_overflow q with
    | DropNewest => (Return true false, q)
    | Block => fq_resume d p q
    | DropOldest =>
        match dropOldest d q with
        | None => (Return true false, q)
        | Some q' => append d p true q'
        end
    end in
  (a, p, q').

(** The loop of [Dequeue], one round per buffered record; frames it cannot read,
    that are too long or that do not decode are skipped. *)
Fixpoint dequeue_loop (d : disk) (rounds : nat) (q : fileQueue)
    : result panic (option SQLEvent * fileQueue) :=
  match rounds with
  | O => Ok (None, q)
  | S rounds =>
      if fq_count q =? 0 then Ok (None, q) else
      match readLenAt (readOff q) q with
      | None => dequeue_loop d rounds (skip frameHeaderLen q)
      | Some n =>
          if n >? maxFramePayload then dequeue_loop d rounds (skip (frameHeaderLen + n) q) else
          match read_at (readOff q + frameHeaderLen) n (f q) with
          | None => dequeue_loop d rounds (skip (frameHeaderLen + n) q)
          | Some payload =>
              match decodeBinary payload with
              | Err (Panicked p) => Err p
              | Err _ => dequeue_loop d rounds (skip (frameHeaderLen + n) q)
              | Ok ev => Ok (Some ev, compactIfDrained d (skip (frameHeaderLen + n) q))
              end
          end
      end
  end.

(** Every round broadcasts, so waiters are woken when a record was consumed. *)
Definition fq_Dequeue (d : disk) (cancelled : bool) (q : fileQueue)
    : result panic (outcome (option SQLEvent) * fileQueue) :=
  if (fq_count q =? 0) && negb (fq_closed q) && negb cancelled then Ok (Wait, q) else
  '(ev, q') ← dequeue_loop d (Z.to_nat (fq_count q)) q;
  Ok (Return ev (negb (fq_count q' =? fq_count q)), q').

Definition fq_Depth (q : fileQueue) : Z := fq_count q.

Definition fq_Close (q : fileQueue) : fileQueue :=
  if fq_closed q then q else
  let q := FileQueue (f q) (fq_capacity q) (fq_overflow q) true (writeOff q) (readOff q) (fq_count q)
             (encodeArrays q) in
  if fq_count q =? 0 then releaseLocked q else q.

(** ** One producer and any number of consumers

    [CallEnqueue] is a call the producer makes, [WakeProducer] the scheduler
    letting it go on after a wait; while it waits inside one call it cannot make
    another, and without a wait there is nothing to wake. *)
Inductive fq_op :=
  CallEnqueue (d : disk) (ev : SQLEvent) | WakeProducer (d : disk)
  | CallDequeue (d : disk) (cancelled : bool) | CallClose.

Definition parked_on (a : outcome bool) (p : payload) : option payload :=
  match a with Wait => Some p | Return _ _ => None end.

Definition fq_run (s : fileQueue * option payload) (o : fq_op)
    : result panic (option (answer SQLEvent) * (fileQueue * option payload)) :=
  let '(q, parked) := s in
  match o, parked with
  | CallEnqueue d ev, None =>
      let '(a, p, q') := fq_Enqueue d ev q in Ok (Some (Enqueued a), (q', parked_on a p))
  | WakeProducer d, Some p =>
      let '(a, q') := fq_resume d p q in Ok (Some (Enqueued a), (q', parked_on a p))
  | CallDequeue d c, _ => '(a, q') ← fq_Dequeue d c q; Ok (Some (Dequeued a), (q', parked))
  | CallClose, _ => Ok (Some Closed, (fq_Close q, parked))
  | _, _ => Ok (None, s)
  end.

Fixpoint fq_runs (s : fileQueue * option payload) (os : list fq_op)
    : result panic (list (option (answer SQLEvent)) * (fileQueue * option payload)) :=
  match os with
  | [] => Ok ([], s)
  | o :: os => '(a, s1) ← fq_run s o; '(as_, s2) ← fq_runs s1 os; Ok (a :: as_, s2)
  end.

(** The bounded list under the same calls: the events as they are stored, and the
    event of the waiting producer.  An enqueue whose write fails answers that it
    dropped an event and keeps nothing of it; the oldest event, if the policy
    evicted it, is gone. *)
Definition put_spec (d : disk) (b : bounded SQLEvent) (ev : SQLEvent)
    : outcome bool * bounded SQLEvent :=
  let '(a, l) := enqueue_spec (b_cap b) (b_policy b) (b_closed b) (b_list b) ev in
  match d_short d, a with
  | Some _, Return _ true =>
      (Return true false, Bounded (b_cap b) (b_policy b) (b_closed b)
         (if zlen (b_list b) <? b_cap b then b_list b else list.tail (b_list b)))
  | _, _ => (a, Bounded (b_cap b) (b_policy b) (b_closed b) l)
  end.

Definition waiting (a : outcome bool) (ev : SQLEvent) : option SQLEvent :=
  match a with Wait => Some ev | Return _ _ => None end.

Definition fq_spec (s : bounded SQLEvent * option SQLEvent) (o : fq_op)
    : option (answer SQLEvent) * (bounded SQLEvent * option SQLEvent) :=
  let '(b, parked) := s in
  match o, parked with
  | CallEnqueue d ev, None =>
      let '(a, b') := put_spec d b (stored ev) in (Some (Enqueued a), (b', waiting a (stored ev)))
  | WakeProducer d, Some ev =>
      let '(a, b') := put_spec d b ev in (Some (Enqueued a), (b', waiting a ev))
  | CallDequeue _ c, _ => let '(a, b') := spec_op b (OpDequeue c) in (Some a, (b', parked))
  | CallClose, _ => (Some Closed, ((spec_op b OpClose).2, parked))
  | _, _ => (None, s)
  end.

Fixpoint fq_specs (s : bounded SQLEvent * option SQLEvent) (os : list fq_op)
    : list (option (answer SQLEvent)) * (bounded SQLEvent * option SQLEvent) :=
  match os with
  | [] => ([], s)
  | o :: os => let '(a, s1) := fq_spec s o in let '(as_, s2) := fq_specs s1 os in (a :: as_, s2)
  end.

(** ** The invariant

    Between the read cursor and the write cursor the file is the frames of
    payloads that decode to the waiting events; past the write cursor there may
    be the remains of a failed write or of a failed truncation. *)
Definition frame_of (p : list Z) : list Z := be_bytes 4 (zlen p) ++ p.

Definition payload_of (p : list Z) (ev : SQLEvent) : Prop :=
  decodeBinary p = Ok ev ∧ zlen p ≤ maxFramePayload.

Definition log_holds (q : fileQueue) (l : list SQLEvent) : Prop :=
  ∃ file ps, f q = Some file ∧ 0 ≤ readOff q ≤ writeOff q ∧ writeOff q ≤ zlen file ∧
    drop (Z.to_nat (readOff q)) (take (Z.to_nat (writeOff q)) file) = concat (frame_of <$> ps) ∧
    Forall2 payload_of ps l.

Definition fq_holds (q : fileQueue) (l : list SQLEvent) : Prop :=
  0 < fq_capacity q ∧ fq_count q = zlen l ∧ zlen l ≤ fq_capacity q ∧
  (log_holds q l ∨ (l = [] ∧ fq_closed q = true)).

(** Writing at the cursor keeps what is before it, whatever lands after. *)
Lemma write_split off b file :
  0 ≤ off ≤ zlen file →
  write_at off b file = (take (Z.to_nat off) file ++ b) ++ drop (Z.to_nat off + length b) file.
Proof.
  unfold write_at, zlen. intros H. replace (Z.to_nat off - length file)%nat with O by lia.
  cbn [replicate]. by rewrite app_nil_r, app_assoc.
Qed.

Lemma zlen_take_to off (file : list Z) : 0 ≤ off ≤ zlen file → zlen (take (Z.to_nat off) file) = off.
Proof. unfold zlen. intros. rewrite length_take. lia. Qed.

Lemma write_bound off b file : 0 ≤ off ≤ zlen file → off + zlen b ≤ zlen (write_at off b file).
Proof.
  intros H. rewrite write_split, !zlen_app, zlen_take_to by done.
  pose proof (zlen_nonneg (drop (Z.to_nat off + length b) file)). lia.
Qed.

Lemma take_write off b file :
  0 ≤ off ≤ zlen file →
  take (Z.to_nat off) (write_at off b file) = take (Z.to_nat off) file ∧
  take (Z.to_nat (off + zlen b)) (write_at off b file) = take (Z.to_nat off) file ++ b.
Proof.
  intros H. rewrite write_split by done. pose proof (zlen_take_to _ _ H) as Ht. unfold zlen in Ht. split.
  - rewrite <- app_assoc, take_app_le, take_ge by lia. done.
  - rewrite take_app_le, take_ge; [done|..]; rewrite length_app; unfold zlen; lia.
Qed.

Lemma read_live w off n file b :
  0 ≤ w ≤ zlen file → read_at off n (Some (take (Z.to_nat w) file)) = Some b → 0 ≤ n →
  read_at off n (Some file) = Some b.
Proof.
  unfold read_at. intros Hw H Hn. rewrite zlen_take_to in H by done. repeat case_match; simplify_eq; zb.
  - f_equal. unfold slice. rewrite skipn_firstn_comm, take_take. f_equal. lia.
  - lia.
Qed.

Lemma read_suffix off n file b rest :
  0 ≤ off ≤ zlen file → drop (Z.to_nat off) file = b ++ rest → n = zlen b →
  read_at off n (Some file) = Some b.
Proof.
  intros Hoff Hd ->. unfold read_at.
  assert (off + zlen b ≤ zlen file).
  { apply (f_equal length) in Hd. rewrite length_drop, length_app in Hd. unfold zlen in *. lia. }
  rewrite !(proj2 (Z.leb_le _ _)) by lia. simpl. f_equal. unfold slice. rewrite Hd.
  unfold zlen. by rewrite Nat2Z.id, take_app_length.
Qed.

Lemma drop_suffix off (file b rest : list Z) :
  0 ≤ off ≤ zlen file → drop (Z.to_nat off) file = b ++ rest →
  drop (Z.to_nat (off + zlen b)) file = rest ∧ off + zlen b ≤ zlen file.
Proof.
  intros Hoff Hd. pose proof (zlen_nonneg b). split.
  - rewrite Z2Nat.inj_add, <- drop_drop, Hd by lia. unfold zlen. by rewrite Nat2Z.id, drop_app_length.
  - apply (f_equal length) in Hd. rewrite length_drop, length_app in Hd. unfold zlen in *. lia.
Qed.

(** The oldest frame as [readLenAt] and [ReadAt] see it. *)
Lemma oldest_frame q file p rest :
  f q = Some file → 0 ≤ readOff q ≤ writeOff q → writeOff q ≤ zlen file → zlen p < 2 ^ 32 →
  drop (Z.to_nat (readOff q)) (take (Z.to_nat (writeOff q)) file) = frame_of p ++ rest →
  readLenAt (readOff q) q = Some (zlen p) ∧
  read_at (readOff q + frameHeaderLen) (zlen p) (f q) = Some p ∧
  drop (Z.to_nat (readOff q + (frameHeaderLen + zlen p))) (take (Z.to_nat (writeOff q)) file) = rest ∧
  readOff q + (frameHeaderLen + zlen p) ≤ writeOff q.
Proof.
  intros Hf Hoff Hw Hp Hd. unfold frame_of in Hd. rewrite <- app_assoc in Hd. pose proof (zlen_nonneg p).
  assert (zlen (be_bytes 4 (zlen p)) = frameHeaderLen) as Hh by apply zlen_be_bytes.
  assert (0 ≤ writeOff q ≤ zlen file) as Hwr by lia.
  pose proof (zlen_take_to (writeOff q) file Hwr) as Hl.
  set (live := take (Z.to_nat (writeOff q)) file) in *. rewrite <- Hl in Hoff.
  destruct (drop_suffix _ _ _ _ Hoff Hd) as [Hd' Hl']. rewrite Hh in Hd', Hl'. rewrite Hf.
  split.
  { unfold readLenAt. rewrite Hf.
    rewrite (read_live (writeOff q) _ _ _ _ Hwr (read_suffix _ _ _ _ _ Hoff Hd (eq_sym Hh)))
      by (unfold frameHeaderLen; lia).
    simpl. f_equal. apply be_value_bytes. change (256 ^ Z.of_nat 4) with (2 ^ 32). lia. }
  assert (0 ≤ readOff q + frameHeaderLen ≤ zlen live) as Hoff' by (unfold frameHeaderLen in *; lia).
  split; [apply (read_live (writeOff q)); [done|by apply (read_suffix _ _ _ _ _ Hoff' Hd')|done]|].
  destruct (drop_suffix _ _ _ _ Hoff' Hd') as [Hd'' Hl'']. rewrite Z.add_assoc, <- Hl. done.
Qed.

Lemma compact_holds d q l :
  log_holds q l → fq_count q = zlen l → fq_closed q = false ∨ l ≠ [] →
  log_holds (compactIfDrained d q) l.
Proof.
  intros Hh Hc Hne. unfold compactIfDrained. rewrite Hc. destruct l as [|ev l].
  - rewrite (@zlen_nil SQLEvent). simpl. destruct Hne as [->|?]; [|done].
    destruct Hh as (file & ps & -> & _ & _ & _ & Hps).
    exists (if d_truncates d then [] else file), []. simpl.
    split_and!; [by destruct (d_truncates d)|lia|lia|apply zlen_nonneg|done|constructor].
  - by rewrite (proj2 (Z.eqb_neq _ _)) by (rewrite zlen_cons; pose proof (zlen_nonneg l); lia).
Qed.

Lemma compact_fields d q :
  fq_capacity (compactIfDrained d q) = fq_capacity q ∧ fq_overflow (compactIfDrained d q) = fq_overflow q ∧
  fq_closed (compactIfDrained d q) = fq_closed q ∧ fq_count (compactIfDrained d q) = fq_count q ∧
  encodeArrays (compactIfDrained d q) = encodeArrays q.
Proof. unfold compactIfDrained. destruct (fq_count q =? 0), (fq_closed q) eqn:?; simpl; auto. Qed.

Lemma skip_holds q p ev l file ps :
  f q = Some file → 0 ≤ readOff q ≤ writeOff q → writeOff q ≤ zlen file →
  drop (Z.to_nat (readOff q)) (take (Z.to_nat (writeOff q)) file) = concat (frame_of <$> (p :: ps)) →
  Forall2 payload_of (p :: ps) (ev :: l) →
  readLenAt (readOff q) q = Some (zlen p) ∧
  read_at (readOff q + frameHeaderLen) (zlen p) (f q) = Some p ∧ payload_of p ev ∧
  log_holds (skip (frameHeaderLen + zlen p) q) l.
Proof.
  intros Hf Hoff Hw Hd Hps. apply Forall2_cons in Hps as [Hp Hps].
  rewrite fmap_cons in Hd. cbn [concat] in Hd. pose proof (zlen_nonneg p).
  assert (zlen p < 2 ^ 32) as Hlt.
  { destruct Hp as [_ Hp]. change maxFramePayload with 67108864 in Hp. lia. }
  destruct (oldest_frame q file p _ Hf Hoff Hw Hlt Hd) as (H1 & H2 & H3 & H4).
  split_and!; [done|done|done|]. exists file, ps. unfold skip. simpl.
  split_and!; try done; unfold frameHeaderLen in *; lia.
Qed.

(** ** Refinement to the bounded list *)
Definition fq_rel (q : fileQueue) (b : bounded SQLEvent) : Prop :=
  fq_holds q (b_list b) ∧ fq_capacity q = b_cap b ∧ fq_overflow q = b_policy b ∧
  fq_closed q = b_closed b.

(** Events whose record is within the limit [Dequeue] accepts. *)
Definition fq_fits (ev : SQLEvent) : Prop :=
  wf_event ev ∧ zlen (encodeBinary ev) ≤ maxFramePayload.

Lemma fits_payload ev : fq_fits ev → payload_of (encodeBinary ev) (stored ev).
Proof. intros [Hwf Hl]. split; [by apply decode_encode|done]. Qed.

Lemma open_log q l : fq_holds q l → fq_closed q = false → log_holds q l.
Proof. intros (_ & _ & _ & [Hh|[_ Hc]]) Hcl; [done|congruence]. Qed.

(** Removing the oldest record. *)
Lemma pop_log d q ev l :
  fq_holds q (ev :: l) →
  ∃ p, readLenAt (readOff q) q = Some (zlen p) ∧
    read_at (readOff q + frameHeaderLen) (zlen p) (f q) = Some p ∧ payload_of p ev ∧
    fq_holds (compactIfDrained d (skip (frameHeaderLen + zlen p) q)) l.
Proof.
  intros (Hcap & Hc & Hb & [Hh|[? _]]); [|done].
  destruct Hh as (file & ps & Hf & Hoff & Hw & Hd & Hps).
  destruct ps as [|p ps]; [by apply Forall2_nil_cons_inv in Hps|].
  destruct (skip_holds q p ev l file ps Hf Hoff Hw Hd Hps) as (H1 & H2 & H3 & H4).
  exists p. split_and!; [done|done|done|]. rewrite zlen_cons in Hc, Hb.
  destruct (compact_fields d (skip (frameHeaderLen + zlen p) q)) as (C1 & C2 & C3 & C4 & _).
  unfold fq_holds. rewrite C1, C3, C4. cbn [skip fq_capacity fq_count fq_closed].
  split_and!; [done|lia|lia|].
  destruct (fq_closed q) eqn:Hcl; [destruct l as [|ev' l]; [by right|]|];
    left; apply compact_holds; simpl; try done; try lia; auto.
Qed.

(** Appending a record that decodes to [ev]: it is there, or the log is as it was. *)
Lemma append_holds d p dropped q l ev :
  payload_of (payload_bytes (encodeArrays q) p) ev → log_holds q l → 0 < fq_capacity q →
  fq_count q = zlen l → zlen l < fq_capacity q →
  ∃ q', append d p dropped q =
      (match d_short d with None => Return dropped true | Some _ => Return true false end, q') ∧
    fq_holds q' (match d_short d with None => l ++ [ev] | Some _ => l end) ∧
    fq_capacity q' = fq_capacity q ∧ fq_overflow q' = fq_overflow q ∧ fq_closed q' = fq_closed q ∧
    encodeArrays q' = encodeArrays q.
Proof.
  intros Hp (file & ps & Hf & Hoff & Hw & Hd & Hps) Hcap Hc Hl. unfold append, writeRecord. rewrite Hf.
  set (b := payload_bytes (encodeArrays q) p) in *. change (be_bytes 4 (zlen b) ++ b) with (frame_of b).
  destruct (d_short d) as [n|]; (eexists; split; [done|]); (split; [|done]); unfold fq_holds; simpl;
    (split_and!; [done|..]).
  - done.
  - lia.
  - left. exists (write_at (writeOff q) (take n (frame_of b)) file), ps. simpl.
    destruct (take_write (writeOff q) (take n (frame_of b)) file) as [-> _]; [lia|].
    pose proof (write_bound (writeOff q) (take n (frame_of b)) file ltac:(lia)).
    pose proof (zlen_nonneg (take n (frame_of b))). split_and!; try done; lia.
  - rewrite zlen_app, zlen_cons, (@zlen_nil SQLEvent). lia.
  - rewrite zlen_app, zlen_cons, (@zlen_nil SQLEvent). lia.
  - left. exists (write_at (writeOff q) (frame_of b) file), (ps ++ [b]). simpl.
    destruct (take_write (writeOff q) (frame_of b) file) as [_ ->]; [lia|].
    pose proof (write_bound (writeOff q) (frame_of b) file ltac:(lia)).
    pose proof (zlen_nonneg (frame_of b)). split_and!; [done|lia|lia|lia| |].
    + rewrite drop_app_le by (pose proof (zlen_take_to (writeOff q) file ltac:(lia)); unfold zlen in *; lia).
      rewrite Hd, fmap_app, concat_app. simpl. by rewrite app_nil_r.
    + apply Forall2_app; [done|]. by constructor.
Qed.

Lemma encode_into_bytes ev arrays :
  payload_bytes (encode_into ev arrays).2 (encode_into ev arrays).1 = encodeBinary ev.
Proof.
  unfold encode_into, payload_bytes. generalize (encodeBinary ev). intros b.
  assert (∀ z, take (length b) (default [] ((arrays ++ [b ++ z]) !! length arrays)) = b) as Hfresh.
  { intros z. rewrite lookup_app_r, Nat.sub_diag by lia. simpl. apply take_app_length. }
  destruct (arrays !! _) as [a|] eqn:Ha; [|apply Hfresh].
  destruct (zlen a >=? _); [|apply Hfresh]. cbn [fst snd p_array p_len].
  rewrite list_lookup_insert_eq by (by eapply lookup_lt_Some). simpl. apply take_app_length.
Qed.

Lemma put_room d b ev :
  b_closed b = false → zlen (b_list b) < b_cap b →
  put_spec d b ev =
    (match d_short d with None => Return false true | Some _ => Return true false end,
     Bounded (b_cap b) (b_policy b) false
       (match d_short d with None => b_list b ++ [ev] | Some _ => b_list b end)).
Proof.
  intros Hc Hl. unfold put_spec, enqueue_spec. rewrite Hc, (proj2 (Z.ltb_lt _ _) Hl).
  by destruct (d_short d).
Qed.

Lemma fq_resume_refines d p q b ev :
  fq_rel q b → b_policy b = Block → payload_of (payload_bytes (encodeArrays q) p) ev →
  ∃ q', fq_resume d p q = ((put_spec d b ev).1, q') ∧ fq_rel q' (put_spec d b ev).2 ∧
    encodeArrays q' = encodeArrays q.
Proof.
  intros Hrel Hpol Hp. pose proof Hrel as (Hh & Hcap & Hov & Hcl). pose proof Hh as (Hpos & Hc & Hb & _).
  unfold fq_resume. rewrite Hcl. destruct (b_closed b) eqn:Hbc.
  { rewrite andb_false_r. exists q. unfold put_spec, enqueue_spec. rewrite Hbc.
    destruct (d_short d); (split; [done|split; [|done]]); by split_and!. }
  rewrite andb_true_r. destruct (fq_count q =? fq_capacity q) eqn:Hfull; zb.
  { exists q. unfold put_spec, enqueue_spec. rewrite Hbc, Hpol, (proj2 (Z.ltb_ge _ _)) by lia.
    destruct (d_short d); (split; [done|split; [|done]]); split_and!; cbn; try done; congruence. }
  rewrite put_room by (congruence || lia).
  destruct (append_holds d p false q (b_list b) ev Hp) as (q' & -> & Hh' & C1 & C2 & C3 & C4);
    [apply open_log; [done|congruence]|lia..|].
  exists q'. split; [done|]. split; [|done]. unfold fq_rel. simpl. split_and!; [done|congruence..].
Qed.

Lemma fq_enqueue_refines d q b ev :
  fq_rel q b → fq_fits ev →
  ∃ p q', fq_Enqueue d ev q = ((put_spec d b (stored ev)).1, p, q') ∧
    fq_rel q' (put_spec d b (stored ev)).2 ∧
    ((put_spec d b (stored ev)).1 = Wait →
     b_policy b = Block ∧ payload_bytes (encodeArrays q') p = encodeBinary ev).
Proof.
  intros Hrel Hfit. pose proof Hrel as (Hh & Hcap & Hp & Hcl). pose proof Hh as (Hpos & Hc & Hb & _).
  unfold fq_Enqueue. rewrite Hcl. destruct (b_closed b) eqn:Hbc.
  { eexists _, q. unfold put_spec, enqueue_spec. rewrite Hbc.
    destruct (d_short d); (split; [reflexivity|split; [by split_and!|done]]). }
  pose proof (encode_into_bytes ev (encodeArrays q)) as Hbytes.
  destruct (encode_into ev (encodeArrays q)) as [p arrays]. cbn [fst snd] in Hbytes.
  set (q1 := with_arrays arrays q).
  assert (fq_rel q1 b) as Hrel1.
  { unfold fq_rel. rewrite Hbc. split; [|by split_and!]. destruct Hh as (? & ? & ? & Hlog).
    split; [done|]. split; [done|]. split; [done|].
    destruct Hlog as [Hlog|?]; [left; exact Hlog|by right]. }
  assert (payload_of (payload_bytes (encodeArrays q1) p) (stored ev)) as Hpay
    by (simpl; rewrite Hbytes; by apply fits_payload).
  cbn [q1 with_arrays fq_count fq_capacity fq_overflow]. fold q1. rewrite Hc, Hcap, Hp.
  pose proof Hrel1 as (Hh1 & _).
  destruct (zlen (b_list b) <? b_cap b) eqn:Hl; zb.
  { destruct (append_holds d p false q1 (b_list b) (stored ev) Hpay) as (q' & -> & Hh' & C1 & C2 & C3 & C4);
      [apply open_log; [done|simpl; congruence]|simpl; lia..|].
    simpl in C1, C2, C3. exists p, q'. rewrite put_room by (congruence || lia). split; [done|].
    split; [|by destruct (d_short d)]. unfold fq_rel. cbn. split_and!; [done|congruence..]. }
  destruct (b_policy b) eqn:Hpol.
  - destruct (b_list b) as [|e l] eqn:Hbl; [rewrite (@zlen_nil SQLEvent) in *; lia|].
    destruct (pop_log d q1 e l Hh1) as (n & H1 & _ & _ & H4). unfold dropOldest. rewrite H1. cbn [mbind option_bind].
    destruct (compact_fields d (skip (frameHeaderLen + zlen n) q1)) as (C1 & C2 & C3 & C4 & C5).
    set (q2 := compactIfDrained d (skip (frameHeaderLen + zlen n) q1)) in *. pose proof H4 as (_ & Hc1 & _).
    simpl in C1, C2, C3, C4, C5. rewrite zlen_cons in *. pose proof (zlen_nonneg l).
    destruct (append_holds d p true q2 l (stored ev)) as (q' & -> & Hh' & D1 & D2 & D3 & D4);
      [by rewrite C5|apply open_log; [done|congruence]|lia|done|lia|].
    exists p, q'. unfold put_spec, enqueue_spec. rewrite Hbc, Hpol, Hbl, zlen_cons, (proj2 (Z.ltb_ge _ _)) by lia.
    destruct (d_short d); cbn; (split; [done|]); (split; [|done]); unfold fq_rel; cbn;
      (split_and!; [done|congruence..]).
  - exists p, q1. unfold put_spec, enqueue_spec. rewrite Hbc, Hpol, (proj2 (Z.ltb_ge _ _)) by lia.
    destruct (d_short d); (split; [done|]); (split; [|done]); split_and!; try done; cbn; congruence.
  - destruct (fq_resume_refines d p q1 b (stored ev) Hrel1 Hpol Hpay) as (q' & -> & Hr & Ha).
    exists p, q'. split; [done|]. split; [done|]. intros _. split; [done|]. by rewrite Ha.
Qed.

Lemma fq_dequeue_refines d q b c :
  fq_rel q b →
  let '(a, l) := dequeue_spec (b_closed b) c (b_list b) in
  ∃ q', fq_Dequeue d c q = Ok (a, q') ∧ fq_rel q' (Bounded (b_cap b) (b_policy b) (b_closed b) l) ∧
    encodeArrays q' = encodeArrays q.
Proof.
  intros (Hh & Hcap & Hp & Hcl). pose proof Hh as (Hpos & Hc & Hb & _). unfold fq_Dequeue. rewrite Hc, Hcl.
  destruct (b_list b) as [|ev l] eqn:Hl.
  - exists q. split; [|done]. rewrite (@zlen_nil SQLEvent). simpl.
    destruct (b_closed b), c; try done; simpl; by rewrite Hc.
  - destruct (pop_log d q ev l Hh) as (p & H1 & H2 & [H3 H3'] & H4). rewrite zlen_cons in *. pose proof (zlen_nonneg l).
    rewrite (proj2 (Z.eqb_neq (1 + zlen l) 0)) by lia. cbn [andb].
    replace (Z.to_nat (1 + zlen l)) with (S (Z.to_nat (zlen l))) by lia. cbn [dequeue_loop].
    rewrite Hc, (proj2 (Z.eqb_neq (1 + zlen l) 0)) by lia.
    rewrite H1, Z.gtb_ltb, (proj2 (Z.ltb_ge _ _)), H2, H3 by lia. cbn [mbind result_bind].
    destruct (compact_fields d (skip (frameHeaderLen + zlen p) q)) as (C1 & C2 & C3 & C4 & C5).
    simpl in C1, C2, C3, C4, C5.
    rewrite C4, Hc. replace (1 + zlen l - 1) with (zlen l) by lia.
    rewrite (proj2 (Z.eqb_neq (zlen l) (1 + zlen l))) by lia. eexists. split; [done|].
    split; [|done]. unfold fq_rel. simpl. split_and!; [done|congruence..].
Qed.

Lemma fq_close_refines q b :
  fq_rel q b → fq_rel (fq_Close q) (Bounded (b_cap b) (b_policy b) true (b_list b)) ∧
    encodeArrays (fq_Close q) = encodeArrays q.
Proof.
  intros (Hh & Hcap & Hp & Hcl). pose proof Hh as (Hpos & Hc & Hb & Hlog). unfold fq_Close.
  destruct (fq_closed q) eqn:Hq; [by split_and!|]. cbn [fq_count]. destruct (fq_count q =? 0) eqn:E; zb.
  - assert (b_list b = []) as Hn.
    { destruct (b_list b); [done|]. rewrite zlen_cons in Hc. pose proof (zlen_nonneg l). lia. }
    split; [|done]. unfold fq_rel, fq_holds. simpl. rewrite Hn in *. split_and!; try done. by right.
  - split; [|done]. unfold fq_rel, fq_holds. simpl. split_and!; try done.
    destruct Hlog as [Hlog|[Hn _]]; [left|by right; rewrite Hn].
    destruct Hlog as (file & ps & ?). by exists file, ps.
Qed.

(** What a waiting producer holds is still the record of its event. *)
Definition parked_rel (q : fileQueue) (b : bounded SQLEvent)
    (parked : option payload) (ev : option SQLEvent) : Prop :=
  match parked, ev with
  | None, None => True
  | Some p, Some ev => b_policy b = Block ∧ payload_of (payload_bytes (encodeArrays q) p) ev
  | _, _ => False
  end.

Definition fq_sim (s : fileQueue * option payload) (t : bounded SQLEvent * option SQLEvent) : Prop :=
  fq_rel s.1 t.1 ∧ parked_rel s.1 t.1 s.2 t.2.

Lemma put_policy d b ev : b_policy (put_spec d b ev).2 = b_policy b.
Proof. unfold put_spec. destruct (enqueue_spec _ _ _ _ _) as [[? []|] ?], (d_short d); done. Qed.

Definition fq_op_fits (o : fq_op) : Prop :=
  match o with CallEnqueue _ ev => fq_fits ev | _ => True end.

Lemma fq_run_refines s t o :
  fq_sim s t → fq_op_fits o →
  ∃ s', fq_run s o = Ok ((fq_spec t o).1, s') ∧ fq_sim s' (fq_spec t o).2.
Proof.
  destruct s as [q parked], t as [b ev]. intros [Hrel Hpk] Hfit. cbn [fst snd] in *.
  destruct o as [d ev'|d|d c|]; cbn [fq_run fq_spec].
  - destruct parked as [p|], ev as [ev|]; try done; [by eexists|].
    destruct (fq_enqueue_refines d q b ev' Hrel Hfit) as (p & q' & -> & Hr & Hw).
    pose proof (put_policy d b (stored ev')) as Hpol. destruct (put_spec d b (stored ev')) as [a b'].
    cbn [fst snd] in *. eexists. split; [done|]. split; [done|].
    destruct a as [|]; [done|]. destruct (Hw eq_refl) as [H1 H2]. cbn.
    rewrite Hpol, H2. split; [done|]. by apply fits_payload.
  - destruct parked as [p|], ev as [ev|]; try done; [|by eexists]. destruct Hpk as [Hblk Hpk].
    destruct (fq_resume_refines d p q b ev Hrel Hblk Hpk) as (q' & -> & Hr & Ha).
    pose proof (put_policy d b ev) as Hpol. destruct (put_spec d b ev) as [a b'].
    cbn [fst snd] in *. eexists. split; [done|]. split; [done|].
    destruct a as [|]; [done|]. cbn. rewrite Hpol, Ha. done.
  - pose proof (fq_dequeue_refines d q b c Hrel) as H. cbn [spec_op].
    destruct (dequeue_spec _ _ _) as [a l]. destruct H as (q' & -> & Hr & Ha).
    cbn. destruct parked, ev; try done; (eexists; split; [done|]); (split; [done|]); cbn; rewrite ?Ha; done.
  - destruct (fq_close_refines q b Hrel) as [Hr Ha].
    destruct parked, ev; try done; (eexists; split; [done|]); (split; [done|]); cbn; rewrite ?Ha; done.
Qed.

Lemma fq_runs_refine os s t :
  fq_sim s t → Forall fq_op_fits os →
  ∃ s', fq_runs s os = Ok ((fq_specs t os).1, s') ∧ fq_sim s' (fq_specs t os).2.
Proof.
  intros Hs Hf. revert s t Hs. induction Hf as [|o os Ho _ IH]; intros s t Hs; [by exists s|].
  cbn [fq_runs fq_specs]. destruct (fq_run_refines s t o Hs Ho) as (s1 & -> & H1). cbn.
  destruct (fq_spec t o) as [a t1]. destruct (IH s1 t1 H1) as (s2 & -> & H2). cbn.
  cbn in H2. destruct (fq_specs t1 os) as [as' t2]. by exists s2.
Qed.

Lemma fq_specs_cap os t : b_cap (fq_specs t os).2.1 = b_cap t.1.
Proof.
  revert t. induction os as [|o os IH]; intros t; [done|]. cbn [fq_specs].
  assert (b_cap (fq_spec t o).2.1 = b_cap t.1) as H.
  { destruct t as [b [ev|]], o as [d ev'|d|d c|]; cbn; try done;
      unfold put_spec; first [destruct (enqueue_spec _ _ _ _ _) as [[? []|] ?]; by destruct (d_short d)
                             |by destruct (dequeue_spec _ _ _)]. }
  destruct (fq_spec t o) as [a t1]. specialize (IH t1). destruct (fq_specs t1 os). cbn in *. congruence.
Qed.

Lemma fq_sim_new cap p : 0 < cap → fq_sim (newFileQueue cap p, None) (Bounded cap p false [], None).
Proof.
  intros Hcap. unfold fq_sim, fq_rel, fq_holds. cbn. split; [|done].
  split_and!; try done; [rewrite (@zlen_nil SQLEvent); lia|]. left. exists [], []. by split_and!.
Qed.

(** On a disk that does not fail, the queue is a backend of the interface. *)
Definition fq_call (q : fileQueue) (o : op SQLEvent) : result panic (answer SQLEvent * fileQueue) :=
  match o with
  | OpEnqueue ev => let '(a, _, q') := fq_Enqueue healthy ev q in Ok (Enqueued a, q')
  | OpDequeue c => '(a, q') ← fq_Dequeue healthy c q; Ok (Dequeued a, q')
  | OpClose => Ok (Closed, fq_Close q)
  end.

Lemma fq_call_refines q b o :
  fq_rel q b → op_fits fq_fits o →
  ∃ q', fq_call q o = Ok ((spec_op b (store_op stored o)).1, q') ∧
        fq_rel q' (spec_op b (store_op stored o)).2.
Proof.
  intros Hrel Hfit. destruct o as [ev|c|]; simpl.
  - destruct (fq_enqueue_refines healthy q b ev Hrel Hfit) as (p & q' & -> & H & _).
    unfold put_spec in *. destruct (enqueue_spec _ _ _ _ _) as [a l]. by exists q'.
  - pose proof (fq_dequeue_refines healthy q b c Hrel) as H. destruct (dequeue_spec _ _ _) as [a l].
    destruct H as (q' & -> & ? & _). by exists q'.
  - eexists. split; [done|]. by apply fq_close_refines.
Qed.

#[export] Instance file_queue : QueueImpl fileQueue SQLEvent := {|
  q_run := fq_call; q_fits := fq_fits; q_store := stored; q_rel := fq_rel;
  q_refines := fq_call_refines |}.


(** The array an encoding went to is the one of [encodeBuf], large enough for
    anything of the same estimated size. *)
Lemma encode_into_array ev arrays :
  let '(p, arrays') := encode_into ev arrays in
  p_array p = pred (length arrays') ∧ p_len p = length (encodeBinary ev) ∧
  ∃ a, arrays' !! p_array p = Some a ∧ estimateEventSize ev ≤ zlen a.
Proof.
  unfold encode_into. generalize (encodeBinary ev), (estimateEventSize ev). intros b size.
  assert (size ≤ zlen (b ++ replicate (Z.to_nat size - length b) 0)) as Hfresh.
  { unfold zlen. rewrite length_app, length_replicate. lia. }
  assert (pred (length (arrays ++ [b ++ replicate (Z.to_nat size - length b) 0])) = length arrays) as Hlen.
  { rewrite length_app. simpl. lia. }
  assert ((arrays ++ [b ++ replicate (Z.to_nat size - length b) 0]) !! length arrays =
    Some (b ++ replicate (Z.to_nat size - length b) 0)) as Hat by (by apply list_lookup_middle).
  destruct (arrays !! _) as [a|] eqn:Ha; [|cbn [p_array p_len]; rewrite Hlen, Hat; eauto].
  destruct (zlen a >=? size) eqn:Hs; [|cbn [p_array p_len]; rewrite Hlen, Hat; eauto].
  cbn [p_array p_len]. rewrite length_insert. split_and!; [done..|].
  rewrite list_lookup_insert_eq by (by eapply lookup_lt_Some). eexists. split; [done|].
  apply Z.geb_le in Hs. unfold zlen in *. rewrite length_app, length_drop. lia.
Qed.

Lemma encode_into_reuses ev1 ev2 arrays :
  estimateEventSize ev2 ≤ estimateEventSize ev1 →
  length (encodeBinary ev1) = length (encodeBinary ev2) →
  let '(p1, arrays1) := encode_into ev1 arrays in
  payload_bytes (encode_into ev2 arrays1).2 p1 = encodeBinary ev2.
Proof.
  intros Hsize Hlen. pose proof (encode_into_array ev1 arrays) as H.
  destruct (encode_into ev1 arrays) as [p1 arrays1]. destruct H as (Hi & Hn & a & Ha & Hs).
  pose proof (encode_into_bytes ev2 arrays1) as Hb. unfold encode_into in *. rewrite Hi in Ha. rewrite Ha in *.
  rewrite Z.geb_leb, (proj2 (Z.leb_le _ _)) in * by lia. cbn [fst snd] in *.
  unfold payload_bytes in *. cbn [p_array p_len] in Hb. by rewrite Hi, Hn, Hlen.
Qed.

Lemma full_waits d ev q :
  fq_closed q = false → fq_overflow q = Block → fq_count q = fq_capacity q →
  fq_Enqueue d ev q =
    (Wait, (encode_into ev (encodeArrays q)).1, with_arrays (encode_into ev (encodeArrays q)).2 q).
Proof.
  intros Hc Ho Hf. unfold fq_Enqueue, fq_resume. rewrite Hc. destruct (encode_into _ _) as [p arrays].
  cbn. by rewrite Hf, Z.ltb_irrefl, Ho, Z.eqb_refl, Hc.
Qed.

(** A producer that waits does not keep its record: the payload is a slice of
    [encodeBuf], so when a second producer calls [Enqueue] while the first waits,
    with an event of the same encoded length and no larger an estimate, the
    payload of the first becomes the record of the second.  Woken, it writes the
    second's event; its own is written nowhere. *)
Theorem file_parked_record_replaced (d1 d2 : disk) (ev1 ev2 : SQLEvent) (q : fileQueue) :
  fq_closed q = false → fq_overflow q = Block → fq_count q = fq_capacity q →
  estimateEventSize ev2 ≤ estimateEventSize ev1 →
  length (encodeBinary ev1) = length (encodeBinary ev2) →
  ∃ p1 p2 q1 q2,
    fq_Enqueue d1 ev1 q = (Wait, p1, q1) ∧ fq_Enqueue d2 ev2 q1 = (Wait, p2, q2) ∧
    payload_bytes (encodeArrays q1) p1 = encodeBinary ev1 ∧
    payload_bytes (encodeArrays q2) p1 = encodeBinary ev2.
Proof.
  intros Hc Ho Hf Hs Hl. pose proof (encode_into_reuses ev1 ev2 (encodeArrays q) Hs Hl) as Hr.
  pose proof (encode_into_bytes ev1 (encodeArrays q)) as Hb.
  rewrite (full_waits d1) by done. destruct (encode_into ev1 (encodeArrays q)) as [p1 arrays1].
  cbn [fst snd] in *. do 4 eexists. split; [done|].
  rewrite (full_waits d2) by done. cbn [encodeArrays with_arrays]. split; [done|]. by split.
Qed.

(** A record over 64 MiB ends the replay: [Enqueue] writes it and reports it
    stored, but [Dequeue] takes its length for corruption, skips it and, finding
    nothing else, returns ok=false on a queue that is neither closed nor
    cancelled - which the dispatcher takes for the end of the stream. *)
Theorem file_oversized_ends_stream (cap : Z) (p : OverflowPolicy) (ev : SQLEvent) :
  0 < cap → maxFramePayload < zlen (encodeBinary ev) < 2 ^ 32 →
  ∃ p1 q1 q2, fq_Enqueue healthy ev (newFileQueue cap p) = (Return false true, p1, q1) ∧
    fq_Dequeue healthy false q1 = Ok (Return None true, q2) ∧
    fq_closed q1 = false ∧ fq_Depth q1 = 1 ∧ fq_Depth q2 = 0.
Proof.
  intros Hcap Hl. unfold fq_Enqueue. cbn [newFileQueue fq_closed encodeArrays].
  pose proof (encode_into_bytes ev []) as Hb. destruct (encode_into ev []) as [pl arrays].
  cbn [fst snd] in Hb. cbn [with_arrays newFileQueue fq_count fq_capacity]. rewrite (proj2 (Z.ltb_lt _ _) Hcap).
  unfold append, writeRecord. cbn [with_arrays f encodeArrays d_short healthy]. rewrite Hb.
  set (q := FileQueue (Some (write_at 0 (frame_of (encodeBinary ev)) [])) cap p false
    (0 + zlen (frame_of (encodeBinary ev))) 0 1 arrays).
  exists pl, q, (skip (frameHeaderLen + zlen (encodeBinary ev)) q). split; [done|].
  assert (take (Z.to_nat (writeOff q)) (write_at 0 (frame_of (encodeBinary ev)) []) =
    frame_of (encodeBinary ev)) as Hlive by (by apply (take_write 0 (frame_of (encodeBinary ev)) [])).
  pose proof (zlen_nonneg (frame_of (encodeBinary ev))).
  destruct (oldest_frame q (write_at 0 (frame_of (encodeBinary ev)) []) (encodeBinary ev) [])
    as (H1 & _ & _ & _).
  - done.
  - split; [done|apply zlen_nonneg].
  - apply (write_bound 0 (frame_of (encodeBinary ev)) []). by rewrite (@zlen_nil Z).
  - lia.
  - by rewrite Hlive, app_nil_r.
  - unfold fq_Dequeue. change (Z.to_nat (fq_count q)) with 1%nat. cbn [dequeue_loop].
    change (fq_count q =? 0) with false. cbv iota. cbn [andb]. rewrite H1.
    rewrite Z.gtb_ltb, (proj2 (Z.ltb_lt _ _)) by lia. by repeat split.
Qed.

(** ** Concrete runs *)
Module FileDemo.
(** An event with [n] blanks as its statement. *)
Definition big (n : Z) : SQLEvent :=
  SqlEvent (MkConnID AddrZero 0 AddrZero 0) (replicate (Z.to_nat n) 32) 0 0 0 false [] [] [] 0 [].

Lemma zlen_big n : 0 ≤ n → zlen (encodeBinary (big n)) = 87 + n.
Proof.
  intros Hn. unfold encodeBinary, encode_addr, encode_bytes. cbn [big Conn SrcIP DstIP SQL StmtName Params
    CopyData Extended SrcPort DstPort Timestamp TxID Seq SourceExecTime].
  rewrite !zlen_app, !zlen_le_bytes. unfold zlen. rewrite !length_replicate. simpl length. lia.
Qed.
End FileDemo.
Import FileDemo.

Lemma file_oversized_ends_stream_witness :
  ∃ p1 q1 q2, fq_Enqueue healthy (big 67108864) (newFileQueue 10 Block) = (Return false true, p1, q1) ∧
    fq_Dequeue healthy false q1 = Ok (Return None true, q2).
Proof.
  destruct (file_oversized_ends_stream 10 Block (big 67108864)) as (p1 & q1 & q2 & H1 & H2 & _).
  - reflexivity.
  - rewrite zlen_big by discriminate. split; reflexivity.
  - exists p1, q1, q2. split; [exact H1|exact H2].
Defined.

(** A queue of one slot under the block policy: a write fails after seven bytes,
    the next succeeds, the third event waits, a dequeue on a disk that cannot
    truncate makes room, and the producer, woken, writes the event it held. *)
Definition demo_ops : list fq_op :=
  [CallEnqueue (Disk (Some 7%nat) true) (big 3); CallEnqueue healthy CodecDemo.ev;
   CallEnqueue healthy (big 5); CallDequeue (Disk None false) false; WakeProducer healthy;
   CallDequeue healthy false].

