(* ===== verification/Messages.v ===== *)
(** * Client messages (src/pkg/protocol/eventbuilder.go, bindcorrelator.go)

    Decoding of the payloads of Query, Parse and Bind messages, and the
    correlation of Bind with the statement Parse declared on the same
    connection.  Strings are their bytes. *)
From S2P Require Import Prelude Core.

(** ** Primitives (bindcorrelator.go) *)

(** The string before the first NUL and the bytes after it. *)
Fixpoint readCString (buf : list Z) : option (list Z * list Z) :=
  match buf with
  | [] => None
  | b :: buf => if b =? 0 then Some ([], buf) else
      '(s, rest) ← readCString buf; Some (b :: s, rest)
  end.

Definition readInt16 (buf : list Z) : option (Z * list Z) :=
  if zlen buf <? 2 then None else Some (be_value (slice 0 2 buf), drop 2 buf).

Definition readInt32 (buf : list Z) : option (Z * list Z) :=
  if zlen buf <? 4 then None else Some (signed 32 (be_value (slice 0 4 buf)), drop 4 buf).

(** ** Bind *)
Fixpoint read_formats (n : nat) (p : list Z) : option (list Z * list Z) :=
  match n with
  | O => Some ([], p)
  | S n => '(fc, p) ← readInt16 p; '(fs, p) ← read_formats n p; Some (signed 16 fc :: fs, p)
  end.

(** [None] is a NULL value. *)
Definition read_value (p : list Z) : option (option (list Z) * list Z) :=
  '(length, p) ← readInt32 p;
  if length <? 0 then Some (None, p)
  else if length >? zlen p then None
  else Some (Some (slice 0 length p), drop (Z.to_nat length) p).

Fixpoint read_values (n : nat) (p : list Z) : option (list (option (list Z)) * list Z) :=
  match n with
  | O => Some ([], p)
  | S n => '(v, p) ← read_value p; '(vs, p) ← read_values n p; Some (v :: vs, p)
  end.

Definition maxParams : Z := 10000.

Definition parseBindMessage (payload : list Z)
    : option (list Z * list Z * list (option (list Z))) :=
  '(_, p) ← readCString payload;
  '(srcStmt, p) ← readCString p;
  '(formatCount, p) ← readInt16 p;
  '(formats, p) ← read_formats (Z.to_nat formatCount) p;
  '(valueCount, p) ← readInt16 p;
  if valueCount >? maxParams then None else
  '(values, _) ← read_values (Z.to_nat valueCount) p;
  Some (srcStmt, formats, values).

(** The effective format of parameter [i]. *)
Definition format_of (formats : list Z) (i : nat) : Z :=
  match formats with
  | [] => 0
  | [fc] => fc
  | _ => default 0 (formats !! i)
  end.

Definition zipParams (oids : list Z) (formats : list Z) (values : list (option (list Z)))
    : list ParamInfo :=
  (λ i, Param (default 0 (oids !! i)) (default None (values !! i)) (format_of formats i)) <$>
  seq 0 (length oids `max` length values).

(** ** Parse and Query (eventbuilder.go) *)
Definition extractSimpleQuerySQL (payload : list Z) : list Z :=
  match last payload with
  | Some 0 => take (length payload - 1) payload
  | _ => payload
  end.

(** The OID loop: [n] more OIDs at most, as many as the bytes hold. *)
Fixpoint read_oids (n : nat) (rest : list Z) : list Z :=
  match n with
  | O => []
  | S n => if zlen rest <? 4 then [] else be_value (slice 0 4 rest) :: read_oids n (drop 4 rest)
  end.

Definition parseParseMessage (payload : list Z) : option (list Z * list Z * list Z) :=
  '(stmtName, rest) ← readCString payload;
  '(sql, rest) ← readCString rest;
  if zlen rest <? 2 then Some (stmtName, sql, []) else
  let n := be_value (slice 0 2 rest) in
  Some (stmtName, sql, read_oids (Z.to_nat n) (drop 2 rest)).

(** ** Round trips *)
Definition no_nul (s : list Z) : Prop := Forall (λ b, b ≠ 0) s.

Lemma readCString_app s rest : no_nul s → readCString (s ++ 0 :: rest) = Some (s, rest).
Proof.
  induction 1 as [|b s Hb _ IH]; [done|]. simpl. rewrite (proj2 (Z.eqb_neq _ _) Hb). by rewrite IH.
Qed.

Lemma readCString_spec buf s rest : readCString buf = Some (s, rest) → buf = s ++ 0 :: rest ∧ no_nul s.
Proof.
  revert s rest. induction buf as [|b buf IH]; intros s rest H; [done|]. simpl in H.
  destruct (b =? 0) eqn:E; zb; simplify_eq; [split; [done|by constructor]|].
  destruct (readCString buf) as [[s' r']|] eqn:Hr; simplify_eq/=.
  destruct (IH _ _ eq_refl) as [-> ?]. split; [done|by constructor].
Qed.

Lemma take_be n z rest :
  slice 0 (Z.of_nat n) (be_bytes n z ++ rest) = be_bytes n z ∧ drop n (be_bytes n z ++ rest) = rest.
Proof.
  split.
  - apply slice_app_l. by rewrite zlen_be_bytes.
  - apply drop_app_length'. by rewrite be_bytes_length.
Qed.

Lemma readInt16_app z rest :
  in_width 16 z → readInt16 (be_bytes 2 z ++ rest) = Some (z, rest).
Proof.
  intros Hz. unfold readInt16. rewrite zlen_app, zlen_be_bytes. pose proof (zlen_nonneg rest).
  rewrite (proj2 (Z.ltb_ge _ _)) by lia. destruct (take_be 2 z rest) as [H1 H2].
  rewrite H2. change 2 with (Z.of_nat 2). rewrite H1. by rewrite be_value_bytes.
Qed.

Lemma readInt32_app z rest :
  - 2 ^ 31 ≤ z < 2 ^ 31 → readInt32 (be_bytes 4 (wrap 32 z) ++ rest) = Some (z, rest).
Proof.
  intros Hz. unfold readInt32. rewrite zlen_app, zlen_be_bytes. pose proof (zlen_nonneg rest).
  rewrite (proj2 (Z.ltb_ge _ _)) by lia. destruct (take_be 4 (wrap 32 z) rest) as [H1 H2].
  rewrite H2. change 4 with (Z.of_nat 4) at 1. rewrite H1.
  rewrite be_value_bytes by apply (wrap_range 32 z ltac:(lia)).
  by rewrite (signed_wrap 32).
Qed.

(** The wire form of a Bind payload. *)
Definition encode_value (v : option (list Z)) : list Z :=
  match v with
  | None => be_bytes 4 (wrap 32 (-1))
  | Some b => be_bytes 4 (wrap 32 (zlen b)) ++ b
  end.

Definition encode_bind (portal stmt : list Z) (formats : list Z) (values : list (option (list Z)))
    (trailer : list Z) : list Z :=
  portal ++ 0 :: stmt ++ 0 ::
  be_bytes 2 (zlen formats) ++ concat ((λ fc, be_bytes 2 (wrap 16 fc)) <$> formats) ++
  be_bytes 2 (zlen values) ++ concat (encode_value <$> values) ++ trailer.

Lemma read_formats_app fs rest :
  Forall (λ fc, - 2 ^ 15 ≤ fc < 2 ^ 15) fs →
  read_formats (length fs) (concat ((λ fc, be_bytes 2 (wrap 16 fc)) <$> fs) ++ rest) = Some (fs, rest).
Proof.
  induction 1 as [|fc fs Hf _ IH]; [done|]. rewrite fmap_cons. cbn [concat length read_formats].
  rewrite <- app_assoc, readInt16_app by apply (wrap_range 16 fc ltac:(lia)). cbn [mbind option_bind].
  rewrite IH. cbn. by rewrite (signed_wrap 16).
Qed.

Lemma read_value_app v rest :
  zlen (default [] v) < 2 ^ 31 → read_value (encode_value v ++ rest) = Some (v, rest).
Proof.
  intros Hv. unfold read_value, encode_value. destruct v as [b|]; simpl in Hv.
  - pose proof (zlen_nonneg b). pose proof (zlen_nonneg rest).
    rewrite <- app_assoc, readInt32_app by lia. cbn [mbind option_bind].
    rewrite (proj2 (Z.ltb_ge _ _)), Z.gtb_ltb, (proj2 (Z.ltb_ge _ _)) by (rewrite ?zlen_app; lia).
    rewrite slice_app_l by done. unfold zlen. by rewrite Nat2Z.id, drop_app_length.
  - rewrite readInt32_app by lia. done.
Qed.

Lemma read_values_app vs rest :
  Forall (λ v, zlen (default [] v) < 2 ^ 31) vs →
  read_values (length vs) (concat (encode_value <$> vs) ++ rest) = Some (vs, rest).
Proof.
  induction 1 as [|v vs Hv _ IH]; [done|]. rewrite fmap_cons. cbn [concat length read_values].
  rewrite <- app_assoc, read_value_app by done. cbn [mbind option_bind]. by rewrite IH.
Qed.

Definition wf_bind (portal stmt : list Z) (formats : list Z) (values : list (option (list Z))) : Prop :=
  no_nul portal ∧ no_nul stmt ∧ zlen formats < 2 ^ 16 ∧
  Forall (λ fc, - 2 ^ 15 ≤ fc < 2 ^ 15) formats ∧ zlen values < 2 ^ 16 ∧
  Forall (λ v, zlen (default [] v) < 2 ^ 31) values.

Lemma parse_bind portal stmt formats values trailer :
  wf_bind portal stmt formats values →
  parseBindMessage (encode_bind portal stmt formats values trailer) =
  if zlen values >? maxParams then None else Some (stmt, formats, values).
Proof.
  intros (Hp & Hs & Hfl & Hf & Hvl & Hv). unfold parseBindMessage, encode_bind.
  rewrite readCString_app by done. cbn [mbind option_bind]. rewrite readCString_app by done.
  cbn [mbind option_bind]. pose proof (zlen_nonneg formats). pose proof (zlen_nonneg values).
  rewrite readInt16_app by (unfold in_width; lia). cbn [mbind option_bind].
  replace (Z.to_nat (zlen formats)) with (length formats) by (unfold zlen; lia).
  rewrite read_formats_app by done. cbn [mbind option_bind].
  rewrite readInt16_app by (unfold in_width; lia). cbn [mbind option_bind].
  destruct (zlen values >? maxParams); [done|].
  replace (Z.to_nat (zlen values)) with (length values) by (unfold zlen; lia).
  by rewrite read_values_app.
Qed.

(** The wire form of a Parse payload. *)
Definition encode_parse (stmt sql : list Z) (oids : list Z) : list Z :=
  stmt ++ 0 :: sql ++ 0 :: be_bytes 2 (zlen oids) ++ concat (be_bytes 4 <$> oids).

Lemma read_oids_app oids :
  Forall (in_width 32) oids → read_oids (length oids) (concat (be_bytes 4 <$> oids)) = oids.
Proof.
  induction 1 as [|o oids Ho _ IH]; [done|]. rewrite fmap_cons. cbn [concat length read_oids].
  rewrite zlen_app, zlen_be_bytes. pose proof (zlen_nonneg (concat (be_bytes 4 <$> oids))).
  rewrite (proj2 (Z.ltb_ge _ _)) by lia. destruct (take_be 4 o (concat (be_bytes 4 <$> oids))) as [H1 H2].
  rewrite H2, IH. change 4 with (Z.of_nat 4) at 1. rewrite H1. by rewrite be_value_bytes.
Qed.

(** Parse messages are decoded faithfully: for every statement name, query text
    and list of parameter types a client may send, the decoder returns exactly
    them. *)
Theorem parse_message_roundtrip (stmt sql oids : list Z) :
  no_nul stmt → no_nul sql → zlen oids < 2 ^ 16 → Forall (in_width 32) oids →
  parseParseMessage (encode_parse stmt sql oids) = Some (stmt, sql, oids).
Proof.
  intros Hs Hq Hl Ho. unfold parseParseMessage, encode_parse.
  rewrite readCString_app by done. cbn [mbind option_bind]. rewrite readCString_app by done.
  cbn [mbind option_bind]. pose proof (zlen_nonneg oids).
  rewrite zlen_app, zlen_be_bytes. pose proof (zlen_nonneg (concat (be_bytes 4 <$> oids))).
  rewrite (proj2 (Z.ltb_ge _ _)) by lia.
  destruct (take_be 2 (zlen oids) (concat (be_bytes 4 <$> oids))) as [H1 H2]. rewrite H2.
  change 2 with (Z.of_nat 2) at 1. rewrite H1, be_value_bytes by (change (256 ^ Z.of_nat 2) with (2 ^ 16); lia).
  replace (Z.to_nat (zlen oids)) with (length oids) by (unfold zlen; lia). by rewrite read_oids_app.
Qed.

(** Bind messages are decoded faithfully up to 10000 parameters: statement name,
    format codes and values come back exactly, NULL told from empty, whatever the
    result-format trailer; the protocol allows up to 65535 parameters, and every
    Bind with more than 10000 of them is rejected as malformed. *)
Theorem bind_message_roundtrip (portal stmt formats trailer : list Z) (values : list (option (list Z))) :
  wf_bind portal stmt formats values →
  parseBindMessage (encode_bind portal stmt formats values trailer) =
  if zlen values <=? 10000 then Some (stmt, formats, values) else None.
Proof.
  intros Hwf. rewrite parse_bind by done. unfold maxParams. rewrite Z.gtb_ltb, Z.ltb_antisym.
  by destruct (_ <=? 10000).
Qed.

(** Every parameter gets its own OID, value and format. *)
Lemma zipParams_lookup oids formats values i :
  (i < length oids `max` length values)%nat →
  zipParams oids formats values !! i =
    Some (Param (default 0 (oids !! i)) (default None (values !! i)) (format_of formats i)).
Proof. intros Hi. unfold zipParams. rewrite list_lookup_fmap, lookup_seq_lt by done. done. Qed.

Lemma zipParams_length oids formats values :
  length (zipParams oids formats values) = (length oids `max` length values)%nat.
Proof. unfold zipParams. by rewrite length_fmap, length_seq. Qed.

(** ** Correlation of Bind with Parse *)
Record ParseInfo := MkParseInfo { pi_SQL : list Z; ParamOIDs : list Z }.

Record BindResult := MkBindResult { br_StmtName : list Z; br_SQL : list Z; br_Params : list ParamInfo }.

(** Statements by name, per connection. *)
Record BindCorrelator := MkBindCorrelator { parsed : gmap ConnID (gmap (list Z) ParseInfo) }.

Definition NewBindCorrelator : BindCorrelator := MkBindCorrelator ∅.

Definition OnParse (conn : ConnID) (stmtName sql paramOIDs : list Z) (c : BindCorrelator) : BindCorrelator :=
  let stmts := default ∅ (parsed c !! conn) in
  MkBindCorrelator (<[conn := <[stmtName := MkParseInfo sql paramOIDs]> stmts]> (parsed c)).

Definition OnBind (conn : ConnID) (payload : list Z) (c : BindCorrelator) : option BindResult :=
  '(srcStmt, formats, values) ← parseBindMessage payload;
  stmts ← parsed c !! conn;
  info ← stmts !! srcStmt;
  Some (MkBindResult srcStmt (pi_SQL info) (zipParams (ParamOIDs info) formats values)).

Definition bc_Forget (conn : ConnID) (c : BindCorrelator) : BindCorrelator :=
  MkBindCorrelator (delete conn (parsed c)).

(** What the correlator remembers of a statement. *)
Definition declared (c : BindCorrelator) (conn : ConnID) (stmt : list Z) : option ParseInfo :=
  stmts ← parsed c !! conn; stmts !! stmt.

Lemma declared_parse c conn stmt sql oids conn' stmt' :
  declared (OnParse conn stmt sql oids c) conn' stmt' =
  if decide (conn = conn' ∧ stmt = stmt') then Some (MkParseInfo sql oids)
  else declared c conn' stmt'.
Proof.
  unfold declared, OnParse. simpl. destruct (decide (conn = conn')) as [<-|Hne].
  - rewrite lookup_insert_eq. simpl. destruct (decide (stmt = stmt')) as [<-|Hs].
    + by rewrite lookup_insert_eq, decide_True.
    + rewrite lookup_insert_ne, decide_False by naive_solver. by destruct (parsed c !! conn).
  - rewrite lookup_insert_ne, decide_False by naive_solver. done.
Qed.

Lemma declared_forget c conn conn' stmt :
  declared (bc_Forget conn c) conn' stmt =
  if decide (conn = conn') then None else declared c conn' stmt.
Proof.
  unfold declared, bc_Forget. simpl. case_decide; subst.
  - by rewrite lookup_delete_eq.
  - by rewrite lookup_delete_ne.
Qed.

(** Parse messages and closed connections, the newest first. *)
Inductive corr_event := Parsed (conn : ConnID) (stmt sql oids : list Z) | Forgotten (conn : ConnID).

Definition apply_event (e : corr_event) : BindCorrelator → BindCorrelator :=
  match e with
  | Parsed conn stmt sql oids => OnParse conn stmt sql oids
  | Forgotten conn => bc_Forget conn
  end.

Definition correlate (history : list corr_event) : BindCorrelator :=
  foldr apply_event NewBindCorrelator history.

(** The session rule of the protocol: the newest declaration of the name on the
    same connection, unless the connection was closed since. *)
Fixpoint session_statement (history : list corr_event) (conn : ConnID) (stmt : list Z) : option ParseInfo :=
  match history with
  | [] => None
  | Parsed conn' stmt' sql oids :: older =>
      if decide (conn' = conn ∧ stmt' = stmt) then Some (MkParseInfo sql oids)
      else session_statement older conn stmt
  | Forgotten conn' :: older =>
      if decide (conn' = conn) then None else session_statement older conn stmt
  end.

Lemma correlate_declared history conn stmt :
  declared (correlate history) conn stmt = session_statement history conn stmt.
Proof.
  induction history as [|[conn' stmt' sql oids|conn'] older IH]; simpl.
  - unfold declared. simpl. by rewrite lookup_empty.
  - by rewrite declared_parse, IH.
  - by rewrite declared_forget, IH.
Qed.

Lemma OnBind_declared conn portal stmt formats values trailer c :
  wf_bind portal stmt formats values → zlen values ≤ maxParams →
  OnBind conn (encode_bind portal stmt formats values trailer) c =
  info ← declared c conn stmt;
  Some (MkBindResult stmt (pi_SQL info) (zipParams (ParamOIDs info) formats values)).
Proof.
  intros Hwf Hn. unfold OnBind, declared. rewrite parse_bind by done.
  rewrite Z.gtb_ltb, (proj2 (Z.ltb_ge _ _)) by done. cbn [mbind option_bind].
  by destruct (parsed c !! conn).
Qed.

(** The events of other connections do not matter. *)
Definition of_conn (conn : ConnID) (e : corr_event) : bool :=
  match e with Parsed c _ _ _ | Forgotten c => bool_decide (c = conn) end.

Lemma session_statement_own history conn stmt :
  session_statement (List.filter (of_conn conn) history) conn stmt = session_statement history conn stmt.
Proof.
  induction history as [|[c s q o|c] older IH]; [done|..]; simpl; case_bool_decide; simpl; rewrite IH.
  - done.
  - by rewrite decide_False by naive_solver.
  - done.
  - by rewrite decide_False.
Qed.

(** What the protocol says a parameter of a Bind is: its value, the type declared for
    its position (0 when there is none), and its format - text when the message has
    no format code, the one code when it has one, the code at its position otherwise. *)
Definition param_at (oids formats : list Z) (values : list (option (list Z))) (i : nat) (p : ParamInfo) : Prop :=
  Value p = mjoin (values !! i) ∧ OID p = default 0 (oids !! i) ∧
  (formats = [] → Format p = 0) ∧ (∀ code, formats = [code] → Format p = code) ∧
  ((2 ≤ length formats)%nat → Format p = default 0 (formats !! i)).

Lemma zipParams_param_at oids formats values i p :
  zipParams oids formats values !! i = Some p → param_at oids formats values i p.
Proof.
  intros Hp. assert (i < length oids `max` length values)%nat as Hi.
  { rewrite <- (zipParams_length oids formats values). by eapply lookup_lt_Some. }
  rewrite zipParams_lookup in Hp by done. injection Hp as <-. unfold param_at. cbn [Value OID Format].
  split_and!; [by destruct (values !! i)|done|by intros ->|by intros ? ->|].
  destruct formats as [|? [|? ?]]; cbn; [lia|lia|done].
Qed.


(** ** Witnesses *)
Module MessagesDemo.
(** "s" and "q". *)
Definition stmt : list Z := [115].
Definition sql : list Z := [113].

(** One text and one NULL parameter. *)
Definition values : list (option (list Z)) := [Some [52; 50]; None].

Lemma bind_wf : wf_bind [] stmt [0; 1] values.
Proof. repeat split; repeat constructor; cbn; lia. Qed.

Definition conn1 : ConnID := MkConnID (Addr4 [10; 0; 0; 1]) 50000 (Addr4 [10; 0; 0; 9]) 5432.
Definition conn2 : ConnID := MkConnID (Addr4 [10; 0; 0; 2]) 50000 (Addr4 [10; 0; 0; 9]) 5432.

(** Two connections declare the same name; the first is asked. *)
Definition history : list corr_event := [Parsed conn2 stmt [] []; Parsed conn1 stmt sql [23; 25]].
End MessagesDemo.

Lemma parse_message_roundtrip_witness :
  parseParseMessage (encode_parse [115] [113] [23; 25]) = Some ([115], [113], [23; 25]).
Proof.
  apply (parse_message_roundtrip [115] [113] [23; 25]).
  1, 2: by repeat constructor.
  - by vm_compute.
  - repeat apply Forall_cons_2; [by vm_compute..|apply Forall_nil_2].
Defined.

Lemma bind_message_roundtrip_witness :
  parseBindMessage (encode_bind [] MessagesDemo.stmt [0; 1] MessagesDemo.values [0; 0]) =
  Some (MessagesDemo.stmt, [0; 1], MessagesDemo.values).
Proof. apply (bind_message_roundtrip [] MessagesDemo.stmt [0; 1] [0; 0] _ MessagesDemo.bind_wf). Defined.

