(* ===== verification/Classifier.v ===== *)
(** * The statement classifier (src/pkg/filter/classifier.go)

    SQL text is its bytes.  A position in the text is the suffix that starts
    there, so a loop that moves an index forward is a function on suffixes; the
    loops whose steps skip several bytes carry a fuel, and the length of the text
    is enough (every step drops at least one byte).

    [strings.ToLower] and [strings.TrimSpace] are modelled exactly on ASCII text;
    what they do with other text comes from the Unicode tables, an argument of the
    definitions. *)
From Stdlib Require Import String Ascii.
From stdpp Require Import finite.
From S2P Require Import Prelude.

(** ** Bytes and case *)
Definition bytes_of (s : string) : list Z := (λ a, Z.of_N (N_of_ascii a)) <$> list_ascii_of_string s.

(** What package unicode adds to the ASCII behaviour of package strings. *)
Class Unicode := {
  unicode_lower : list Z → list Z;
  unicode_upper : list Z → list Z;
  unicode_trim : list Z → list Z;
  unicode_trim_right : list Z → list Z }.

Abbreviation is_ascii s := (forallb (λ c, c <? 128) s).

Definition lower_byte (c : Z) : Z := if (65 <=? c) && (c <=? 90) then c + 32 else c.
Definition upper_byte (c : Z) : Z := if (97 <=? c) && (c <=? 122) then c - 32 else c.

Definition ToLower `{Unicode} (s : list Z) : list Z :=
  if is_ascii s then lower_byte <$> s else unicode_lower s.
Definition ToUpper `{Unicode} (s : list Z) : list Z :=
  if is_ascii s then upper_byte <$> s else unicode_upper s.

(** Tab, newline, vertical tab, form feed, carriage return, space. *)
Definition is_space (c : Z) : bool := ((9 <=? c) && (c <=? 13)) || (c =? 32).

Fixpoint trim_left (s : list Z) : list Z :=
  match s with
  | c :: s' => if is_space c then trim_left s' else s
  | [] => []
  end.

Definition TrimSpace `{Unicode} (s : list Z) : list Z :=
  let s := trim_left s in
  match s with
  | [] => []
  | c :: _ =>
      if 128 <=? c then unicode_trim s else
      let s := reverse (trim_left (reverse s)) in
      match last s with
      | Some c => if 128 <=? c then unicode_trim_right s else s
      | None => []
      end
  end.

(** ** The lexer *)
Inductive token := tokWord (text : list Z) | tokLParen | tokRParen | tokDot | tokString | tokOther.

#[export] Instance token_eq_dec : EqDecision token.
Proof. solve_decision. Defined.

Definition isIdentStart (c : Z) : bool :=
  (c =? 95) || ((97 <=? c) && (c <=? 122)) || ((65 <=? c) && (c <=? 90)) || (128 <=? c).

Definition isDigit (c : Z) : bool := (48 <=? c) && (c <=? 57).

Definition isIdentPart (c : Z) : bool := isIdentStart c || isDigit c.

Abbreviation chDash := 45 (only parsing).
Abbreviation chSlash := 47 (only parsing).
Abbreviation chStar := 42 (only parsing).
Abbreviation chQuote := 39 (only parsing).
Abbreviation chDQuote := 34 (only parsing).
Abbreviation chDollar := 36 (only parsing).
Abbreviation chLParen := 40 (only parsing).
Abbreviation chRParen := 41 (only parsing).
Abbreviation chDot := 46 (only parsing).
Abbreviation chSemi := 59 (only parsing).
Abbreviation chNewline := 10 (only parsing).

(** [s] starts with [c]. *)
Definition starts (c : Z) (s : list Z) : bool := match s with d :: _ => d =? c | [] => false end.

(** The longest prefix of bytes that satisfy [p], and the rest. *)
Fixpoint span (p : Z → bool) (s : list Z) : list Z * list Z :=
  match s with
  | c :: s' => if p c then let '(a, b) := span p s' in (c :: a, b) else ([], s)
  | [] => ([], [])
  end.

(** To the end of the line. *)
Definition skip_line (s : list Z) : list Z := snd (span (λ c, negb (c =? chNewline)) s).

(** Past the end of a block comment at nesting depth [d]. *)
Fixpoint skip_block (d : nat) (s : list Z) : list Z :=
  match d, s with
  | O, _ => s
  | _, [] => []
  | S d', c :: s1 =>
      match s1 with
      | c2 :: s2 =>
          if (c =? chSlash) && (c2 =? chStar) then skip_block (S d) s2
          else if (c =? chStar) && (c2 =? chSlash) then skip_block d' s2
          else skip_block d s1
      | [] => []
      end
  end.

(** Past the closing quote of a string literal; a doubled quote is an escape. *)
Fixpoint skip_string (s : list Z) : list Z :=
  match s with
  | [] => []
  | c :: s1 =>
      if c =? chQuote then
        match s1 with
        | c2 :: s2 => if c2 =? chQuote then skip_string s2 else s1
        | [] => []
        end
      else skip_string s1
  end.

(** The text of a quoted identifier and what follows its closing quote. *)
Fixpoint quoted_ident (s : list Z) : list Z * list Z :=
  match s with
  | [] => ([], [])
  | c :: s1 =>
      if c =? chDQuote then
        match s1 with
        | c2 :: s2 =>
            if c2 =? chDQuote then let '(t, r) := quoted_ident s2 in (chDQuote :: t, r) else ([], s1)
        | [] => ([], [])
        end
      else let '(t, r) := quoted_ident s1 in (c :: t, r)
  end.

(** The tag of a dollar quote opened before [s], and what follows the opener. *)
Definition dollarTag (s : list Z) : option (list Z * list Z) :=
  let '(tag, r) := span isIdentPart s in
  if starts chDollar r then
    match tag with
    | [] => Some (tag, tail r)
    | c :: _ => if isIdentStart c then Some (tag, tail r) else None
    end
  else None.

(** What follows the first occurrence of [sub]. *)
Fixpoint after_sub (sub s : list Z) : option (list Z) :=
  if bool_decide (take (length sub) s = sub) then Some (drop (length sub) s) else
  match s with
  | [] => None
  | _ :: s' => after_sub sub s'
  end.

(** Past the end of a dollar-quoted literal. *)
Definition skip_dollar (tag s : list Z) : list Z :=
  default [] (after_sub (chDollar :: tag ++ [chDollar]) s).

(** One token (or none, for space and comments) from [c :: s]. *)
Definition lex_step (c : Z) (s : list Z) : option token * list Z :=
  if is_space c then (None, s)
  else if (c =? chDash) && starts chDash s then (None, skip_line (tail s))
  else if (c =? chSlash) && starts chStar s then (None, skip_block 1 (tail s))
  else if c =? chQuote then (Some tokString, skip_string s)
  else if c =? chDQuote then let '(t, r) := quoted_ident s in (Some (tokWord t), r)
  else if c =? chDollar then
    match dollarTag s with
    | Some (tag, r) => (Some tokString, skip_dollar tag r)
    | None => (Some tokOther, snd (span isDigit s))
    end
  else if c =? chLParen then (Some tokLParen, s)
  else if c =? chRParen then (Some tokRParen, s)
  else if c =? chDot then (Some tokDot, s)
  else if isIdentStart c then let '(t, r) := span isIdentPart s in (Some (tokWord (c :: t)), r)
  else (Some tokOther, s).

Fixpoint lex_loop (fuel : nat) (s : list Z) : list token :=
  match fuel, s with
  | S fuel, c :: s => let '(t, r) := lex_step c s in option_list t ++ lex_loop fuel r
  | _, _ => []
  end.

Definition lex (sql : list Z) : list token := lex_loop (length sql) sql.

(** ** Statement boundaries *)

(** The common step of the two boundary scanners on [c :: s]; a semicolon at
    depth 0 is theirs.  Quoted identifiers are not skipped here. *)
Definition scan_step (depth : nat) (c : Z) (s : list Z) : nat * list Z :=
  if (c =? chDash) && starts chDash s then (depth, tail (skip_line (tail s)))
  else if (c =? chSlash) && starts chStar s then (depth, skip_block 1 (tail s))
  else if c =? chQuote then (depth, skip_string s)
  else if c =? chDollar then
    match dollarTag s with
    | Some (tag, r) => (depth, skip_dollar tag r)
    | None => (depth, s)
    end
  else if c =? chLParen then (S depth, s)
  else if c =? chRParen then (pred depth, s)
  else (depth, s).

(** Space, tab, newline, carriage return. *)
Definition is_blank (c : Z) : bool := (c =? 32) || (c =? 9) || (c =? 10) || (c =? 13).

Fixpoint index_loop (fuel : nat) (n : Z) (depth : nat) (s : list Z) : Z :=
  match fuel, s with
  | S fuel, c :: s' =>
      if (c =? chSemi) && (depth =? 0)%nat then
        if forallb is_blank s' then -1 else n - zlen s
      else let '(depth, r) := scan_step depth c s' in index_loop fuel n depth r
  | _, _ => -1
  end.

Definition indexDepthZeroSemicolon (sql : list Z) : Z := index_loop (length sql) (zlen sql) 0 sql.

(** [start] is the text from the beginning of the current statement. *)
Fixpoint split_loop (fuel : nat) (depth : nat) (start s : list Z) : list (list Z) :=
  match fuel, s with
  | S fuel, c :: s' =>
      if (c =? chSemi) && (depth =? 0)%nat then
        take (length start - length s) start :: split_loop fuel depth s' s'
      else let '(depth, r) := scan_step depth c s' in split_loop fuel depth start r
  | _, _ => match start with [] => [] | _ => [start] end
  end.

Definition splitOnDepthZeroSemicolons (sql : list Z) : list (list Z) :=
  split_loop (length sql) 0 sql sql.

(** ** Classification *)
Inductive StmtClass :=
  | ClassUnknown | ClassPlainSelect | ClassProcSelect | ClassCall | ClassDML | ClassDDL
  | ClassBegin | ClassCommitRollback | ClassUtility | ClassCopyFrom.

#[export] Instance StmtClass_eq_dec : EqDecision StmtClass.
Proof. solve_decision. Defined.

#[export] Instance StmtClass_finite : Finite StmtClass.
Proof.
  refine {| enum := [ClassUnknown; ClassPlainSelect; ClassProcSelect; ClassCall; ClassDML; ClassDDL;
    ClassBegin; ClassCommitRollback; ClassUtility; ClassCopyFrom] |}.
  - by apply (bool_decide_unpack _).
  - intros []; by apply (bool_decide_unpack _).
Defined.

Definition sqlKeywordsBeforeParen : list (list Z) := bytes_of <$> [
  "as"; "in"; "exists"; "all"; "any"; "some"; "values"; "over"; "filter"; "within"; "from";
  "where"; "and"; "or"; "not"; "on"; "using"; "when"; "then"; "case"; "by"; "having"; "group";
  "order"; "select"; "union"; "intersect"; "except"; "join"; "into"; "distinct"; "between"; "like";
  "ilike"; "similar"; "is"; "null"; "returning"; "do"; "else"; "end"; "limit"; "offset"; "fetch";
  "with"; "recursive"; "left"; "right"; "full"; "inner"; "outer"; "cross"; "lateral"; "natural";
  "asc"; "desc"; "nulls"; "first"; "last"; "for"; "of"; "only"; "tablesample"; "window";
  "partition"; "range"; "rows"; "groups"; "unbounded"; "preceding"; "following"; "current"; "row";
  "grouping"; "cube"; "rollup"; "sets"; "array"; "set"; "to"; "if"; "numeric"; "decimal"; "dec";
  "char"; "character"; "varchar"; "varbit"; "bit"; "time"; "timestamp"; "timestamptz"; "interval";
  "float"; "double"; "real"; "int"; "integer"; "bigint"; "smallint"; "money"; "bool"; "boolean";
  "text"; "bytea"; "uuid"; "json"; "jsonb"; "xml"]%string.

Definition DefaultBuiltinFunctions : list (list Z) := bytes_of <$> [
  "count"; "sum"; "avg"; "min"; "max"; "array_agg"; "string_agg"; "bool_and"; "bool_or"; "every";
  "json_agg"; "jsonb_agg"; "json_object_agg"; "jsonb_object_agg"; "xmlagg"; "row_number"; "rank";
  "dense_rank"; "percent_rank"; "cume_dist"; "ntile"; "lead"; "lag"; "first_value"; "last_value";
  "nth_value"; "now"; "current_timestamp"; "current_date"; "current_time"; "clock_timestamp";
  "statement_timestamp"; "transaction_timestamp"; "age"; "date_part"; "date_trunc"; "extract";
  "make_date"; "make_interval"; "make_time"; "make_timestamp"; "coalesce"; "nullif"; "greatest";
  "least"; "cast"; "to_char"; "to_date"; "to_number"; "to_timestamp"; "generate_series"; "unnest";
  "array_length"; "array_upper"; "array_lower"; "array_cat"; "array_append"; "array_remove";
  "length"; "upper"; "lower"; "trim"; "ltrim"; "rtrim"; "substring"; "replace"; "concat";
  "concat_ws"; "format"; "left"; "right"; "repeat"; "reverse"; "split_part"; "abs"; "ceil";
  "floor"; "round"; "trunc"; "mod"; "power"; "sqrt"; "random"; "sign"; "json_build_object";
  "jsonb_build_object"; "json_build_array"; "jsonb_build_array"; "row_to_json"; "to_json";
  "to_jsonb"; "pg_typeof"; "version"; "current_database"; "current_schema"; "current_user";
  "session_user"; "txid_current"]%string.

Definition in_set (set : list (list Z)) (w : list Z) : bool := bool_decide (w ∈ set).

Section classifier.
Context `{Unicode}.

(** The texts of the word tokens. *)
Fixpoint words (toks : list token) : list (list Z) :=
  match toks with
  | tokWord w :: toks => w :: words toks
  | _ :: toks => words toks
  | [] => []
  end.

Definition firstWord (toks : list token) : list Z :=
  match words toks with w :: _ => ToLower w | [] => [] end.

Definition hasSecondWord (toks : list token) (word : list Z) : bool :=
  match words toks with _ :: w :: _ => bool_decide (ToLower w = word) | _ => false end.

(** The lower-cased words outside parentheses. *)
Fixpoint depth_zero_words (depth : nat) (toks : list token) : list (list Z) :=
  match toks with
  | [] => []
  | tokLParen :: toks => depth_zero_words (S depth) toks
  | tokRParen :: toks => depth_zero_words (pred depth) toks
  | tokWord w :: toks =>
      if (depth =? 0)%nat then ToLower w :: depth_zero_words depth toks else depth_zero_words depth toks
  | _ :: toks => depth_zero_words depth toks
  end.

Definition depthZeroHasWord (toks : list token) (word : list Z) : bool :=
  in_set (depth_zero_words 0 toks) word.

Definition primaryCommandAfterWith (toks : list token) : list Z :=
  match List.filter (in_set (bytes_of <$> ["select"; "insert"; "update"; "delete"]%string))
          (depth_zero_words 0 toks) with
  | w :: _ => w
  | [] => []
  end.

(** The rest of a qualified name: its last segment and what follows it. *)
Fixpoint walk_name (lastSeg : list Z) (toks : list token) : list Z * list token :=
  match toks with
  | tokDot :: tokWord w :: toks => walk_name (ToLower w) toks
  | _ => (lastSeg, toks)
  end.

Definition starts_paren (toks : list token) : bool :=
  match toks with tokLParen :: _ => true | _ => false end.

Fixpoint proc_loop (builtins : list (list Z)) (fuel : nat) (toks : list token) : bool :=
  match fuel, toks with
  | S fuel, tokWord w :: toks =>
      let firstSeg := ToLower w in
      let '(lastSeg, toks) := walk_name firstSeg toks in
      if starts_paren toks && negb (in_set sqlKeywordsBeforeParen firstSeg) &&
         negb (in_set sqlKeywordsBeforeParen lastSeg) && negb (in_set builtins lastSeg)
      then true else proc_loop builtins fuel toks
  | S fuel, _ :: toks => proc_loop builtins fuel toks
  | _, _ => false
  end.

Definition isProcInvoking (builtins : list (list Z)) (toks : list token) : bool :=
  proc_loop builtins (length toks) toks.

(** A classifier is its set of built-in functions. *)
Definition NewClassifier (extraBuiltins : list (list Z)) : list (list Z) :=
  (ToLower <$> DefaultBuiltinFunctions) ++ (ToLower <$> extraBuiltins).

Definition select_class (builtins : list (list Z)) (toks : list token) : StmtClass :=
  if isProcInvoking builtins toks then ClassProcSelect else ClassPlainSelect.

Definition is_kw (w : list Z) (keywords : list string) : bool := in_set (bytes_of <$> keywords) w.

Definition classifySingle (builtins : list (list Z)) (sql : list Z) : StmtClass :=
  let toks := lex sql in
  let leading := firstWord toks in
  if is_kw leading ["call"%string] then ClassCall
  else if is_kw leading ["insert"; "update"; "delete"]%string then ClassDML
  else if is_kw leading ["create"; "alter"; "drop"]%string then ClassDDL
  else if is_kw leading ["begin"; "start"]%string then ClassBegin
  else if is_kw leading ["commit"; "end"]%string then ClassCommitRollback
  else if is_kw leading ["rollback"%string] then
    if hasSecondWord toks (bytes_of "to") then ClassUtility else ClassCommitRollback
  else if is_kw leading ["savepoint"; "release"]%string then ClassUtility
  else if is_kw leading ["set"; "reset"; "discard"]%string then ClassUtility
  else if is_kw leading ["copy"%string] then
    if depthZeroHasWord toks (bytes_of "from") then ClassCopyFrom else ClassUnknown
  else if is_kw leading ["select"%string] then select_class builtins toks
  else if is_kw leading ["with"%string] then
    let primary := primaryCommandAfterWith toks in
    if is_kw primary ["select"%string] then select_class builtins toks
    else if is_kw primary ["insert"; "update"; "delete"]%string then ClassDML
    else ClassUnknown
  else ClassUnknown.

Definition IsProcInvokingSelect (builtins : list (list Z)) (sql : list Z) : bool :=
  let toks := lex sql in
  let leading := firstWord toks in
  let isSelect :=
    if is_kw leading ["with"%string] then is_kw (primaryCommandAfterWith toks) ["select"%string]
    else is_kw leading ["select"%string] in
  isSelect && isProcInvoking builtins toks.

Definition stmtClassPriority (c : StmtClass) : Z :=
  match c with
  | ClassUnknown => 0
  | ClassPlainSelect => 1
  | ClassUtility => 2
  | ClassProcSelect => 3
  | ClassCopyFrom => 4
  | ClassDML => 5
  | ClassDDL => 6
  | ClassBegin => 7
  | ClassCommitRollback => 8
  | ClassCall => 5
  end.

(** One statement of a batch against the best so far. *)
Definition better (builtins : list (list Z)) (best : StmtClass) (stmt : list Z) : StmtClass :=
  match TrimSpace stmt with
  | [] => best
  | trimmed =>
      let cls := classifySingle builtins trimmed in
      if stmtClassPriority best <? stmtClassPriority cls then cls else best
  end.

Definition classifyMultiStatement (builtins : list (list Z)) (sql : list Z) : StmtClass :=
  foldl (better builtins) ClassUnknown (splitOnDepthZeroSemicolons sql).

Definition Classify (builtins : list (list Z)) (sql : list Z) : StmtClass :=
  if 0 <=? indexDepthZeroSemicolon sql then classifyMultiStatement builtins sql
  else classifySingle builtins sql.
End classifier.
