(* ===== verification/ClassifierFacts.v ===== *)
(** * What the classifier guarantees (src/pkg/filter/classifier.go)

    Fuel is never exhausted, comments and literals are transparent, the leading
    keyword decides, and a batch takes the class of its most significant
    statement. *)
From Stdlib Require Import String Ascii.
From S2P Require Import Prelude Classifier.

(** ** Every step makes progress *)
Lemma span_app p s : s = fst (span p s) ++ snd (span p s).
Proof.
  induction s as [|c s IH]; [done|]. simpl. destruct (p c); [|done].
  destruct (span p s). simpl in *. congruence.
Qed.

Lemma span_length p s : (length (snd (span p s)) ≤ length s)%nat.
Proof. rewrite (span_app p s) at 2. rewrite length_app. lia. Qed.

Lemma span_exact p a rest :
  Forall (λ c, p c = true) a → (∀ c r, rest = c :: r → p c = false) → span p (a ++ rest) = (a, rest).
Proof.
  intros Ha Hr. induction Ha as [|c a Hc _ IH]; simpl.
  - destruct rest as [|c r]; [done|]. simpl. by rewrite (Hr c r).
  - by rewrite Hc, IH.
Qed.

Lemma tail_length {A} (s : list A) : (length (tail s) ≤ length s)%nat.
Proof. destruct s; simpl; lia. Qed.

(** Induction on the two shapes the two-byte scanners look at. *)
Lemma two_step_ind {A} (P : list A → Prop) :
  P [] → (∀ c, P [c]) → (∀ c c2 s, P s → P (c2 :: s) → P (c :: c2 :: s)) → ∀ s, P s.
Proof.
  intros H0 H1 H2 s. cut (P s ∧ ∀ c, P (c :: s)); [tauto|].
  induction s as [|c s [IH1 IH2]]; [auto|]. split; [done|]. intros c'. by apply H2.
Qed.

Lemma skip_block_length s : ∀ d, (length (skip_block d s) ≤ length s)%nat.
Proof.
  induction s as [|c|c c2 s IH1 IH2] using two_step_ind; intros [|d]; simpl; try lia.
  destruct (_ && _); [specialize (IH1 (S (S d))); lia|].
  destruct (_ && _); [specialize (IH1 d); lia|]. specialize (IH2 (S d)). simpl in IH2. lia.
Qed.

Lemma skip_string_length s : (length (skip_string s) ≤ length s)%nat.
Proof.
  induction s as [|c|c c2 s IH1 IH2] using two_step_ind; simpl; [lia|by destruct (_ =? _); simpl; lia|].
  destruct (c =? _); [destruct (c2 =? _); simpl; lia|]. simpl in IH2. lia.
Qed.

Lemma quoted_ident_length s : (length (snd (quoted_ident s)) ≤ length s)%nat.
Proof.
  induction s as [|c|c c2 s IH1 IH2] using two_step_ind; simpl; [lia|by destruct (_ =? _); simpl; lia|].
  destruct (c =? _).
  - destruct (c2 =? _); [|simpl; lia]. destruct (quoted_ident s). simpl in *. lia.
  - simpl in IH2. destruct (if c2 =? 34 then _ else _). simpl in *. lia.
Qed.

Lemma after_sub_length sub s r : after_sub sub s = Some r → (length r ≤ length s)%nat.
Proof.
  revert r. induction s as [|c s IH]; intros r; cbn [after_sub]; case_bool_decide.
  - intros [= <-]. rewrite length_drop. lia.
  - done.
  - intros [= <-]. rewrite length_drop. lia.
  - intros Hr. apply IH in Hr. simpl. lia.
Qed.

Lemma skip_dollar_length tag s : (length (skip_dollar tag s) ≤ length s)%nat.
Proof.
  unfold skip_dollar. destruct (after_sub _ s) eqn:E; simpl; [by apply after_sub_length in E|lia].
Qed.

Lemma dollarTag_length s tag r : dollarTag s = Some (tag, r) → (length r ≤ length s)%nat.
Proof.
  unfold dollarTag. pose proof (span_length isIdentPart s) as Hl.
  destruct (span isIdentPart s) as [t r']. simpl in Hl. pose proof (tail_length r').
  repeat case_match; intros; simplify_eq; lia.
Qed.

Lemma skip_line_length s : (length (skip_line s) ≤ length s)%nat.
Proof. apply span_length. Qed.

Lemma lex_step_length c s : (length (snd (lex_step c s)) ≤ length s)%nat.
Proof.
  pose proof (tail_length s). pose proof (skip_line_length (tail s)).
  pose proof (skip_block_length (tail s) 1). pose proof (skip_string_length s).
  pose proof (quoted_ident_length s). pose proof (span_length isDigit s).
  pose proof (span_length isIdentPart s). unfold lex_step.
  destruct (quoted_ident s), (span isIdentPart s). simpl in *.
  destruct (dollarTag s) as [[tag r]|] eqn:Ed.
  - pose proof (dollarTag_length _ _ _ Ed). pose proof (skip_dollar_length tag r).
    repeat case_match; simpl; lia.
  - repeat case_match; simpl; lia.
Qed.

Lemma scan_step_length d c s : (length (snd (scan_step d c s)) ≤ length s)%nat.
Proof.
  pose proof (tail_length s). pose proof (skip_line_length (tail s)).
  pose proof (tail_length (skip_line (tail s))).
  pose proof (skip_block_length (tail s) 1). pose proof (skip_string_length s). unfold scan_step.
  destruct (dollarTag s) as [[tag r]|] eqn:Ed.
  - pose proof (dollarTag_length _ _ _ Ed). pose proof (skip_dollar_length tag r).
    repeat case_match; simpl; lia.
  - repeat case_match; simpl; lia.
Qed.

(** ** The fuel is enough *)
Lemma lex_loop_fuel fuel1 fuel2 s :
  (length s ≤ fuel1)%nat → (length s ≤ fuel2)%nat → lex_loop fuel1 s = lex_loop fuel2 s.
Proof.
  revert fuel2 s. induction fuel1 as [|f1 IH]; intros [|f2] [|c s]; simpl; try done; try lia.
  intros H1 H2. pose proof (lex_step_length c s). destruct (lex_step c s) as [t r]. simpl in *.
  f_equal. apply IH; lia.
Qed.

Lemma lex_cons c s : lex (c :: s) = option_list (fst (lex_step c s)) ++ lex (snd (lex_step c s)).
Proof.
  unfold lex. cbn [length lex_loop]. pose proof (lex_step_length c s).
  destruct (lex_step c s) as [t r]. simpl in *. f_equal. by apply lex_loop_fuel.
Qed.

Lemma index_loop_fuel fuel1 fuel2 n d s :
  (length s ≤ fuel1)%nat → (length s ≤ fuel2)%nat → index_loop fuel1 n d s = index_loop fuel2 n d s.
Proof.
  revert fuel2 d s. induction fuel1 as [|f1 IH]; intros [|f2] d [|c s]; simpl; try done; try lia.
  intros H1 H2. destruct (_ && _); [done|]. pose proof (scan_step_length d c s).
  destruct (scan_step d c s) as [d' r]. simpl in *. apply IH; lia.
Qed.

Lemma split_loop_fuel fuel1 fuel2 d start s :
  (length s ≤ fuel1)%nat → (length s ≤ fuel2)%nat →
  split_loop fuel1 d start s = split_loop fuel2 d start s.
Proof.
  revert fuel2 d start s. induction fuel1 as [|f1 IH]; intros [|f2] d start [|c s]; simpl; try done; try lia.
  intros H1 H2. destruct (_ && _); [f_equal; apply IH; lia|]. pose proof (scan_step_length d c s).
  destruct (scan_step d c s) as [d' r]. simpl in *. apply IH; lia.
Qed.

(** The scanners with the fuel out of the way. *)
Definition index_from (n : Z) (d : nat) (s : list Z) : Z := index_loop (length s) n d s.
Definition split_from (d : nat) (start s : list Z) : list (list Z) := split_loop (length s) d start s.

Lemma index_from_cons n d c s :
  index_from n d (c :: s) =
  if (c =? 59) && (d =? 0)%nat then if forallb is_blank s then -1 else n - zlen (c :: s)
  else index_from n (fst (scan_step d c s)) (snd (scan_step d c s)).
Proof.
  unfold index_from. cbn [length index_loop]. destruct (_ && _); [done|].
  pose proof (scan_step_length d c s). destruct (scan_step d c s) as [d' r]. simpl in *.
  by apply index_loop_fuel.
Qed.

Lemma split_from_cons d start c s :
  split_from d start (c :: s) =
  if (c =? 59) && (d =? 0)%nat then take (length start - length (c :: s)) start :: split_from d s s
  else split_from (fst (scan_step d c s)) start (snd (scan_step d c s)).
Proof.
  unfold split_from. cbn [length split_loop]. destruct (_ && _); [done|].
  pose proof (scan_step_length d c s). destruct (scan_step d c s) as [d' r]. simpl in *.
  by apply split_loop_fuel.
Qed.

(** ** Space and comments *)

(** What follows the opener of a block comment, up to and with its end. *)
Inductive block_tail : list Z → Prop :=
  | block_end : block_tail [42; 47]
  | block_nested a b : block_tail a → block_tail b → block_tail (47 :: 42 :: a ++ b)
  | block_byte c c2 b :
      block_tail (c2 :: b) → ¬ (c = 47 ∧ c2 = 42) → ¬ (c = 42 ∧ c2 = 47) → block_tail (c :: c2 :: b).

Lemma skip_block_0 s : skip_block 0 s = s.
Proof. by destruct s. Qed.

Lemma skip_block_cons d c c2 s :
  skip_block (S d) (c :: c2 :: s) =
  if (c =? 47) && (c2 =? 42) then skip_block (S (S d)) s
  else if (c =? 42) && (c2 =? 47) then skip_block d s else skip_block (S d) (c2 :: s).
Proof. done. Qed.

Lemma skip_block_tail a : block_tail a → ∀ d rest, skip_block (S d) (a ++ rest) = skip_block d rest.
Proof.
  induction 1 as [|a b _ IHa _ IHb|c c2 b _ IH H1 H2]; intros d rest.
  - done.
  - cbn [app]. rewrite skip_block_cons, <- app_assoc. cbn [Z.eqb Pos.eqb andb]. by rewrite IHa, IHb.
  - change ((c :: c2 :: b) ++ rest) with (c :: c2 :: (b ++ rest)). rewrite skip_block_cons.
    destruct (c =? 47) eqn:E1, (c2 =? 42) eqn:E2, (c =? 42) eqn:E3, (c2 =? 47) eqn:E4;
      zb; try (exfalso; lia); cbn [andb]; apply (IH d rest).
Qed.

(** Text that only separates tokens. *)
Inductive blank : list Z → Prop :=
  | blank_nil : blank []
  | blank_space c p : is_space c = true → blank p → blank (c :: p)
  | blank_line body p :
      Forall (λ c, c ≠ 10) body → blank p → blank (45 :: 45 :: body ++ 10 :: p)
  | blank_block body p : block_tail body → blank p → blank (47 :: 42 :: body ++ p).

Lemma skip_line_newline body rest :
  Forall (λ c, c ≠ 10) body → skip_line (body ++ 10 :: rest) = 10 :: rest.
Proof.
  intros Hb. unfold skip_line. rewrite span_exact; [done| |].
  - eapply Forall_impl; [exact Hb|]. intros c Hc. by rewrite (proj2 (Z.eqb_neq _ _) Hc).
  - by intros c r [= <- <-].
Qed.

Lemma lex_step_line s : lex_step 45 (45 :: s) = (None, skip_line s).
Proof. done. Qed.

Lemma lex_step_block s : lex_step 47 (42 :: s) = (None, skip_block 1 s).
Proof. done. Qed.

Lemma lex_step_space c s : is_space c = true → lex_step c s = (None, s).
Proof. intros Hc. unfold lex_step. by rewrite Hc. Qed.

Lemma lex_blank p s : blank p → lex (p ++ s) = lex s.
Proof.
  induction 1 as [|c p Hc _ IH|body p Hb _ IH|body p Hb _ IH]; cbn [app].
  - done.
  - by rewrite lex_cons, lex_step_space.
  - rewrite lex_cons, lex_step_line, <- app_assoc. cbn [app fst snd option_list].
    by rewrite skip_line_newline, lex_cons, lex_step_space.
  - rewrite lex_cons, lex_step_block, <- app_assoc. cbn [fst snd option_list app].
    by rewrite (skip_block_tail _ Hb), skip_block_0.
Qed.

(** ** Words *)
Lemma isIdentPart_not_special c :
  isIdentStart c = true →
  is_space c = false ∧ c ≠ 45 ∧ c ≠ 47 ∧ c ≠ 39 ∧ c ≠ 34 ∧ c ≠ 36 ∧ c ≠ 40 ∧ c ≠ 41 ∧ c ≠ 46 ∧ c ≠ 59.
Proof.
  unfold isIdentStart, is_space. intros Hc.
  repeat (apply orb_true_iff in Hc as [Hc|Hc]); rewrite ?andb_true_iff in Hc; zb;
    rewrite ?orb_false_iff, ?andb_false_iff, ?Z.leb_gt, ?Z.eqb_neq; lia.
Qed.

Lemma lex_step_word c w rest :
  isIdentStart c = true → Forall (λ c, isIdentPart c = true) w →
  (∀ d r, rest = d :: r → isIdentPart d = false) →
  lex_step c (w ++ rest) = (Some (tokWord (c :: w)), rest).
Proof.
  intros Hc Hw Hr. destruct (isIdentPart_not_special c Hc) as (Hs & H45 & H47 & H39 & H34 & H36 & H40 & H41 & H46 & _).
  unfold lex_step. rewrite Hs, Hc, (span_exact _ _ _ Hw Hr).
  repeat rewrite (proj2 (Z.eqb_neq c _)) by done. done.
Qed.

Lemma lex_word c w rest :
  isIdentStart c = true → Forall (λ c, isIdentPart c = true) w →
  (∀ d r, rest = d :: r → isIdentPart d = false) →
  lex (c :: w ++ rest) = tokWord (c :: w) :: lex rest.
Proof. intros. by rewrite lex_cons, lex_step_word. Qed.

(** Letters are identifier bytes in either case. *)
Definition is_letter (c : Z) : bool := (97 <=? c) && (c <=? 122).

Lemma lower_letter c : is_letter (lower_byte c) = true → isIdentStart c = true ∧ 0 ≤ c < 128.
Proof.
  unfold is_letter, lower_byte, isIdentStart.
  destruct (65 <=? c) eqn:E1, (c <=? 90) eqn:E2; simpl; rewrite ?andb_true_iff; zb; intros;
    rewrite ?orb_true_iff, ?andb_true_iff, ?Z.leb_le, ?Z.eqb_eq; lia.
Qed.

Lemma lower_word w k :
  lower_byte <$> w = k → Forall (λ c, is_letter c = true) k →
  Forall (λ c, isIdentStart c = true ∧ 0 ≤ c < 128) w ∧ is_ascii w = true.
Proof.
  intros <- Hk. rewrite Forall_fmap in Hk. split.
  - eapply Forall_impl; [exact Hk|]. intros c Hc. apply (lower_letter c Hc).
  - apply forallb_forall. intros c Hc%list_elem_of_In. rewrite Forall_forall in Hk.
    apply Z.ltb_lt. apply (lower_letter c (Hk c Hc)).
Qed.

(** ** The leading keyword *)
Definition keyword_classes : list (list Z * StmtClass) :=
  (λ '(k, c), (bytes_of k, c)) <$>
  [("call", ClassCall); ("insert", ClassDML); ("update", ClassDML); ("delete", ClassDML);
   ("create", ClassDDL); ("alter", ClassDDL); ("drop", ClassDDL); ("begin", ClassBegin);
   ("start", ClassBegin); ("commit", ClassCommitRollback); ("end", ClassCommitRollback);
   ("savepoint", ClassUtility); ("release", ClassUtility); ("set", ClassUtility);
   ("reset", ClassUtility); ("discard", ClassUtility)]%string.

(** A statement that opens with the keyword [k], in any case and after any space
    and comments. *)
Definition opens_with (k : list Z) (sql : list Z) : Prop :=
  ∃ p w rest, blank p ∧ lower_byte <$> w = k ∧
    (∀ d r, rest = d :: r → isIdentPart d = false) ∧ sql = p ++ w ++ rest.

Lemma keyword_letters k c : (k, c) ∈ keyword_classes → k ≠ [] ∧ Forall (λ c, is_letter c = true) k.
Proof.
  assert (Forall (λ kc, kc.1 ≠ [] ∧ Forall (λ c, is_letter c = true) kc.1) keyword_classes) as Hall
    by (by apply (bool_decide_unpack _)).
  intros Hin. rewrite Forall_forall in Hall. apply (Hall _ Hin).
Qed.

Section classes.
Context `{Unicode}.
Variable builtins : list (list Z).

Lemma firstWord_opens k sql :
  k ≠ [] → Forall (λ c, is_letter c = true) k → opens_with k sql → firstWord (lex sql) = k.
Proof.
  intros Hne Hk (p & w & rest & Hp & Hw & Hr & ->). rewrite lex_blank by done.
  destruct (lower_word _ _ Hw Hk) as [Hid Ha].
  destruct w as [|c w]; [by rewrite <- Hw in Hne|]. inversion Hid as [|?? [Hc _] Hid']; subst.
  cbn [app]. rewrite lex_word; [|done| |done].
  - unfold firstWord. cbn [words]. unfold ToLower. by rewrite Ha.
  - eapply Forall_impl; [exact Hid'|]. intros d [Hd _]. unfold isIdentPart. by rewrite Hd.
Qed.

Lemma classifySingle_first k c sql :
  (k, c) ∈ keyword_classes → firstWord (lex sql) = k → classifySingle builtins sql = c.
Proof.
  intros Hin Hf. unfold classifySingle. rewrite Hf. clear Hf. revert Hin.
  unfold keyword_classes. cbn [fmap list_fmap].
  repeat (rewrite elem_of_cons; intros [[= -> ->]|Hin]; [reflexivity|revert Hin]).
  by rewrite elem_of_nil.
Qed.

Lemma classifySingle_keyword k c sql :
  (k, c) ∈ keyword_classes → opens_with k sql → classifySingle builtins sql = c.
Proof.
  intros Hin Ho. destruct (keyword_letters _ _ Hin). by eapply classifySingle_first, firstWord_opens.
Qed.
End classes.

(** ** Trimming *)

(** Trailing space is cut after the last byte that is not space: what the
    documentation of [TrimRightFunc] says, for a byte below 128. *)
Class UnicodeLaws `{Unicode} := {
  unicode_trim_right_keeps a c b :
    0 ≤ c < 128 → is_space c = false →
    ∃ b', b' `prefix_of` b ∧ unicode_trim_right (a ++ c :: b) = a ++ c :: b' }.

Lemma trim_left_keeps x c y :
  is_space c = false → ∃ x', x' `suffix_of` x ∧ trim_left (x ++ c :: y) = x' ++ c :: y.
Proof.
  intros Hc. induction x as [|d x (x' & Hs & IH)]; simpl.
  - rewrite Hc. by exists [].
  - destruct (is_space d); [|by exists (d :: x)]. exists x'. split; [by apply suffix_cons_r|done].
Qed.

Lemma trim_right_keeps a c b :
  is_space c = false →
  ∃ b', b' `prefix_of` b ∧ reverse (trim_left (reverse (a ++ c :: b))) = a ++ c :: b'.
Proof.
  intros Hc. rewrite reverse_app, reverse_cons, <- app_assoc. cbn [app].
  destruct (trim_left_keeps (reverse b) c (reverse a) Hc) as (x' & [z Hz] & ->).
  exists (reverse x'). split.
  - exists (reverse z). by rewrite <- reverse_app, <- Hz, reverse_involutive.
  - by rewrite reverse_app, reverse_cons, reverse_involutive, <- app_assoc.
Qed.

(** Leading space is cut, comments are kept. *)
Lemma trim_left_blank p c s :
  blank p → isIdentStart c = true → c < 128 →
  ∃ p' d r, blank p' ∧ trim_left (p ++ c :: s) = p' ++ c :: s ∧ p' ++ c :: s = d :: r ∧ d < 128.
Proof.
  intros Hp Hc Hlt. destruct (isIdentPart_not_special c Hc) as (Hs & _).
  induction Hp as [|d p Hd Hp IH|body p Hb Hp _|body p Hb Hp _].
  - exists [], c, s. simpl. rewrite Hs. by split; [constructor|].
  - simpl. by rewrite Hd.
  - eexists (45 :: 45 :: body ++ 10 :: p), _, _. split; [by constructor|]. done.
  - eexists (47 :: 42 :: body ++ p), _, _. split; [by constructor|]. done.
Qed.

Lemma prefix_head {A} (P : A → Prop) (b' b : list A) :
  b' `prefix_of` b → (∀ d r, b = d :: r → P d) → ∀ d r, b' = d :: r → P d.
Proof. intros [z ->] Hb d r ->. by eapply Hb. Qed.

Section trim.
Context `{UnicodeLaws}.

(** The result keeps everything up to a byte that is not space. *)
Lemma TrimSpace_keeps p e b d r :
  is_space e = false → 0 ≤ e < 128 → trim_left (p ++ e :: b) = p ++ e :: b → p ++ e :: b = d :: r →
  d < 128 → ∃ b', b' `prefix_of` b ∧ TrimSpace (p ++ e :: b) = p ++ e :: b'.
Proof.
  intros Hs He Ht Hd Hlt. unfold TrimSpace. rewrite Ht, Hd. rewrite (proj2 (Z.leb_gt _ _)) by done.
  rewrite <- Hd. destruct (trim_right_keeps p e b Hs) as (b' & Hb' & ->).
  destruct (last (p ++ e :: b')) as [x|] eqn:El; [|by apply last_None, app_nil in El as [_ ?]].
  destruct (128 <=? x); [|by exists b'].
  destruct (unicode_trim_right_keeps p e b' He Hs) as (b2 & Hb2 & ->).
  exists b2. split; [by etrans|done].
Qed.

Lemma trim_left_idemp s : trim_left (trim_left s) = trim_left s.
Proof. induction s as [|c s IH]; [done|]. simpl. destruct (is_space c) eqn:E; [done|]. simpl. by rewrite E. Qed.

Lemma TrimSpace_trim_left s : TrimSpace (trim_left s) = TrimSpace s.
Proof. unfold TrimSpace. by rewrite trim_left_idemp. Qed.

Lemma TrimSpace_opens k s :
  k ≠ [] → Forall (λ c, is_letter c = true) k → opens_with k s → opens_with k (TrimSpace s).
Proof.
  intros Hne Hk (p & w & rest & Hp & Hw & Hr & ->). destruct (lower_word _ _ Hw Hk) as [Hid _].
  destruct w as [|c w1]; [by rewrite <- Hw in Hne|].
  apply Forall_cons in Hid as Hid'. destruct Hid' as [[Hc Hclt] _].
  destruct (trim_left_blank p c (w1 ++ rest) Hp Hc ltac:(lia)) as (p' & d & r & Hp' & Ht & Hd & Hlt).
  cbn [app]. rewrite <- TrimSpace_trim_left, Ht.
  destruct (exists_last (l := c :: w1) ltac:(done)) as (w0 & e & Hwe).
  assert (Heq : p' ++ c :: w1 ++ rest = (p' ++ w0) ++ e :: rest).
  { change (c :: w1 ++ rest) with ((c :: w1) ++ rest). rewrite Hwe. by rewrite <- !app_assoc. }
  rewrite Hwe in Hid, Hw. apply Forall_app in Hid as [_ Hid]. apply Forall_cons in Hid as [[He Helt] _].
  destruct (TrimSpace_keeps (p' ++ w0) e rest d r) as (b' & Hb' & Hres);
    [by apply isIdentPart_not_special|done|by rewrite <- Heq, <- Ht, trim_left_idemp|by rewrite <- Heq|done|].
  rewrite Heq, Hres. exists p', (w0 ++ [e]), b'. split_and!; [done|done| |by rewrite <- !app_assoc].
  by apply (prefix_head (λ d, isIdentPart d = false) b' rest).
Qed.
End trim.

(** ** Splitting a batch *)
Fixpoint escape (body : list Z) : list Z :=
  match body with
  | [] => []
  | c :: body => if c =? 39 then 39 :: 39 :: escape body else c :: escape body
  end.

(** A string literal. *)
Definition literal (body : list Z) : list Z := 39 :: escape body ++ [39].

Lemma skip_string_escape body rest :
  starts 39 rest = false → skip_string (escape body ++ 39 :: rest) = rest.
Proof.
  intros Hr. induction body as [|c body IH]; simpl.
  - destruct rest as [|d r]; [done|]. simpl in Hr. by rewrite Hr.
  - destruct (c =? 39) eqn:E; simpl; [done|]. by rewrite E.
Qed.

(** Text the boundary scanners cross without seeing a boundary: literals,
    comments, parenthesised groups, parameters and other bytes.  Inside
    parentheses ([semi]) a semicolon is no boundary. *)
Inductive closed (semi : bool) : list Z → Prop :=
  | closed_nil : closed semi []
  | closed_byte c s :
      c ≠ 45 → c ≠ 47 → c ≠ 39 → c ≠ 36 → c ≠ 40 → c ≠ 41 → (c = 59 → semi = true) →
      closed semi s → closed semi (c :: s)
  | closed_minus s : starts 45 s = false → closed semi s → closed semi (45 :: s)
  | closed_div s : starts 42 s = false → closed semi s → closed semi (47 :: s)
  | closed_param s :
      starts 36 (snd (span isIdentPart s)) = false → closed semi s → closed semi (36 :: s)
  | closed_literal body s : starts 39 s = false → closed semi s → closed semi (literal body ++ s)
  | closed_line body s :
      Forall (λ c, c ≠ 10) body → closed semi s → closed semi (45 :: 45 :: body ++ 10 :: s)
  | closed_block body s : block_tail body → closed semi s → closed semi (47 :: 42 :: body ++ s)
  | closed_group a s : closed true a → closed semi s → closed semi (40 :: a ++ 41 :: s).

(** The scanner moves from one position to another without a boundary. *)
Inductive scans : nat → list Z → nat → list Z → Prop :=
  | scans_refl d s : scans d s d s
  | scans_step d c s d' s' :
      (c =? 59) && (d =? 0)%nat = false →
      scans (fst (scan_step d c s)) (snd (scan_step d c s)) d' s' → scans d (c :: s) d' s'.

Lemma scans_trans d1 s1 d2 s2 d3 s3 : scans d1 s1 d2 s2 → scans d2 s2 d3 s3 → scans d1 s1 d3 s3.
Proof. induction 1; [done|]. intros. constructor; auto. Qed.

Lemma split_scans d s d' s' start : scans d s d' s' → split_from d start s = split_from d' start s'.
Proof. induction 1 as [|d c s d' s' Hc _ IH]; [done|]. by rewrite split_from_cons, Hc. Qed.

Lemma index_scans d s d' s' n : scans d s d' s' → index_from n d s = index_from n d' s'.
Proof. induction 1 as [|d c s d' s' Hc _ IH]; [done|]. by rewrite index_from_cons, Hc. Qed.

(** What may follow closed text. *)
Definition boundary (rest : list Z) : Prop := rest = [] ∨ starts 59 rest = true ∨ starts 41 rest = true.

Lemma boundary_starts c s rest :
  boundary rest → c ≠ 59 → c ≠ 41 → starts c s = false → starts c (s ++ rest) = false.
Proof.
  intros Hb H1 H2. destruct s as [|d s]; [|done]. intros _. destruct rest as [|d r]; [done|]. simpl in *.
  destruct Hb as [?|[E|E]]; [done|..]; simpl in E; zb; subst; by apply Z.eqb_neq.
Qed.

Lemma boundary_ident rest d r : boundary rest → rest = d :: r → isIdentPart d = false ∧ d ≠ 36.
Proof. intros Hb ->. destruct Hb as [?|[E|E]]; [done|..]; simpl in E; zb; by subst. Qed.

Lemma dollarTag_param s rest :
  boundary rest → starts 36 (snd (span isIdentPart s)) = false → dollarTag (s ++ rest) = None.
Proof.
  intros Hb Hs. unfold dollarTag. pose proof (span_app isIdentPart s) as Hsp.
  enough (starts 36 (snd (span isIdentPart (s ++ rest))) = false) as E.
  { destruct (span isIdentPart (s ++ rest)) as [t r]. simpl in E. by rewrite E. }
  clear Hsp. induction s as [|c s IH]; simpl in *.
  - destruct rest as [|d r]; [done|]. destruct (boundary_ident _ _ _ Hb eq_refl) as [H1 H2].
    simpl. rewrite H1. simpl. by apply Z.eqb_neq.
  - destruct (isIdentPart c); [|done]. destruct (span isIdentPart s), (span isIdentPart (s ++ rest)). auto.
Qed.

Lemma closed_scans semi s :
  closed semi s → ∀ d rest, (semi = true → d ≠ 0%nat) → boundary rest → scans d (s ++ rest) d rest.
Proof.
  induction 1 as [sm|sm c s H1 H2 H3 H4 H5 H6 H7 _ IH|sm s Hs _ IH|sm s Hs _ IH|sm s Hs _ IH
    |sm body s Hs _ IH|sm body s Hb _ IH|sm body s Hb _ IH|sm a s _ IHa _ IH]; intros d rest Hd Hr.
  - constructor.
  - cbn [app]. constructor.
    + destruct (c =? 59) eqn:E, (d =? 0)%nat eqn:E2; try done. zb. apply Nat.eqb_eq in E2. naive_solver.
    + unfold scan_step. repeat rewrite (proj2 (Z.eqb_neq c _)) by done. by apply IH.
  - cbn [app]. constructor; [done|]. unfold scan_step.
    rewrite (boundary_starts 45 s rest) by done. by apply IH.
  - cbn [app]. constructor; [done|]. unfold scan_step.
    rewrite (boundary_starts 42 s rest) by done. by apply IH.
  - cbn [app]. constructor; [done|]. unfold scan_step. rewrite dollarTag_param by done. by apply IH.
  - unfold literal. cbn [app]. rewrite <- !app_assoc. cbn [app]. constructor; [done|].
    change (scan_step d 39 (escape body ++ 39 :: s ++ rest))
      with (d, skip_string (escape body ++ 39 :: s ++ rest)).
    rewrite skip_string_escape by (by apply boundary_starts). by apply IH.
  - cbn [app]. rewrite <- !app_assoc. cbn [app]. constructor; [done|].
    change (scan_step d 45 (45 :: body ++ 10 :: s ++ rest))
      with (d, tail (skip_line (body ++ 10 :: s ++ rest))).
    rewrite skip_line_newline by done. by apply IH.
  - cbn [app]. rewrite <- !app_assoc. constructor; [done|].
    change (scan_step d 47 (42 :: body ++ s ++ rest)) with (d, skip_block 1 (body ++ s ++ rest)).
    rewrite (skip_block_tail _ Hb), skip_block_0. by apply IH.
  - cbn [app]. rewrite <- !app_assoc. cbn [app]. constructor; [done|].
    change (scan_step d 40 (a ++ 41 :: s ++ rest)) with (S d, a ++ 41 :: s ++ rest).
    eapply scans_trans; [by apply IHa; [|right; right]|]. constructor; [done|].
    change (scan_step (S d) 41 (s ++ rest)) with (d, s ++ rest). by apply IH.
Qed.

(** ** Batches *)
Fixpoint batch (stmts : list (list Z)) : list Z :=
  match stmts with
  | [] => []
  | [s] => s
  | s :: stmts => s ++ 59 :: batch stmts
  end.

Lemma batch_cons s s' stmts : batch (s :: s' :: stmts) = s ++ 59 :: batch (s' :: stmts).
Proof. done. Qed.

Lemma boundary_semi rest : boundary (59 :: rest).
Proof. by right; left. Qed.

Lemma split_closed s rest :
  closed false s → splitOnDepthZeroSemicolons (s ++ 59 :: rest) = s :: splitOnDepthZeroSemicolons rest.
Proof.
  intros Hs. change (splitOnDepthZeroSemicolons ?x) with (split_from 0 x x).
  rewrite (split_scans _ _ _ _ _ (closed_scans _ _ Hs 0 (59 :: rest) ltac:(done) (boundary_semi _))).
  rewrite split_from_cons. cbn [Z.eqb Pos.eqb Nat.eqb andb]. f_equal.
  rewrite length_app, Nat.add_sub. apply take_app_length.
Qed.

Lemma split_single s : closed false s → s ≠ [] → splitOnDepthZeroSemicolons s = [s].
Proof.
  intros Hs Hne. change (splitOnDepthZeroSemicolons ?x) with (split_from 0 x x).
  rewrite <- (app_nil_r s) at 2.
  rewrite (split_scans _ _ _ _ _ (closed_scans _ _ Hs 0 [] ltac:(done) (or_introl eq_refl))).
  by destruct s.
Qed.

(** A batch is cut into its statements. *)
Lemma split_batch stmts s :
  Forall (closed false) stmts → s ∈ stmts → s ≠ [] → s ∈ splitOnDepthZeroSemicolons (batch stmts).
Proof.
  intros Hall Hin Hne. induction Hall as [|s0 [|s1 stmts] Hs _ IH]; [by apply elem_of_nil in Hin|..].
  - apply list_elem_of_singleton in Hin as ->. cbn [batch]. rewrite split_single by done. by left.
  - rewrite batch_cons, split_closed by done. apply elem_of_cons in Hin as [->|Hin]; [by left|].
    right. by apply IH.
Qed.

Lemma index_batch s rest :
  closed false s →
  indexDepthZeroSemicolon (s ++ 59 :: rest) = if forallb is_blank rest then -1 else zlen s.
Proof.
  intros Hs. change (indexDepthZeroSemicolon ?x) with (index_from (zlen x) 0 x).
  rewrite (index_scans _ _ _ _ _ (closed_scans _ _ Hs 0 (59 :: rest) ltac:(done) (boundary_semi _))).
  rewrite index_from_cons. cbn [Z.eqb Pos.eqb Nat.eqb andb]. destruct (forallb _ _); [done|].
  rewrite zlen_app. lia.
Qed.

Lemma index_single s : closed false s → indexDepthZeroSemicolon s = -1.
Proof.
  intros Hs. change (indexDepthZeroSemicolon ?x) with (index_from (zlen x) 0 x).
  rewrite <- (app_nil_r s) at 2.
  by rewrite (index_scans _ _ _ _ _ (closed_scans _ _ Hs 0 [] ltac:(done) (or_introl eq_refl))).
Qed.

Lemma in_batch s stmts c : s ∈ stmts → c ∈ s → c ∈ batch stmts.
Proof.
  intros Hs Hc. induction stmts as [|s0 [|s1 stmts] IH]; [by apply elem_of_nil in Hs|..].
  - by apply list_elem_of_singleton in Hs as ->.
  - rewrite batch_cons, elem_of_app. apply elem_of_cons in Hs as [->|Hs]; [by left|].
    right. right. by apply IH.
Qed.

(** A statement that opens with a keyword is not blank. *)
Lemma opens_not_blank k s :
  k ≠ [] → Forall (λ c, is_letter c = true) k → opens_with k s → ∃ c, c ∈ s ∧ is_blank c = false.
Proof.
  intros Hne Hk (p & w & rest & _ & Hw & _ & ->). destruct (lower_word _ _ Hw Hk) as [Hid _].
  destruct w as [|c w]; [by rewrite <- Hw in Hne|]. apply Forall_cons in Hid as [[Hc _] _].
  exists c. split; [rewrite !elem_of_app; right; left; by left|].
  apply isIdentPart_not_special in Hc as (Hs & _). unfold is_space in Hs. unfold is_blank.
  rewrite ?orb_false_iff, ?andb_false_iff, ?Z.leb_gt, ?Z.eqb_neq in *. lia.
Qed.

Lemma opens_app k s rest : opens_with k s → opens_with k (s ++ 59 :: rest).
Proof.
  intros (p & w & r & Hp & Hw & Hr & ->). exists p, w, (r ++ 59 :: rest).
  split_and!; [done|done| |by rewrite <- !app_assoc]. intros d r' E. destruct r; naive_solver.
Qed.

Section batches.
Context `{UnicodeLaws}.
Variable builtins : list (list Z).

Lemma better_max best stmt :
  stmtClassPriority best ≤ stmtClassPriority (better builtins best stmt) ∧
  (TrimSpace stmt ≠ [] →
   stmtClassPriority (classifySingle builtins (TrimSpace stmt)) ≤
   stmtClassPriority (better builtins best stmt)).
Proof.
  unfold better. destruct (TrimSpace stmt) as [|c t]; [split; [lia|done]|].
  destruct (_ <? _) eqn:E; zb; split; intros; lia.
Qed.

Lemma foldl_better_mono best stmts :
  stmtClassPriority best ≤ stmtClassPriority (foldl (better builtins) best stmts).
Proof.
  revert best. induction stmts as [|s stmts IH]; intros best; simpl; [lia|].
  etrans; [apply (better_max best s)|apply IH].
Qed.

(** The class of a batch is the largest of its statements' classes. *)
Lemma classifyMulti_max sql stmt :
  stmt ∈ splitOnDepthZeroSemicolons sql → TrimSpace stmt ≠ [] →
  stmtClassPriority (classifySingle builtins (TrimSpace stmt)) ≤
  stmtClassPriority (classifyMultiStatement builtins sql).
Proof.
  intros Hin Hne. unfold classifyMultiStatement. generalize ClassUnknown as best.
  induction (splitOnDepthZeroSemicolons sql) as [|s stmts IH]; intros best; [by apply elem_of_nil in Hin|].
  simpl. apply elem_of_cons in Hin as [->|Hin]; [|by apply IH].
  etrans; [by apply (better_max best s)|apply foldl_better_mono].
Qed.

Lemma opens_nonempty k s : k ≠ [] → opens_with k s → s ≠ [].
Proof. intros Hne (p & w & r & _ & <- & _ & ->) E. apply app_nil in E as [_ E]. by apply app_nil in E as [-> _]. Qed.

Lemma classifyMulti_keyword sql stmt k c :
  stmt ∈ splitOnDepthZeroSemicolons sql → (k, c) ∈ keyword_classes → opens_with k stmt →
  stmtClassPriority c ≤ stmtClassPriority (classifyMultiStatement builtins sql).
Proof.
  intros Hin Hk Ho. destruct (keyword_letters _ _ Hk) as [Hne Hl].
  pose proof (TrimSpace_opens k stmt Hne Hl Ho) as Ht.
  rewrite <- (classifySingle_keyword builtins k c _ Hk Ht).
  apply classifyMulti_max; [done|by eapply opens_nonempty].
Qed.

Lemma batch_class stmts stmt k c :
  Forall (closed false) stmts → stmt ∈ stmts → (k, c) ∈ keyword_classes → opens_with k stmt →
  stmtClassPriority c ≤ stmtClassPriority (Classify builtins (batch stmts)).
Proof.
  intros Hall Hin Hk Ho. destruct (keyword_letters _ _ Hk) as [Hne Hl].
  pose proof (split_batch _ _ Hall Hin (opens_nonempty _ _ Hne Ho)) as Hsplit.
  unfold Classify. destruct (0 <=? _) eqn:E; [by eapply classifyMulti_keyword|].
  destruct Hall as [|s0 [|s1 stmts] Hs Hrest]; [by apply elem_of_nil in Hin|..].
  - apply list_elem_of_singleton in Hin as ->. by rewrite (classifySingle_keyword builtins k c).
  - rewrite batch_cons in *. rewrite index_batch in E by done.
    destruct (forallb is_blank _) eqn:Eb; [|pose proof (zlen_nonneg s0); zb; lia].
    apply elem_of_cons in Hin as [->|Hin].
    + by rewrite (classifySingle_keyword builtins k c) by (done || by apply opens_app).
    + destruct (opens_not_blank _ _ Hne Hl Ho) as (x & Hx & Hb).
      rewrite forallb_forall in Eb. rewrite Eb in Hb; [done|]. apply list_elem_of_In. by eapply in_batch.
Qed.
End batches.

(** ** Literals *)

(** Bytes that open neither a literal nor a comment, and no boundary. *)
Definition plain (c : Z) : Prop := c ≠ 39 ∧ c ≠ 34 ∧ c ≠ 45 ∧ c ≠ 47 ∧ c ≠ 36 ∧ c ≠ 59.

Lemma span_before p s rest :
  starts 39 rest = true → p 39 = false → span p (s ++ rest) = (fst (span p s), snd (span p s) ++ rest).
Proof.
  intros Hr Hp. induction s as [|c s IH]; simpl.
  - destruct rest as [|d r]; [done|]. simpl in *. zb. subst. by rewrite Hp.
  - destruct (p c); [|done]. rewrite IH. by destruct (span p s).
Qed.

Lemma lex_step_before c s rest :
  plain c → starts 39 rest = true →
  lex_step c (s ++ rest) = (fst (lex_step c s), snd (lex_step c s) ++ rest).
Proof.
  intros (H39 & H34 & H45 & H47 & H36 & _) Hr. unfold lex_step.
  repeat rewrite (proj2 (Z.eqb_neq c _)) by done. cbn [andb].
  rewrite (span_before isIdentPart) by done. destruct (span isIdentPart s).
  by repeat case_match.
Qed.

Lemma span_Forall {P : Z → Prop} p s : Forall P s → Forall P (snd (span p s)).
Proof. intros HP. rewrite (span_app p s) in HP. by apply Forall_app in HP as [_ ?]. Qed.

Lemma lex_step_plain c s : plain c → Forall plain s → Forall plain (snd (lex_step c s)).
Proof.
  intros (H39 & H34 & H45 & H47 & H36 & _) Hs. unfold lex_step.
  repeat rewrite (proj2 (Z.eqb_neq c _)) by done. cbn [andb].
  pose proof (span_Forall isIdentPart s Hs). destruct (span isIdentPart s).
  by repeat case_match.
Qed.

Lemma lex_before s rest : Forall plain s → starts 39 rest = true → lex (s ++ rest) = lex s ++ lex rest.
Proof.
  intros Hs Hr. remember (length s) as n eqn:Hn. revert s Hn Hs.
  induction n as [n IH] using lt_wf_ind. intros [|c s] -> Hs; [done|].
  apply Forall_cons in Hs as [Hc Hs]. cbn [app]. rewrite !lex_cons, lex_step_before by done.
  cbn [fst snd]. rewrite <- app_assoc. f_equal. pose proof (lex_step_length c s).
  eapply IH; [|reflexivity|by apply lex_step_plain]. simpl. lia.
Qed.

Lemma lex_literal body rest : starts 39 rest = false → lex (literal body ++ rest) = tokString :: lex rest.
Proof.
  intros Hr. unfold literal. cbn [app]. rewrite <- app_assoc. cbn [app]. rewrite lex_cons.
  change (lex_step 39 (escape body ++ 39 :: rest))
    with (Some tokString, skip_string (escape body ++ 39 :: rest)).
  by rewrite skip_string_escape.
Qed.

Lemma plain_scans s d rest : Forall plain s → ∃ d', scans d (s ++ rest) d' rest.
Proof.
  intros Hs. revert d. induction Hs as [|c s (H39 & H34 & H45 & H47 & H36 & H59) _ IH]; intros d.
  - exists d. constructor.
  - destruct (IH (fst (scan_step d c (s ++ rest)))) as [d' Hd']. exists d'. cbn [app].
    constructor; [by rewrite (proj2 (Z.eqb_neq c _)) by done|].
    replace (snd (scan_step d c (s ++ rest))) with (s ++ rest); [done|].
    unfold scan_step. repeat rewrite (proj2 (Z.eqb_neq c _)) by done. by repeat case_match.
Qed.

Lemma plain_starts s : Forall plain s → starts 39 s = false.
Proof. intros [|c s' (Hc & _) _]; [done|]. by apply Z.eqb_neq. Qed.

Lemma index_literal prefix body tail :
  Forall plain prefix → Forall plain tail →
  indexDepthZeroSemicolon (prefix ++ literal body ++ tail) = -1.
Proof.
  intros Hp Ht. change (indexDepthZeroSemicolon ?x) with (index_from (zlen x) 0 x).
  destruct (plain_scans prefix 0 (literal body ++ tail) Hp) as [d1 H1].
  rewrite (index_scans _ _ _ _ _ H1). unfold literal. cbn [app]. rewrite <- app_assoc. cbn [app].
  rewrite index_from_cons. cbn [Z.eqb Pos.eqb andb].
  change (scan_step d1 39 (escape body ++ 39 :: tail)) with (d1, skip_string (escape body ++ 39 :: tail)).
  rewrite skip_string_escape by (by apply plain_starts). cbn [fst snd].
  destruct (plain_scans tail d1 [] Ht) as [d2 H2]. rewrite app_nil_r in H2.
  by rewrite (index_scans _ _ _ _ _ H2).
Qed.

Lemma lex_around prefix body tail :
  Forall plain prefix → Forall plain tail →
  lex (prefix ++ literal body ++ tail) = lex prefix ++ tokString :: lex tail.
Proof. intros Hp Ht. rewrite lex_before by done. by rewrite lex_literal by (by apply plain_starts). Qed.

(** ** Properties *)

(** What a string literal contains never changes the class of a statement: with
    the literal's quotes doubled as SQL requires, any content, with semicolons,
    parentheses, comment openers or keywords, gives the class that an empty
    literal gives. *)
Theorem literal_contents_irrelevant `{Unicode} (builtins : list (list Z)) (prefix body tail : list Z) :
  Forall plain prefix → Forall plain tail →
  Classify builtins (prefix ++ literal body ++ tail) = Classify builtins (prefix ++ literal [] ++ tail).
Proof.
  intros Hp Ht. unfold Classify. rewrite !index_literal by done. change (0 <=? -1) with false. cbv iota.
  unfold classifySingle. by rewrite !lex_around.
Qed.

Lemma classify_keyword `{Unicode} (builtins : list (list Z)) (sql k : list Z) (c : StmtClass) :
  closed false sql → (k, c) ∈ keyword_classes → opens_with k sql → Classify builtins sql = c.
Proof.
  intros Hs Hk Ho. unfold Classify. rewrite index_single by done. change (0 <=? -1) with false. cbv iota.
  by apply classifySingle_keyword with k.
Qed.

(** The leading keyword decides: a single statement that opens, after any space
    and any line or nested block comments, with one of the sixteen command words
    that need no look-ahead, in any mixture of cases, has that word's class,
    whatever follows; literals, comments and parenthesised groups in it may
    contain anything. *)
Theorem leading_keyword_decides `{Unicode} (builtins : list (list Z)) (sql k : list Z) (c : StmtClass) :
  closed false sql → (k, c) ∈ keyword_classes → opens_with k sql → Classify builtins sql = c.
Proof. apply classify_keyword. Qed.

(** A batch is never classified below its most significant statement: for every
    list of statements joined by semicolons, and every statement of it that opens
    with a command word, the class of the batch ranks at least as high as the
    class of that word. *)
Theorem batch_most_significant `{UnicodeLaws} (builtins : list (list Z)) (stmts : list (list Z))
    (stmt k : list Z) (c : StmtClass) :
  Forall (closed false) stmts → stmt ∈ stmts → (k, c) ∈ keyword_classes → opens_with k stmt →
  stmtClassPriority c ≤ stmtClassPriority (Classify builtins (batch stmts)).
Proof. apply batch_class. Qed.

(** ** Witnesses *)
Module ClassifierDemo.
(** Text without letters or spaces outside ASCII. *)
Definition ascii : Unicode := Build_Unicode id id id id.

Lemma ascii_laws : @UnicodeLaws ascii.
Proof. split. intros a c b _ _. by exists b. Qed.

Ltac solve_closed :=
  repeat first [apply closed_nil | apply closed_byte; [discriminate..|done| ]].

Lemma closed_select : closed false (bytes_of "select a").
Proof. cbn. solve_closed. Qed.

(** A comment before the keyword. *)
Definition comment : list Z := bytes_of "*;*/".
Lemma comment_ok : block_tail comment.
Proof.
  change comment with [42; 59; 42; 47]. apply block_byte; [|lia..]. apply block_byte; [|lia..].
  apply block_end.
Qed.

Definition delete : list Z := 47 :: 42 :: comment ++ bytes_of " DeLETE from t".

Lemma delete_closed : closed false delete.
Proof. apply closed_block; [exact comment_ok|]. cbn. solve_closed. Qed.

Lemma delete_opens : opens_with (bytes_of "delete") delete.
Proof.
  exists (47 :: 42 :: comment ++ [32]), (bytes_of "DeLETE"), (bytes_of " from t").
  split_and!; [|reflexivity|by intros d r [= <- <-]|reflexivity].
  apply blank_block; [exact comment_ok|]. by apply blank_space; [|apply blank_nil].
Qed.

Lemma delete_keyword : (bytes_of "delete", ClassDML) ∈ keyword_classes.
Proof. by apply (bool_decide_unpack _). Qed.
End ClassifierDemo.

Lemma literal_contents_irrelevant_witness :
  @Classify ClassifierDemo.ascii [] (bytes_of "select " ++ literal (bytes_of "x'; drop f()") ++ []) =
  ClassPlainSelect.
Proof.
  rewrite (@literal_contents_irrelevant ClassifierDemo.ascii [] (bytes_of "select ")
    (bytes_of "x'; drop f()") []); [reflexivity| |]; by apply (bool_decide_unpack _).
Defined.

Lemma leading_keyword_decides_witness :
  @Classify ClassifierDemo.ascii [] ClassifierDemo.delete = ClassDML.
Proof.
  exact (@leading_keyword_decides ClassifierDemo.ascii [] ClassifierDemo.delete (bytes_of "delete") ClassDML
    ClassifierDemo.delete_closed ClassifierDemo.delete_keyword ClassifierDemo.delete_opens).
Defined.

Lemma batch_most_significant_witness :
  stmtClassPriority ClassDML ≤
  stmtClassPriority (@Classify ClassifierDemo.ascii [] (batch [bytes_of "select a"; ClassifierDemo.delete])).
Proof.
  apply (@batch_most_significant ClassifierDemo.ascii ClassifierDemo.ascii_laws []
    [bytes_of "select a"; ClassifierDemo.delete] ClassifierDemo.delete (bytes_of "delete") ClassDML).
  - apply Forall_cons_2; [apply ClassifierDemo.closed_select|].
    apply Forall_singleton, ClassifierDemo.delete_closed.
  - right. by left.
  - exact ClassifierDemo.delete_keyword.
  - exact ClassifierDemo.delete_opens.
Defined.
