(* ===== verification/Filter.v ===== *)
(** * The SQL filter (src/pkg/filter/decide.go, filter.go, state.go)

    The rule matrix with its mode presets, the ordered keep/drop decision and the
    transaction state machine.  A compiled pattern is the predicate it matches;
    [None] is the zero [Regexp]. *)
From Stdlib Require Import String Ascii.
From stdpp Require Import finite.
From S2P Require Import Prelude Core Classifier ClassifierFacts.

Inductive Action := Keep | Drop.

#[export] Instance Action_eq_dec : EqDecision Action.
Proof. solve_decision. Defined.

Record Rule := MkRule { InTransaction : Action; OutTransaction : Action }.

Definition Regexp : Type := option (list Z → bool).

Record Config := MkConfig {
  Mode : list Z; Rules : gmap StmtClass Rule;
  ExcludePatterns : list Regexp; IncludePatterns : list Regexp;
  ReplayableProcedures : list (list Z); BuiltinFunctions : list (list Z) }.

(** ** The rule matrix *)
Definition allRuleClasses : list StmtClass :=
  [ClassPlainSelect; ClassProcSelect; ClassCall; ClassDML; ClassDDL;
   ClassBegin; ClassCommitRollback; ClassCopyFrom; ClassUtility].

Definition defaultRules : gmap StmtClass Rule :=
  list_to_map
    [(ClassPlainSelect, MkRule Keep Drop);
     (ClassProcSelect, MkRule Keep Keep);
     (ClassCall, MkRule Keep Keep);
     (ClassDML, MkRule Keep Keep);
     (ClassDDL, MkRule Keep Keep);
     (ClassBegin, MkRule Keep Keep);
     (ClassCommitRollback, MkRule Keep Keep);
     (ClassCopyFrom, MkRule Keep Keep);
     (ClassUtility, MkRule Keep Keep)].

Definition onlyKeep (keep : StmtClass) : gmap StmtClass Rule :=
  list_to_map ((λ c, (c, if decide (c = keep) then MkRule Keep Keep else MkRule Drop Drop)) <$> allRuleClasses).

(** The modes [resolveRules] knows. *)
Inductive mode := Custom | WriteOnly | All | DdlOnly | DmlOnly.

Inductive filter_error := InvalidMode (m : list Z).

Section filter.
Context `{Unicode}.

(** The mode a configuration names. *)
Definition parse_mode (m : list Z) : result filter_error mode :=
  let m' := ToLower (TrimSpace m) in
  if is_kw m' [""; "custom"]%string then Ok Custom
  else if is_kw m' ["write_only"%string] then Ok WriteOnly
  else if is_kw m' ["all"%string] then Ok All
  else if is_kw m' ["ddl_only"%string] then Ok DdlOnly
  else if is_kw m' ["dml_only"%string] then Ok DmlOnly
  else Err (InvalidMode m).

Definition resolveRules (cfg : Config) : result filter_error (gmap StmtClass Rule) :=
  m ← parse_mode (Mode cfg);
  Ok match m with
     | Custom => Rules cfg ∪ defaultRules
     | WriteOnly => <[ClassPlainSelect := MkRule Drop Drop]> defaultRules
     | All => <[ClassPlainSelect := MkRule Keep Keep]> defaultRules
     | DdlOnly => onlyKeep ClassDDL
     | DmlOnly => onlyKeep ClassDML
     end.

(** ** The filter *)
Record filterImpl := MkFilter {
  cls : list (list Z); rules : gmap StmtClass Rule;
  exclude : list Regexp; include : list Regexp; replayable : list (list Z) }.

Definition NewFilter (cfg : Config) : result filter_error filterImpl :=
  rules ← resolveRules cfg;
  let rep := List.filter (λ n, negb (bool_decide (n = []))) (ToLower ∘ TrimSpace <$> ReplayableProcedures cfg) in
  Ok (MkFilter (NewClassifier (BuiltinFunctions cfg)) rules (ExcludePatterns cfg) (IncludePatterns cfg) rep).

Definition matchesAny (res : list Regexp) (s : list Z) : bool :=
  existsb (λ re, match re with Some m => m s | None => false end) res.

(** The segments of a qualified name after its first, and what follows. *)
Fixpoint name_segments (toks : list token) : list (list Z) * list token :=
  match toks with
  | tokDot :: tokWord w :: toks => let '(segs, r) := name_segments toks in (ToLower w :: segs, r)
  | _ => ([], toks)
  end.

(** [strings.Join(segs, ".")]. *)
Fixpoint join_dots (segs : list (list Z)) : list Z :=
  match segs with
  | [] => []
  | [s] => s
  | s :: segs => s ++ 46 :: join_dots segs
  end.

Fixpoint replayable_loop (f : filterImpl) (fuel : nat) (toks : list token) : bool :=
  match fuel, toks with
  | S fuel, tokWord w :: toks =>
      let '(more, toks) := name_segments toks in
      let segs := ToLower w :: more in
      if starts_paren toks &&
         (in_set (replayable f) (default [] (last segs)) || in_set (replayable f) (join_dots segs))
      then true else replayable_loop f fuel toks
  | S fuel, _ :: toks => replayable_loop f fuel toks
  | _, _ => false
  end.

Definition invokesReplayable (f : filterImpl) (sql : list Z) : bool :=
  match replayable f with
  | [] => false
  | _ => let toks := lex sql in replayable_loop f (length toks) toks
  end.

Definition ruleAction (f : filterImpl) (class : StmtClass) (state : TxStatus) : Action :=
  match rules f !! class with
  | None => Drop
  | Some r => if decide (state = TxInTx) then InTransaction r else OutTransaction r
  end.

Definition filter_decide (f : filterImpl) (sql : list Z) (class : StmtClass) (state : TxStatus) : Action :=
  if matchesAny (exclude f) sql then Drop
  else match class with
  | ClassUnknown => Drop
  | ClassPlainSelect | ClassProcSelect =>
      if matchesAny (include f) sql || invokesReplayable f sql then Keep else ruleAction f class state
  | _ => ruleAction f class state
  end.

(** The action, the class, and what the metrics hook is called with. *)
Definition Decide (f : filterImpl) (sql : list Z) (state : TxStatus)
    : Action * StmtClass * (StmtClass * bool) :=
  let class := Classify (cls f) sql in
  let action := filter_decide f sql class state in
  (action, class, (class, bool_decide (action = Keep))).
End filter.

(** ** The transaction state machine (state.go) *)
Record txStateMachine := MkStates { states : gmap ConnID TxStatus }.

Definition NewStateMachine : txStateMachine := MkStates ∅.

Definition OnReadyForQuery (conn : ConnID) (status : Z) (m : txStateMachine) : txStateMachine :=
  if status =? 73 then MkStates (<[conn := TxIdle]> (states m))
  else if status =? 84 then MkStates (<[conn := TxInTx]> (states m))
  else if status =? 69 then MkStates (<[conn := TxFailed]> (states m))
  else m.

Definition OnStatement (conn : ConnID) (stmtType : StmtClass) (m : txStateMachine) : txStateMachine :=
  match stmtType with
  | ClassBegin => MkStates (<[conn := TxInTx]> (states m))
  | ClassCommitRollback => MkStates (<[conn := TxIdle]> (states m))
  | _ => m
  end.

Definition State (conn : ConnID) (m : txStateMachine) : TxStatus := default TxIdle (states m !! conn).

Definition sm_Forget (conn : ConnID) (m : txStateMachine) : txStateMachine :=
  MkStates (delete conn (states m)).

(** ** Facts *)
Definition is_select (c : StmtClass) : bool :=
  match c with ClassPlainSelect | ClassProcSelect => true | _ => false end.

(** What each mode keeps by itself. *)
Definition mode_keeps (m : mode) (class : StmtClass) (state : TxStatus) : bool :=
  match m with
  | Custom => negb (bool_decide (class = ClassPlainSelect)) || bool_decide (state = TxInTx)
  | WriteOnly => negb (bool_decide (class = ClassPlainSelect))
  | All => true
  | DdlOnly => bool_decide (class = ClassDDL)
  | DmlOnly => bool_decide (class = ClassDML)
  end.

Section facts.
Context `{Unicode}.

(** The rules of a mode without overrides. *)
Lemma ruleAction_mode cfg f m class state :
  NewFilter cfg = Ok f → parse_mode (Mode cfg) = Ok m → Rules cfg = ∅ → class ≠ ClassUnknown →
  ruleAction f class state = if mode_keeps m class state then Keep else Drop.
Proof.
  unfold NewFilter, resolveRules. intros Hf Hm Hr Hc. rewrite Hm in Hf. simplify_eq/=.
  unfold ruleAction. simpl. rewrite Hr, (left_id_L ∅ (∪)).
  destruct m, class, state; done || reflexivity.
Qed.

Lemma NewFilter_patterns cfg f :
  NewFilter cfg = Ok f →
  exclude f = ExcludePatterns cfg ∧ include f = IncludePatterns cfg ∧
  cls f = NewClassifier (BuiltinFunctions cfg).
Proof. unfold NewFilter. intros Hf. destruct (resolveRules cfg); by simplify_eq/=. Qed.

Lemma filter_decide_keep cfg f m sql class state :
  NewFilter cfg = Ok f → parse_mode (Mode cfg) = Ok m → Rules cfg = ∅ →
  filter_decide f sql class state = Keep ↔
  matchesAny (ExcludePatterns cfg) sql = false ∧ class ≠ ClassUnknown ∧
  (mode_keeps m class state = true ∨
   is_select class = true ∧ (matchesAny (IncludePatterns cfg) sql || invokesReplayable f sql) = true).
Proof.
  intros Hf Hm Hr. destruct (NewFilter_patterns _ _ Hf) as (He & Hi & _). unfold filter_decide.
  rewrite He, Hi. destruct (matchesAny (ExcludePatterns cfg) sql); [naive_solver|].
  destruct (decide (class = ClassUnknown)) as [->|Hc]; [naive_solver|].
  pose proof (ruleAction_mode _ _ _ class state Hf Hm Hr Hc) as Hra. rewrite Hra.
  destruct class; simpl; try done; repeat case_match; simplify_eq; naive_solver.
Qed.
End facts.

Lemma significant_class c :
  5 ≤ stmtClassPriority c → c ≠ ClassUnknown ∧ c ≠ ClassPlainSelect.
Proof. by destruct c; simpl; intros; split; intros ?; simplify_eq; lia. Qed.

(** C29 The decision of every mode, exactly: without rule overrides a statement is
    kept if and only if no exclude pattern matches it, its class is known, and
    either the mode keeps its class in the connection's transaction state, or it
    is a SELECT that an include pattern matches or that calls a replayable
    procedure.  In custom mode a plain SELECT is kept only inside a transaction,
    a failed transaction counts as outside. *)
Theorem decide_modes `{Unicode} (cfg : Config) (f : filterImpl) (m : mode) (sql : list Z) (state : TxStatus) :
  NewFilter cfg = Ok f → parse_mode (Mode cfg) = Ok m → Rules cfg = ∅ →
  let class := Classify (NewClassifier (BuiltinFunctions cfg)) sql in
  (Decide f sql state).1.1 = Keep ↔
  matchesAny (ExcludePatterns cfg) sql = false ∧ class ≠ ClassUnknown ∧
  (mode_keeps m class state = true ∨
   is_select class = true ∧ (matchesAny (IncludePatterns cfg) sql || invokesReplayable f sql) = true).
Proof.
  intros Hf Hm Hr class. unfold Decide. destruct (NewFilter_patterns _ _ Hf) as (_ & _ & ->). simpl.
  by apply filter_decide_keep.
Qed.


(** ** Witnesses *)
Module FilterDemo.
#[local] Existing Instance ClassifierDemo.ascii.

(** The default configuration: no mode, no patterns. *)
Definition cfg : Config := MkConfig [] ∅ [] [] [] [].
Definition f : filterImpl := MkFilter (NewClassifier []) (∅ ∪ defaultRules) [] [] [].

Lemma f_ok : NewFilter cfg = Ok f.
Proof. reflexivity. Qed.

Definition keeps (sql : string) (state : TxStatus) : bool :=
  bool_decide ((Decide f (bytes_of sql) state).1.1 = Keep).
End FilterDemo.

Lemma decide_modes_witness :
  (@Decide ClassifierDemo.ascii FilterDemo.f (bytes_of "SELECT 1") TxFailed).1.1 ≠ Keep.
Proof.
  intros Hk. apply (@decide_modes ClassifierDemo.ascii FilterDemo.cfg FilterDemo.f Custom _ TxFailed
    FilterDemo.f_ok eq_refl eq_refl) in Hk as (_ & _ & [Hk|[_ Hk]]); vm_compute in Hk; discriminate.
Defined.


(** Writes the default filter drops: outside a transaction a batch whose DELETE
    follows a quoted identifier with an apostrophe, a data-modifying WITH ahead of
    a SELECT, SELECT INTO, TRUNCATE and MERGE are all dropped, the first three as
    plain SELECTs. *)
Theorem writes_dropped :
  let quoted := bytes_of "SELECT 1 FROM " ++ [34] ++ bytes_of "it's" ++ [34] ++ bytes_of "; DELETE FROM t" in
  Forall (λ sql, (@Decide ClassifierDemo.ascii FilterDemo.f sql TxIdle).1 = (Drop, ClassPlainSelect))
    [quoted; bytes_of "WITH d AS (DELETE FROM t RETURNING *) SELECT * FROM d"; bytes_of "SELECT a INTO u FROM t"] ∧
  Forall (λ sql, (@Decide ClassifierDemo.ascii FilterDemo.f sql TxIdle).1 = (Drop, ClassUnknown))
    [bytes_of "TRUNCATE t"; bytes_of "MERGE INTO t USING s ON t.a = s.a WHEN MATCHED THEN DELETE"].
Proof. split; repeat (apply Forall_cons_2; [vm_compute; reflexivity|]); apply Forall_nil_2. Qed.
