(* ===== verification/ConnState.v ===== *)
(** * Per-connection collaborators of the stream processor
    (src/pkg/protocol/txid.go, copybuffer.go, sourceexectimer.go, readyforquery.go,
    eventbuilder.go, parseerror.go)

    Go maps keyed by [ConnID] are [gmap]s, a missing key reads as the zero value.
    [uint64] counters wrap. *)
From S2P Require Import Prelude Core Messages.

(** ** Transaction identifiers (txid.go) *)
Record TxIDGenerator := MkTxIDGenerator { current : gmap ConnID Z; counter : Z }.

Definition NewTxIDGenerator : TxIDGenerator := MkTxIDGenerator ∅ 0.

Definition Current (conn : ConnID) (g : TxIDGenerator) : Z := default 0 (current g !! conn).

Definition Advance (conn : ConnID) (g : TxIDGenerator) : TxIDGenerator :=
  let counter := wrap 64 (counter g + 1) in
  MkTxIDGenerator (<[conn := counter]> (current g)) counter.

Definition Reset (conn : ConnID) (g : TxIDGenerator) : TxIDGenerator :=
  MkTxIDGenerator (delete conn (current g)) (counter g).

(** ** COPY data (copybuffer.go) *)
Definition DefaultMaxCopyBytes : Z := Z.shiftl 256 20.

Record CopyBuffer := MkCopyBuffer { cb_SQL : list Z; cb_Data : list (list Z) }.

Record CopyTracker := MkCopyTracker {
  active : gmap ConnID CopyBuffer; sizes : gmap ConnID Z; overflow : gmap ConnID bool; maxBytes : Z }.

Definition NewCopyTrackerWithLimit (maxBytes : Z) : CopyTracker :=
  MkCopyTracker ∅ ∅ ∅ (if maxBytes <=? 0 then DefaultMaxCopyBytes else maxBytes).

Definition NewCopyTracker : CopyTracker := NewCopyTrackerWithLimit DefaultMaxCopyBytes.

Definition Active (conn : ConnID) (t : CopyTracker) : bool := bool_decide (is_Some (active t !! conn)).

Definition copy_clear (conn : ConnID) (t : CopyTracker) : CopyTracker :=
  MkCopyTracker (delete conn (active t)) (delete conn (sizes t)) (delete conn (overflow t)) (maxBytes t).

Definition copy_Start (conn : ConnID) (sql : list Z) (t : CopyTracker) : CopyTracker :=
  let t := copy_clear conn t in
  MkCopyTracker (<[conn := MkCopyBuffer sql []]> (active t)) (sizes t) (overflow t) (maxBytes t).

Definition copy_Data (conn : ConnID) (payload : list Z) (t : CopyTracker) : bool * CopyTracker :=
  match active t !! conn with
  | None => (false, t)
  | Some buf =>
      if default false (overflow t !! conn) then (false, t) else
      let size := default 0 (sizes t !! conn) in
      if size + zlen payload >? maxBytes t then
        (false, MkCopyTracker (<[conn := MkCopyBuffer (cb_SQL buf) []]> (active t)) (<[conn := 0]> (sizes t))
                  (<[conn := true]> (overflow t)) (maxBytes t))
      else
        (true, MkCopyTracker (<[conn := MkCopyBuffer (cb_SQL buf) (cb_Data buf ++ [payload])]> (active t))
                 (<[conn := size + zlen payload]> (sizes t)) (overflow t) (maxBytes t))
  end.

Definition copy_Done (conn : ConnID) (t : CopyTracker) : option (list Z * list (list Z)) * CopyTracker :=
  let overflowed := default false (overflow t !! conn) in
  (match active t !! conn with
   | Some buf => if overflowed then None else Some (cb_SQL buf, cb_Data buf)
   | None => None
   end, copy_clear conn t).

Definition copy_Fail (conn : ConnID) (t : CopyTracker) : CopyTracker := copy_clear conn t.
Definition copy_Discard (conn : ConnID) (t : CopyTracker) : CopyTracker := copy_clear conn t.

(** ** Source execution time (sourceexectimer.go) *)
Record SourceExecTimer := MkTimer { pending : gmap ConnID Z }.

Definition NewSourceExecTimer : SourceExecTimer := MkTimer ∅.

Definition OnClientQuery (conn : ConnID) (ts : Z) (t : SourceExecTimer) : SourceExecTimer :=
  MkTimer (<[conn := ts]> (pending t)).

(** [Time.Sub] saturates at the bounds of [int64]. *)
Definition time_Sub (t u : Z) : Z := (- 2 ^ 63) `max` ((t - u) `min` (2 ^ 63 - 1)).

Definition OnBackendComplete (conn : ConnID) (ts : Z) (t : SourceExecTimer) : option Z * SourceExecTimer :=
  match pending t !! conn with
  | None => (None, t)
  | Some start => (Some (time_Sub ts start), MkTimer (delete conn (pending t)))
  end.

Definition timer_Forget (conn : ConnID) (t : SourceExecTimer) : SourceExecTimer :=
  MkTimer (delete conn (pending t)).

(** ** ReadyForQuery (readyforquery.go) *)
Definition msgReadyForQuery : Z := 90.

Definition ExtractReadyForQuery (msg : PGMessage) : option Z :=
  if negb (Type_ msg =? msgReadyForQuery) then None else head (Payload_ msg).

(** ** The event builder (eventbuilder.go, parseerror.go)

    [Build] returns the event, if any, whether the parse-error hook was called,
    and the new state.  The constructors leave the builder's own collaborators
    nil, so an event leaves it with [TxID] 0. *)
Record ProtocolConfig := MkProtocolConfig {
  MaxSQLLength : Z; TimeoutIdle : Z; ExtendedQuery : bool; ConnectionPooler : bool }.

Record EventBuilder := MkEventBuilder { eb_cfg : ProtocolConfig; eb_seq : gmap ConnID Z }.

Definition NewEventBuilder (cfg : ProtocolConfig) : EventBuilder := MkEventBuilder cfg ∅.

Definition msgSimpleQuery : Z := 81.
Definition msgParse : Z := 80.
Definition defaultMaxSQLLength : Z := Z.shiftl 1 20.

Definition effectiveMaxSQLLength (cfg : ProtocolConfig) : Z :=
  if MaxSQLLength cfg >? 0 then MaxSQLLength cfg else defaultMaxSQLLength.

Definition oversized (b : EventBuilder) (sql : list Z) : bool :=
  let max := effectiveMaxSQLLength (eb_cfg b) in
  if max <=? 0 then false else zlen sql >? max.

Definition emit (b : EventBuilder) (conn : ConnID) (ts : Z) (sql stmtName : list Z) (extended : bool)
    (oids : list Z) : SQLEvent * EventBuilder :=
  let seq := wrap 64 (default 0 (eb_seq b !! conn) + 1) in
  (SqlEvent conn sql ts 0 seq extended stmtName ((λ oid, Param oid None 0) <$> oids) [] 0 [],
   MkEventBuilder (eb_cfg b) (<[conn := seq]> (eb_seq b))).

Definition Build (b : EventBuilder) (conn : ConnID) (msg : PGMessage) (ts : Z)
    : option SQLEvent * bool * EventBuilder :=
  if Type_ msg =? msgSimpleQuery then
    let sql := extractSimpleQuerySQL (Payload_ msg) in
    if oversized b sql then (None, true, b) else
    let '(ev, b) := emit b conn ts sql [] false [] in (Some ev, false, b)
  else if Type_ msg =? msgParse then
    if negb (ExtendedQuery (eb_cfg b)) then (None, false, b) else
    match parseParseMessage (Payload_ msg) with
    | None => (None, true, b)
    | Some (stmtName, sql, oids) =>
        if oversized b sql then (None, true, b) else
        let '(ev, b) := emit b conn ts sql stmtName true oids in (Some ev, false, b)
    end
  else (None, false, b).

(** ** COPY is all or nothing *)
Inductive copy_op :=
  | CopyStart (sql : list Z) | CopyPayload (payload : list Z) | CopyFinish | CopyAbort | CopyDrop.

Definition apply_copy (t : CopyTracker) (o : ConnID * copy_op) : CopyTracker :=
  match o.2 with
  | CopyStart sql => copy_Start o.1 sql t
  | CopyPayload payload => (copy_Data o.1 payload t).2
  | CopyFinish => (copy_Done o.1 t).2
  | CopyAbort => copy_Fail o.1 t
  | CopyDrop => copy_Discard o.1 t
  end.

Definition total (payloads : list (list Z)) : Z := foldr (λ p n, zlen p + n) 0 payloads.

Lemma total_app ps qs : total (ps ++ qs) = total ps + total qs.
Proof. induction ps as [|p ps IH]; simpl; [done|]. rewrite IH. lia. Qed.

Lemma total_nonneg ps : 0 ≤ total ps.
Proof. induction ps as [|p ps IH]; simpl; [done|]. pose proof (zlen_nonneg p). lia. Qed.

(** What the tracker holds for one connection. *)
Definition copy_view (conn : ConnID) (t : CopyTracker) : option CopyBuffer * Z * bool :=
  (active t !! conn, default 0 (sizes t !! conn), default false (overflow t !! conn)).

Lemma copy_other conn t o : o.1 ≠ conn → copy_view conn (apply_copy t o) = copy_view conn t.
Proof.
  destruct o as [c []]; intros Hne; unfold apply_copy, copy_view, copy_Start, copy_Data, copy_Done,
    copy_Fail, copy_Discard, copy_clear; simpl in *; repeat case_match; simpl;
    by rewrite ?lookup_insert_ne, ?lookup_delete_ne by done.
Qed.

Lemma copy_max t o : maxBytes (apply_copy t o) = maxBytes t.
Proof.
  destruct o as [c []]; unfold apply_copy, copy_Data; simpl; repeat case_match; done.
Qed.

(** After [payloads] the connection's COPY is complete so far or given up. *)
Definition copied (conn : ConnID) (sql : list Z) (payloads : list (list Z)) (t : CopyTracker) : Prop :=
  if total payloads <=? maxBytes t
  then copy_view conn t = (Some (MkCopyBuffer sql payloads), total payloads, false)
  else copy_view conn t = (Some (MkCopyBuffer sql []), 0, true).

Lemma copied_start conn sql t : 0 ≤ maxBytes t → copied conn sql [] (copy_Start conn sql t).
Proof.
  intros Hm. unfold copied, copy_Start, copy_clear, copy_view. simpl. rewrite (proj2 (Z.leb_le _ _)) by done.
  by rewrite lookup_insert_eq, !lookup_delete_eq.
Qed.

Lemma copied_data conn sql ps p t :
  copied conn sql ps t → copied conn sql (ps ++ [p]) (copy_Data conn p t).2.
Proof.
  unfold copied, copy_view, copy_Data. pose proof (zlen_nonneg p). rewrite total_app. simpl.
  destruct (total ps <=? maxBytes t) eqn:E; intros [= Ha Hs Ho]; rewrite Ha, Ho; simpl; zb.
  - rewrite Hs, Z.gtb_ltb, Z.add_0_r. destruct (maxBytes t <? total ps + zlen p) eqn:E2; simpl; zb;
      rewrite ?lookup_insert_eq.
    + by rewrite (proj2 (Z.leb_gt _ _)).
    + rewrite (proj2 (Z.leb_le _ _)) by done. by rewrite Ho.
  - rewrite (proj2 (Z.leb_gt _ _)) by lia. by rewrite Ha, Hs, Ho.
Qed.

Lemma copied_other conn sql ps t o : o.1 ≠ conn → copied conn sql ps t → copied conn sql ps (apply_copy t o).
Proof. intros Hne. unfold copied. by rewrite copy_max, copy_other. Qed.

(** The payloads of one connection among interleaved operations. *)
Definition payloads_of (conn : ConnID) (os : list (ConnID * copy_op)) : list (list Z) :=
  omap (λ o, if decide (o.1 = conn) then match o.2 with CopyPayload p => Some p | _ => None end else None) os.

Definition only_data (conn : ConnID) (o : ConnID * copy_op) : Prop :=
  o.1 = conn → ∃ p, o.2 = CopyPayload p.

Lemma copied_ops conn sql os : ∀ ps t,
  Forall (only_data conn) os → copied conn sql ps t →
  copied conn sql (ps ++ payloads_of conn os) (foldl apply_copy t os).
Proof.
  induction os as [|[c o] os IH]; intros ps t Hos Hc; simpl; [by rewrite app_nil_r|].
  apply Forall_cons in Hos as [Ho Hos]. unfold payloads_of. simpl. case_decide as Hcc.
  - subst. destruct (Ho eq_refl) as [p Hp]. simpl in Hp. subst.
    change (copied conn sql (ps ++ [p] ++ payloads_of conn os) (foldl apply_copy (copy_Data conn p t).2 os)).
    rewrite app_assoc. apply IH; [done|]. by apply copied_data.
  - apply IH; [done|]. by apply copied_other.
Qed.

(** C28 COPY data is captured whole or not at all.  After any earlier history, when
    a COPY starts on a connection and its data messages arrive interleaved with
    any COPY traffic of other connections, finishing it yields its statement and
    exactly its payloads in order when their total is within the limit, and
    nothing otherwise; meanwhile the tracker never holds more than the limit for
    the connection. *)
Theorem copy_all_or_nothing (limit : Z) (before os : list (ConnID * copy_op)) (conn : ConnID) (sql : list Z) :
  Forall (only_data conn) os →
  let max := if limit <=? 0 then DefaultMaxCopyBytes else limit in
  let t := foldl apply_copy (copy_Start conn sql (foldl apply_copy (NewCopyTrackerWithLimit limit) before)) os in
  (copy_Done conn t).1 =
    (if total (payloads_of conn os) <=? max then Some (sql, payloads_of conn os) else None) ∧
  (∃ buf, active t !! conn = Some buf ∧ total (cb_Data buf) ≤ max).
Proof.
  intros Hos max t.
  assert (Hmax : ∀ os t, maxBytes (foldl apply_copy t os) = maxBytes t).
  { clear. induction os as [|o os IH]; intros t; simpl; [done|]. by rewrite IH, copy_max. }
  assert (H0 : maxBytes t = max) by (unfold t; rewrite Hmax; simpl; by rewrite Hmax).
  assert (0 ≤ max) by (unfold max; destruct (limit <=? 0) eqn:E; zb; [done|lia]).
  assert (copied conn sql (payloads_of conn os) t) as Hc.
  { apply (copied_ops conn sql os []); [done|]. apply copied_start. by rewrite Hmax. }
  unfold copied, copy_view in Hc. rewrite H0 in Hc. unfold copy_Done.
  destruct (total (payloads_of conn os) <=? max) eqn:E; injection Hc as -> _ ->; simpl; zb.
  - split; [done|]. by eexists.
  - split; [done|]. by eexists.
Qed.

Lemma copy_all_or_nothing_witness :
  (copy_Done MessagesDemo.conn1
     (foldl apply_copy (copy_Start MessagesDemo.conn1 [1] (NewCopyTrackerWithLimit 3))
        [(MessagesDemo.conn1, CopyPayload [7; 8]); (MessagesDemo.conn2, CopyPayload [9; 9; 9]);
         (MessagesDemo.conn1, CopyPayload [6])])).1 = Some ([1], [[7; 8]; [6]]).
Proof.
  assert (Forall (only_data MessagesDemo.conn1)
    [(MessagesDemo.conn1, CopyPayload [7; 8]); (MessagesDemo.conn2, CopyPayload [9; 9; 9]);
     (MessagesDemo.conn1, CopyPayload [6])]) as Hos
    by (repeat apply Forall_cons_2; try apply Forall_nil_2; intros _; by eexists).
  destruct (copy_all_or_nothing 3 [] _ MessagesDemo.conn1 [1] Hos) as [Hd _].
  etrans; [exact Hd|]. reflexivity.
Defined.
