(* ===== verification/Processor.v ===== *)
(** * The stream processor (src/pkg/pipeline/processor.go)

    Turns the ordered bytes of each direction of each connection into filtered
    events on the queue.  Calls into the queue and the metrics collector are the
    outputs, in the order they are made; [ts] stands for the [time.Now()] of the
    chunk.  Debug printing and its call counter are left out. *)
From Stdlib Require Import String Ascii.
From S2P Require Import Prelude Core Framing Messages Classifier ClassifierFacts Filter ConnState.

(** ** State *)
Inductive output :=
  | Enqueued (ev : SQLEvent)
  | ParseError
  | Classified (class : StmtClass) (kept : bool)
  | ExecTime (sql : list Z) (source : Z).

Record ConnParsers := MkConnParsers { Client : streamParser; Server : streamParser }.

Record StreamProcessor := MkProcessor {
  sp_cfg : ProtocolConfig; flt : filterImpl; sp_cls : list (list Z);
  sm : txStateMachine; eb : EventBuilder; txGen : TxIDGenerator;
  binder : BindCorrelator; copies : CopyTracker; timer : SourceExecTimer;
  parsers : gmap ConnID ConnParsers; sp_seq : gmap ConnID Z; lastSQL : gmap ConnID (list Z) }.

Definition set_sm (v : txStateMachine) (s : StreamProcessor) : StreamProcessor :=
  MkProcessor (sp_cfg s) (flt s) (sp_cls s) v (eb s) (txGen s) (binder s) (copies s) (timer s)
    (parsers s) (sp_seq s) (lastSQL s).
Definition set_eb (v : EventBuilder) (s : StreamProcessor) : StreamProcessor :=
  MkProcessor (sp_cfg s) (flt s) (sp_cls s) (sm s) v (txGen s) (binder s) (copies s) (timer s)
    (parsers s) (sp_seq s) (lastSQL s).
Definition set_txGen (v : TxIDGenerator) (s : StreamProcessor) : StreamProcessor :=
  MkProcessor (sp_cfg s) (flt s) (sp_cls s) (sm s) (eb s) v (binder s) (copies s) (timer s)
    (parsers s) (sp_seq s) (lastSQL s).
Definition set_binder (v : BindCorrelator) (s : StreamProcessor) : StreamProcessor :=
  MkProcessor (sp_cfg s) (flt s) (sp_cls s) (sm s) (eb s) (txGen s) v (copies s) (timer s)
    (parsers s) (sp_seq s) (lastSQL s).
Definition set_copies (v : CopyTracker) (s : StreamProcessor) : StreamProcessor :=
  MkProcessor (sp_cfg s) (flt s) (sp_cls s) (sm s) (eb s) (txGen s) (binder s) v (timer s)
    (parsers s) (sp_seq s) (lastSQL s).
Definition set_timer (v : SourceExecTimer) (s : StreamProcessor) : StreamProcessor :=
  MkProcessor (sp_cfg s) (flt s) (sp_cls s) (sm s) (eb s) (txGen s) (binder s) (copies s) v
    (parsers s) (sp_seq s) (lastSQL s).
Definition set_parsers (v : gmap ConnID ConnParsers) (s : StreamProcessor) : StreamProcessor :=
  MkProcessor (sp_cfg s) (flt s) (sp_cls s) (sm s) (eb s) (txGen s) (binder s) (copies s) (timer s)
    v (sp_seq s) (lastSQL s).
Definition set_seq (v : gmap ConnID Z) (s : StreamProcessor) : StreamProcessor :=
  MkProcessor (sp_cfg s) (flt s) (sp_cls s) (sm s) (eb s) (txGen s) (binder s) (copies s) (timer s)
    (parsers s) v (lastSQL s).
Definition set_lastSQL (v : gmap ConnID (list Z)) (s : StreamProcessor) : StreamProcessor :=
  MkProcessor (sp_cfg s) (flt s) (sp_cls s) (sm s) (eb s) (txGen s) (binder s) (copies s) (timer s)
    (parsers s) (sp_seq s) v.

(** ** A state monad that collects outputs *)
Definition M (A : Type) : Type := StreamProcessor → A * StreamProcessor * list output.
#[export] Instance M_ret : MRet M := λ A a s, (a, s, []).
#[export] Instance M_bind : MBind M := λ A B f m s,
  let '(a, s1, o1) := m s in let '(b, s2, o2) := f a s1 in (b, s2, o1 ++ o2).

Definition get {A} (f : StreamProcessor → A) : M A := λ s, (f s, s, []).
Definition modify (f : StreamProcessor → StreamProcessor) : M unit := λ s, ((), f s, []).
Definition output_ (o : output) : M unit := λ s, ((), s, [o]).
Definition when (b : bool) (m : M unit) : M unit := if b then m else mret ().

(** Message types. *)
Definition MsgParse : Z := 80.
Definition MsgBind : Z := 66.
Definition MsgCopyData : Z := 100.
Definition MsgCopyDone : Z := 99.
Definition MsgCopyFail : Z := 102.
Definition msgStartup : Z := 0.
Definition MsgCommandComplete : Z := 67.
Definition MsgReadyForQuery : Z := 90.

Section processor.
Context `{Unicode}.

Definition NewStreamProcessor (pcfg : ProtocolConfig) (fcfg : Config) : result filter_error StreamProcessor :=
  flt ← NewFilter fcfg;
  Ok (MkProcessor pcfg flt (NewClassifier (BuiltinFunctions fcfg)) NewStateMachine (NewEventBuilder pcfg)
        NewTxIDGenerator NewBindCorrelator NewCopyTracker NewSourceExecTimer ∅ ∅ ∅).

Definition resetPoolerSession (conn : ConnID) (s : StreamProcessor) : StreamProcessor :=
  let s := set_binder (bc_Forget conn (binder s)) s in
  let s := set_copies (copy_Discard conn (copies s)) s in
  let s := set_txGen (Reset conn (txGen s)) s in
  set_timer (timer_Forget conn (timer s)) s.

(** [strings.HasPrefix]. *)
Definition HasPrefix (s prefix : list Z) : bool := bool_decide (take (length prefix) s = prefix).

Definition isPoolerResetQuery (sql : list Z) : bool :=
  if zlen sql <? 9 then false else
  let upper := ToUpper (TrimSpace sql) in
  is_kw upper ["DISCARD ALL"; "RESET ALL"; "DEALLOCATE ALL"]%string ||
  HasPrefix upper (bytes_of "DISCARD ALL;") ||
  HasPrefix upper (bytes_of "RESET ALL;") ||
  HasPrefix upper (bytes_of "DEALLOCATE ALL;").

(** A new transaction group begins. *)
Definition begins_group (class : StmtClass) (cur : Z) : bool :=
  bool_decide (class = ClassBegin) ||
  ((cur =? 0) && bool_decide (class ∈ [ClassDML; ClassDDL; ClassCopyFrom])).

Definition stamp (ev : SQLEvent) (txid seq : Z) : SQLEvent :=
  SqlEvent (Conn ev) (SQL ev) (Timestamp ev) txid seq (Extended ev) (StmtName ev) (Params ev)
    (CopyData ev) (SourceExecTime ev) (User ev).

Definition dispatch (conn : ConnID) (ev : SQLEvent) : M unit :=
  class ← get (λ s, Classify (sp_cls s) (SQL ev));
  cur ← get (λ s, Current conn (txGen s));
  when (begins_group class cur) (modify (λ s, set_txGen (Advance conn (txGen s)) s)) ≫= λ _,
  txid ← get (λ s, Current conn (txGen s));
  modify (λ s, set_seq (<[conn := wrap 64 (default 0 (sp_seq s !! conn) + 1)]> (sp_seq s)) s) ≫= λ _,
  seq ← get (λ s, default 0 (sp_seq s !! conn));
  let ev := stamp ev txid seq in
  modify (λ s, set_lastSQL (<[conn := SQL ev]> (lastSQL s)) s) ≫= λ _,
  state ← get (λ s, State conn (sm s));
  decision ← get (λ s, Decide (flt s) (SQL ev) state);
  let '(action, _, (c, kept)) := decision in
  output_ (Classified c kept) ≫= λ _,
  when (bool_decide (action = Keep)) (output_ (Enqueued ev)) ≫= λ _,
  modify (λ s, set_sm (OnStatement conn class (sm s)) s) ≫= λ _,
  when (bool_decide (class = ClassCommitRollback)) (modify (λ s, set_txGen (Reset conn (txGen s)) s)) ≫= λ _,
  pooler ← get (λ s, ConnectionPooler (sp_cfg s));
  when (pooler && bool_decide (class = ClassUtility) && isPoolerResetQuery (SQL ev))
    (modify (resetPoolerSession conn)).

Definition startTimer (conn : ConnID) (ts : Z) : M unit :=
  modify (λ s, set_timer (OnClientQuery conn ts (timer s)) s).

(** [eb.Build] with its parse-error hook. *)
Definition build (conn : ConnID) (msg : PGMessage) (ts : Z) : M (option SQLEvent) :=
  r ← get (λ s, Build (eb s) conn msg ts);
  let '(ev, err, b) := r in
  modify (set_eb b) ≫= λ _, when err (output_ ParseError) ≫= λ _, mret ev.

Definition oidsOf (params : list ParamInfo) : list Z := OID <$> params.

Definition is_cancel (msg : PGMessage) : bool :=
  (Type_ msg =? msgStartup) && (4 <=? zlen (Payload_ msg)) &&
  (be_value (slice 0 4 (Payload_ msg)) =? cancelRequestCode).

Definition handleClient (conn : ConnID) (msg : PGMessage) (ts : Z) : M unit :=
  if is_cancel msg then mret ()
  else if Type_ msg =? MsgParse then
    ev ← build conn msg ts;
    match ev with
    | Some ev => modify (λ s, set_binder (OnParse conn (StmtName ev) (SQL ev) (oidsOf (Params ev)) (binder s)) s)
    | None => mret ()
    end
  else if Type_ msg =? MsgBind then
    res ← get (λ s, OnBind conn (Payload_ msg) (binder s));
    match res with
    | Some res =>
        dispatch conn (SqlEvent conn (br_SQL res) ts 0 0 true (br_StmtName res) (br_Params res) [] 0 []) ≫= λ _,
        startTimer conn ts
    | None => output_ ParseError
    end
  else if Type_ msg =? MsgCopyData then
    modify (λ s, set_copies (copy_Data conn (Payload_ msg) (copies s)).2 s)
  else if Type_ msg =? MsgCopyDone then
    done ← get (λ s, (copy_Done conn (copies s)).1);
    modify (λ s, set_copies (copy_Done conn (copies s)).2 s) ≫= λ _,
    match done with
    | Some (sql, data) => dispatch conn (SqlEvent conn sql ts 0 0 false [] [] data 0 [])
    | None => mret ()
    end
  else if Type_ msg =? MsgCopyFail then
    modify (λ s, set_copies (copy_Fail conn (copies s)) s)
  else
    ev ← build conn msg ts;
    match ev with
    | None => mret ()
    | Some ev =>
        class ← get (λ s, Classify (sp_cls s) (SQL ev));
        if decide (class = ClassCopyFrom) then
          modify (λ s, set_copies (copy_Start conn (SQL ev) (copies s)) s) ≫= λ _, startTimer conn ts
        else dispatch conn ev ≫= λ _, startTimer conn ts
    end.

Definition recordExec (conn : ConnID) (ts : Z) : M unit :=
  d ← get (λ s, (OnBackendComplete conn ts (timer s)).1);
  modify (λ s, set_timer (OnBackendComplete conn ts (timer s)).2 s) ≫= λ _,
  sql ← get (λ s, default [] (lastSQL s !! conn));
  match d with
  | Some d => when (negb (d <=? 0)) (output_ (ExecTime sql d))
  | None => mret ()
  end.

Definition handleServer (conn : ConnID) (msg : PGMessage) (ts : Z) : M unit :=
  if Type_ msg =? MsgReadyForQuery then
    match ExtractReadyForQuery msg with
    | Some status => modify (λ s, set_sm (OnReadyForQuery conn status (sm s)) s)
    | None => mret ()
    end ≫= λ _, recordExec conn ts
  else if Type_ msg =? MsgCommandComplete then recordExec conn ts
  else mret ().

(** The parsers of the connection, created on first use. *)
Definition parsersFor (conn : ConnID) (s : StreamProcessor) : ConnParsers :=
  default (MkConnParsers (NewParser true) (NewParser false)) (parsers s !! conn).

(** [Feed] always answers ([Framing.Feed_answers]). *)
Definition feed (p : streamParser) (data : list Z) : list PGMessage * option frame_error * streamParser :=
  default ([], None, p) (Feed p data).

Fixpoint each {A} (f : A → M unit) (l : list A) : M unit :=
  match l with
  | [] => mret ()
  | a :: l => f a ≫= λ _, each f l
  end.

Definition OnBytes (conn : ConnID) (fromClient : bool) (data : list Z) (ts : Z) : M unit :=
  cp ← get (parsersFor conn);
  let '(msgs, err, p) := feed (if fromClient then Client cp else Server cp) data in
  let cp := if fromClient then MkConnParsers p (Server cp) else MkConnParsers (Client cp) p in
  modify (λ s, set_parsers (<[conn := cp]> (parsers s)) s) ≫= λ _,
  when (bool_decide (is_Some err)) (output_ ParseError) ≫= λ _,
  each (λ m, if fromClient then handleClient conn m ts else handleServer conn m ts) msgs.

Definition OnClose (conn : ConnID) : M unit := modify (λ s,
  let s := set_sm (sm_Forget conn (sm s)) s in
  let s := set_binder (bc_Forget conn (binder s)) s in
  let s := set_copies (copy_Discard conn (copies s)) s in
  let s := set_timer (timer_Forget conn (timer s)) s in
  let s := set_txGen (Reset conn (txGen s)) s in
  let s := set_parsers (delete conn (parsers s)) s in
  let s := set_seq (delete conn (sp_seq s)) s in
  set_lastSQL (delete conn (lastSQL s)) s).

(** ** Runs *)
Inductive input := Bytes (conn : ConnID) (fromClient : bool) (data : list Z) (ts : Z) | Closed (conn : ConnID).

Definition step (i : input) : M unit :=
  match i with
  | Bytes conn fc data ts => OnBytes conn fc data ts
  | Closed conn => OnClose conn
  end.

Definition run (is_ : list input) : M unit := each step is_.
End processor.
