(* ===== verification/ProcessorFacts.v ===== *)
(** * What the stream processor guarantees (src/pkg/pipeline/processor.go)

    Connections do not interfere, events are numbered and grouped per connection,
    and a captured session becomes its statements. *)
From Stdlib Require Import String Ascii.
From S2P Require Import Prelude Core Framing Messages Classifier ClassifierFacts Filter ConnState Processor.

Create HintDb processor.

(** ** Running *)
Definition exec {A} (m : M A) (s : StreamProcessor) : StreamProcessor := (m s).1.2.
Definition outs {A} (m : M A) (s : StreamProcessor) : list output := (m s).2.
Definition val {A} (m : M A) (s : StreamProcessor) : A := (m s).1.1.

Section laws.
Context {A B : Type} (m : M A) (f : A → M B) (s : StreamProcessor).

Lemma val_bind : val (m ≫= f) s = val (f (val m s)) (exec m s).
Proof. unfold val, exec, mbind, M_bind. destruct (m s) as [[a s1] o1]. simpl. by destruct (f a s1) as [[??]?]. Qed.

Lemma exec_bind : exec (m ≫= f) s = exec (f (val m s)) (exec m s).
Proof. unfold val, exec, mbind, M_bind. destruct (m s) as [[a s1] o1]. simpl. by destruct (f a s1) as [[??]?]. Qed.

Lemma outs_bind : outs (m ≫= f) s = outs m s ++ outs (f (val m s)) (exec m s).
Proof. unfold outs, val, exec, mbind, M_bind. destruct (m s) as [[a s1] o1]. simpl. by destruct (f a s1) as [[??]?]. Qed.
End laws.

(** ** Dispatching, at once *)
Section dispatching.
Context `{Unicode}.

Definition tx_after (conn : ConnID) (class : StmtClass) (g : TxIDGenerator) : TxIDGenerator :=
  if begins_group class (Current conn g) then Advance conn g else g.

Definition next_seq (conn : ConnID) (seqs : gmap ConnID Z) : Z := wrap 64 (default 0 (seqs !! conn) + 1).

(** The state after [dispatch], before the pooler reset. *)
Definition dispatched (conn : ConnID) (sql : list Z) (s : StreamProcessor) : StreamProcessor :=
  let class := Classify (sp_cls s) sql in
  let g := tx_after conn class (txGen s) in
  MkProcessor (sp_cfg s) (flt s) (sp_cls s) (OnStatement conn class (sm s)) (eb s)
    (if bool_decide (class = ClassCommitRollback) then Reset conn g else g)
    (binder s) (copies s) (timer s) (parsers s)
    (<[conn := next_seq conn (sp_seq s)]> (sp_seq s)) (<[conn := sql]> (lastSQL s)).

Definition pooler_reset (sql : list Z) (s : StreamProcessor) : bool :=
  ConnectionPooler (sp_cfg s) && bool_decide (Classify (sp_cls s) sql = ClassUtility) && isPoolerResetQuery sql.

Definition dispatch_outs (conn : ConnID) (ev : SQLEvent) (s : StreamProcessor) : list output :=
  let '(action, _, (c, kept)) := Decide (flt s) (SQL ev) (State conn (sm s)) in
  let g := tx_after conn (Classify (sp_cls s) (SQL ev)) (txGen s) in
  Classified c kept ::
  if bool_decide (action = Keep) then [Enqueued (stamp ev (Current conn g) (next_seq conn (sp_seq s)))] else [].

Lemma dispatch_spec conn ev s :
  dispatch conn ev s =
  ((), (if pooler_reset (SQL ev) s then resetPoolerSession conn else id) (dispatched conn (SQL ev) s),
   dispatch_outs conn ev s).
Proof.
  unfold dispatch, dispatch_outs, pooler_reset, dispatched, tx_after, next_seq.
  cbv [mbind M_bind get modify output_ when mret M_ret].
  destruct (begins_group _ _); simpl; rewrite lookup_insert_eq; simpl;
    set (k := bool_decide (filter_decide _ _ _ _ = Keep)); destruct k;
    destruct (bool_decide (Classify (sp_cls s) (SQL ev) = ClassCommitRollback)); simpl;
    destruct (_ && _ && _); done.
Qed.
End dispatching.

(** ** Isolation *)

(** What the processor holds for one connection; of the transaction group only
    whether there is one, since its number comes from a shared counter. *)
Definition view (c : ConnID) (s : StreamProcessor) :=
  (sp_cfg s, flt s, sp_cls s, states (sm s) !! c, (eb_cfg (eb s), eb_seq (eb s) !! c),
   Current c (txGen s) =? 0, parsed (binder s) !! c,
   (active (copies s) !! c, sizes (copies s) !! c, overflow (copies s) !! c, maxBytes (copies s)),
   pending (timer s) !! c, parsers s !! c, sp_seq s !! c, lastSQL s !! c).

(** An output without the group number. *)
Definition anonymous (o : output) : output :=
  match o with Enqueued ev => Enqueued (stamp ev 0 (Seq ev)) | _ => o end.

(** The counter is far enough from wrapping for [n] more groups. *)
Definition room (n : Z) (s : StreamProcessor) : Prop :=
  0 ≤ counter (txGen s) ∧ counter (txGen s) + n < 2 ^ 64.

(** From two states that look the same to [c], [m] gives the same value, the same
    outputs and states that look the same to [c]. *)
Definition iso {A} (c : ConnID) (m : M A) : Prop := ∀ s1 s2,
  view c s1 = view c s2 → room (zlen (outs m s1)) s1 → room (zlen (outs m s1)) s2 →
  val m s1 = val m s2 ∧ view c (exec m s1) = view c (exec m s2) ∧
  anonymous <$> outs m s1 = anonymous <$> outs m s2.

(** At most one group is opened per output. *)
Definition slow {A} (m : M A) : Prop := ∀ s,
  0 ≤ counter (txGen s) →
  0 ≤ counter (txGen (exec m s)) ≤ counter (txGen s) + zlen (outs m s).

Lemma slow_bind {A B} (m : M A) (f : A → M B) : slow m → (∀ a, slow (f a)) → slow (m ≫= f).
Proof.
  intros Hm Hf s Hs. rewrite exec_bind, outs_bind, zlen_app.
  pose proof (Hm s Hs). pose proof (Hf (val m s) (exec m s) ltac:(lia)). lia.
Qed.

Lemma anonymous_length (os1 os2 : list output) : anonymous <$> os1 = anonymous <$> os2 → zlen os1 = zlen os2.
Proof. intros Heq%(f_equal length). rewrite !length_fmap in Heq. unfold zlen. lia. Qed.

Lemma iso_bind {A B} c (m : M A) (f : A → M B) :
  iso c m → slow m → (∀ a, iso c (f a)) → iso c (m ≫= f).
Proof.
  intros Hm Hs Hf s1 s2 Hv Hr1 Hr2. rewrite outs_bind, zlen_app in Hr1, Hr2.
  pose proof (zlen_nonneg (outs m s1)). pose proof (zlen_nonneg (outs (f (val m s1)) (exec m s1))).
  destruct Hr1 as [Hc1 Hr1], Hr2 as [Hc2 Hr2].
  destruct (Hm s1 s2 Hv ltac:(split; lia) ltac:(split; lia)) as (Ev & Ew & Eo).
  pose proof (anonymous_length _ _ Eo) as El. pose proof (Hs s1 Hc1). pose proof (Hs s2 Hc2).
  rewrite !val_bind, !exec_bind, !outs_bind, !fmap_app, Eo, <- Ev.
  destruct (Hf (val m s1) _ _ Ew ltac:(split; lia) ltac:(split; lia)) as (-> & -> & ->). done.
Qed.

Lemma iso_get {A} c (f : StreamProcessor → A) :
  (∀ s1 s2, view c s1 = view c s2 → f s1 = f s2) → iso c (get f).
Proof. intros Hf s1 s2 Hv _ _. split; [by apply Hf|done]. Qed.

Lemma iso_modify c (f : StreamProcessor → StreamProcessor) :
  (∀ s1 s2, view c s1 = view c s2 → view c (f s1) = view c (f s2)) → iso c (modify f).
Proof. intros Hf s1 s2 Hv _ _. split; [done|]. split; [by apply Hf|done]. Qed.

Lemma iso_output c o : iso c (output_ o).
Proof. by intros s1 s2 Hv _ _. Qed.

Lemma iso_ret {A} c (a : A) : iso c (mret a).
Proof. by intros s1 s2 Hv _ _. Qed.

Lemma iso_when c b m : iso c m → iso c (when b m).
Proof. destruct b; [done|]. intros. apply iso_ret. Qed.

Lemma slow_keep {A} (m : M A) : (∀ s, counter (txGen (exec m s)) = counter (txGen s)) → slow m.
Proof. intros Hm s Hs. rewrite Hm. pose proof (zlen_nonneg (outs m s)). lia. Qed.

Lemma slow_when b m : slow m → slow (when b m).
Proof. destruct b; [done|]. intros. by apply slow_keep. Qed.

(** Case analysis on equal views. *)
Ltac same_view :=
  intros s1 s2 Hv; unfold view in *; simplify_eq/=;
  repeat match goal with
  | H : ?a = ?b |- context [?a] => rewrite H
  end;
  repeat (rewrite ?lookup_insert_eq, ?lookup_delete_eq); try done.

Ltac rewrite_view Hv :=
  unfold view in Hv; injection Hv as ????????????????;
  repeat match goal with E : ?x = ?y |- context [?x] => rewrite E end.

Section isolation.
Context `{Unicode}.
Variable c : ConnID.

Lemma Current_Advance g : 0 ≤ counter g → counter g + 1 < 2 ^ 64 → (Current c (Advance c g) =? 0) = false.
Proof.
  intros H0 H1. unfold Current, Advance. simpl. rewrite lookup_insert_eq. simpl.
  rewrite wrap_small by (unfold in_width; lia). apply Z.eqb_neq. lia.
Qed.

Lemma Current_Reset g : Current c (Reset c g) = 0.
Proof. unfold Current, Reset. simpl. by rewrite lookup_delete_eq. Qed.

Lemma slow_dispatch conn ev : slow (dispatch conn ev).
Proof.
  intros s Hs. unfold exec, outs. rewrite dispatch_spec. simpl.
  assert (1 ≤ zlen (dispatch_outs conn ev s)) as Hl.
  { unfold dispatch_outs. destruct (Decide _ _ _) as [[??] [??]]. rewrite zlen_cons.
    match goal with |- _ ≤ 1 + zlen ?l => pose proof (zlen_nonneg l) end. lia. }
  assert (0 ≤ counter (tx_after conn (Classify (sp_cls s) (SQL ev)) (txGen s)) ≤ counter (txGen s) + 1) as Hc.
  { unfold tx_after. destruct (begins_group _ _); [|lia]. simpl. unfold wrap.
    split; [by apply Z.mod_pos_bound|apply Z.mod_le; lia]. }
  destruct (pooler_reset _ _); simpl; destruct (bool_decide _); simpl; lia.
Qed.

(** Whether there is a group after a statement of class [class]. *)
Lemma tx_after_same class g1 g2 :
  (Current c g1 =? 0) = (Current c g2 =? 0) →
  0 ≤ counter g1 → counter g1 + 1 < 2 ^ 64 → 0 ≤ counter g2 → counter g2 + 1 < 2 ^ 64 →
  (Current c (tx_after c class g1) =? 0) = (Current c (tx_after c class g2) =? 0).
Proof.
  intros Hg ????. unfold tx_after, begins_group. rewrite <- Hg.
  destruct (_ || _); [by rewrite !Current_Advance|done].
Qed.

Lemma reset_view s1 s2 :
  view c s1 = view c s2 → view c (resetPoolerSession c s1) = view c (resetPoolerSession c s2).
Proof.
  revert s1 s2. same_view. unfold Current, Reset. simpl. by rewrite !lookup_delete_eq.
Qed.

Lemma dispatched_view sql s1 s2 :
  view c s1 = view c s2 → room 1 s1 → room 1 s2 →
  view c (dispatched c sql s1) = view c (dispatched c sql s2).
Proof.
  intros Hv [Ha1 Hb1] [Ha2 Hb2]. unfold view, dispatched in *. simplify_eq/=.
  rewrite !lookup_insert_eq. unfold next_seq.
  repeat match goal with E : ?x = ?y |- context [?x] => rewrite E end.
  set (class := Classify (sp_cls s2) sql).
  assert (states (OnStatement c class (sm s1)) !! c = states (OnStatement c class (sm s2)) !! c) as ->
    by (destruct class; simpl; by rewrite ?lookup_insert_eq).
  destruct (bool_decide _); [by rewrite !Current_Reset|].
  by rewrite (tx_after_same class (txGen s1) (txGen s2)).
Qed.

Lemma dispatch_outs_same ev s1 s2 :
  view c s1 = view c s2 →
  anonymous <$> dispatch_outs c ev s1 = anonymous <$> dispatch_outs c ev s2.
Proof.
  intros Hv. unfold dispatch_outs, State, next_seq. rewrite_view Hv.
  destruct (Decide _ _ _) as [[action cl] [cl' kept]]. by destruct (bool_decide _).
Qed.

Lemma iso_dispatch ev : iso c (dispatch c ev).
Proof.
  intros s1 s2 Hv Hr1 Hr2. unfold val, exec, outs in *. rewrite !dispatch_spec in *. simpl in *.
  assert (1 ≤ zlen (dispatch_outs c ev s1)) as Hl.
  { unfold dispatch_outs. destruct (Decide _ _ _) as [[??] [??]]. rewrite zlen_cons.
    match goal with |- _ ≤ 1 + zlen ?l => pose proof (zlen_nonneg l) end. lia. }
  split; [done|]. split; [|by apply dispatch_outs_same].
  assert (view c (dispatched c (SQL ev) s1) = view c (dispatched c (SQL ev) s2)) as Hd
    by (apply dispatched_view; [done|destruct Hr1; split; lia|destruct Hr2; split; lia]).
  replace (pooler_reset (SQL ev) s1) with (pooler_reset (SQL ev) s2)
    by (unfold pooler_reset; by rewrite_view Hv).
  destruct (pooler_reset _ _); [by apply reset_view|done].
Qed.

Lemma Build_same b1 b2 msg ts :
  eb_cfg b1 = eb_cfg b2 → eb_seq b1 !! c = eb_seq b2 !! c →
  (Build b1 c msg ts).1 = (Build b2 c msg ts).1 ∧
  eb_cfg (Build b1 c msg ts).2 = eb_cfg (Build b2 c msg ts).2 ∧
  eb_seq (Build b1 c msg ts).2 !! c = eb_seq (Build b2 c msg ts).2 !! c.
Proof.
  intros Hc Hs. unfold Build, oversized, emit. rewrite Hc, Hs.
  repeat case_match; simplify_eq; simpl; rewrite ?lookup_insert_eq; done.
Qed.

Lemma iso_build msg ts : iso c (build c msg ts).
Proof.
  intros s1 s2 Hv _ _. unfold view in Hv. injection Hv as ???? Hec Hes ??????????.
  destruct (Build_same _ _ msg ts Hec Hes) as (E1 & E2 & E3).
  unfold val, exec, outs, build. cbv [mbind M_bind get modify output_ when mret M_ret].
  destruct (Build (eb s1) c msg ts) as [[ev1 err1] b1], (Build (eb s2) c msg ts) as [[ev2 err2] b2].
  simpl in *. simplify_eq. unfold view. destruct err2; simpl; split_and!; try done;
    by repeat match goal with E : ?x = ?y |- context [?x] => rewrite E end.
Qed.

Lemma slow_build conn msg ts : slow (build conn msg ts).
Proof.
  apply slow_keep. intros s. unfold exec, build. cbv [mbind M_bind get modify output_ when mret M_ret].
  by destruct (Build (eb s) conn msg ts) as [[ev []] b].
Qed.

Lemma slow_get {A} (f : StreamProcessor → A) : slow (get f).
Proof. by apply slow_keep. Qed.

Lemma slow_output o : slow (output_ o).
Proof. by apply slow_keep. Qed.

Lemma slow_ret {A} (a : A) : slow (mret a).
Proof. by apply slow_keep. Qed.

Lemma slow_modify f : (∀ s, counter (txGen (f s)) = counter (txGen s)) → slow (modify f).
Proof. intros Hf. by apply slow_keep. Qed.

Lemma slow_each {A} (f : A → M unit) l : (∀ a, slow (f a)) → slow (each f l).
Proof. intros Hf. induction l; [apply slow_ret|]. by apply slow_bind. Qed.

Lemma iso_each {A} (f : A → M unit) l : (∀ a, iso c (f a)) → (∀ a, slow (f a)) → iso c (each f l).
Proof. intros Hf Hs. induction l; [apply iso_ret|]. by apply iso_bind. Qed.

Hint Resolve slow_bind slow_get slow_output slow_ret slow_each slow_when slow_build slow_dispatch
  iso_bind iso_ret iso_output iso_when iso_each iso_build iso_dispatch : processor.
Hint Extern 1 (slow (modify _)) => by apply slow_modify : processor.

Lemma copy_Data_view payload t1 t2 :
  active t1 !! c = active t2 !! c → sizes t1 !! c = sizes t2 !! c → overflow t1 !! c = overflow t2 !! c →
  maxBytes t1 = maxBytes t2 →
  let u1 := (copy_Data c payload t1).2 in let u2 := (copy_Data c payload t2).2 in
  active u1 !! c = active u2 !! c ∧ sizes u1 !! c = sizes u2 !! c ∧ overflow u1 !! c = overflow u2 !! c ∧
  maxBytes u1 = maxBytes u2.
Proof.
  intros Ha Hs Ho Hm. unfold copy_Data. rewrite Ha, Hs, Ho, Hm.
  repeat case_match; simpl; rewrite ?lookup_insert_eq; split_and!; congruence.
Qed.

Lemma iso_startTimer ts : iso c (startTimer c ts).
Proof. apply iso_modify. same_view. Qed.

Lemma iso_handleClient msg ts : iso c (handleClient c msg ts).
Proof.
  pose proof iso_startTimer. unfold handleClient.
  destruct (is_cancel msg); [auto with processor|].
  destruct (Type_ msg =? MsgParse).
  { apply iso_bind; [auto with processor..|]. intros [ev|]; [|auto with processor].
    apply iso_modify. same_view. }
  destruct (Type_ msg =? MsgBind).
  { apply iso_bind; [|auto with processor|].
    - apply iso_get. intros s1 s2 Hv. unfold OnBind. by rewrite_view Hv.
    - intros [res|]; auto with processor. }
  destruct (Type_ msg =? MsgCopyData).
  { apply iso_modify. intros s1 s2 Hv. unfold view in *. injection Hv as ???????? Ha Hs Ho Hm ????.
    simpl. destruct (copy_Data_view (Payload_ msg) _ _ Ha Hs Ho Hm) as (-> & -> & -> & ->).
    by repeat match goal with E : ?x = ?y |- context [?x] => rewrite E end. }
  destruct (Type_ msg =? MsgCopyDone).
  { apply iso_bind; [|auto with processor|].
    - apply iso_get. intros s1 s2 Hv. unfold copy_Done. by rewrite_view Hv.
    - intros done. apply iso_bind; [|auto with processor|intros _; destruct done as [[sql data]|]; auto with processor].
      apply iso_modify. same_view. }
  destruct (Type_ msg =? MsgCopyFail); [apply iso_modify; same_view|].
  apply iso_bind; [auto with processor..|]. intros [ev|]; [|auto with processor].
  apply iso_bind; [|auto with processor|].
  - apply iso_get. intros s1 s2 Hv. by rewrite_view Hv.
  - intros class. case_decide; [|auto with processor].
    apply iso_bind; [|auto with processor|auto with processor]. apply iso_modify. same_view.
Qed.

Lemma slow_handleClient conn msg ts : slow (handleClient conn msg ts).
Proof.
  assert (slow (startTimer conn ts)) by (by apply slow_modify).
  unfold handleClient. repeat case_match; auto with processor.
  - apply slow_bind; [auto with processor|]. intros [ev|]; auto with processor.
  - apply slow_bind; [auto with processor|]. intros [res|]; auto with processor.
  - apply slow_bind; [auto with processor|]. intros done. apply slow_bind; [auto with processor|].
    intros _. destruct done as [[sql data]|]; auto with processor.
  - apply slow_bind; [auto with processor|]. intros [ev|]; [|auto with processor].
    apply slow_bind; [auto with processor|]. intros class. case_decide; auto with processor.
Qed.

Lemma iso_recordExec ts : iso c (recordExec c ts).
Proof.
  unfold recordExec. apply iso_bind; [|auto with processor|].
  { apply iso_get. intros s1 s2 Hv. unfold OnBackendComplete. rewrite_view Hv. by case_match. }
  intros d. apply iso_bind; [|auto with processor|].
  { apply iso_modify. intros s1 s2 Hv. unfold view, OnBackendComplete in *. injection Hv as ???????????? Hp ???. rewrite Hp.
    case_match; simpl; rewrite ?lookup_delete_eq;
      by repeat match goal with E : ?x = ?y |- context [?x] => rewrite E end. }
  intros _. apply iso_bind; [|auto with processor|].
  { apply iso_get. intros s1 s2 Hv. by rewrite_view Hv. }
  intros sql. destruct d; auto with processor.
Qed.

Lemma slow_recordExec conn ts : slow (recordExec conn ts).
Proof.
  unfold recordExec. apply slow_bind; [auto with processor|]. intros d.
  apply slow_bind; [auto with processor|]. intros _. apply slow_bind; [auto with processor|].
  intros sql. destruct d; auto with processor.
Qed.

Lemma iso_handleServer msg ts : iso c (handleServer c msg ts).
Proof.
  pose proof iso_recordExec. unfold handleServer. destruct (Type_ msg =? MsgReadyForQuery).
  - destruct (ExtractReadyForQuery msg) as [status|]; [|auto with processor].
    apply iso_bind; [|auto with processor|done]. apply iso_modify. intros s1 s2 Hv.
    unfold view, OnReadyForQuery in *. injection Hv as ??? Hs ????????????.
    repeat case_match; simpl; rewrite ?lookup_insert_eq;
      by repeat match goal with E : ?x = ?y |- context [?x] => rewrite E end.
  - destruct (_ =? _); auto with processor.
Qed.

Lemma slow_handleServer conn msg ts : slow (handleServer conn msg ts).
Proof.
  pose proof (slow_recordExec conn ts). unfold handleServer.
  repeat case_match; auto with processor.
Qed.

Lemma iso_OnBytes fc data ts : iso c (OnBytes c fc data ts).
Proof.
  pose proof iso_handleClient. pose proof iso_handleServer.
  pose proof (slow_handleClient c). pose proof (slow_handleServer c).
  unfold OnBytes. apply iso_bind; [|auto with processor|].
  { apply iso_get. intros s1 s2 Hv. unfold parsersFor. by rewrite_view Hv. }
  intros cp. destruct (feed _ _) as [[msgs err] p]. apply iso_bind; [|auto with processor|].
  { apply iso_modify. same_view. }
  intros _. apply iso_bind; [auto with processor..|]. intros _.
  apply iso_each; intros m; by destruct fc.
Qed.

Lemma slow_OnBytes conn fc data ts : slow (OnBytes conn fc data ts).
Proof.
  pose proof (slow_handleClient conn). pose proof (slow_handleServer conn).
  unfold OnBytes. apply slow_bind; [auto with processor|]. intros cp. destruct (feed _ _) as [[msgs err] p].
  apply slow_bind; [auto with processor|]. intros _. apply slow_bind; [auto with processor|]. intros _.
  apply slow_each. intros m. by destruct fc.
Qed.

Lemma iso_OnClose : iso c (OnClose c).
Proof. apply iso_modify. same_view. by rewrite !Current_Reset. Qed.
End isolation.

(** ** Other connections *)

(** No event of [c]. *)
Definition foreign (c : ConnID) (o : output) : Prop :=
  match o with Enqueued ev => Conn ev ≠ c | _ => True end.

(** [m] does nothing [c] could notice, and its value satisfies [Q]. *)
Definition quiet {A} (c : ConnID) (Q : A → Prop) (m : M A) : Prop := ∀ s,
  view c (exec m s) = view c s ∧ Forall (foreign c) (outs m s) ∧ Q (val m s).

Lemma quiet_bind {A B} c (Q : A → Prop) (R : B → Prop) (m : M A) (f : A → M B) :
  quiet c Q m → (∀ a, Q a → quiet c R (f a)) → quiet c R (m ≫= f).
Proof.
  intros Hm Hf s. destruct (Hm s) as (E1 & E2 & E3). destruct (Hf _ E3 (exec m s)) as (F1 & F2 & F3).
  rewrite exec_bind, outs_bind, val_bind, F1. split_and!; [done|by apply Forall_app_2|done].
Qed.

Abbreviation quietly c m := (quiet c (λ _, True) m).

Lemma quiet_get {A} c (f : StreamProcessor → A) : quietly c (get f).
Proof. by intros s. Qed.

Lemma quiet_ret {A} c (a : A) : quietly c (mret a).
Proof. by intros s. Qed.

Lemma quiet_modify c f : (∀ s, view c (f s) = view c s) → quietly c (modify f).
Proof. intros Hf s. split_and!; [by apply Hf|by constructor|done]. Qed.

Lemma quiet_output c o : foreign c o → quietly c (output_ o).
Proof. intros Ho s. split_and!; [done|by apply Forall_singleton|done]. Qed.

Lemma quiet_when c b m : quietly c m → quietly c (when b m).
Proof. destruct b; [done|]. intros. apply quiet_ret. Qed.

Lemma quiet_each {A} c (f : A → M unit) l : (∀ a, quietly c (f a)) → quietly c (each f l).
Proof. intros Hf. induction l; [apply quiet_ret|]. eapply quiet_bind; [by apply Hf|done]. Qed.

Section others.
Context `{Unicode}.
Variables c conn : ConnID.
Hypothesis Hne : conn ≠ c.

Ltac other_view :=
  intros s; unfold view, Current; simpl;
  repeat (rewrite ?lookup_insert_ne, ?lookup_delete_ne by done); try done.

Lemma tx_after_other class g : Current c (tx_after conn class g) = Current c g.
Proof. unfold tx_after, Current. destruct (begins_group _ _); [|done]. simpl. by rewrite lookup_insert_ne. Qed.

Lemma Current_Reset_other g : Current c (Reset conn g) = Current c g.
Proof. unfold Current. simpl. by rewrite lookup_delete_ne. Qed.

Lemma reset_other s : view c (resetPoolerSession conn s) = view c s.
Proof. revert s. other_view. Qed.

Lemma OnStatement_other class m : states (OnStatement conn class m) !! c = states m !! c.
Proof. destruct class; simpl; by rewrite ?lookup_insert_ne. Qed.

Lemma dispatched_other sql s : view c (dispatched conn sql s) = view c s.
Proof.
  unfold view, dispatched. simpl. rewrite OnStatement_other, !lookup_insert_ne by done.
  destruct (bool_decide _); by rewrite ?Current_Reset_other, tx_after_other.
Qed.

Lemma quiet_dispatch ev : Conn ev = conn → quietly c (dispatch conn ev).
Proof.
  intros Hev s. unfold exec, outs, val. rewrite dispatch_spec. simpl. split_and!; [| |done].
  - destruct (pooler_reset _ _); simpl; by rewrite ?reset_other, dispatched_other.
  - unfold dispatch_outs. destruct (Decide _ _ _) as [[??] [??]]. constructor; [done|].
    destruct (bool_decide _); [|done]. apply Forall_singleton. simpl. by rewrite Hev.
Qed.

Lemma quiet_build msg ts :
  quiet c (λ ev, ∀ e, ev = Some e → Conn e = conn) (build conn msg ts).
Proof.
  intros s. unfold exec, outs, val, build. cbv [mbind M_bind get modify output_ when mret M_ret].
  unfold Build, emit. unfold view. repeat case_match; simplify_eq; simpl; rewrite ?lookup_insert_ne by done;
    (split_and!; [done|by repeat constructor|naive_solver]).
Qed.

Lemma quiet_startTimer ts : quietly c (startTimer conn ts).
Proof. apply quiet_modify. other_view. Qed.

Lemma copy_Data_other payload t :
  let u := (copy_Data conn payload t).2 in
  active u !! c = active t !! c ∧ sizes u !! c = sizes t !! c ∧ overflow u !! c = overflow t !! c ∧
  maxBytes u = maxBytes t.
Proof. unfold copy_Data. repeat case_match; simpl; by rewrite ?lookup_insert_ne. Qed.

Hint Resolve quiet_ret quiet_get quiet_when quiet_dispatch quiet_startTimer quiet_build : processor.
Hint Extern 1 (quietly _ (output_ _)) => by apply quiet_output : processor.

Lemma quiet_handleClient msg ts : quietly c (handleClient conn msg ts).
Proof.
  unfold handleClient. destruct (is_cancel msg); [auto with processor|].
  destruct (Type_ msg =? MsgParse).
  { eapply quiet_bind; [apply quiet_build|]. intros [ev|] _; [|auto with processor]. apply quiet_modify. other_view. }
  destruct (Type_ msg =? MsgBind).
  { eapply quiet_bind; [apply quiet_get|]. intros [res|] _; [|auto with processor].
    eapply quiet_bind; [by apply quiet_dispatch|auto with processor]. }
  destruct (Type_ msg =? MsgCopyData).
  { apply quiet_modify. intros s. unfold view. simpl.
    by destruct (copy_Data_other (Payload_ msg) (copies s)) as (-> & -> & -> & ->). }
  destruct (Type_ msg =? MsgCopyDone).
  { eapply quiet_bind; [apply quiet_get|]. intros done _. eapply quiet_bind; [apply quiet_modify; other_view|].
    intros _ _. destruct done as [[sql data]|]; auto with processor. }
  destruct (Type_ msg =? MsgCopyFail); [apply quiet_modify; other_view|].
  eapply quiet_bind; [apply quiet_build|]. intros [ev|] Hev; [|auto with processor].
  eapply quiet_bind; [apply quiet_get|]. intros class _. case_decide.
  - eapply quiet_bind; [apply quiet_modify; other_view|auto with processor].
  - eapply quiet_bind; [by apply quiet_dispatch, Hev|auto with processor].
Qed.

Lemma quiet_recordExec ts : quietly c (recordExec conn ts).
Proof.
  unfold recordExec. eapply quiet_bind; [apply quiet_get|]. intros d _. eapply quiet_bind.
  { apply quiet_modify. intros s. unfold view, OnBackendComplete. case_match; simpl; by rewrite ?lookup_delete_ne. }
  intros _ _. eapply quiet_bind; [apply quiet_get|]. intros sql _. destruct d; auto with processor.
Qed.

Lemma quiet_handleServer msg ts : quietly c (handleServer conn msg ts).
Proof.
  pose proof quiet_recordExec. unfold handleServer. destruct (Type_ msg =? MsgReadyForQuery).
  - eapply quiet_bind; [|done]. destruct (ExtractReadyForQuery msg); [|auto with processor].
    apply quiet_modify. intros s. unfold view, OnReadyForQuery. repeat case_match; simpl; by rewrite ?lookup_insert_ne.
  - destruct (_ =? _); auto with processor.
Qed.

Lemma quiet_OnBytes fc data ts : quietly c (OnBytes conn fc data ts).
Proof.
  pose proof quiet_handleClient. pose proof quiet_handleServer.
  unfold OnBytes. eapply quiet_bind; [apply quiet_get|]. intros cp _. destruct (feed _ _) as [[msgs err] p].
  eapply quiet_bind; [apply quiet_modify; other_view|]. intros _ _.
  eapply quiet_bind; [auto with processor|]. intros _ _. apply quiet_each. intros m. by destruct fc.
Qed.

Lemma quiet_OnClose : quietly c (OnClose conn).
Proof. apply quiet_modify. other_view. Qed.
End others.

(** ** The isolation theorem *)
Definition input_conn (i : input) : ConnID := match i with Bytes c _ _ _ => c | Closed c => c end.

(** The events enqueued for a connection, without their group numbers. *)
Definition event_of (c : ConnID) (o : output) : option SQLEvent :=
  match o with
  | Enqueued ev => if decide (Conn ev = c) then Some (stamp ev 0 (Seq ev)) else None
  | _ => None
  end.

Definition events_of (c : ConnID) (os : list output) : list SQLEvent := omap (event_of c) os.

Lemma events_of_app c os1 os2 : events_of c (os1 ++ os2) = events_of c os1 ++ events_of c os2.
Proof. apply omap_app. Qed.

Lemma events_of_cons c o os : events_of c (o :: os) = option_list (event_of c o) ++ events_of c os.
Proof. unfold events_of. simpl. by destruct (event_of c o). Qed.

Lemma event_of_anonymous c o : event_of c (anonymous o) = event_of c o.
Proof. by destruct o. Qed.

Lemma events_of_anonymous c os1 os2 :
  anonymous <$> os1 = anonymous <$> os2 → events_of c os1 = events_of c os2.
Proof.
  enough (∀ os, events_of c (anonymous <$> os) = events_of c os) as He.
  { intros E. by rewrite <- (He os1), E, He. }
  intros os. induction os as [|o os IH]; [done|].
  by rewrite fmap_cons, !events_of_cons, IH, event_of_anonymous.
Qed.

Lemma events_of_foreign c os : Forall (foreign c) os → events_of c os = [].
Proof.
  induction 1 as [|o os Ho _ IH]; [done|]. rewrite events_of_cons, IH.
  destruct o as [ev| | |]; simpl in *; [|done..]. by rewrite decide_False.
Qed.

Section runs.
Context `{Unicode}.
Variable c : ConnID.

Lemma iso_step i : input_conn i = c → iso c (step i).
Proof. destruct i; simpl; intros ->; [apply iso_OnBytes|apply iso_OnClose]. Qed.

Lemma slow_step i : slow (step i).
Proof. destruct i; [apply slow_OnBytes|by apply slow_modify]. Qed.

Lemma quiet_step i : input_conn i ≠ c → quietly c (step i).
Proof. destruct i; simpl; intros Hi; [by apply quiet_OnBytes|by apply quiet_OnClose]. Qed.

Definition own (is_ : list input) : list input := List.filter (λ i, bool_decide (input_conn i = c)) is_.

Lemma run_cons i is_ s :
  exec (run (i :: is_)) s = exec (run is_) (exec (step i) s) ∧
  outs (run (i :: is_)) s = outs (step i) s ++ outs (run is_) (exec (step i) s).
Proof.
  unfold run. cbn [each]. by rewrite exec_bind, outs_bind.
Qed.

Lemma run_own is_ : ∀ s1 s2,
  view c s1 = view c s2 → room (zlen (outs (run is_) s1)) s1 → room (zlen (outs (run is_) s1)) s2 →
  events_of c (outs (run is_) s1) = events_of c (outs (run (own is_)) s2).
Proof.
  induction is_ as [|i is_ IH]; intros s1 s2 Hv Hr1 Hr2; [done|].
  destruct (run_cons i is_ s1) as [_ ->], (run_cons i is_ s1) as [_ Ho] in Hr1, Hr2.
  rewrite Ho, zlen_app in Hr1, Hr2. destruct Hr1 as [Hc1 Hr1], Hr2 as [Hc2 Hr2].
  pose proof (zlen_nonneg (outs (step i) s1)). pose proof (zlen_nonneg (outs (run is_) (exec (step i) s1))).
  pose proof (slow_step i s1 Hc1). pose proof (slow_step i s2 Hc2).
  rewrite events_of_app. unfold own. cbn [List.filter]. destruct (bool_decide _) eqn:E.
  - apply bool_decide_eq_true in E.
    destruct (iso_step i E s1 s2 Hv ltac:(split; lia) ltac:(split; lia)) as (_ & Ew & Eo).
    pose proof (anonymous_length _ _ Eo).
    destruct (run_cons i (own is_) s2) as [_ Ho2]. fold (own is_). rewrite Ho2, events_of_app.
    rewrite (events_of_anonymous c _ _ Eo). f_equal. apply IH; [done|split; lia..].
  - apply bool_decide_eq_false in E. destruct (quiet_step i E s1) as (Ew & Ef & _).
    rewrite (events_of_foreign _ _ Ef). apply IH; [by rewrite Ew|split; lia..].
Qed.
End runs.

(** Connections never interfere.  For every interleaving of bytes and closes of
    any number of connections, the events enqueued for a connection are exactly
    those that feeding its own bytes alone would enqueue: same statements, same
    parameters and COPY data, same sequence numbers and filter decisions, in the
    same order.  Only the number of the transaction group comes from a counter
    all connections share (and the run is shorter than 2^64 outputs). *)
Theorem processor_isolation `{Unicode} (pcfg : ProtocolConfig) (fcfg : Config) (s : StreamProcessor)
    (c : ConnID) (is_ : list input) :
  NewStreamProcessor pcfg fcfg = Ok s → zlen (outs (run is_) s) < 2 ^ 64 →
  events_of c (outs (run is_) s) = events_of c (outs (run (own c is_)) s).
Proof.
  intros Hs Hl. assert (counter (txGen s) = 0) as Hc.
  { unfold NewStreamProcessor in Hs. destruct (NewFilter fcfg); by simplify_eq/=. }
  apply run_own; [done|split; lia..].
Qed.
