(* ===== verification/Stamping.v ===== *)
(** * Numbering and grouping of events (src/pkg/pipeline/processor.go, dispatch)

    An abstract stamping machine keeps only the transaction groups and the
    sequence numbers; the stream processor refines it, and the invariants are
    proved on it by induction on its runs. *)
From Stdlib Require Import Sorted.
From S2P Require Import Prelude Core Framing Messages Classifier Filter ConnState Processor ProcessorFacts.

(** ** The abstract machine *)
Record stamper := Stamper { st_tx : TxIDGenerator; st_seq : gmap ConnID Z }.

(** A run of the machine with its outputs; connections in [P] may be closed. *)
Inductive emits (P : ConnID → Prop) : stamper → list output → stamper → Prop :=
  | emits_nil st : emits P st [] st
  | emits_out o st os st' : (∀ ev, o ≠ Enqueued ev) → emits P st os st' → emits P st (o :: os) st'
  | emits_reset conn st os st' :
      emits P (Stamper (Reset conn (st_tx st)) (st_seq st)) os st' → emits P st os st'
  | emits_close conn st os st' :
      P conn → emits P (Stamper (st_tx st) (delete conn (st_seq st))) os st' → emits P st os st'
  | emits_event class ev (kept : bool) o st os st' :
      (∀ ev, o ≠ Enqueued ev) →
      emits P (Stamper (tx_after (Conn ev) class (st_tx st))
                 (<[Conn ev := next_seq (Conn ev) (st_seq st)]> (st_seq st))) os st' →
      emits P st
        (o :: (if kept then [Enqueued (stamp ev (Current (Conn ev) (tx_after (Conn ev) class (st_tx st)))
                                          (next_seq (Conn ev) (st_seq st)))] else []) ++ os) st'.

Lemma emits_app P st1 os1 st2 os2 st3 :
  emits P st1 os1 st2 → emits P st2 os2 st3 → emits P st1 (os1 ++ os2) st3.
Proof.
  induction 1 as [|o st os st' Ho _ IH|conn st os st' _ IH|conn st os st' Hp _ IH|class ev kept o st os st' Ho _ IH];
    intros H2; cbn [app].
  - done.
  - by apply emits_out; [|apply IH].
  - by eapply emits_reset, IH.
  - by eapply emits_close; [|apply IH].
  - rewrite <- app_assoc. by apply emits_event; [|apply IH].
Qed.

(** ** The processor refines it *)
Definition stamps (s : StreamProcessor) : stamper := Stamper (txGen s) (sp_seq s).

Definition traced {A} (P : ConnID → Prop) (Q : A → Prop) (m : M A) : Prop := ∀ s,
  emits P (stamps s) (outs m s) (stamps (exec m s)) ∧ Q (val m s).

Abbreviation trace P m := (traced P (λ _, True) m).

Section traces.
Context `{Unicode}.
Variable P : ConnID → Prop.

Lemma traced_bind {A B} (Q : A → Prop) (R : B → Prop) (m : M A) (f : A → M B) :
  traced P Q m → (∀ a, Q a → traced P R (f a)) → traced P R (m ≫= f).
Proof.
  intros Hm Hf s. destruct (Hm s) as [E1 E2]. destruct (Hf _ E2 (exec m s)) as [F1 F2].
  rewrite exec_bind, outs_bind, val_bind. split; [by eapply emits_app|done].
Qed.

Lemma traced_get {A} (f : StreamProcessor → A) : trace P (get f).
Proof. intros s. split; [apply emits_nil|done]. Qed.

Lemma traced_ret {A} (a : A) : trace P (mret a).
Proof. intros s. split; [apply emits_nil|done]. Qed.

Lemma traced_modify f : (∀ s, stamps (f s) = stamps s) → trace P (modify f).
Proof. intros Hf s. split; [|done]. unfold exec, modify. simpl. rewrite Hf. apply emits_nil. Qed.

Lemma traced_output o : (∀ ev, o ≠ Enqueued ev) → trace P (output_ o).
Proof. intros Ho s. split; [by apply emits_out, emits_nil|done]. Qed.

Lemma traced_when b m : trace P m → trace P (when b m).
Proof. destruct b; [done|]. intros. apply traced_ret. Qed.

Lemma traced_each {A} (f : A → M unit) l : (∀ a, trace P (f a)) → trace P (each f l).
Proof. intros Hf. induction l; [apply traced_ret|]. by eapply traced_bind. Qed.

Lemma traced_dispatch ev : trace P (dispatch (Conn ev) ev).
Proof.
  intros s. split; [|done]. unfold outs, exec. rewrite dispatch_spec. cbn [fst snd].
  unfold dispatch_outs. destruct (Decide _ _ _) as [[action cl] [cl' kept]].
  rewrite <- (app_nil_r (if bool_decide _ then _ else _)). apply emits_event; [done|].
  destruct (pooler_reset _ _); unfold stamps; simpl; destruct (bool_decide _); simpl;
    repeat (apply emits_nil || eapply emits_reset).
Qed.

Lemma traced_build conn msg ts :
  traced P (λ ev, ∀ e, ev = Some e → Conn e = conn) (build conn msg ts).
Proof.
  intros s. unfold exec, outs, val, build. cbv [mbind M_bind get modify output_ when mret M_ret].
  unfold Build, emit. repeat case_match; simplify_eq; simpl;
    (split; [first [apply emits_nil | by apply emits_out, emits_nil]|naive_solver]).
Qed.

Hint Resolve traced_ret traced_get traced_when traced_dispatch traced_build : processor.
Hint Extern 1 (trace _ (output_ _)) => by apply traced_output : processor.
Hint Extern 1 (trace _ (modify _)) => by apply traced_modify : processor.

Lemma traced_startTimer conn ts : trace P (startTimer conn ts).
Proof. by apply traced_modify. Qed.

Lemma traced_dispatch_on conn ev : Conn ev = conn → trace P (dispatch conn ev).
Proof. intros <-. apply traced_dispatch. Qed.

Lemma traced_handleClient conn msg ts : trace P (handleClient conn msg ts).
Proof.
  pose proof (traced_startTimer conn ts). unfold handleClient. destruct (is_cancel msg); [auto with processor|].
  destruct (Type_ msg =? MsgParse).
  { eapply traced_bind; [apply traced_build|]. intros [ev|] _; auto with processor. }
  destruct (Type_ msg =? MsgBind).
  { eapply traced_bind; [apply traced_get|]. intros [res|] _; [|auto with processor].
    eapply traced_bind; [by apply traced_dispatch_on|done]. }
  destruct (Type_ msg =? MsgCopyData); [auto with processor|].
  destruct (Type_ msg =? MsgCopyDone).
  { eapply traced_bind; [apply traced_get|]. intros done _. eapply traced_bind; [by apply traced_modify|].
    intros _ _. destruct done as [[sql data]|]; [by apply traced_dispatch_on|auto with processor]. }
  destruct (Type_ msg =? MsgCopyFail); [auto with processor|].
  eapply traced_bind; [apply traced_build|]. intros [ev|] Hev; [|auto with processor].
  eapply traced_bind; [apply traced_get|]. intros class _. case_decide.
  - eapply traced_bind; [by apply traced_modify|done].
  - eapply traced_bind; [by apply traced_dispatch_on, Hev|done].
Qed.

Lemma traced_recordExec conn ts : trace P (recordExec conn ts).
Proof.
  unfold recordExec. eapply traced_bind; [apply traced_get|]. intros d _.
  eapply traced_bind; [by apply traced_modify|]. intros _ _.
  eapply traced_bind; [apply traced_get|]. intros sql _. destruct d; auto with processor.
Qed.

Lemma traced_handleServer conn msg ts : trace P (handleServer conn msg ts).
Proof.
  pose proof (traced_recordExec conn ts). unfold handleServer. destruct (Type_ msg =? MsgReadyForQuery).
  - eapply (traced_bind (λ _, True)); [|done].
    destruct (ExtractReadyForQuery msg); [by apply traced_modify|apply traced_ret].
  - destruct (_ =? _); auto with processor.
Qed.

Lemma traced_OnBytes conn fc data ts : trace P (OnBytes conn fc data ts).
Proof.
  pose proof (traced_handleClient conn). pose proof (traced_handleServer conn).
  unfold OnBytes. eapply traced_bind; [apply traced_get|]. intros cp _. destruct (feed _ _) as [[msgs err] p].
  eapply traced_bind; [by apply traced_modify|]. intros _ _.
  eapply traced_bind; [auto with processor|]. intros _ _. apply traced_each. intros m. by destruct fc.
Qed.

Lemma traced_OnClose conn : P conn → trace P (OnClose conn).
Proof.
  intros Hp s. split; [|done]. unfold stamps. simpl.
  apply emits_reset with conn, emits_close with conn; [done|]. apply emits_nil.
Qed.

(** The stream processor is an instance of the stamping machine: every run's
    outputs, with the transaction groups and sequence numbers it ends in, are a
    run of the machine that may close the connections the input closes. *)
Lemma run_emits (is_ : list input) (s : StreamProcessor) :
  (∀ c, Closed c ∈ is_ → P c) →
  emits P (stamps s) (outs (run is_) s) (stamps (exec (run is_) s)).
Proof.
  intros Hp. enough (trace P (run is_)) as Ht by apply Ht.
  induction is_ as [|i is_ IH]; [apply traced_ret|].
  eapply traced_bind; [|intros _ _; apply IH; intros c Hc; apply Hp; by right].
  destruct i as [conn fc data ts|conn]; [apply traced_OnBytes|apply traced_OnClose, Hp; by left].
Qed.
End traces.

(** ** Numbering *)

(** The sequence number the next event of [c] follows. *)
Definition last_seq (c : ConnID) (st : stamper) : Z := default 0 (st_seq st !! c).

Lemma next_seq_succ c st : 0 ≤ last_seq c st → last_seq c st + 1 < 2 ^ 64 → next_seq c (st_seq st) = last_seq c st + 1.
Proof. intros H0 H1. unfold next_seq, last_seq in *. apply wrap_small. unfold in_width. lia. Qed.

Lemma events_of_other c o os : (∀ ev, o ≠ Enqueued ev) → events_of c (o :: os) = events_of c os.
Proof. intros Ho. rewrite events_of_cons. destruct o; [by destruct (Ho ev)|done..]. Qed.

Lemma emits_numbered P c st os st' :
  emits P st os st' → ¬ P c → 0 ≤ last_seq c st → last_seq c st + zlen os < 2 ^ 64 →
  Forall (λ ev, last_seq c st < Seq ev) (events_of c os) ∧
  StronglySorted (λ e1 e2, Seq e1 < Seq e2) (events_of c os).
Proof.
  intros He Hp. induction He as [st|o st os st' Ho _ IH|conn st os st' _ IH|conn st os st' Hc _ IH
    |class ev kept o st os st' Ho _ IH]; intros H0 Hb.
  - split; constructor.
  - rewrite zlen_cons in Hb. rewrite events_of_other by done. apply IH; [done|lia].
  - by apply IH.
  - assert (last_seq c (Stamper (st_tx st) (delete conn (st_seq st))) = last_seq c st) as E.
    { unfold last_seq. simpl. rewrite lookup_delete_ne; [done|]. by intros ->. }
    rewrite <- E. apply IH; by rewrite E.
  - rewrite zlen_cons, zlen_app in Hb. rewrite events_of_other by done. rewrite events_of_app.
    set (st1 := Stamper _ _) in IH. pose proof (zlen_nonneg os).
    match type of Hb with context [zlen (if ?k then ?a else ?b)] => pose proof (zlen_nonneg (if k then a else b)) end.
    destruct (decide (Conn ev = c)) as [<-|Hne].
    + assert (last_seq (Conn ev) st1 = last_seq (Conn ev) st + 1) as E.
      { unfold last_seq at 1. simpl. rewrite lookup_insert_eq. simpl. apply next_seq_succ; [done|].
        destruct kept; lia. }
      rewrite E in IH. destruct IH as [IH1 IH2]; [lia|destruct kept; [rewrite zlen_cons, (@zlen_nil output) in *|]; lia|].
      rewrite next_seq_succ by (done || lia).
      assert (Forall (λ ev0, last_seq (Conn ev) st < Seq ev0) (events_of (Conn ev) os)) as Hall
        by (eapply Forall_impl; [exact IH1|]; simpl; lia).
      destruct kept; [|done]. unfold events_of at 1 3. simpl. rewrite decide_True by done. simpl.
      split; [constructor; simpl; [lia|done]|]. constructor; [done|].
      eapply Forall_impl; [exact IH1|]. done.
    + assert (last_seq c st1 = last_seq c st) as E by (unfold last_seq; simpl; by rewrite lookup_insert_ne).
      rewrite E in IH. replace (events_of c (if kept then _ else _)) with (@nil SQLEvent).
      * apply IH; [done|]. lia.
      * destruct kept; [|done]. unfold events_of. simpl. by rewrite decide_False.
Qed.

(** ** Grouping *)
Definition groups_ok (g : TxIDGenerator) : Prop :=
  (∀ c x, current g !! c = Some x → 1 ≤ x ≤ counter g) ∧
  (∀ c1 c2 x, current g !! c1 = Some x → current g !! c2 = Some x → c1 = c2).

Lemma groups_reset g c : groups_ok g → groups_ok (Reset c g).
Proof.
  intros [H1 H2]. split; simpl.
  - intros c' x Hx. apply lookup_delete_Some in Hx as [_ Hx]. eauto.
  - intros c1 c2 x [_ Hx1]%lookup_delete_Some [_ Hx2]%lookup_delete_Some. eauto.
Qed.

Lemma groups_advance g c :
  groups_ok g → 0 ≤ counter g → counter g + 1 < 2 ^ 64 →
  groups_ok (Advance c g) ∧ counter (Advance c g) = counter g + 1.
Proof.
  intros [H1 H2] H0 Hb. unfold Advance. simpl. rewrite wrap_small by (unfold in_width; lia).
  split; [|done]. split; simpl.
  - intros c' x [[<- <-]|[_ Hx]]%lookup_insert_Some; [lia|]. apply H1 in Hx. lia.
  - intros c1 c2 x [[<- <-]|[Hn1 Hx1]]%lookup_insert_Some [[<- Hx2]|[Hn2 Hx2]]%lookup_insert_Some; subst.
    + done.
    + apply H1 in Hx2. lia.
    + apply H1 in Hx1. lia.
    + eauto.
Qed.

Lemma groups_after g c class :
  groups_ok g → 0 ≤ counter g → counter g + 1 < 2 ^ 64 →
  groups_ok (tx_after c class g) ∧ counter g ≤ counter (tx_after c class g) ≤ counter g + 1.
Proof.
  intros Hg H0 Hb. unfold tx_after. destruct (begins_group _ _); [|split; [done|lia]].
  destruct (groups_advance g c Hg H0 Hb) as [? ->]. split; [done|lia].
Qed.

(** The events a list of outputs enqueues. *)
Definition enqueued_events (os : list output) : list SQLEvent :=
  omap (λ o, match o with Enqueued ev => Some ev | _ => None end) os.

Lemma enqueued_other o os : (∀ ev, o ≠ Enqueued ev) → enqueued_events (o :: os) = enqueued_events os.
Proof. intros Ho. destruct o; [by destruct (Ho ev)|done..]. Qed.

Lemma enqueued_app os1 os2 : enqueued_events (os1 ++ os2) = enqueued_events os1 ++ enqueued_events os2.
Proof. apply omap_app. Qed.

Lemma enqueued_if (kept : bool) ev : enqueued_events (if kept then [Enqueued ev] else []) = if kept then [ev] else [].
Proof. by destruct kept. Qed.

(** The group of an event: none, one opened later than [g], or its connection's
    open group. *)
Definition group_in (g : TxIDGenerator) (ev : SQLEvent) : Prop :=
  TxID ev = 0 ∨ counter g < TxID ev ∨ current g !! Conn ev = Some (TxID ev).

Lemma group_in_Current g c ev : TxID ev = Current c g → Conn ev = c → group_in g ev.
Proof.
  intros Ht Hc. unfold Current in Ht. unfold group_in. rewrite Hc, Ht.
  destruct (current g !! c); [by right; right|by left].
Qed.

Lemma group_in_after g c class ev :
  groups_ok g → 0 ≤ counter g → counter g + 1 < 2 ^ 64 →
  group_in (tx_after c class g) ev → group_in g ev.
Proof.
  intros Hg H0 Hb. unfold tx_after. destruct (begins_group _ _); [|done].
  destruct (groups_advance g c Hg H0 Hb) as [_ Hc]. unfold group_in. rewrite Hc.
  intros [?|[?|Hx]]; [by left|right; left; lia|].
  unfold Advance in Hx, Hc. simpl in *. apply lookup_insert_Some in Hx as [[_ Hx]|[_ Hx]]; [|by right; right].
  right. left. lia.
Qed.

Lemma emits_groups P st os st' :
  emits P st os st' → groups_ok (st_tx st) → 0 ≤ counter (st_tx st) →
  counter (st_tx st) + zlen os < 2 ^ 64 →
  Forall (group_in (st_tx st)) (enqueued_events os) ∧
  ∀ e1 e2, e1 ∈ enqueued_events os → e2 ∈ enqueued_events os →
    TxID e1 = TxID e2 → TxID e1 ≠ 0 → Conn e1 = Conn e2.
Proof.
  induction 1 as [st|o st os st' Ho _ IH|conn st os st' _ IH|conn st os st' Hc _ IH
    |class ev kept o st os st' Ho _ IH]; intros Hg H0 Hb.
  - split; [constructor|]. by intros e1 e2 ?%elem_of_nil.
  - rewrite zlen_cons in Hb. rewrite enqueued_other by done. apply IH; [done|done|lia].
  - destruct IH as [IH1 IH2]; [by apply groups_reset|done|done|]. split; [|done].
    eapply Forall_impl; [exact IH1|]. intros e [?|[?|Hx]]; [by left|by right; left|].
    right. right. simpl in Hx. by apply lookup_delete_Some in Hx as [_ Hx].
  - by apply IH.
  - rewrite zlen_cons, zlen_app in Hb. rewrite enqueued_other, enqueued_app, enqueued_if by done.
    pose proof (zlen_nonneg os).
    match type of Hb with context [zlen (if ?k then ?a else ?b)] => pose proof (zlen_nonneg (if k then a else b)) end.
    destruct (groups_after (st_tx st) (Conn ev) class Hg H0 ltac:(lia)) as [Hg' Hc'].
    destruct IH as [IH1 IH2]; [done|simpl; lia|simpl; lia|]. simpl in IH1, Hc'.
    set (g := tx_after _ _ _) in *. set (e0 := stamp ev _ _).
    assert (Forall (group_in g) ((if kept then [e0] else []) ++ enqueued_events os)) as Hall.
    { apply Forall_app_2; [|done]. destruct kept; [|done]. apply Forall_singleton.
      by apply (group_in_Current g (Conn ev)). }
    split.
    { eapply Forall_impl; [exact Hall|]. intros e. by apply group_in_after; [done|done|lia]. }
    destruct kept; [|done].
    assert (∀ e, e ∈ enqueued_events os → TxID e = TxID e0 → TxID e ≠ 0 → Conn e = Conn e0) as Hnew.
    { intros e He Ht Hz. rewrite Forall_forall in IH1. destruct Hg' as [Hg1 Hg2].
      assert (current g !! Conn e0 = Some (TxID e0)) as Hx0.
      { simpl. rewrite Ht in Hz. simpl in Hz. unfold Current in *. by destruct (current g !! Conn ev). }
      destruct (IH1 e He) as [?|[Hlt|Hx]]; [done| |rewrite Ht in Hx; by eapply Hg2].
      apply Hg1 in Hx0. lia. }
    intros e1 e2 [->|He1]%elem_of_cons [->|He2]%elem_of_cons Ht Hz; [done| | |by apply IH2].
    + symmetry. apply Hnew; [done|by rewrite Ht|congruence].
    + by apply Hnew.
Qed.

(** Strictly increasing sequence numbers. *)
Definition numbered (evs : list SQLEvent) : Prop := StronglySorted (λ e1 e2, Seq e1 < Seq e2) evs.

(** ** Properties *)

(** Events are numbered in order: in every run, the events enqueued for a
    connection that the run does not close carry strictly increasing sequence
    numbers, whatever path produced them - simple queries, bound statements or
    COPY - and however the traffic of other connections is interleaved. *)
Theorem events_numbered `{Unicode} (pcfg : ProtocolConfig) (fcfg : Config) (s : StreamProcessor)
    (c : ConnID) (is_ : list input) :
  NewStreamProcessor pcfg fcfg = Ok s → Closed c ∉ is_ → zlen (outs (run is_) s) < 2 ^ 64 →
  numbered (events_of c (outs (run is_) s)).
Proof.
  intros Hs Hc Hl. assert (sp_seq s = ∅) as He.
  { unfold NewStreamProcessor in Hs. destruct (NewFilter fcfg); by simplify_eq/=. }
  assert (last_seq c (stamps s) = 0) as E by (unfold last_seq; simpl; by rewrite He).
  assert (∀ c', Closed c' ∈ is_ → c' ≠ c) as Hp by (by intros c' Hin ->).
  apply (emits_numbered (λ c', c' ≠ c) c _ _ _ (run_emits _ is_ s Hp)); rewrite ?E; auto with lia.
Qed.

(** A transaction group belongs to one connection: two events of a run that carry
    the same non-zero group number come from the same connection. *)
Theorem txid_one_connection `{Unicode} (pcfg : ProtocolConfig) (fcfg : Config) (s : StreamProcessor)
    (is_ : list input) (e1 e2 : SQLEvent) :
  NewStreamProcessor pcfg fcfg = Ok s → zlen (outs (run is_) s) < 2 ^ 64 →
  e1 ∈ enqueued_events (outs (run is_) s) → e2 ∈ enqueued_events (outs (run is_) s) →
  TxID e1 = TxID e2 → TxID e1 ≠ 0 → Conn e1 = Conn e2.
Proof.
  intros Hs Hl H1 H2. assert (txGen s = NewTxIDGenerator) as Hg.
  { unfold NewStreamProcessor in Hs. destruct (NewFilter fcfg); by simplify_eq/=. }
  destruct (emits_groups (λ _, True) _ _ _ (run_emits _ is_ s (λ _ _, I))) as [_ Hall]; simpl; rewrite ?Hg; simpl.
  - split; simpl; [by intros ?? ?%lookup_empty_Some|by intros ??? ?%lookup_empty_Some].
  - done.
  - done.
  - auto.
Qed.
