(* ===== verification/Session.v ===== *)
(** * From a client's bytes to the queue (src/pkg/pipeline/processor.go)

    How a session of simple queries, cut into chunks by the network, becomes
    events: neither the chunking nor the time of arrival matters, and what is
    enqueued is what the filter keeps, statement by statement. *)
From Stdlib Require Import String Ascii.
From S2P Require Import Prelude Core Framing Messages Classifier ClassifierFacts Filter ConnState Processor ProcessorFacts.

(** ** Time and chunks do not matter *)

(** The state without pending timers and parser buffers, which the client
    handlers only write. *)
Definition core (s : StreamProcessor) : StreamProcessor := set_timer NewSourceExecTimer (set_parsers ∅ s).

Definition untimed (ev : SQLEvent) : SQLEvent :=
  SqlEvent (Conn ev) (SQL ev) 0 (TxID ev) (Seq ev) (Extended ev) (StmtName ev) (Params ev)
    (CopyData ev) (SourceExecTime ev) (User ev).

Definition untimed_events (os : list output) : list SQLEvent :=
  omap (λ o, match o with Enqueued ev => Some (untimed ev) | _ => None end) os.

Lemma untimed_events_app os1 os2 : untimed_events (os1 ++ os2) = untimed_events os1 ++ untimed_events os2.
Proof. apply omap_app. Qed.

(** From states with the same core, the same events and cores, and values in [Q]. *)
Definition twin {A} (Q : A → A → Prop) (m1 m2 : M A) : Prop := ∀ s1 s2,
  core s1 = core s2 →
  core (exec m1 s1) = core (exec m2 s2) ∧ untimed_events (outs m1 s1) = untimed_events (outs m2 s2) ∧
  Q (val m1 s1) (val m2 s2).

Lemma twin_bind {A B} (Q : A → A → Prop) (R : B → B → Prop) m1 m2 (f1 f2 : A → M B) :
  twin Q m1 m2 → (∀ a1 a2, Q a1 a2 → twin R (f1 a1) (f2 a2)) → twin R (m1 ≫= f1) (m2 ≫= f2).
Proof.
  intros Hm Hf s1 s2 Hc. destruct (Hm s1 s2 Hc) as (E1 & E2 & E3).
  destruct (Hf _ _ E3 _ _ E1) as (F1 & F2 & F3).
  rewrite !exec_bind, !outs_bind, !val_bind, !untimed_events_app, E2, F2. done.
Qed.

Lemma core_fields s1 s2 :
  core s1 = core s2 ↔
  sp_cfg s1 = sp_cfg s2 ∧ flt s1 = flt s2 ∧ sp_cls s1 = sp_cls s2 ∧ sm s1 = sm s2 ∧ eb s1 = eb s2 ∧
  txGen s1 = txGen s2 ∧ binder s1 = binder s2 ∧ copies s1 = copies s2 ∧ sp_seq s1 = sp_seq s2 ∧
  lastSQL s1 = lastSQL s2.
Proof.
  destruct s1, s2. unfold core. simpl. split; [by intros [=]|].
  intros (-> & -> & -> & -> & -> & -> & -> & -> & -> & ->). done.
Qed.

Lemma twin_get {A} (f : StreamProcessor → A) :
  (∀ s, f s = f (core s)) → twin eq (get f) (get f).
Proof. intros Hf s1 s2 Hc. split_and!; [done|done|]. unfold val, get. simpl. by rewrite (Hf s1), (Hf s2), Hc. Qed.

Lemma twin_modify f1 f2 : (∀ s1 s2, core s1 = core s2 → core (f1 s1) = core (f2 s2)) → twin eq (modify f1) (modify f2).
Proof. intros Hf s1 s2 Hc. split_and!; [by apply Hf|done|done]. Qed.

Lemma twin_modify_same f : (∀ s, core (f s) = core (f (core s))) → twin eq (modify f) (modify f).
Proof. intros Hf. apply twin_modify. intros s1 s2 Hc. by rewrite (Hf s1), (Hf s2), Hc. Qed.

Lemma twin_ret {A} (a : A) : twin eq (mret a) (mret a).
Proof. by intros s1 s2 Hc. Qed.

Lemma twin_output o : twin eq (output_ o) (output_ o).
Proof. by intros s1 s2 Hc. Qed.

Lemma twin_when b m1 m2 : twin eq m1 m2 → twin eq (when b m1) (when b m2).
Proof. destruct b; [done|]. intros. apply twin_ret. Qed.

Section twins.
Context `{Unicode}.

Definition same_event (e1 e2 : SQLEvent) : Prop := untimed e1 = untimed e2.

Lemma twin_dispatch conn e1 e2 : same_event e1 e2 → twin eq (dispatch conn e1) (dispatch conn e2).
Proof.
  intros He s1 s2 Hc. unfold exec, outs, val. rewrite !dispatch_spec. cbn [fst snd].
  assert (SQL e1 = SQL e2) as Hq by (by injection He).
  apply core_fields in Hc as (E1 & E2 & E3 & E4 & E5 & E6 & E7 & E8 & E9 & E10).
  unfold pooler_reset, dispatch_outs. rewrite Hq, E1, E2, E3, E4, E6, E9. split_and!; [| |done].
  - destruct (_ && _); apply core_fields; unfold dispatched; simpl;
      rewrite ?E1, ?E2, ?E3, ?E4, ?E5, ?E6, ?E7, ?E8, ?E9, ?E10; done.
  - destruct (Decide _ _ _) as [[??] [??]]. destruct (bool_decide _); [|done]. cbn.
    f_equal. unfold untimed, stamp. simpl. injection He as -> -> _ _ -> -> -> -> -> ->. done.
Qed.

Lemma twin_build conn msg ts1 ts2 :
  twin (λ o1 o2, option_Forall2 same_event o1 o2) (build conn msg ts1) (build conn msg ts2).
Proof.
  intros s1 s2 Hc. unfold exec, outs, val, build. cbv [mbind M_bind get modify output_ when mret M_ret].
  apply core_fields in Hc as (E1 & E2 & E3 & E4 & E5 & E6 & E7 & E8 & E9 & E10).
  rewrite E5. unfold Build, emit. repeat case_match; simplify_eq; simpl;
    (split_and!; [by apply core_fields|done|by repeat constructor]).
Qed.

Lemma twin_startTimer conn ts1 ts2 : twin eq (startTimer conn ts1) (startTimer conn ts2).
Proof. apply twin_modify. intros s1 s2 Hc. apply core_fields in Hc. by apply core_fields. Qed.

Lemma twin_handleClient conn msg ts1 ts2 : twin eq (handleClient conn msg ts1) (handleClient conn msg ts2).
Proof.
  pose proof (twin_startTimer conn ts1 ts2) as Ht. unfold handleClient.
  destruct (is_cancel msg); [apply twin_ret|].
  destruct (Type_ msg =? MsgParse).
  { eapply twin_bind; [apply twin_build|]. intros ?? [e1 e2 He|]; [|apply twin_ret].
    injection He as _ -> _ _ _ -> -> _ _ _. by apply twin_modify_same. }
  destruct (Type_ msg =? MsgBind).
  { eapply twin_bind; [by apply twin_get|]. intros r ? <-. destruct r; [|apply twin_output].
    eapply twin_bind; [by apply twin_dispatch|done]. }
  destruct (Type_ msg =? MsgCopyData); [by apply twin_modify_same|].
  destruct (Type_ msg =? MsgCopyDone).
  { eapply twin_bind; [by apply twin_get|]. intros r ? <-. eapply twin_bind; [by apply twin_modify_same|].
    intros _ _ _. destruct r as [[sql data]|]; [by apply twin_dispatch|apply twin_ret]. }
  destruct (Type_ msg =? MsgCopyFail); [by apply twin_modify_same|].
  eapply twin_bind; [apply twin_build|]. intros ?? [e1 e2 He|]; [|apply twin_ret].
  assert (SQL e1 = SQL e2) as -> by (by injection He).
  eapply twin_bind; [by apply twin_get|]. intros class ? <-. case_decide.
  - eapply twin_bind; [by apply twin_modify_same|done].
  - eapply twin_bind; [by apply twin_dispatch|done].
Qed.

Lemma twin_each conn ts1 ts2 msgs :
  twin eq (each (λ m, handleClient conn m ts1) msgs) (each (λ m, handleClient conn m ts2) msgs).
Proof.
  induction msgs as [|m msgs IH]; [apply twin_ret|]. eapply twin_bind; [apply twin_handleClient|done].
Qed.

(** ** Chunks *)
Definition keeps_parsers {A} (m : M A) : Prop := ∀ s, parsers (exec m s) = parsers s.

Lemma keeps_bind {A B} (m : M A) (f : A → M B) :
  keeps_parsers m → (∀ a, keeps_parsers (f a)) → keeps_parsers (m ≫= f).
Proof. intros Hm Hf s. by rewrite exec_bind, Hf, Hm. Qed.

Lemma keeps_dispatch conn ev : keeps_parsers (dispatch conn ev).
Proof. intros s. unfold exec. rewrite dispatch_spec. simpl. by destruct (pooler_reset _ _). Qed.

Lemma keeps_build conn msg ts : keeps_parsers (build conn msg ts).
Proof.
  intros s. unfold exec, build. cbv [mbind M_bind get modify output_ when mret M_ret].
  by destruct (Build _ _ _ _) as [[? []] ?].
Qed.

Lemma keeps_handleClient conn msg ts : keeps_parsers (handleClient conn msg ts).
Proof.
  unfold handleClient.
  repeat match goal with
  | |- keeps_parsers (if ?b then _ else _) => destruct b
  | |- keeps_parsers (if decide ?b then _ else _) => destruct (decide b)
  | |- keeps_parsers (build _ _ _) => apply keeps_build
  | |- keeps_parsers (dispatch _ _) => apply keeps_dispatch
  | |- keeps_parsers (_ ≫= _) => apply keeps_bind
  | |- keeps_parsers (match ?o with Some _ => _ | None => _ end) => destruct o
  | p : _ * _ |- _ => destruct p
  | |- ∀ _, _ => intros ?
  | _ => done
  end.
Qed.

Lemma keeps_each conn ts msgs : keeps_parsers (each (λ m, handleClient conn m ts) msgs).
Proof. induction msgs; [done|]. apply keeps_bind; [apply keeps_handleClient|done]. Qed.

(** The client parser of a connection. *)
Definition client_parser (conn : ConnID) (s : StreamProcessor) : streamParser := Client (parsersFor conn s).

Definition chunk_inputs (conn : ConnID) (chunks : list (list Z * Z)) : list input :=
  (λ d, Bytes conn true d.1 d.2) <$> chunks.

Lemma each_app {A} (f : A → M unit) l1 l2 s :
  exec (each f (l1 ++ l2)) s = exec (each f l2) (exec (each f l1) s) ∧
  outs (each f (l1 ++ l2)) s = outs (each f l1) s ++ outs (each f l2) (exec (each f l1) s).
Proof.
  revert s. induction l1 as [|a l1 IH]; intros s; [done|]. cbn [app each].
  rewrite !exec_bind, !outs_bind. destruct (IH (exec (f a) s)) as [-> ->]. by rewrite app_assoc.
Qed.

(** One chunk: the framed messages are handled, the parser is stored. *)
Lemma OnBytes_client conn data ts s ms err p' :
  Feed (client_parser conn s) data = Some (ms, err, p') →
  ∃ s', core s' = core s ∧ client_parser conn s' = p' ∧
    untimed_events (outs (OnBytes conn true data ts) s) = untimed_events (outs (each (λ m, handleClient conn m ts) ms) s') ∧
    exec (OnBytes conn true data ts) s = exec (each (λ m, handleClient conn m ts) ms) s'.
Proof.
  intros Hf. assert (feed (Client (parsersFor conn s)) data = (ms, err, p')) as Hfeed
    by (unfold feed; unfold client_parser in Hf; by rewrite Hf).
  set (cp := MkConnParsers p' (Server (parsersFor conn s))).
  exists (set_parsers (<[conn := cp]> (parsers s)) s). split_and!.
  - done.
  - unfold client_parser, parsersFor. simpl. by rewrite lookup_insert_eq.
  - unfold OnBytes. rewrite outs_bind. change (val (get (parsersFor conn)) s) with (parsersFor conn s).
    cbv iota. rewrite Hfeed. rewrite !outs_bind, !untimed_events_app. by destruct err.
  - unfold OnBytes. rewrite exec_bind. change (val (get (parsersFor conn)) s) with (parsersFor conn s).
    cbv iota. rewrite Hfeed. rewrite !exec_bind. by destruct err.
Qed.

(** Chunked input handles the messages it frames, as if at one time. *)
Lemma run_chunks conn chunks : ∀ s s0 ms p',
  core s = core s0 → feeds (client_parser conn s) (fst <$> chunks) = Some (ms, p') →
  untimed_events (outs (run (chunk_inputs conn chunks)) s) =
  untimed_events (outs (each (λ m, handleClient conn m 0) ms) s0).
Proof.
  induction chunks as [|[d ts] chunks IH]; intros s s0 ms p' Hc Hf; [by simplify_eq/=|].
  rewrite fmap_cons in Hf. cbn [feeds fst] in Hf. apply bind_Some in Hf as ([[m1 err] p1] & Hf & Hr).
  apply bind_Some in Hr as ([m2 p2] & Hr & [= <- <-]).
  destruct (OnBytes_client conn d ts s _ _ _ Hf) as (s' & Hs' & Hp & Ho & He).
  destruct (twin_each conn ts 0 m1 s' s0 ltac:(congruence)) as (Ec & Eo & _).
  destruct (each_app (λ m, handleClient conn m 0) m1 m2 s0) as [_ ->].
  unfold chunk_inputs. rewrite fmap_cons. cbn [fst snd].
  destruct (run_cons (Bytes conn true d ts) (chunk_inputs conn chunks) s) as [_ Hrun].
  unfold chunk_inputs in Hrun. rewrite Hrun, !untimed_events_app. cbn [step]. rewrite Ho, Eo. f_equal.
  rewrite He. eapply IH; [exact Ec|]. rewrite <- Hp in Hr. rewrite <- Hr. f_equal.
  unfold client_parser, parsersFor. by rewrite keeps_each.
Qed.

(** ** Simple queries *)
Definition query_message (sql : list Z) : PGMessage := PgMessage 81 (5 + zlen sql) (sql ++ [0]).

Definition next_state (st : TxStatus) (class : StmtClass) : TxStatus :=
  match class with ClassBegin => TxInTx | ClassCommitRollback => TxIdle | _ => st end.

(** The statements the filter keeps, tracking the transaction state. *)
Fixpoint kept_statements (f : filterImpl) (st : TxStatus) (sqls : list (list Z)) : list (list Z) :=
  match sqls with
  | [] => []
  | sql :: sqls =>
      let '(action, class, _) := Decide f sql st in
      (if bool_decide (action = Keep) then [sql] else []) ++ kept_statements f (next_state st class) sqls
  end.

Lemma extract_query sql : extractSimpleQuerySQL (sql ++ [0]) = sql.
Proof.
  unfold extractSimpleQuerySQL. rewrite last_snoc, length_app, Nat.add_sub. apply take_app_length.
Qed.

Definition plain_query (pcfg : ProtocolConfig) (f : filterImpl) (sql : list Z) : Prop :=
  zlen sql ≤ effectiveMaxSQLLength pcfg ∧ Classify (cls f) sql ≠ ClassCopyFrom.

Definition idle_at (pcfg : ProtocolConfig) (f : filterImpl) (conn : ConnID) (st : TxStatus) (s : StreamProcessor) : Prop :=
  flt s = f ∧ sp_cls s = cls f ∧ eb_cfg (eb s) = pcfg ∧ State conn (sm s) = st.

Lemma State_OnStatement conn class m : State conn (OnStatement conn class m) = next_state (State conn m) class.
Proof. unfold State. destruct class; simpl; by rewrite ?lookup_insert_eq. Qed.

(** The event builder's answer to a query within the limit. *)
Lemma Build_query b conn sql ts :
  zlen sql ≤ effectiveMaxSQLLength (eb_cfg b) →
  ∃ n b', Build b conn (query_message sql) ts =
    (Some (SqlEvent conn sql ts 0 n false [] [] [] 0 []), false, b') ∧ eb_cfg b' = eb_cfg b.
Proof.
  intros Hl. unfold Build. cbn [Type_ Payload_ query_message]. rewrite extract_query.
  unfold oversized. rewrite Z.gtb_ltb, (proj2 (Z.ltb_ge _ _)) by done.
  do 2 eexists. by destruct (_ <=? 0).
Qed.

Lemma handle_query_dispatch conn s sql :
  zlen sql ≤ effectiveMaxSQLLength (eb_cfg (eb s)) → Classify (sp_cls s) sql ≠ ClassCopyFrom →
  ∃ n b', eb_cfg b' = eb_cfg (eb s) ∧
    handleClient conn (query_message sql) 0 s =
    (dispatch conn (SqlEvent conn sql 0 0 n false [] [] [] 0 []) ≫= λ _, startTimer conn 0) (set_eb b' s).
Proof.
  intros Hl Hcl. destruct (Build_query (eb s) conn sql 0 Hl) as (n & b' & Hb & Hc).
  exists n, b'. split; [done|]. unfold handleClient, is_cancel. cbn [Type_ query_message].
  change (81 =? msgStartup) with false. change (81 =? MsgParse) with false. change (81 =? MsgBind) with false.
  change (81 =? MsgCopyData) with false. change (81 =? MsgCopyDone) with false.
  change (81 =? MsgCopyFail) with false. cbn [andb].
  unfold build. cbv [mbind M_bind get modify output_ when mret M_ret]. rewrite Hb. simpl.
  rewrite decide_False by done. by destruct (dispatch _ _ _) as [[??] ?].
Qed.

Lemma handle_query pcfg f conn st s sql :
  idle_at pcfg f conn st s → plain_query pcfg f sql →
  let '(action, class, _) := Decide f sql st in
  idle_at pcfg f conn (next_state st class) (exec (handleClient conn (query_message sql) 0) s) ∧
  (λ ev, (Conn ev, SQL ev)) <$> untimed_events (outs (handleClient conn (query_message sql) 0) s) =
  if bool_decide (action = Keep) then [(conn, sql)] else [].
Proof.
  intros (Hf & Hcls & Hcfg & Hst) [Hl Hcl].
  destruct (handle_query_dispatch conn s sql) as (n & b' & Hc & Heq); [by rewrite Hcfg|by rewrite Hcls|].
  unfold exec, outs. rewrite Heq. cbv [mbind M_bind]. rewrite dispatch_spec. cbn.
  unfold dispatch_outs. cbn. rewrite Hf, Hcls, Hst. split.
  - unfold idle_at. destruct (pooler_reset _ _); simpl;
      (split_and!; [done|done|by rewrite Hc|rewrite State_OnStatement; by rewrite Hcls, Hst]).
  - by destruct (bool_decide _).
Qed.

Lemma each_queries pcfg f conn sqls : ∀ st s,
  idle_at pcfg f conn st s → Forall (plain_query pcfg f) sqls →
  (λ ev, (Conn ev, SQL ev)) <$>
    untimed_events (outs (each (λ m, handleClient conn m 0) (query_message <$> sqls)) s) =
  (λ sql, (conn, sql)) <$> kept_statements f st sqls.
Proof.
  induction sqls as [|sql sqls IH]; intros st s Hi Hall; [done|].
  apply Forall_cons in Hall as [Hq Hall]. rewrite fmap_cons. cbn [each kept_statements].
  rewrite outs_bind, untimed_events_app, fmap_app. pose proof (handle_query _ _ _ _ _ _ Hi Hq) as Hh.
  destruct (Decide f sql st) as [[action class] [cl kept]]. destruct Hh as [Hi' ->].
  rewrite fmap_app, (IH (next_state st class)) by done. by destruct (bool_decide _).
Qed.

(** A startup message that switches to typed framing is no query. *)
Lemma handle_startup conn s m :
  Type_ m = startupMsgType →
  core (exec (handleClient conn m 0) s) = core s ∧ untimed_events (outs (handleClient conn m 0) s) = [].
Proof.
  intros Ht. unfold handleClient. destruct (is_cancel m); [done|]. rewrite Ht.
  change (startupMsgType =? MsgParse) with false. change (startupMsgType =? MsgBind) with false.
  change (startupMsgType =? MsgCopyData) with false. change (startupMsgType =? MsgCopyDone) with false.
  change (startupMsgType =? MsgCopyFail) with false.
  unfold exec, outs, build. cbv [mbind M_bind get modify output_ when mret M_ret].
  unfold Build. rewrite Ht. by destruct s.
Qed.

Lemma wf_queries sqls :
  Forall (λ sql, bytes_ok sql ∧ 5 + zlen sql ≤ maxFrameLength) sqls → wf_session false (query_message <$> sqls).
Proof.
  induction 1 as [|sql sqls [Hb Hl] _ IH]; [done|]. rewrite fmap_cons. split; [|done].
  unfold wf_message. cbn [Length_ Payload_ Type_ query_message]. rewrite zlen_app, zlen_cons, (@zlen_nil Z).
  split_and!; [lia|done| |done]. apply Forall_app_2; [done|]. by apply Forall_singleton.
Qed.
End twins.

(** A captured session of simple queries becomes exactly the statements the
    filter keeps.  Whatever the startup message and the queries (within the size
    limits, none a COPY FROM), however the network cuts the bytes into chunks and
    whenever they arrive, the events enqueued are, in order, the queries that the
    filter keeps in the transaction state that the preceding BEGINs, COMMITs and
    ROLLBACKs imply, each with its text and connection. *)
Theorem session_replayed `{Unicode} (pcfg : ProtocolConfig) (fcfg : Config) (s : StreamProcessor)
    (f : filterImpl) (conn : ConnID) (startup : PGMessage) (sqls : list (list Z)) (chunks : list (list Z * Z)) :
  NewStreamProcessor pcfg fcfg = Ok s → NewFilter fcfg = Ok f →
  wf_message true startup → transitionToTyped startup = true →
  Forall (λ sql, bytes_ok sql ∧ 5 + zlen sql ≤ maxFrameLength) sqls →
  Forall (plain_query pcfg f) sqls →
  Forall bytes_ok (fst <$> chunks) →
  concat (fst <$> chunks) = encode_session true (startup :: (query_message <$> sqls)) →
  (λ ev, (Conn ev, SQL ev)) <$> untimed_events (outs (run (chunk_inputs conn chunks)) s) =
  (λ sql, (conn, sql)) <$> kept_statements f TxIdle sqls.
Proof.
  intros Hs Hf Hwf Htt Hsz Hq Hb Hc.
  assert (wf_session true (startup :: (query_message <$> sqls))) as Hwfs.
  { split; [done|]. unfold after. rewrite Htt. by apply wf_queries. }
  destruct (feeds_session true true [] (fst <$> chunks) (startup :: (query_message <$> sqls)))
    as [st Hfeeds]; [by constructor|done..|].
  assert (client_parser conn s = NewParser true ∧ idle_at pcfg f conn TxIdle s) as [Hp Hi].
  { unfold NewStreamProcessor in Hs. rewrite Hf in Hs. injection Hs as <-.
    destruct (NewFilter_patterns _ _ Hf) as (_ & _ & Hcls). by unfold idle_at. }
  rewrite (run_chunks conn chunks s s (startup :: (query_message <$> sqls)) (StreamParser true st [] false))
    by (done || by rewrite Hp).
  cbn [each]. rewrite outs_bind, untimed_events_app. destruct Hwf as (_ & _ & _ & Ht).
  destruct (handle_startup conn s startup Ht) as [Hcore ->]. cbn [app].
  apply core_fields in Hcore as (_ & E2 & E3 & E4 & E5 & _).
  apply (each_queries pcfg f); [|done]. unfold idle_at in *. by rewrite E2, E3, E4, E5.
Qed.
