(* ===== verification/Scenarios.v ===== *)
(** * Concrete runs of the stream processor

    Witnesses of the processor's theorems, and behaviours of
    src/pkg/pipeline/processor.go that its comments do not promise. *)
From Stdlib Require Import String Ascii Sorted.
From S2P Require Import Prelude Core Framing Messages Classifier ClassifierFacts Filter ConnState Processor ProcessorFacts Stamping Session.

#[local] Existing Instance ClassifierDemo.ascii.

Module Scenario.
Definition pcfg : ProtocolConfig := MkProtocolConfig 0 300 true true.

(** The fresh processor with the default filter. *)
Definition s0 : StreamProcessor :=
  MkProcessor pcfg FilterDemo.f (NewClassifier []) NewStateMachine (NewEventBuilder pcfg)
    NewTxIDGenerator NewBindCorrelator NewCopyTracker NewSourceExecTimer ∅ ∅ ∅.

Lemma s0_ok : NewStreamProcessor pcfg FilterDemo.cfg = Ok s0.
Proof. reflexivity. Qed.

Definition conn1 : ConnID := MessagesDemo.conn1.
Definition conn2 : ConnID := MessagesDemo.conn2.

Definition startup : PGMessage := PgMessage 0 9 [0; 3; 0; 0; 0].
Definition ready (status : Z) : list Z := [90; 0; 0; 0; 5; status].

(** The bytes of a client that starts up and sends [ms]. *)
Definition client_bytes (ms : list PGMessage) : list Z := encode_session true (startup :: ms).
Definition typed_bytes (ms : list PGMessage) : list Z := encode_session false ms.
Definition query (sql : string) : PGMessage := query_message (bytes_of sql).
Definition message (type : Z) (payload : list Z) : PGMessage := PgMessage type (4 + zlen payload) payload.

(** The SQL, group and number of the events of a run. *)
Definition summary (is_ : list input) : list (list Z * Z * Z) :=
  (λ ev, (SQL ev, TxID ev, Seq ev)) <$> enqueued_events (outs (run is_) s0).

(** Two connections, interleaved in chunks. *)
Definition interleaved : list input :=
  [Bytes conn1 true (client_bytes [query "insert into t values (1)"]) 5;
   Bytes conn2 true (client_bytes [query "begin"]) 6;
   Bytes conn1 true (take 3 (typed_bytes [query "drop table t"])) 7;
   Bytes conn2 true (typed_bytes [query "update t set a = 1"]) 8;
   Bytes conn1 true (drop 3 (typed_bytes [query "drop table t"])) 9].

(** The event that is output [n] of a run. *)
Definition event_at (is_ : list input) (n : nat) : SQLEvent :=
  match outs (run is_) s0 !! n with
  | Some (Enqueued ev) => ev
  | _ => SqlEvent conn1 [] 0 0 0 false [] [] [] 0 []
  end.

Definition sqls : list (list Z) := [bytes_of "select 1"; bytes_of "begin"; bytes_of "select 2"; bytes_of "commit"].
End Scenario.

Lemma processor_isolation_witness :
  SQL <$> events_of Scenario.conn1 (outs (run Scenario.interleaved) Scenario.s0) =
  [bytes_of "insert into t values (1)"; bytes_of "drop table t"].
Proof.
  rewrite (processor_isolation Scenario.pcfg FilterDemo.cfg Scenario.s0 Scenario.conn1 Scenario.interleaved
    Scenario.s0_ok); vm_compute; reflexivity.
Defined.

Lemma events_numbered_witness :
  numbered (events_of Scenario.conn1 (outs (run Scenario.interleaved) Scenario.s0)).
Proof.
  apply (events_numbered Scenario.pcfg FilterDemo.cfg Scenario.s0 Scenario.conn1 Scenario.interleaved
    Scenario.s0_ok); [|vm_compute; reflexivity].
  unfold Scenario.interleaved. rewrite !not_elem_of_cons, elem_of_nil. repeat split; [discriminate..|tauto].
Defined.

Lemma txid_one_connection_witness :
  Conn (Scenario.event_at Scenario.interleaved 3) = Conn (Scenario.event_at Scenario.interleaved 5).
Proof.
  apply (txid_one_connection Scenario.pcfg FilterDemo.cfg Scenario.s0 Scenario.interleaved _ _ Scenario.s0_ok).
  - vm_compute. reflexivity.
  - apply (list_elem_of_lookup_2 _ 1). vm_compute. reflexivity.
  - apply (list_elem_of_lookup_2 _ 2). vm_compute. reflexivity.
  - vm_compute. reflexivity.
  - vm_compute. discriminate.
Defined.

Lemma session_replayed_witness :
  ∃ f, NewFilter FilterDemo.cfg = Ok f ∧
  (λ ev, (Conn ev, SQL ev)) <$>
    untimed_events (outs (run (chunk_inputs Scenario.conn1
      [(take 11 (Scenario.client_bytes (query_message <$> Scenario.sqls)), 1);
       (drop 11 (Scenario.client_bytes (query_message <$> Scenario.sqls)), 2)])) Scenario.s0) =
  (λ sql, (Scenario.conn1, sql)) <$> [bytes_of "begin"; bytes_of "select 2"; bytes_of "commit"].
Proof.
  exists FilterDemo.f. split; [reflexivity|].
  rewrite (session_replayed Scenario.pcfg FilterDemo.cfg Scenario.s0 FilterDemo.f Scenario.conn1
    Scenario.startup Scenario.sqls _ Scenario.s0_ok eq_refl).
  - vm_compute. reflexivity.
  - unfold wf_message. split_and!; [reflexivity|by vm_compute|by apply (bool_decide_unpack _)|reflexivity].
  - reflexivity.
  - repeat apply Forall_cons_2; try apply Forall_nil_2; (split; [by apply (bool_decide_unpack _)|by vm_compute]).
  - repeat apply Forall_cons_2; try apply Forall_nil_2; (split; [by vm_compute|by vm_compute]).
  - repeat apply Forall_cons_2; try apply Forall_nil_2; by apply (bool_decide_unpack _).
  - cbn [fmap list_fmap fst concat]. rewrite app_nil_r, take_drop. reflexivity.
Defined.

(** Autocommitted statements are merged into one transaction group: two INSERTs
    outside any transaction, with the server reporting the idle state after each,
    get the same group number, because only a COMMIT or ROLLBACK ends a group. *)
Theorem autocommit_shares_group :
  Scenario.summary
    [Bytes Scenario.conn1 true (Scenario.client_bytes [Scenario.query "insert into t values (1)"]) 1;
     Bytes Scenario.conn1 false (Scenario.ready 73) 2;
     Bytes Scenario.conn1 true (Scenario.typed_bytes [Scenario.query "insert into t values (2)"]) 3;
     Bytes Scenario.conn1 false (Scenario.ready 73) 4] =
  [(bytes_of "insert into t values (1)", 1, 1); (bytes_of "insert into t values (2)", 1, 2)].
Proof. vm_compute. reflexivity. Qed.

(** A server-side COPY is swallowed: COPY from a file has no data stream, so the
    processor waits for a CopyDone that never comes, and the statement is never
    enqueued, although the server completed it. *)
Theorem copy_from_file_lost :
  Scenario.summary
    [Bytes Scenario.conn1 true (Scenario.client_bytes [Scenario.query "copy t from '/tmp/x'"]) 1;
     Bytes Scenario.conn1 false (Scenario.ready 73) 2;
     Bytes Scenario.conn1 true (Scenario.typed_bytes [Scenario.query "insert into u values (1)"]) 3;
     Closed Scenario.conn1] =
  [(bytes_of "insert into u values (1)", 1, 1)].
Proof. vm_compute. reflexivity. Qed.

(** DEALLOCATE ALL does not end a pooled session: with the pooler option on, a
    statement parsed before DISCARD ALL is forgotten, as intended, but after
    DEALLOCATE ALL a Bind is still answered with the old session's statement,
    since the classifier does not count DEALLOCATE as a utility statement. *)
Theorem deallocate_all_ignored :
  let parse := Scenario.message 80 (encode_parse (bytes_of "s") (bytes_of "delete from t") []) in
  let bind := Scenario.message 66 (encode_bind [] (bytes_of "s") [] [] [0; 0]) in
  let session reset := Scenario.summary
    [Bytes Scenario.conn1 true (Scenario.client_bytes [parse; Scenario.query reset; bind]) 1] in
  session "discard all"%string = [(bytes_of "discard all", 0, 1)] ∧
  session "deallocate all"%string = [(bytes_of "delete from t", 1, 2)].
Proof. vm_compute. split; reflexivity. Qed.

(** Closing leaves the event builder's counter behind: after a connection that sent
    a query is closed, the processor has forgotten everything about it except its
    entry in the event builder's sequence map, which nothing removes. *)
Theorem close_leaks_builder_sequence :
  let s := exec (run
    [Bytes Scenario.conn1 true (Scenario.client_bytes [Scenario.query "select 1"]) 1;
     Closed Scenario.conn1]) Scenario.s0 in
  eb_seq (eb s) !! Scenario.conn1 = Some 1 ∧
  parsers s = ∅ ∧ sp_seq s = ∅ ∧ lastSQL s = ∅ ∧ states (sm s) = ∅ ∧ pending (timer s) = ∅ ∧
  current (txGen s) = ∅ ∧ parsed (binder s) = ∅ ∧ active (copies s) = ∅.
Proof. cbv zeta. split_and!; vm_compute; reflexivity. Qed.
