(* ===== verification/Conversation.v ===== *)
(** * Conversations: what the stream processor computes

    An abstract machine per connection: the transaction state, the prepared
    statements by name and the COPY under way.  It reads whole messages, has no
    clock, no numbering and no tables of connections.  The stream processor
    (src/pkg/pipeline/processor.go), fed any interleaving of any bytes of any
    number of connections, is shown to enqueue for each of them exactly what its
    machine submits. *)
From Stdlib Require Import String.
From S2P Require Import Prelude Core Framing Messages Classifier ClassifierFacts Filter ConnState Processor ProcessorFacts Session Scenarios.

#[local] Existing Instance ClassifierDemo.ascii.

(** What the target has to execute: an event without its numbering and times. *)
Record statement := Statement {
  x_sql : list Z; x_extended : bool; x_name : list Z; x_params : list ParamInfo; x_copy : list (list Z) }.

Definition statement_of (ev : SQLEvent) : statement :=
  Statement (SQL ev) (Extended ev) (StmtName ev) (Params ev) (CopyData ev).

(** [copying] is the statement and the payloads so far. *)
Record session := MkSession {
  tx : TxStatus; prepared : gmap (list Z) ParseInfo; copying : option (list Z * list (list Z)) }.

Definition new_session : session := MkSession TxIdle ∅ None.

Definition set_copying (o : option (list Z * list (list Z))) (a : session) : session := MkSession (tx a) (prepared a) o.

Definition ready_state (st : TxStatus) (status : Z) : TxStatus :=
  if status =? 73 then TxIdle else if status =? 84 then TxInTx else if status =? 69 then TxFailed else st.

Section machine.
Context `{Unicode} (pcfg : ProtocolConfig) (f : filterImpl).

Definition too_long (sql : list Z) : bool := effectiveMaxSQLLength pcfg <? zlen sql.

(** A statement is kept as the filter decides in the current transaction state; a
    pooler's reset forgets the session. *)
Definition submit (x : statement) (a : session) : session * list statement :=
  let '(action, class, _) := Decide f (x_sql x) (tx a) in
  let reset := ConnectionPooler pcfg && bool_decide (class = ClassUtility) && isPoolerResetQuery (x_sql x) in
  (MkSession (next_state (tx a) class) (if reset then ∅ else prepared a) (if reset then None else copying a),
   if bool_decide (action = Keep) then [x] else []).

Definition declare (m : PGMessage) (a : session) : session :=
  if negb (ExtendedQuery pcfg) then a else
  match parseParseMessage (Payload_ m) with
  | Some (name, sql, oids) =>
      if too_long sql then a else MkSession (tx a) (<[name := MkParseInfo sql oids]> (prepared a)) (copying a)
  | None => a
  end.

Definition bind (m : PGMessage) (a : session) : session * list statement :=
  match parseBindMessage (Payload_ m) with
  | Some (name, formats, values) =>
      match prepared a !! name with
      | Some info => submit (Statement (pi_SQL info) true name (zipParams (ParamOIDs info) formats values) []) a
      | None => (a, [])
      end
  | None => (a, [])
  end.

Definition finish_copy (a : session) : session * list statement :=
  match copying a with
  | Some (sql, ps) =>
      if total ps <=? DefaultMaxCopyBytes then submit (Statement sql false [] [] ps) (set_copying None a)
      else (set_copying None a, [])
  | None => (a, [])
  end.

Definition query (m : PGMessage) (a : session) : session * list statement :=
  let sql := extractSimpleQuerySQL (Payload_ m) in
  if too_long sql then (a, [])
  else if bool_decide (Classify (cls f) sql = ClassCopyFrom) then (set_copying (Some (sql, [])) a, [])
  else submit (Statement sql false [] [] []) a.

Definition client_says (m : PGMessage) (a : session) : session * list statement :=
  if is_cancel m then (a, [])
  else if Type_ m =? MsgParse then (declare m a, [])
  else if Type_ m =? MsgBind then bind m a
  else if Type_ m =? MsgCopyData then (set_copying (prod_map id (λ ps, ps ++ [Payload_ m]) <$> copying a) a, [])
  else if Type_ m =? MsgCopyDone then finish_copy a
  else if Type_ m =? MsgCopyFail then (set_copying None a, [])
  else if Type_ m =? msgSimpleQuery then query m a
  else (a, []).

Definition server_says (m : PGMessage) (a : session) : session :=
  match ExtractReadyForQuery m with
  | Some status => MkSession (ready_state (tx a) status) (prepared a) (copying a)
  | None => a
  end.

Definition say (m : bool * PGMessage) (a : session) : session * list statement :=
  if m.1 then client_says m.2 a else (server_says m.2 a, []).

Fixpoint talk (a : session) (ms : list (bool * PGMessage)) : session * list statement :=
  match ms with
  | [] => (a, [])
  | m :: ms => let '(a1, x1) := say m a in let '(a2, x2) := talk a1 ms in (a2, x1 ++ x2)
  end.

(** A connection: its two parsers and its session. *)
Definition new_parsers : ConnParsers := MkConnParsers (NewParser true) (NewParser false).

Definition arrive (cp : ConnParsers) (fc : bool) (data : list Z) : ConnParsers * list (bool * PGMessage) :=
  let '(ms, _, p) := feed (if fc then Client cp else Server cp) data in
  (if fc then MkConnParsers p (Server cp) else MkConnParsers (Client cp) p, pair fc <$> ms).

Fixpoint converse (cp : ConnParsers) (a : session) (is_ : list input) : list statement :=
  match is_ with
  | [] => []
  | Bytes _ fc data _ :: is_ =>
      let '(cp, ms) := arrive cp fc data in
      let '(a, xs) := talk a ms in xs ++ converse cp a is_
  | Closed _ :: is_ => converse new_parsers new_session is_
  end.
End machine.

(** ** The processor runs these machines *)
Definition copy_abs (c : ConnID) (o : option (list Z * list (list Z))) (t : CopyTracker) : Prop :=
  maxBytes t = DefaultMaxCopyBytes ∧
  match o with None => active t !! c = None | Some (sql, ps) => copied c sql ps t end.

(** The processor's state [s] holds the session [a] for [c]. *)
Record abstracts `{Unicode} (pcfg : ProtocolConfig) (f : filterImpl) (c : ConnID) (s : StreamProcessor) (a : session)
    : Prop := Abstracts {
  ab_cfg : sp_cfg s = pcfg;
  ab_eb : eb_cfg (eb s) = pcfg;
  ab_flt : flt s = f;
  ab_cls : sp_cls s = cls f;
  ab_tx : State c (sm s) = tx a;
  ab_prep : default ∅ (parsed (binder s) !! c) = prepared a;
  ab_copy : copy_abs c (copying a) (copies s) }.

Definition statements (os : list output) : list (ConnID * statement) :=
  omap (λ o, match o with Enqueued ev => Some (Conn ev, statement_of ev) | _ => None end) os.

Lemma statements_app os1 os2 : statements (os1 ++ os2) = statements os1 ++ statements os2.
Proof. apply omap_app. Qed.

Section refinement.
Context `{Unicode} (pcfg : ProtocolConfig) (f : filterImpl) (c : ConnID).

(** [m] follows the step [r] of the machine: from a state that holds [a] it ends in
    one that holds [r.1] and enqueues [r.2], and leaves the parsers alone. *)
Definition follows (m : M unit) (s : StreamProcessor) (r : session * list statement) : Prop :=
  abstracts pcfg f c (exec m s) r.1 ∧ statements (outs m s) = pair c <$> r.2 ∧ parsers (exec m s) = parsers s.

Lemma follows_bind (m : M unit) (k : unit → M unit) s a xs a' xs' :
  follows m s (a, xs) → follows (k (val m s)) (exec m s) (a', xs') → follows (m ≫= k) s (a', xs ++ xs').
Proof.
  intros (A1 & B1 & C1) (A2 & B2 & C2). unfold follows. rewrite exec_bind, outs_bind, statements_app, B1, B2.
  split_and!; [done|cbn [snd]; by rewrite fmap_app|]. by rewrite C2, C1.
Qed.

Lemma follows_modify g s a :
  abstracts pcfg f c (g s) a → parsers (g s) = parsers s → follows (modify g) s (a, []).
Proof. intros Ha Hp. by split; [|split]. Qed.

Lemma abstracts_timer v s a : abstracts pcfg f c s a → abstracts pcfg f c (set_timer v s) a.
Proof. by intros []. Qed.

Lemma abstracts_parsers v s a : abstracts pcfg f c s a → abstracts pcfg f c (set_parsers v s) a.
Proof. by intros []. Qed.

Lemma abstracts_copies v s a o :
  abstracts pcfg f c s a → copy_abs c o v → abstracts pcfg f c (set_copies v s) (set_copying o a).
Proof. by intros [] ?. Qed.

Lemma abstracts_eb v s a : abstracts pcfg f c s a → eb_cfg v = pcfg → abstracts pcfg f c (set_eb v s) a.
Proof. by intros [] ?. Qed.

Lemma Decide_class sql st : (Decide f sql st).1.2 = Classify (cls f) sql.
Proof. unfold Decide. by repeat case_match; simplify_eq/=. Qed.

Lemma follows_dispatch ev s a :
  Conn ev = c → abstracts pcfg f c s a → follows (dispatch c ev) s (submit pcfg f (statement_of ev) a).
Proof.
  intros Hc [E1 E2 E3 E4 E5 E6 E7]. unfold follows, exec, outs. rewrite dispatch_spec. cbn [fst snd].
  pose proof (Decide_class (SQL ev) (tx a)) as Hcl. unfold submit, dispatch_outs, pooler_reset.
  cbn [x_sql statement_of]. rewrite E1, E3, E4, E5. destruct (Decide f (SQL ev) (tx a)) as [[action class] [k b]].
  cbn [fst snd] in Hcl. subst class. set (reset := ConnectionPooler pcfg && _ && _).
  split_and!.
  - assert (State c (OnStatement c (Classify (sp_cls s) (SQL ev)) (sm s)) = next_state (tx a) (Classify (cls f) (SQL ev)))
      as Hst by (by rewrite State_OnStatement, E4, E5).
    destruct reset; [|by split]. split; cbn; try done; [by rewrite lookup_delete_eq|].
    split; [apply E7|]. cbn. by rewrite lookup_delete_eq.
  - unfold statements. cbn [snd]. repeat case_bool_decide; try done. cbn. by rewrite Hc.
  - by destruct reset.
Qed.

(** The event builder, with its state updated. *)
Lemma oversized_spec b sql : eb_cfg b = pcfg → oversized b sql = too_long pcfg sql.
Proof.
  intros Hb. unfold oversized, too_long. rewrite Hb, Z.gtb_ltb.
  assert (0 < effectiveMaxSQLLength pcfg) by (unfold effectiveMaxSQLLength; rewrite Z.gtb_ltb; by destruct (Z.ltb_spec 0 (MaxSQLLength pcfg))).
  by rewrite (proj2 (Z.leb_gt _ _)).
Qed.

(** [build] changes nothing of the session and enqueues nothing. *)
Lemma follows_build msg ts s a (k : option SQLEvent → M unit) r :
  abstracts pcfg f c s a →
  (∀ s' b, s' = set_eb b s → abstracts pcfg f c s' a → follows (k (Build (eb s) c msg ts).1.1) s' r) →
  follows (build c msg ts ≫= k) s r.
Proof.
  intros Ha Hk.
  assert (eb_cfg (Build (eb s) c msg ts).2 = pcfg) as Hb.
  { destruct Ha as [_ <- _ _ _ _ _]. unfold Build, emit. repeat case_match; simplify_eq/=; done. }
  destruct (Build (eb s) c msg ts) as [[ev err] b] eqn:E. cbn [fst snd] in *.
  destruct (Hk (set_eb b s) b eq_refl (abstracts_eb _ _ _ Ha Hb)) as (A & B & C). unfold follows.
  assert (∀ s', build c msg ts s = (ev, s', if err then [ParseError] else []) →
    exec (build c msg ts ≫= k) s = exec (k ev) s' ∧ statements (outs (build c msg ts ≫= k) s) = statements (outs (k ev) s'))
    as Hbuild.
  { intros s' E'. unfold exec, outs. cbv [mbind M_bind]. rewrite E'. destruct (k ev s') as [[??]?]. cbn.
    split; [done|]. by destruct err. }
  destruct (Hbuild (set_eb b s)) as [-> ->]; [|by split_and!].
  unfold build. cbv [mbind M_bind get modify output_ when mret M_ret]. rewrite E. by destruct err.
Qed.

Lemma follows_ret s a : abstracts pcfg f c s a → follows (mret ()) s (a, []).
Proof. by split; [|split]. Qed.

Lemma follows_started m ts s r : follows m s r → follows (m ≫= λ _, startTimer c ts) s r.
Proof.
  intros Hm. destruct r as [a xs]. rewrite <- (app_nil_r xs). eapply follows_bind; [done|].
  apply follows_modify; [|done]. by apply abstracts_timer, Hm.
Qed.

Lemma follows_declare m ts s a :
  Type_ m = MsgParse → abstracts pcfg f c s a →
  follows (ev ← build c m ts;
    match ev with
    | Some ev => modify (λ s, set_binder (OnParse c (StmtName ev) (SQL ev) (oidsOf (Params ev)) (binder s)) s)
    | None => mret ()
    end) s (declare pcfg m a, []).
Proof.
  intros Ht Ha. apply (follows_build _ _ _ a); [done|]. intros s' b Hs' Ha'. unfold Build, declare. rewrite Ht.
  change (MsgParse =? msgSimpleQuery) with false. change (MsgParse =? msgParse) with true. cbv iota.
  rewrite (ab_eb _ _ _ _ _ Ha). destruct (ExtendedQuery pcfg); cbn [negb fst]; [|by apply follows_ret].
  destruct (parseParseMessage _) as [[[name sql] oids]|]; [|by apply follows_ret].
  rewrite oversized_spec by apply Ha. destruct (too_long pcfg sql); [by apply follows_ret|].
  apply follows_modify; [|done]. destruct Ha' as [E1 E2 E3 E4 E5 E6 E7]. split; try done.
  cbn. rewrite lookup_insert_eq. cbn. rewrite E6. do 2 f_equal.
  unfold oidsOf. cbn. rewrite <- list_fmap_compose. apply list_fmap_id.
Qed.

Lemma follows_bindmsg m ts s a :
  abstracts pcfg f c s a →
  follows (res ← get (λ s, OnBind c (Payload_ m) (binder s));
    match res with
    | Some res =>
        dispatch c (SqlEvent c (br_SQL res) ts 0 0 true (br_StmtName res) (br_Params res) [] 0 []) ≫= λ _,
        startTimer c ts
    | None => output_ ParseError
    end) s (bind pcfg f m a).
Proof.
  intros Ha. unfold follows. rewrite exec_bind, outs_bind. change (exec (get _) s) with s.
  change (outs (get _) s) with (@nil output). change (val (get _) s) with (OnBind c (Payload_ m) (binder s)).
  cbn [app]. unfold OnBind, bind.
  destruct (parseBindMessage _) as [[[name formats] values]|]; [|by split; [|split]].
  cbn [mbind option_bind]. rewrite <- (ab_prep _ _ _ _ _ Ha).
  destruct (parsed (binder s) !! c) as [stmts|]; cbn [default mbind option_bind id]; [|by split; [|split]].
  destruct (stmts !! name) as [info|]; [|by split; [|split]]. cbn [mbind option_bind].
  by apply follows_started, (follows_dispatch (SqlEvent _ _ _ _ _ _ _ _ _ _ _)).
Qed.

Lemma copy_abs_start sql t o : copy_abs c o t → copy_abs c (Some (sql, [])) (copy_Start c sql t).
Proof. intros [Hm _]. split; [done|]. apply copied_start. by rewrite Hm. Qed.

Lemma copy_abs_data p t o :
  copy_abs c o t → copy_abs c (prod_map id (λ ps, ps ++ [p]) <$> o) (copy_Data c p t).2.
Proof.
  intros [Hm Ho]. split; [by rewrite <- Hm; apply (copy_max t (c, CopyPayload p))|].
  destruct o as [[sql ps]|]; cbn; [by apply copied_data|]. unfold copy_Data. by rewrite Ho.
Qed.

Lemma copy_abs_clear t o : copy_abs c o t → copy_abs c None (copy_clear c t).
Proof. intros [Hm _]. split; [done|]. cbn. by rewrite lookup_delete_eq. Qed.

(** What CopyDone yields. *)
Lemma copy_abs_done t o :
  copy_abs c o t →
  (copy_Done c t).1 = '(sql, ps) ← o; if total ps <=? DefaultMaxCopyBytes then Some (sql, ps) else None.
Proof.
  intros [Hm Ho]. unfold copy_Done. destruct o as [[sql ps]|]; cbn; [|by rewrite Ho].
  unfold copied, copy_view in Ho. rewrite Hm in Ho. by destruct (total ps <=? _); injection Ho as -> _ ->.
Qed.

Lemma follows_finish_copy ts s a :
  abstracts pcfg f c s a →
  follows (done ← get (λ s, (copy_Done c (copies s)).1);
    modify (λ s, set_copies (copy_Done c (copies s)).2 s) ≫= λ _,
    match done with
    | Some (sql, data) => dispatch c (SqlEvent c sql ts 0 0 false [] [] data 0 [])
    | None => mret ()
    end) s (finish_copy pcfg f a).
Proof.
  intros Ha. pose proof (ab_copy _ _ _ _ _ Ha) as Hc. pose proof (copy_abs_done _ _ Hc) as Hd.
  assert (abstracts pcfg f c (set_copies (copy_clear c (copies s)) s) (set_copying None a)) as Ha'
    by (by eapply abstracts_copies, copy_abs_clear).
  assert (∀ r, follows (match (copy_Done c (copies s)).1 with
    | Some (sql, data) => dispatch c (SqlEvent c sql ts 0 0 false [] [] data 0 [])
    | None => mret ()
    end) (set_copies (copy_clear c (copies s)) s) r → follows (done ← get (λ s, (copy_Done c (copies s)).1);
    modify (λ s, set_copies (copy_Done c (copies s)).2 s) ≫= λ _,
    match done with
    | Some (sql, data) => dispatch c (SqlEvent c sql ts 0 0 false [] [] data 0 [])
    | None => mret ()
    end) s r) as Hf.
  { intros r. unfold follows. by rewrite !exec_bind, !outs_bind. }
  apply Hf. rewrite Hd. unfold finish_copy. destruct (copying a) as [[sql ps]|] eqn:E; cbn [mbind option_bind].
  - destruct (total ps <=? _); [|by apply follows_ret]. by apply (follows_dispatch (SqlEvent _ _ _ _ _ _ _ _ _ _ _)).
  - apply follows_ret. destruct Ha'. split; try done. by rewrite E.
Qed.

Lemma follows_query m ts s a :
  Type_ m = msgSimpleQuery → abstracts pcfg f c s a →
  follows (ev ← build c m ts;
    match ev with
    | None => mret ()
    | Some ev =>
        class ← get (λ s, Classify (sp_cls s) (SQL ev));
        if decide (class = ClassCopyFrom) then
          modify (λ s, set_copies (copy_Start c (SQL ev) (copies s)) s) ≫= λ _, startTimer c ts
        else dispatch c ev ≫= λ _, startTimer c ts
    end) s (query pcfg f m a).
Proof.
  intros Ht Ha. apply (follows_build _ _ _ a); [done|]. intros s' b Hs' Ha'. unfold Build, query. rewrite Ht.
  change (msgSimpleQuery =? msgSimpleQuery) with true. cbv iota zeta. rewrite oversized_spec by apply Ha.
  set (sql := extractSimpleQuerySQL (Payload_ m)). destruct (too_long pcfg sql); [by apply follows_ret|].
  cbn [emit fst]. set (ev := SqlEvent _ _ _ _ _ _ _ _ _ _ _).
  unfold follows. rewrite exec_bind, outs_bind. cbn [app]. change (exec (get _) s') with s'.
  change (outs (get _) s') with (@nil output). change (val (get _) s') with (Classify (sp_cls s') sql).
  rewrite (ab_cls _ _ _ _ _ Ha'). case_bool_decide; [rewrite decide_True by done|rewrite decide_False by done].
  - apply follows_started, follows_modify; [|done]. by eapply abstracts_copies, copy_abs_start, Ha'.
  - apply follows_started. by apply (follows_dispatch ev).
Qed.

Lemma follows_client m ts s a :
  abstracts pcfg f c s a → follows (handleClient c m ts) s (client_says pcfg f m a).
Proof.
  intros Ha. unfold handleClient, client_says. destruct (is_cancel m); [by apply follows_ret|].
  destruct (Z.eqb_spec (Type_ m) MsgParse); [by apply follows_declare|].
  destruct (Type_ m =? MsgBind); [by apply follows_bindmsg|].
  destruct (Type_ m =? MsgCopyData).
  { apply follows_modify; [|done]. by eapply abstracts_copies, copy_abs_data, Ha. }
  destruct (Type_ m =? MsgCopyDone); [by apply follows_finish_copy|].
  destruct (Type_ m =? MsgCopyFail).
  { apply follows_modify; [|done]. by eapply abstracts_copies, copy_abs_clear, Ha. }
  destruct (Z.eqb_spec (Type_ m) msgSimpleQuery) as [Ht|Hn]; [by apply follows_query|].
  apply (follows_build _ _ _ a); [done|]. intros s' b _ Ha'. unfold Build.
  rewrite (proj2 (Z.eqb_neq _ _) Hn), (proj2 (Z.eqb_neq (Type_ m) msgParse)) by done. by apply follows_ret.
Qed.

Lemma follows_record ts s a : abstracts pcfg f c s a → follows (recordExec c ts) s (a, []).
Proof.
  intros Ha. unfold follows, recordExec. rewrite !exec_bind, !outs_bind.
  change (exec (get _) s) with s. change (outs (get _) s) with (@nil output). cbn [app]. unfold val, get. cbn [fst].
  set (d := (OnBackendComplete c ts (timer s)).1). set (s' := exec (modify _) s).
  assert (abstracts pcfg f c s' a) as Ha' by (by apply abstracts_timer).
  destruct d as [d|]; [|by split; [|split]]. unfold when. destruct (negb _); by split; [|split].
Qed.

Lemma follows_server m ts s a :
  abstracts pcfg f c s a → follows (handleServer c m ts) s (server_says m a, []).
Proof.
  intros Ha. unfold handleServer, server_says. destruct (Z.eqb_spec (Type_ m) MsgReadyForQuery) as [Ht|Hn].
  - assert (follows match ExtractReadyForQuery m with
      | Some status => modify (λ s, set_sm (OnReadyForQuery c status (sm s)) s) | None => mret () end s
      (server_says m a, [])) as Hm.
    { unfold server_says. destruct (ExtractReadyForQuery m) as [status|]; [|by apply follows_ret].
      apply follows_modify; [|done]. destruct Ha as [E1 E2 E3 E4 E5 E6 E7]. split; try done.
      cbn. rewrite <- E5. unfold State, OnReadyForQuery, ready_state. cbn.
      repeat case_match; cbn; by rewrite ?lookup_insert_eq. }
    apply (follows_bind _ _ s (server_says m a) [] _ []); [done|]. apply follows_record, Hm.
  - unfold ExtractReadyForQuery. rewrite (proj2 (Z.eqb_neq (Type_ m) msgReadyForQuery)) by done. cbn [negb].
    destruct (_ =? _); [by apply follows_record|by apply follows_ret].
Qed.

Lemma follows_each fc ms ts : ∀ s a,
  abstracts pcfg f c s a →
  follows (each (λ m, if fc : bool then handleClient c m ts else handleServer c m ts) ms) s
    (talk pcfg f a (pair fc <$> ms)).
Proof.
  induction ms as [|m ms IH]; intros s a Ha; [by apply follows_ret|]. rewrite fmap_cons. cbn [each talk].
  assert (follows (if fc then handleClient c m ts else handleServer c m ts) s (say pcfg f (fc, m) a)) as Hm.
  { unfold say. cbn [fst snd]. destruct fc; [by apply follows_client|by apply follows_server]. }
  destruct (say pcfg f (fc, m) a) as [a1 x1]. specialize (IH _ _ (proj1 Hm)). cbn [fst] in IH.
  destruct (talk pcfg f a1 (pair fc <$> ms)) as [a2 x2]. by eapply follows_bind.
Qed.

(** One chunk of the connection. *)
Lemma follows_bytes fc data ts s a :
  abstracts pcfg f c s a →
  let '(cp, ms) := arrive (parsersFor c s) fc data in
  let '(a', xs) := talk pcfg f a ms in
  abstracts pcfg f c (exec (OnBytes c fc data ts) s) a' ∧ parsersFor c (exec (OnBytes c fc data ts) s) = cp ∧
  statements (outs (OnBytes c fc data ts) s) = pair c <$> xs.
Proof.
  intros Ha. unfold OnBytes, arrive. rewrite exec_bind, outs_bind. change (exec (get _) s) with s.
  change (val (get (parsersFor c)) s) with (parsersFor c s). change (outs (get _) s) with (@nil output). cbn [app].
  destruct (feed _ data) as [[ms err] p]. set (cp := if fc then _ else _).
  set (s1 := set_parsers (<[c := cp]> (parsers s)) s).
  pose proof (follows_each fc ms ts s1 a (abstracts_parsers _ _ _ Ha)) as (A & B & C).
  destruct (talk pcfg f a (pair fc <$> ms)) as [a' xs]. rewrite !exec_bind, !outs_bind.
  change (exec (modify _) s) with s1. change (outs (modify _) s) with (@nil output). cbn [app].
  assert (exec (when (bool_decide (is_Some err)) (output_ ParseError)) s1 = s1) as -> by (by destruct err).
  rewrite statements_app, B.
  assert (statements (outs (when (bool_decide (is_Some err)) (output_ ParseError)) s1) = []) as -> by (by destruct err).
  split_and!; [done| |done]. unfold parsersFor. rewrite C. cbn. by rewrite lookup_insert_eq.
Qed.

Lemma abstracts_close s a : abstracts pcfg f c s a → abstracts pcfg f c (exec (OnClose c) s) new_session.
Proof.
  intros [E1 E2 E3 E4 E5 E6 E7]. split; try done; cbn.
  - unfold State. cbn. by rewrite lookup_delete_eq.
  - by rewrite lookup_delete_eq.
  - by eapply copy_abs_clear.
Qed.
End refinement.

(** ** Runs over many connections *)
Definition statements_of (c : ConnID) (os : list output) : list statement :=
  omap (λ o, match o with Enqueued ev => if decide (Conn ev = c) then Some (statement_of ev) else None | _ => None end) os.

Lemma statements_of_app c os1 os2 : statements_of c (os1 ++ os2) = statements_of c os1 ++ statements_of c os2.
Proof. apply omap_app. Qed.

Lemma statements_of_own c os xs : statements os = pair c <$> xs → statements_of c os = xs.
Proof.
  revert xs. induction os as [|o os IH]; intros xs E; [by destruct xs|]. unfold statements, statements_of in *.
  destruct o as [ev| | |]; cbn in *; [|by apply IH..]. destruct xs as [|x xs]; [done|].
  injection E as <- <- E. rewrite decide_True by done. f_equal. by apply IH.
Qed.

Lemma statements_of_foreign c os : Forall (foreign c) os → statements_of c os = [].
Proof.
  induction 1 as [|o os Ho _ IH]; [done|]. unfold statements_of in *. destruct o as [ev| | |]; cbn in *; [|done..].
  by rewrite decide_False.
Qed.

Section runs.
Context `{Unicode} (pcfg : ProtocolConfig) (f : filterImpl) (c : ConnID).

(** The session is part of what the processor holds for the connection. *)
Lemma abstracts_view s1 s2 a :
  view c s1 = view c s2 → abstracts pcfg f c s1 a →
  abstracts pcfg f c s2 a ∧ parsersFor c s1 = parsersFor c s2.
Proof.
  unfold view. intros [= V1 V2 V3 V4 V5 V6 V7 V8 V9 V10 V11 V12 V13 V14 V15 V16] [E1 E2 E3 E4 E5 E6 [E7 E8]].
  split; [|unfold parsersFor; congruence]. split; try congruence.
  - rewrite <- E5. unfold State. congruence.
  - split; [congruence|]. destruct (copying a) as [[sql ps]|]; [|congruence].
    unfold copied, copy_view in *. rewrite E7 in E8. replace (maxBytes (copies s2)) with DefaultMaxCopyBytes by congruence.
    destruct (total ps <=? _); congruence.
Qed.

Lemma run_converse is_ : ∀ s a,
  abstracts pcfg f c s a →
  statements_of c (outs (run is_) s) = converse pcfg f (parsersFor c s) a (own c is_).
Proof.
  induction is_ as [|i is_ IH]; intros s a Ha; [done|]. destruct (run_cons i is_ s) as [_ ->].
  rewrite statements_of_app. unfold own. cbn [List.filter]. fold (own c is_). case_bool_decide as Hi.
  - destruct i as [d fc data ts|d]; cbn in Hi; subst d; cbn [step converse].
    + pose proof (follows_bytes pcfg f c fc data ts s a Ha) as Hb.
      destruct (arrive (parsersFor c s) fc data) as [cp ms]. destruct (talk pcfg f a ms) as [a' xs].
      destruct Hb as (A & <- & B). by rewrite (statements_of_own _ _ _ B), (IH _ _ A).
    + rewrite (IH _ _ (abstracts_close pcfg f c s a Ha)). f_equal. unfold parsersFor. cbn. by rewrite lookup_delete_eq.
  - destruct (quiet_step c i Hi s) as (Hv & Hf & _). rewrite (statements_of_foreign _ _ Hf). cbn [app].
    destruct (abstracts_view _ (exec (step i) s) a (eq_sym Hv) Ha) as [A ->]. by apply IH.
Qed.

Lemma abstracts_new fcfg s :
  NewStreamProcessor pcfg fcfg = Ok s → NewFilter fcfg = Ok f →
  abstracts pcfg f c s new_session ∧ parsersFor c s = new_parsers.
Proof.
  intros Hs Hf. unfold NewStreamProcessor in Hs. rewrite Hf in Hs. injection Hs as <-.
  destruct (NewFilter_patterns _ _ Hf) as (_ & _ & Hcls). by repeat split.
Qed.
End runs.

(** C6 The stream processor is one conversation per connection.  Whatever bytes arrive
    for whatever connections in whatever interleaving and at whatever times, the
    statements enqueued for a connection are those its own machine submits when it
    reads the connection's own bytes: prepared statements, COPY, transaction state
    and pooler resets included. *)
Theorem processor_converses `{Unicode} pcfg fcfg s f c is_ :
  NewStreamProcessor pcfg fcfg = Ok s → NewFilter fcfg = Ok f →
  statements_of c (outs (run is_) s) = converse pcfg f new_parsers new_session (own c is_).
Proof.
  intros Hs Hf. destruct (abstracts_new pcfg f c fcfg s Hs Hf) as [Ha Hp].
  by rewrite (run_converse pcfg f c is_ s _ Ha), Hp.
Qed.

(** ** The messages of a conversation *)
Fixpoint heard (cp : ConnParsers) (is_ : list input) : list (bool * PGMessage) :=
  match is_ with
  | [] => []
  | Bytes _ fc data _ :: is_ => let '(cp, ms) := arrive cp fc data in ms ++ heard cp is_
  | Closed _ :: is_ => heard new_parsers is_
  end.

(** The messages and the chunks of one side. *)
Definition said (b : bool) (ms : list (bool * PGMessage)) : list PGMessage :=
  omap (λ m, if Bool.eqb m.1 b then Some m.2 else None) ms.

Definition sent_by (b : bool) (is_ : list input) : list (list Z) :=
  omap (λ i, match i with Bytes _ fc data _ => if Bool.eqb fc b then Some data else None | Closed _ => None end) is_.

Definition open_ended (i : input) : Prop := match i with Bytes _ _ _ _ => True | Closed _ => False end.

Lemma said_app b ms1 ms2 : said b (ms1 ++ ms2) = said b ms1 ++ said b ms2.
Proof. apply omap_app. Qed.

Lemma said_pair b fc ms : said b (pair fc <$> ms) = if Bool.eqb fc b then ms else [].
Proof.
  induction ms as [|m ms IH]; [by destruct (Bool.eqb fc b)|]. rewrite fmap_cons.
  change (said b ((fc, m) :: (pair fc <$> ms))) with
    (match (if Bool.eqb fc b then Some m else None) with Some y => y :: said b (pair fc <$> ms) | None => said b (pair fc <$> ms) end).
  rewrite IH. by destruct (Bool.eqb fc b).
Qed.

Section messages.
Context `{Unicode} (pcfg : ProtocolConfig) (f : filterImpl).

Lemma talk_app a ms1 ms2 :
  talk pcfg f a (ms1 ++ ms2) =
    ((talk pcfg f (talk pcfg f a ms1).1 ms2).1, (talk pcfg f a ms1).2 ++ (talk pcfg f (talk pcfg f a ms1).1 ms2).2).
Proof.
  revert a. induction ms1 as [|m ms IH]; intros a; cbn [app talk]; [by rewrite <- surjective_pairing|].
  destruct (say pcfg f m a) as [a1 x1]. rewrite IH. destruct (talk pcfg f a1 ms) as [a2 x2]. cbn. by rewrite app_assoc.
Qed.

Lemma converse_talk cp a is_ :
  Forall open_ended is_ → converse pcfg f cp a is_ = (talk pcfg f a (heard cp is_)).2.
Proof.
  intros Ho. revert cp a. induction Ho as [|[d fc data ts|d] is_ Hi _ IH]; intros cp a; [done| |done].
  cbn [converse heard]. destruct (arrive cp fc data) as [cp' ms]. rewrite talk_app. cbn [snd].
  destruct (talk pcfg f a ms) as [a' xs]. by rewrite IH.
Qed.

(** A close at the end submits nothing. *)
Lemma converse_close cp a is_ d : converse pcfg f cp a (is_ ++ [Closed d]) = converse pcfg f cp a is_.
Proof.
  revert cp a. induction is_ as [|[d' fc data ts|d'] is_ IH]; intros cp a; cbn [app converse]; [done| |done].
  destruct (arrive cp fc data) as [cp' ms]. destruct (talk pcfg f a ms) as [a' xs]. by rewrite IH.
Qed.
End messages.

(** Each side is framed by its own parser, whatever the other side sends meanwhile. *)
Lemma heard_side (b : bool) cp is_ ms p :
  Forall open_ended is_ → feeds (if b then Client cp else Server cp) (sent_by b is_) = Some (ms, p) →
  said b (heard cp is_) = ms.
Proof.
  intros Ho. revert cp ms. induction Ho as [|[d fc data ts|d] is_ Hi _ IH]; intros cp ms Hf; [|cbn [heard]|done].
  { cbn in Hf. by simplify_eq. }
  unfold arrive. destruct (Feed_answers (if fc then Client cp else Server cp) data) as (ms1 & err & p1 & E).
  unfold feed. rewrite E. cbn [default from_option id]. rewrite said_app, said_pair.
  destruct (Bool.eqb fc b) eqn:Eb.
  - apply Bool.eqb_prop in Eb as ->. unfold sent_by in Hf. cbn in Hf. rewrite Bool.eqb_reflx in Hf. cbn [feeds] in Hf.
    rewrite E in Hf. cbn in Hf. apply bind_Some in Hf as ([ms2 p2] & Hf & [= <- <-]). f_equal.
    apply IH. by destruct b.
  - unfold sent_by in Hf. cbn in Hf. rewrite Eb in Hf. apply IH. by destruct b, fc.
Qed.

(** So a side that sends an encoded session is heard to say its messages. *)
Lemma heard_session b is_ msgs :
  Forall open_ended is_ → wf_session b msgs → Forall bytes_ok (sent_by b is_) →
  concat (sent_by b is_) = encode_session b msgs → said b (heard new_parsers is_) = msgs.
Proof.
  intros Ho Hwf Hb Hc.
  destruct (feeds_session b b [] (sent_by b is_) msgs) as [st Hf]; [by constructor|done|by destruct b|done|done|].
  eapply heard_side; [done|]. by destruct b.
Qed.

(** The two interleaved connections of [Scenarios]: what connection 1 submits. *)
Lemma processor_converses_witness :
  x_sql <$> statements_of Scenario.conn1 (outs (run Scenario.interleaved) Scenario.s0) =
  [bytes_of "insert into t values (1)"; bytes_of "drop table t"].
Proof.
  rewrite (processor_converses Scenario.pcfg FilterDemo.cfg Scenario.s0 FilterDemo.f Scenario.conn1
    Scenario.interleaved Scenario.s0_ok eq_refl). vm_compute. reflexivity.
Defined.
