(* ===== verification/ConnKey.v ===== *)
(** * The key of a connection (src/pkg/core/types.go, ConnID.Key)

    The text under which the replayer routes a connection to its lane.  It is
    written with [netip.Addr.String] and decimal ports. *)
From Stdlib Require Import String Ascii.
From S2P Require Import Prelude Core.

(** ** Numbers *)
Fixpoint decimal_fuel (fuel : nat) (z : Z) : list Z :=
  match fuel with
  | O => []
  | S fuel => if z <? 10 then [48 + z] else decimal_fuel fuel (z / 10) ++ [48 + z mod 10]
  end.

(** [%d] and [strconv.FormatUint]; a number has at most one digit per bit. *)
Definition decimal (z : Z) : list Z :=
  if z <? 0 then 45 :: decimal_fuel (S (Z.to_nat (Z.log2 (- z)))) (- z)
  else decimal_fuel (S (Z.to_nat (Z.log2 z))) z.

Definition hex_digit (d : Z) : Z := if d <? 10 then 48 + d else 87 + d.

(** A 16-bit group in lower-case hexadecimal without leading zeros. *)
Definition hex16 (z : Z) : list Z :=
  if 4096 <=? z then [hex_digit (z / 4096); hex_digit (z / 256 mod 16); hex_digit (z / 16 mod 16); hex_digit (z mod 16)]
  else if 256 <=? z then [hex_digit (z / 256); hex_digit (z / 16 mod 16); hex_digit (z mod 16)]
  else if 16 <=? z then [hex_digit (z / 16); hex_digit (z mod 16)]
  else [hex_digit z].

(** ** Addresses *)
Fixpoint groups (b : list Z) : list Z :=
  match b with
  | x :: y :: b => (256 * x + y) :: groups b
  | _ => []
  end.

(** How many zero groups come first. *)
Fixpoint zero_run (gs : list Z) : nat :=
  match gs with
  | g :: gs => if g =? 0 then S (zero_run gs) else 0%nat
  | [] => 0%nat
  end.

(** The first longest run of two or more zero groups: its start and end. *)
Definition longest_zeros (gs : list Z) : option (nat * nat) :=
  foldl (λ best i,
    let l := zero_run (drop i gs) in
    let n := match best with Some (s, e) => (e - s)%nat | None => 0%nat end in
    if ((2 <=? l) && (n <? l))%nat then Some (i, i + l)%nat else best) None (seq 0 8).

Fixpoint join_groups (gs : list Z) : list Z :=
  match gs with
  | [] => []
  | [g] => hex16 g
  | g :: gs => hex16 g ++ 58 :: join_groups gs
  end.

Definition string16 (gs : list Z) : list Z :=
  match longest_zeros gs with
  | Some (s, e) => join_groups (take s gs) ++ 58 :: 58 :: join_groups (drop e gs)
  | None => join_groups gs
  end.

Definition string4 (b : list Z) : list Z :=
  match b with
  | [x; y; z; w] => decimal x ++ 46 :: decimal y ++ 46 :: decimal z ++ 46 :: decimal w
  | _ => []
  end.

Definition bytes_of_string (s : string) : list Z := (λ a, Z.of_N (N_of_ascii a)) <$> list_ascii_of_string s.

Definition addr_String (a : Addr) : list Z :=
  match a with
  | AddrZero => bytes_of_string "invalid IP"
  | Addr4 b => string4 b
  | Addr16 b =>
      if bool_decide (take 12 b = replicate 10 0 ++ [255; 255])
      then bytes_of_string "::ffff:" ++ string4 (drop 12 b)
      else string16 (groups b)
  end.

Definition Key (c : ConnID) : list Z :=
  addr_String (SrcIP c) ++ 58 :: decimal (SrcPort c) ++ 45 :: addr_String (DstIP c) ++ 58 :: decimal (DstPort c).

(** ** Decimal numbers read back *)
Definition dec_value (s : list Z) : Z := foldl (λ acc c, 10 * acc + (c - 48)) 0 s.

Definition is_digit (c : Z) : Prop := 48 ≤ c ≤ 57.

Lemma decimal_fuel_value fuel z :
  0 ≤ z → Z.log2 z < Z.of_nat fuel → dec_value (decimal_fuel fuel z) = z ∧ Forall is_digit (decimal_fuel fuel z).
Proof.
  unfold dec_value, is_digit. revert z. induction fuel as [|fuel IH]; intros z Hz Hf.
  { pose proof (Z.log2_nonneg z). lia. }
  cbn [decimal_fuel]. destruct (Z.ltb_spec z 10).
  { split; [simpl; lia|]. repeat constructor; lia. }
  assert (Z.log2 (z / 10) < Z.of_nat fuel) as Hlog.
  { enough (Z.log2 (z / 10) < Z.log2 z) by lia.
    assert (0 < z / 10) by (apply Z.div_str_pos; lia).
    assert (z / 10 * 2 ≤ z) by (pose proof (Z.mul_div_le z 10 ltac:(lia)); lia).
    pose proof (Z.log2_le_mono (z / 10 * 2) z ltac:(lia)) as Hle. rewrite (Z.mul_comm _ 2) in Hle.
    rewrite Z.log2_double in Hle by lia. lia. }
  destruct (IH (z / 10) ltac:(apply Z.div_pos; lia) Hlog) as [Hv Hd].
  pose proof (Z.mod_pos_bound z 10 ltac:(lia)). split.
  - rewrite foldl_app, Hv. simpl. pose proof (Z.div_mod z 10 ltac:(lia)). lia.
  - apply Forall_app. split; [done|]. repeat constructor; lia.
Qed.

Lemma decimal_value z : 0 ≤ z → dec_value (decimal z) = z ∧ Forall is_digit (decimal z).
Proof.
  intros Hz. unfold decimal. rewrite (proj2 (Z.ltb_ge z 0)) by lia. apply decimal_fuel_value; [done|].
  pose proof (Z.log2_nonneg z). lia.
Qed.

Lemma decimal_inj a b : 0 ≤ a → 0 ≤ b → decimal a = decimal b → a = b.
Proof.
  intros Ha Hb E. rewrite <- (proj1 (decimal_value a Ha)), <- (proj1 (decimal_value b Hb)). by rewrite E.
Qed.

(** ** Keys separate connections *)
Lemma split_at (c : Z) s1 s2 r1 r2 :
  c ∉ s1 → c ∉ s2 → s1 ++ c :: r1 = s2 ++ c :: r2 → s1 = s2 ∧ r1 = r2.
Proof.
  revert s2. induction s1 as [|x s1 IH]; intros [|y s2] H1 H2 E; simpl in E; simplify_eq; try done.
  - by destruct H2; constructor.
  - by destruct H1; constructor.
  - rewrite not_elem_of_cons in H1, H2. destruct (IH s2) as [-> ->]; tauto.
Qed.

Lemma digits_free c s : ¬ is_digit c → Forall is_digit s → c ∉ s.
Proof. rewrite Forall_forall. naive_solver. Qed.

(** A connection between IPv4 endpoints. *)
Definition conn4 (c : ConnID) : Prop :=
  ∃ a b, SrcIP c = Addr4 a ∧ DstIP c = Addr4 b ∧ length a = 4%nat ∧ length b = 4%nat ∧
    bytes_ok a ∧ bytes_ok b ∧ 0 ≤ SrcPort c ∧ 0 ≤ DstPort c.

(** A decimal followed by a separator determines the number and the rest. *)
Lemma decimal_split c a b r1 r2 :
  ¬ is_digit c → 0 ≤ a → 0 ≤ b → decimal a ++ c :: r1 = decimal b ++ c :: r2 → a = b ∧ r1 = r2.
Proof.
  intros Hc Ha Hb E. apply split_at in E as [E ->].
  - split; [by apply decimal_inj|done].
  - apply digits_free; [done|by apply decimal_value].
  - apply digits_free; [done|by apply decimal_value].
Qed.

Lemma string4_split a b r1 r2 :
  length a = 4%nat → length b = 4%nat → bytes_ok a → bytes_ok b →
  string4 a ++ 58 :: r1 = string4 b ++ 58 :: r2 → a = b ∧ r1 = r2.
Proof.
  intros La Lb Ha Hb E.
  destruct a as [|a1 [|a2 [|a3 [|a4 [|]]]]]; try done. destruct b as [|b1 [|b2 [|b3 [|b4 [|]]]]]; try done.
  unfold bytes_ok, is_byte, in_width in *. rewrite !Forall_cons in Ha, Hb. cbn [string4] in E.
  repeat (progress (rewrite <- ?app_assoc in E; cbn [app] in E)).
  destruct Ha as (?&?&?&?&_), Hb as (?&?&?&?&_).
  apply decimal_split in E as [-> E]; [|unfold is_digit; lia..].
  apply decimal_split in E as [-> E]; [|unfold is_digit; lia..].
  apply decimal_split in E as [-> E]; [|unfold is_digit; lia..].
  apply decimal_split in E as [-> E]; [|unfold is_digit; lia..]. done.
Qed.

Lemma Key_inj c d : conn4 c → conn4 d → Key c = Key d → c = d.
Proof.
  intros (a & b & Ha & Hb & ? & ? & ? & ? & Hp & Hq) (a' & b' & Ha' & Hb' & ? & ? & ? & ? & Hp' & Hq') E.
  destruct c as [sa sp da dp], d as [sa' sp' da' dp']. simpl in *. subst. unfold Key in E. simpl in E.
  apply string4_split in E as [-> E]; [|done..]. apply decimal_split in E as [-> E]; [|unfold is_digit; lia|done..].
  apply string4_split in E as [-> E]; [|done..]. apply decimal_inj in E as ->; done.
Qed.

Lemma Key_example :
  Key (MkConnID (Addr4 [10; 0; 0; 7]) 40000 (Addr16 (replicate 15 0 ++ [1])) 5432) =
  bytes_of_string "10.0.0.7:40000-::1:5432".
Proof. reflexivity. Qed.
