(* ===== verification/GoTime.v ===== *)
(** * Floats and times of the Go runtime

    The replayer configures pacing, sampling and back-pressure with [float64]
    values and compares them with durations.  [float64] is IEEE 754 binary64 as
    the Standard Library specifies it; an instant is its nanoseconds since the
    Unix epoch and a [time.Duration] an int64 of nanoseconds. *)
From Stdlib Require Import SpecFloat.
From S2P Require Import Prelude.

(** ** float64 *)
Definition float64 : Type := spec_float.

(** [float64(z)] of an integer. *)
Definition float_of_Z (z : Z) : float64 := binary_normalize 53 1024 z 0 false.
Definition fdiv (x y : float64) : float64 := SFdiv 53 1024 x y.
Definition fadd (x y : float64) : float64 := SFadd 53 1024 x y.
Definition fltb (x y : float64) : bool := SFltb x y.
Definition fleb (x y : float64) : bool := SFleb x y.

Lemma positive_not_below x : fltb (SpecFloat.S754_zero false) x = true → fleb x (SpecFloat.S754_zero false) = false.
Proof. unfold fltb, fleb, SFltb, SFleb. destruct x as [b|b| |b m e]; try done; by destruct b. Qed.

(** Converting a float that does not fit an int64 (or is not a number) gives a
    value the language leaves to the implementation. *)
Class FloatConv := {
  float_oob : Z;
  float_oob_range : - 2 ^ 63 ≤ float_oob < 2 ^ 63 }.

(** The integer part of a finite float. *)
Definition trunc_float (s : bool) (m : positive) (e : Z) : Z :=
  let v := if 0 <=? e then Zpos m * 2 ^ e else Zpos m / 2 ^ (- e) in
  if s then - v else v.

(** [int64(x)] *)
Definition int64_of_float `{FloatConv} (x : float64) : Z :=
  match x with
  | S754_zero _ => 0
  | S754_finite s m e =>
      let v := trunc_float s m e in
      if (- 2 ^ 63 <=? v) && (v <? 2 ^ 63) then v else float_oob
  | _ => float_oob
  end.

(** ** Durations and instants *)
Definition Second : Z := 1000000000.

(** [t.Sub(u)] saturates at the bounds of a duration. *)
Definition time_Sub (t u : Z) : Z := Z.max (- 2 ^ 63) (Z.min (2 ^ 63 - 1) (t - u)).

(** [d.Seconds()] *)
Definition Seconds (d : Z) : float64 :=
  fadd (float_of_Z (Z.quot d Second)) (fdiv (float_of_Z (Z.rem d Second)) (float_of_Z Second)).

(** The zero [time.Time], 1 January of year 1. *)
Definition zeroTime : Z := -62135596800 * Second.

(** ** Facts *)
Lemma int64_of_float_range `{FloatConv} x : - 2 ^ 63 ≤ int64_of_float x < 2 ^ 63.
Proof.
  destruct x as [| | |s m e]; simpl int64_of_float; try apply float_oob_range; [lia|].
  case_match eqn:E; [|apply float_oob_range].
  apply andb_true_iff in E as [?%Z.leb_le ?%Z.ltb_lt]. lia.
Qed.

Lemma time_Sub_exact t u : - 2 ^ 63 ≤ t - u < 2 ^ 63 → time_Sub t u = t - u.
Proof. unfold time_Sub. lia. Qed.

(** *** Exact conversion and division by a power of two *)
Lemma digits2_bounds p :
  2 ^ (Zpos (digits2_pos p) - 1) ≤ Zpos p < 2 ^ Zpos (digits2_pos p).
Proof.
  induction p as [p IH|p IH|]; [| |simpl; lia]; cbn [digits2_pos];
    rewrite Pos2Z.inj_succ; replace (Z.succ (Z.pos (digits2_pos p)) - 1) with (Z.succ (Z.pos (digits2_pos p) - 1)) by lia;
    rewrite !Z.pow_succ_r by lia; lia.
Qed.

Lemma digits2_unique p d : 0 < d → 2 ^ (d - 1) ≤ Zpos p < 2 ^ d → Zpos (digits2_pos p) = d.
Proof.
  intros Hd Hp. pose proof (digits2_bounds p) as Hb.
  assert (Zpos (digits2_pos p) - 1 < d) by (apply (Z.pow_lt_mono_r_iff 2); lia).
  assert (d - 1 < Zpos (digits2_pos p)) by (apply (Z.pow_lt_mono_r_iff 2); lia). lia.
Qed.

(** A mantissa of 53 digits is not rounded. *)
Lemma round_exact m e :
  2 ^ 52 ≤ Zpos m < 2 ^ 53 → -1074 ≤ e ≤ 971 →
  binary_round_aux 53 1024 false (Zpos m) e loc_Exact = S754_finite false m e.
Proof.
  intros Hm He. pose proof (digits2_unique m 53 ltac:(lia) Hm) as Hd.
  assert (shr_fexp 53 1024 (Zpos m) e loc_Exact = (Build_shr_record (Zpos m) false false, e)) as Hs.
  { unfold shr_fexp, fexp, emin. cbn [Zdigits2]. rewrite Hd.
    replace (Z.max (53 + e - 53) (3 - 1024 - 53) - e) with 0 by lia. done. }
  unfold binary_round_aux. rewrite Hs. cbn [shr_m loc_of_shr_record round_nearest_even]. rewrite Hs.
  cbn [shr_m]. by rewrite (proj2 (Z.leb_le e (1024 - 53))) by lia.
Qed.

(** Neither is one of 54 digits whose last digit is 0. *)
Lemma round_exact_double m e :
  2 ^ 52 ≤ Zpos m < 2 ^ 53 → -1074 ≤ e ≤ 971 →
  binary_round_aux 53 1024 false (Zpos (xO m)) (e - 1) loc_Exact = S754_finite false m e.
Proof.
  intros Hm He. pose proof (digits2_unique (xO m) 54 ltac:(lia) ltac:(lia)) as Hd.
  pose proof (round_exact m e Hm He) as Hr. revert Hr. unfold binary_round_aux.
  assert (shr_fexp 53 1024 (Zpos (xO m)) (e - 1) loc_Exact = (Build_shr_record (Zpos m) false false, e)) as ->.
  { unfold shr_fexp, fexp, emin. cbn [Zdigits2]. rewrite Hd.
    replace (Z.max (54 + (e - 1) - 53) (3 - 1024 - 53) - (e - 1)) with 1 by lia. cbn. f_equal. lia. }
  assert (shr_fexp 53 1024 (Zpos m) e loc_Exact = (Build_shr_record (Zpos m) false false, e)) as ->.
  { unfold shr_fexp, fexp, emin. cbn [Zdigits2]. rewrite (digits2_unique m 53 ltac:(lia) Hm).
    replace (Z.max (53 + e - 53) (3 - 1024 - 53) - e) with 0 by lia. done. }
  done.
Qed.

Lemma shift_pos_Z d p : Zpos (shift_pos d p) = Zpos p * 2 ^ Zpos d.
Proof. rewrite shift_pos_correct. rewrite Z.pow_pos_fold. lia. Qed.

Lemma float_of_Z_exact z :
  0 < z < 2 ^ 53 →
  ∃ m k, float_of_Z z = S754_finite false m (- k) ∧ 0 ≤ k ≤ 52 ∧ Zpos m = z * 2 ^ k ∧
    2 ^ 52 ≤ Zpos m < 2 ^ 53.
Proof.
  intros Hz. destruct z as [|p|]; try lia. pose proof (digits2_bounds p) as Hb.
  set (d := Zpos (digits2_pos p)) in *.
  assert (d - 1 < 53) by (apply (Z.pow_lt_mono_r_iff 2); lia).
  assert (1 ≤ d) by (unfold d; lia).
  unfold float_of_Z, binary_normalize, binary_round, fexp, emin, shl_align. fold d. clearbody d.
  replace (Z.max (d + 0 - 53) (3 - 1024 - 53) - 0) with (d - 53) by lia.
  replace (Z.max (d + 0 - 53) (3 - 1024 - 53)) with (d - 53) by lia.
  assert (2 ^ 52 = 2 ^ (d - 1) * 2 ^ (53 - d)) as Hlo by (rewrite <- Z.pow_add_r by lia; f_equal; lia).
  assert (2 ^ 53 = 2 ^ d * 2 ^ (53 - d)) as Hhi by (rewrite <- Z.pow_add_r by lia; f_equal; lia).
  assert (0 < 2 ^ (53 - d)) by (apply Z.pow_pos_nonneg; lia).
  destruct (d - 53) as [|x|x] eqn:Ed; [| lia |].
  - assert (d = 53) as -> by lia. exists p, 0. rewrite round_exact by lia. split; [done|]. lia.
  - exists (shift_pos x p), (53 - d).
    assert (Zpos (shift_pos x p) = Zpos p * 2 ^ (53 - d)) as Hm
      by (rewrite shift_pos_Z; do 2 f_equal; lia).
    assert (2 ^ 52 ≤ Zpos (shift_pos x p) < 2 ^ 53) as Hs by (rewrite Hm; nia).
    change (Pos.iter xO p x) with (shift_pos x p).
    rewrite round_exact by lia. split; [f_equal; lia|]. lia.
Qed.

(** [2 ^ j] as a float. *)
Definition float_pow2 (j : Z) : float64 := S754_finite false (2 ^ 52)%positive (j - 52).

Lemma fdiv_pow2 m k j :
  2 ^ 52 ≤ Zpos m < 2 ^ 53 → 0 ≤ k ≤ 52 → -512 ≤ j ≤ 512 →
  fdiv (S754_finite false m (- k)) (float_pow2 j) = S754_finite false m (- k - j).
Proof.
  intros Hm Hk Hj. unfold fdiv, float_pow2, SFdiv, SFdiv_core_binary, fexp, emin, Zdigits2.
  rewrite (digits2_unique m 53 ltac:(lia) Hm).
  change (Z.pos (digits2_pos (2 ^ 52))) with 53. change (Z.pos (2 ^ 52)) with (2 ^ 52).
  assert (Z.min (Z.max (53 + - k - (53 + (j - 52)) - 53) (3 - 1024 - 53)) (- k - (j - 52)) = - k - j - 1)
    as He by lia.
  set (e' := Z.min _ _). assert (e' = - k - j - 1) as -> by exact He.
  replace (- k - (j - 52) - (- k - j - 1)) with 53 by lia.
  assert (Z.div_eucl (Z.shiftl (Z.pos m) 53) (2 ^ 52) = (Z.pos (xO m), 0)) as ->.
  { rewrite Z.shiftl_mul_pow2 by lia.
    assert (Z.pos m * 2 ^ 53 = 2 ^ 52 * Z.pos (xO m) + 0) as Heq
      by (rewrite (Pos2Z.inj_xO m), Z.add_0_r; change (2 ^ 53) with (2 ^ 52 * 2); lia).
    pose proof (Z.div_unique_pos (Z.pos m * 2 ^ 53) (2 ^ 52) (Z.pos (xO m)) 0 ltac:(lia) Heq) as Hq.
    pose proof (Z.mod_unique_pos (Z.pos m * 2 ^ 53) (2 ^ 52) (Z.pos (xO m)) 0 ltac:(lia) Heq) as Hr.
    unfold Z.div, Z.modulo in Hq, Hr. destruct (Z.div_eucl _ _). by subst. }
  change (new_location (2 ^ 52) 0) with loc_Exact.
  apply (round_exact_double m (- k - j)); lia.
Qed.

(** Dividing an integer below [2 ^ 53] by a power of two and truncating is the
    integer division. *)
Lemma scale_pow2 `{FloatConv} z j :
  0 < z < 2 ^ 53 → -9 ≤ j ≤ 512 →
  int64_of_float (fdiv (float_of_Z z) (float_pow2 j)) = Z.shiftr z j.
Proof.
  intros Hz Hj. destruct (float_of_Z_exact z Hz) as (m & k & -> & Hk & Hmz & Hm).
  rewrite fdiv_pow2 by lia. cbn [int64_of_float].
  assert (trunc_float false m (- k - j) = Z.shiftr z j) as ->.
  { unfold trunc_float. rewrite Hmz. destruct (Z.leb_spec 0 (- k - j)) as [Hle|Hgt].
    - assert (Z.shiftr z j = z * 2 ^ (- j)) as ->
        by (rewrite <- (Z.opp_involutive j) at 1; rewrite Z.shiftr_opp_r, Z.shiftl_mul_pow2 by lia; done).
      rewrite <- Z.mul_assoc, <- Z.pow_add_r by lia. do 2 f_equal. lia.
    - replace (- (- k - j)) with (k + j) by lia. destruct (Z.leb_spec 0 j) as [Hp|Hn].
      + rewrite Z.shiftr_div_pow2 by lia. rewrite Z.pow_add_r, (Z.mul_comm (2 ^ k)) by lia.
        apply Z.div_mul_cancel_r; apply Z.pow_nonzero; lia.
      + rewrite <- (Z.opp_involutive j) at 2. rewrite Z.shiftr_opp_r, Z.shiftl_mul_pow2 by lia.
        replace (2 ^ k) with (2 ^ (- j) * 2 ^ (k + j)) by (rewrite <- Z.pow_add_r by lia; f_equal; lia).
        rewrite Z.mul_assoc. apply Z.div_mul. apply Z.pow_nonzero; lia. }
  assert (0 ≤ Z.shiftr z j < 2 ^ 63).
  { split; [apply Z.shiftr_nonneg; lia|]. destruct (Z.leb_spec 0 j).
    - rewrite Z.shiftr_div_pow2 by lia.
      assert (z / 2 ^ j ≤ z) by (apply Z.div_le_upper_bound; [|nia]; apply Z.pow_pos_nonneg; lia). lia.
    - rewrite <- (Z.opp_involutive j). rewrite Z.shiftr_opp_r, Z.shiftl_mul_pow2 by lia.
      assert (2 ^ (- j) ≤ 2 ^ 9) by (apply Z.pow_le_mono_r; lia). nia. }
  by rewrite (proj2 (Z.leb_le _ _)), (proj2 (Z.ltb_lt _ _)) by lia.
Qed.

(** ** Formatting an instant

    [Format] writes the civil date and time of the instant in its location, of
    which only the offset from UTC at that instant, in seconds, matters. *)

(** Year, month and day of a number of days since 1 January 1970. *)
Definition civil (days : Z) : Z * Z * Z :=
  let z := days + 719468 in
  let era := z / 146097 in
  let doe := z mod 146097 in
  let yoe := (doe - doe / 1460 + doe / 36524 - doe / 146096) / 365 in
  let doy := doe - (365 * yoe + yoe / 4 - yoe / 100) in
  let mp := (5 * doy + 2) / 153 in
  let d := doy - (153 * mp + 2) / 5 + 1 in
  let m := if mp <? 10 then mp + 3 else mp - 9 in
  (yoe + era * 400 + (if m <=? 2 then 1 else 0), m, d).

(** [n] decimal digits. *)
Fixpoint digits (n : nat) (z : Z) : list Z :=
  match n with
  | O => []
  | S n => digits n (z / 10) ++ [48 + z mod 10]
  end.

(** [2006-01-02] *)
Definition fmt_date (t off : Z) : list Z :=
  let '(y, m, d) := civil ((t + off * Second) / (86400 * Second)) in
  digits 4 y ++ 45 :: digits 2 m ++ 45 :: digits 2 d.

(** [15:04:05.000000-07:00] *)
Definition fmt_clock (t off : Z) : list Z :=
  let ns := (t + off * Second) mod (86400 * Second) in
  let s := ns / Second in
  let z := Z.abs off / 60 in
  digits 2 (s / 3600) ++ 58 :: digits 2 (s / 60 mod 60) ++ 58 :: digits 2 (s mod 60) ++
  46 :: digits 6 (ns mod Second / 1000) ++
  (if off <? 0 then 45 else 43) :: digits 2 (z / 60) ++ 58 :: digits 2 (z mod 60).
