(* ===== verification/GuardText.v ===== *)
(** * The literal scanners of the replay guard (src/pkg/replayguard/replayguard.go)

    [stripStringLiterals] and [replaceOutsideStrings] walk a statement with the
    same rules for quoted text; a position is the suffix that starts there, and
    the fuel of the loops is the length of the text, of which every iteration
    consumes a byte.  Both are shown to act on the same pieces of the text. *)
From S2P Require Import Prelude.

(** A quote and a dollar sign. *)
Abbreviation quote := 39.
Abbreviation dollar := 36.

Definition is_tag_char (c : Z) : bool :=
  ((97 <=? c) && (c <=? 122)) || ((65 <=? c) && (c <=? 90)) || ((48 <=? c) && (c <=? 57)) || (c =? 95).

(** The bytes up to the closing dollar sign of a tag. *)
Fixpoint tag_body (s : list Z) : option (list Z) :=
  match s with
  | [] => None
  | c :: s =>
      if c =? dollar then Some []
      else if is_tag_char c then (cons c) <$> tag_body s
      else None
  end.

(** The tag that starts the suffix, or the empty string. *)
Definition parseDollarTag (s : list Z) : list Z :=
  match s with
  | c :: r => if c =? dollar then match tag_body r with Some b => dollar :: b ++ [dollar] | None => [] end else []
  | [] => []
  end.

Fixpoint hasDollarQuote (s : list Z) : bool :=
  match s with
  | [] => false
  | c :: s' => (c =? dollar) && negb (bool_decide (parseDollarTag s = [])) || hasDollarQuote s'
  end.

(** [strings.Index] *)
Fixpoint str_index (pat s : list Z) : option nat :=
  if decide (pat `prefix_of` s) then Some 0%nat else
  match s with
  | [] => None
  | _ :: s => S <$> str_index pat s
  end.

Fixpoint strip_loop (fuel : nat) (inString : bool) (s : list Z) : list Z :=
  match fuel, s with
  | _, [] => []
  | O, _ => []
  | S fuel, c :: s' =>
      if inString then
        if c =? quote then
          match s' with
          | d :: s'' => if d =? quote then strip_loop fuel true s'' else quote :: strip_loop fuel false s'
          | [] => quote :: strip_loop fuel false s'
          end
        else strip_loop fuel true s'
      else if c =? quote then quote :: strip_loop fuel true s'
      else if c =? dollar then
        match parseDollarTag s with
        | [] => c :: strip_loop fuel false s'
        | tag =>
            let rest := drop (length tag) s in
            tag ++ match str_index tag rest with
                   | Some k => tag ++ strip_loop fuel false (drop (k + length tag) rest)
                   | None => rest
                   end
        end
      else c :: strip_loop fuel false s'
  end.

Definition stripStringLiterals (sql : list Z) : list Z := strip_loop (length sql) false sql.

(** [seg] is [sql[segStart:i]]. *)
Fixpoint replace_loop (repl : list Z → list Z) (fuel : nat) (inString : bool) (seg s : list Z) : list Z :=
  match fuel, s with
  | _, [] => if inString then seg else repl seg
  | O, _ => []
  | S fuel, c :: s' =>
      if inString then
        if c =? quote then
          match s' with
          | d :: s'' =>
              if d =? quote then replace_loop repl fuel true (seg ++ [c; d]) s''
              else (seg ++ [c]) ++ replace_loop repl fuel false [] s'
          | [] => (seg ++ [c]) ++ replace_loop repl fuel false [] s'
          end
        else replace_loop repl fuel true (seg ++ [c]) s'
      else if c =? quote then repl seg ++ quote :: replace_loop repl fuel true [] s'
      else if c =? dollar then
        match parseDollarTag s with
        | [] => replace_loop repl fuel false (seg ++ [c]) s'
        | tag =>
            let rest := drop (length tag) s in
            repl seg ++ tag ++
            match str_index tag rest with
            | Some k => take k rest ++ tag ++ replace_loop repl fuel false [] (drop (k + length tag) rest)
            | None => rest
            end
        end
      else replace_loop repl fuel false (seg ++ [c]) s'
  end.

(** [repl] is the pattern's [ReplaceAllString] with the replacement given. *)
Definition replaceOutsideStrings (sql : list Z) (repl : list Z → list Z) : list Z :=
  replace_loop repl (length sql) false [] sql.

(** ** The pieces of a statement

    Code, literals with doubled quotes for bodies, and dollar-quoted text. *)
Inductive piece := Code (s : list Z) | Lit (body : list Z) | Dollar (tag body : list Z).

(** A quote inside a literal is written twice. *)
Fixpoint escape (s : list Z) : list Z :=
  match s with
  | [] => []
  | c :: s => if c =? quote then quote :: quote :: escape s else c :: escape s
  end.

Definition tag_of (t : list Z) : list Z := dollar :: t ++ [dollar].

Definition print_piece (p : piece) : list Z :=
  match p with
  | Code s => s
  | Lit b => quote :: escape b ++ [quote]
  | Dollar t b => tag_of t ++ b ++ tag_of t
  end.

Definition print (ps : list piece) : list Z := concat (print_piece <$> ps).

(** Code has no quote and no dollar sign that opens a tag, so that [$1] is code; the
    body of a dollar-quoted text does not contain its tag. *)
Definition code_ok (s : list Z) : Prop := Forall (λ c, c ≠ quote) s ∧ hasDollarQuote s = false.

Definition piece_ok (p : piece) : Prop :=
  match p with
  | Code s => code_ok s
  | Lit _ => True
  | Dollar t b => Forall (λ c, is_tag_char c = true) t ∧ str_index (tag_of t) (b ++ tag_of t) = Some (length b)
  end.

(** Two literals in a row would read as one, two stretches of code are one, and a
    placeholder right before a dollar quote would read as its tag. *)
Definition adjacent_ok (p q : piece) : Prop :=
  match p, q with
  | Code _, Code _ | Lit _, Lit _ | Lit _, Code [] => False
  | Code s, Dollar _ _ => hasDollarQuote (s ++ [dollar]) = false
  | _, _ => True
  end.

Fixpoint separated (ps : list piece) : Prop :=
  match ps with
  | p :: (q :: _) as ps' => adjacent_ok p q ∧ separated ps'
  | _ => True
  end.

(** ** Fuel *)
Lemma tag_nonempty s c r : parseDollarTag s = c :: r → (1 < length (parseDollarTag s) ≤ length s)%nat.
Proof.
  destruct s as [|d s]; [done|]. simpl. destruct (d =? dollar); [|done].
  destruct (tag_body s) as [b|] eqn:E; [|done]. intros _. cbn [length]. rewrite length_app. cbn [length].
  assert (length b < length s)%nat; [|lia].
  revert b E. induction s as [|e s IH]; intros b E; simpl in E; [done|].
  destruct (e =? dollar); [injection E as <-; simpl; lia|].
  destruct (is_tag_char e); [|done]. destruct (tag_body s) as [b'|]; [|done].
  injection E as <-. specialize (IH _ eq_refl). simpl. lia.
Qed.

Lemma strip_fuel f1 f2 b s :
  (length s ≤ f1)%nat → (length s ≤ f2)%nat → strip_loop f1 b s = strip_loop f2 b s.
Proof.
  revert f2 b s. induction f1 as [|f1 IH]; intros f2 b s H1 H2.
  { destruct s; [by destruct f2|simpl in H1; lia]. }
  destruct f2 as [|f2]; [destruct s; [done|simpl in H2; lia]|].
  destruct s as [|c s]; [done|]. cbn [strip_loop]. simpl in H1, H2.
  destruct b; [destruct (c =? quote)|].
  - destruct s as [|d s]; [by rewrite (IH f2) by (simpl; lia)|]. simpl in *.
    destruct (d =? quote); [apply IH; lia|]. by rewrite (IH f2) by (simpl; lia).
  - apply IH; lia.
  - destruct (c =? quote); [by rewrite (IH f2) by lia|].
    destruct (c =? dollar); [|by rewrite (IH f2) by lia].
    destruct (parseDollarTag (c :: s)) as [|t ts] eqn:Et; [by rewrite (IH f2) by lia|].
    pose proof (tag_nonempty _ _ _ Et) as Ht. rewrite Et in Ht. f_equal.
    destruct (str_index _ _) as [k|]; [|done]. f_equal.
    apply IH; rewrite !length_drop; cbn [length] in *; lia.
Qed.

Lemma replace_fuel repl f1 f2 b seg s :
  (length s ≤ f1)%nat → (length s ≤ f2)%nat → replace_loop repl f1 b seg s = replace_loop repl f2 b seg s.
Proof.
  revert f2 b seg s. induction f1 as [|f1 IH]; intros f2 b seg s H1 H2.
  { destruct s; [by destruct f2|simpl in H1; lia]. }
  destruct f2 as [|f2]; [destruct s; [done|simpl in H2; lia]|].
  destruct s as [|c s]; [done|]. cbn [replace_loop]. simpl in H1, H2.
  destruct b; [destruct (c =? quote)|].
  - destruct s as [|d s]; [by rewrite (IH f2) by (simpl; lia)|]. simpl in *.
    destruct (d =? quote); [apply IH; lia|]. by rewrite (IH f2) by (simpl; lia).
  - apply IH; lia.
  - destruct (c =? quote); [by rewrite (IH f2) by lia|].
    destruct (c =? dollar); [|by rewrite (IH f2) by lia].
    destruct (parseDollarTag (c :: s)) as [|t ts] eqn:Et; [by rewrite (IH f2) by lia|].
    pose proof (tag_nonempty _ _ _ Et) as Ht. rewrite Et in Ht. do 2 f_equal.
    destruct (str_index _ _) as [k|]; [|done]. do 2 f_equal.
    apply IH; rewrite !length_drop; cbn [length] in *; lia.
Qed.

(** ** The scanners on each kind of piece *)
Abbreviation strip b s := (strip_loop (length s) b s).
Abbreviation rep repl b seg s := (replace_loop repl (length s) b seg s).

Definition no_quote (s : list Z) : Prop := head s ≠ Some quote.

(** Code that no tag opens in, whatever the text that follows. *)
Fixpoint code_before (s r : list Z) : Prop :=
  match s with
  | [] => True
  | c :: s => c ≠ quote ∧ (c = dollar → tag_body (s ++ r) = None) ∧ code_before s r
  end.

Lemma tag_closed s r : tag_body (s ++ dollar :: r) = tag_body (s ++ [dollar]).
Proof. induction s as [|c s IH]; [done|]. cbn. destruct (c =? dollar); [done|]. by rewrite IH. Qed.

Lemma tag_stops s r : tag_body s = None → r = [] ∨ head r = Some quote → tag_body (s ++ r) = None.
Proof.
  intros Hs Hr. induction s as [|c s IH]; cbn in *.
  - destruct Hr as [->|Hr]; [done|]. destruct r as [|d r]; [done|]. by injection Hr as ->.
  - destruct (c =? dollar); [done|]. destruct (is_tag_char c); [|done].
    destruct (tag_body s); [done|]. by rewrite IH.
Qed.

Lemma no_tag_cons c s :
  hasDollarQuote (c :: s) = false → (c = dollar → tag_body s = None) ∧ hasDollarQuote s = false.
Proof.
  cbn [hasDollarQuote]. rewrite orb_false_iff. intros [Hc Hs]. split; [|done]. intros ->. cbn in Hc.
  destruct (tag_body s); [|done]. apply negb_false_iff, bool_decide_eq_true in Hc. done.
Qed.

(** Before nothing, a literal, or a dollar quote. *)
Lemma code_before_ok s r :
  code_ok s → (r = [] ∨ head r = Some quote) ∨ (∃ r', r = dollar :: r' ∧ hasDollarQuote (s ++ [dollar]) = false) →
  code_before s r.
Proof.
  intros [Hq Hd] Hr. induction Hq as [|c s Hc Hq IH]; [done|]. cbn [code_before].
  destruct (no_tag_cons _ _ Hd) as [Hd1 Hd2]. split; [done|].
  destruct Hr as [Hr|(r' & -> & Hr)].
  - split; [|apply IH; auto]. intros Hdol. apply tag_stops; auto.
  - cbn [app] in Hr. destruct (no_tag_cons _ _ Hr) as [Hr1 Hr2]. split; [|apply IH; eauto].
    intros Hdol. rewrite tag_closed. by apply Hr1.
Qed.

Lemma strip_code s r : code_before s r → strip false (s ++ r) = s ++ strip false r.
Proof.
  induction s as [|c s IH]; [done|]. intros (Hq & Hd & Hs). cbn [app length strip_loop].
  rewrite (proj2 (Z.eqb_neq _ _) Hq), IH by done. destruct (Z.eqb_spec c dollar) as [->|]; [|done].
  cbn. by rewrite Hd.
Qed.

Lemma rep_code repl seg s r : code_before s r → rep repl false seg (s ++ r) = rep repl false (seg ++ s) r.
Proof.
  revert seg. induction s as [|c s IH]; intros seg; [by rewrite app_nil_r|]. intros (Hq & Hd & Hs).
  cbn [app length replace_loop]. rewrite (proj2 (Z.eqb_neq _ _) Hq), !IH by done. rewrite <- app_assoc.
  destruct (Z.eqb_spec c dollar) as [->|]; [|done]. cbn. by rewrite Hd.
Qed.

Lemma strip_body b r : no_quote r → strip true (escape b ++ quote :: r) = quote :: strip false r.
Proof.
  intros Hr. induction b as [|c b IH].
  - cbn [escape app length strip_loop]. rewrite Z.eqb_refl. destruct r as [|d r]; [done|].
    by rewrite (proj2 (Z.eqb_neq d quote)) by (intros ->; by apply Hr).
  - cbn [escape]. destruct (c =? quote) eqn:E; [|by cbn [app length strip_loop]; rewrite E].
    etransitivity; [|exact IH].
    apply (strip_fuel (S (length (escape b ++ quote :: r))) _ true (escape b ++ quote :: r)); lia.
Qed.

Lemma rep_body repl seg b r :
  no_quote r → rep repl true seg (escape b ++ quote :: r) = seg ++ escape b ++ quote :: rep repl false [] r.
Proof.
  intros Hr. revert seg. induction b as [|c b IH]; intros seg.
  - cbn [escape app length replace_loop]. rewrite Z.eqb_refl. destruct r as [|d r]; [by rewrite <- app_assoc|].
    rewrite (proj2 (Z.eqb_neq d quote)) by (intros ->; by apply Hr). by rewrite <- app_assoc.
  - cbn [escape]. destruct (c =? quote) eqn:E.
    + specialize (IH (seg ++ [quote; quote])). rewrite <- app_assoc in IH.
      etransitivity; [|exact IH]. apply (replace_fuel repl (S (length (escape b ++ quote :: r))) _ true (seg ++ [quote; quote])
               (escape b ++ quote :: r)); lia.
    + cbn [app length replace_loop]. rewrite E, IH. by rewrite <- app_assoc.
Qed.

Lemma tag_parse t r : Forall (λ c, is_tag_char c = true) t → parseDollarTag (tag_of t ++ r) = tag_of t.
Proof.
  intros Ht. unfold tag_of. cbn. enough (tag_body ((t ++ [dollar]) ++ r) = Some t) as -> by done.
  induction Ht as [|c t Hc _ IH]; [done|]. cbn [app tag_body].
  destruct (Z.eqb_spec c dollar) as [->|]; [done|]. by rewrite Hc, IH.
Qed.

Lemma str_index_length pat s j : str_index pat s = Some j → (length pat ≤ length s)%nat.
Proof.
  revert j. induction s as [|d s IH]; intros j; cbn [str_index].
  - destruct (decide _) as [Hp'|]; [|done]. apply prefix_nil_inv in Hp' as ->. simpl. lia.
  - destruct (decide _) as [Hp'|]; [intros _; by apply prefix_length in Hp'|].
    destruct (str_index pat s) eqn:E; [|done]. specialize (IH _ eq_refl). simpl. lia.
Qed.

(** Where the body does not contain the tag, the closing tag is found after it
    whatever follows. *)
Lemma str_index_app pat s k r : str_index pat s = Some k → str_index pat (s ++ r) = Some k.
Proof.
  revert k. induction s as [|c s IH]; intros k; cbn [str_index app].
  - destruct (decide (pat `prefix_of` [])) as [Hp|]; [|done]. intros [= <-].
    apply prefix_nil_inv in Hp as ->. by destruct r.
  - destruct (decide (pat `prefix_of` (c :: s))) as [Hp|Hn].
    + intros [= <-]. rewrite decide_True; [done|]. change (c :: s ++ r) with ((c :: s) ++ r).
      by apply prefix_app_r.
    + destruct (str_index pat s) as [j|] eqn:Ej; [|done]. intros [= <-].
      destruct (decide (pat `prefix_of` (c :: s ++ r))) as [Hp|Hn']; [|by rewrite (IH j)].
      exfalso. apply Hn. clear -Hp Ej.
      pose proof (str_index_length _ _ _ Ej) as Hl.
      destruct Hp as [x Hx]. exists (drop (length pat) (c :: s)).
      rewrite <- (firstn_skipn (length pat) (c :: s)) at 1. f_equal.
      apply (f_equal (take (length pat))) in Hx. rewrite take_app_length in Hx.
      change (c :: s ++ r) with ((c :: s) ++ r) in Hx. rewrite take_app_le in Hx by (simpl; lia). done.
Qed.

Lemma dollar_scan t b r :
  piece_ok (Dollar t b) →
  str_index (tag_of t) (b ++ tag_of t ++ r) = Some (length b) ∧
  drop (length b + length (tag_of t)) (b ++ tag_of t ++ r) = r.
Proof.
  intros [_ Hi]. split.
  - rewrite app_assoc. by apply str_index_app.
  - rewrite app_assoc, <- length_app. apply drop_app_length.
Qed.

Section dollar.
Context (t b r : list Z) (Hok : piece_ok (Dollar t b)).

Let s := b ++ tag_of t ++ r.

Local Lemma dollar_here :
  parseDollarTag (tag_of t ++ s) = tag_of t ∧ drop (length (tag_of t)) (tag_of t ++ s) = s ∧
  str_index (tag_of t) s = Some (length b) ∧ drop (length b + length (tag_of t)) s = r ∧
  take (length b) s = b.
Proof.
  destruct (dollar_scan t b r Hok). destruct Hok as [Ht _].
  split_and!; [by apply tag_parse|apply drop_app_length|done|done|apply take_app_length].
Qed.

Lemma strip_dollar : strip false (print_piece (Dollar t b) ++ r) = tag_of t ++ tag_of t ++ strip false r.
Proof.
  destruct dollar_here as (Hp & Hs & Hi & Hd & _). cbn [print_piece]. rewrite <- !app_assoc. fold s.
  change (length (tag_of t ++ s)) with (S (length ((t ++ [dollar]) ++ s))).
  assert (∀ f, strip_loop (S f) false (tag_of t ++ s) = tag_of t ++ tag_of t ++ strip_loop f false r) as ->.
  { intros f. unfold tag_of at 1. cbn [app strip_loop]. change (dollar =? quote) with false.
    change (dollar =? dollar) with true. cbn iota.
    change (dollar :: (t ++ [dollar]) ++ s) with (tag_of t ++ s). rewrite Hp.
    change (tag_of t) with (dollar :: t ++ [dollar]) at 1. cbn iota beta zeta.
    change (dollar :: t ++ [dollar]) with (tag_of t). by rewrite Hs, Hi, Hd. }
  do 2 f_equal. apply strip_fuel; [unfold s; rewrite !length_app; lia|done].
Qed.

Lemma rep_dollar repl seg :
  rep repl false seg (print_piece (Dollar t b) ++ r) =
    repl seg ++ print_piece (Dollar t b) ++ rep repl false [] r.
Proof.
  destruct dollar_here as (Hp & Hs & Hi & Hd & Hb). cbn [print_piece]. rewrite <- !app_assoc. fold s.
  change (length (tag_of t ++ s)) with (S (length ((t ++ [dollar]) ++ s))).
  assert (∀ f, replace_loop repl (S f) false seg (tag_of t ++ s) =
               repl seg ++ tag_of t ++ b ++ tag_of t ++ replace_loop repl f false [] r) as ->.
  { intros f. unfold tag_of at 1. cbn [app replace_loop]. change (dollar =? quote) with false.
    change (dollar =? dollar) with true. cbn iota.
    change (dollar :: (t ++ [dollar]) ++ s) with (tag_of t ++ s). rewrite Hp.
    change (tag_of t) with (dollar :: t ++ [dollar]) at 1. cbn iota beta zeta.
    change (dollar :: t ++ [dollar]) with (tag_of t). by rewrite Hs, Hi, Hd, Hb. }
  do 4 f_equal. apply replace_fuel; [unfold s; rewrite !length_app; lia|done].
Qed.
End dollar.

(** ** Whole statements *)
Definition skeleton (p : piece) : list Z :=
  match p with Code s => s | Lit _ => [quote; quote] | Dollar t _ => tag_of t ++ tag_of t end.

Definition rewrite_code (repl : list Z → list Z) (p : piece) : list Z :=
  match p with Code s => repl s | _ => print_piece p end.

Lemma print_no_quote p ps :
  separated (Lit p :: ps) → Forall piece_ok ps → no_quote (print ps).
Proof.
  destruct ps as [|[[|c s]|b|t b] ps]; try done; intros [Ha _] Hok; try done.
  apply Forall_cons in Hok as [[Hc _] _]. apply Forall_inv in Hc. unfold no_quote, print. simpl. congruence.
Qed.

Lemma print_code_before s ps : piece_ok (Code s) → separated (Code s :: ps) → code_before s (print ps).
Proof.
  intros Hok Hsep. apply code_before_ok; [done|]. destruct ps as [|[s'|b|t b] ps]; [by left; left|..].
  - by destruct Hsep.
  - left. by right.
  - right. destruct Hsep as [Ha _]. eexists. by split.
Qed.

Lemma separated_tail p ps : separated (p :: ps) → separated ps.
Proof. destruct ps; [done|]. by intros [_ ?]. Qed.

(** Stripping a statement keeps its code and empties its literals. *)
Lemma strip_print ps :
  Forall piece_ok ps → separated ps → stripStringLiterals (print ps) = concat (skeleton <$> ps).
Proof.
  unfold stripStringLiterals. induction ps as [|p ps IH]; intros Hok Hsep; [done|].
  apply Forall_cons in Hok as [Hp Hok]. pose proof (IH Hok (separated_tail _ _ Hsep)) as IH'.
  change (print (p :: ps)) with (print_piece p ++ print ps). rewrite fmap_cons. cbn [concat].
  destruct p as [s|b|t b].
  - cbn [print_piece skeleton]. rewrite strip_code by by apply print_code_before. by rewrite IH'.
  - cbn [print_piece skeleton app]. rewrite <- !app_assoc. cbn [app length strip_loop].
    rewrite Z.eqb_refl, strip_body by (by eapply print_no_quote). by rewrite IH'.
  - rewrite strip_dollar by done. cbn [skeleton]. by rewrite IH', <- app_assoc.
Qed.

Definition code_headed (ps : list piece) : Prop := match ps with Code _ :: _ => True | _ => False end.

Lemma rep_print repl ps :
  repl [] = [] → Forall piece_ok ps → separated ps →
  (¬ code_headed ps → ∀ seg, rep repl false seg (print ps) = repl seg ++ concat (rewrite_code repl <$> ps)) ∧
  rep repl false [] (print ps) = concat (rewrite_code repl <$> ps).
Proof.
  intros Hr. induction ps as [|p ps IH]; intros Hok Hsep.
  { split; [|done]. intros _ seg. by rewrite app_nil_r. }
  apply Forall_cons in Hok as [Hp Hok].
  destruct (IH Hok (separated_tail _ _ Hsep)) as [IHa IHb].
  change (print (p :: ps)) with (print_piece p ++ print ps). rewrite fmap_cons. cbn [concat].
  enough (¬ code_headed (p :: ps) → ∀ seg,
    rep repl false seg (print_piece p ++ print ps) =
      repl seg ++ rewrite_code repl p ++ concat (rewrite_code repl <$> ps)) as Ha.
  { split; [done|]. destruct p as [s|b|t b]; [|by rewrite Ha, Hr by tauto..].
    cbn [print_piece rewrite_code]. rewrite rep_code by by apply print_code_before. apply IHa.
    destruct ps as [|[] ?]; simpl in *; tauto. }
  intros Hn seg. destruct p as [s|b|t b]; [by destruct Hn| |].
  - cbn [print_piece rewrite_code app]. rewrite <- !app_assoc. cbn [app length replace_loop].
    rewrite Z.eqb_refl, rep_body by (by eapply print_no_quote). by rewrite IHb.
  - rewrite rep_dollar by done. by rewrite IHb.
Qed.


