(* ===== verification/ReplayGuard.v ===== *)
(** * The replay guard (src/pkg/replayguard/replayguard.go)

    The decision on each event before it is replayed: masking, sampling, the
    block rules and the rewriting of time functions, and the back-pressure test
    of the dispatcher.  A compiled pattern is its two operations; the regexp
    engine and the local time zone are parameters. *)
From Stdlib Require Import String Ascii.
From S2P Require Import Prelude Core GoTime GuardText Classifier ClassifierFacts.

(** A compiled [*regexp.Regexp]; the second argument of [ReplaceAllString] is the
    replacement. *)
Record Pattern := MkPattern {
  MatchString : list Z → bool;
  ReplaceAllString : list Z → list Z → list Z }.

Record MaskRule := MkMaskRule { mask_pattern : list Z; mask_replacement : list Z }.

Record GuardConfig := MkGuardConfig {
  ExcludeDDL : bool; RewriteTimeFunctions : bool; SkipExternalDeps : bool;
  MaxReplayLagSeconds : float64; MaxQueueDepth : Z;
  MaxTransactionDuration : Z; MaxStatementsPerTx : Z;
  MaskPatterns : list MaskRule; ReplayPercentage : float64;
  IncludeTables : list (list Z); ExcludeTables : list (list Z); IncludeUsers : list (list Z);
  ReadOnly : bool }.

(** The guard; [counter] is the only field [Apply] changes. *)
Record Guard := MkGuard {
  gcfg : GuardConfig; ddlPattern : Pattern; timePatterns : list Pattern;
  externalPatterns : list Pattern; maskPatterns : list (Pattern * list Z);
  tablePatterns : list Pattern; excludeTablePat : list Pattern;
  includeUsers : list (list Z); paused : bool; pausedAt : Z; counter : Z }.

Inductive Decision := Allow | BlockEvent | Rewrite.

#[export] Instance Decision_eq_dec : EqDecision Decision.
Proof. solve_decision. Defined.

(** ** Construction *)
Local Open Scope string_scope.

Definition ddl_source : list Z :=
  bytes_of "(?i)^\s*(?:--[^\n]*\n\s*|/\*[\s\S]*?\*/\s*)*(CREATE|ALTER|DROP|TRUNCATE|GRANT|REVOKE)\s".

Definition time_sources : list (list Z) :=
  bytes_of <$> ["(?i)\bnow\s*\(\s*\)"; "(?i)\bcurrent_timestamp\b"; "(?i)\bcurrent_date\b";
    "(?i)\bclock_timestamp\s*\(\s*\)"; "(?i)\bstatement_timestamp\s*\(\s*\)";
    "(?i)\btransaction_timestamp\s*\(\s*\)"; "(?i)\bcurrent_time\b"].

Definition external_sources : list (list Z) :=
  bytes_of <$> ["(?i)\bdblink\s*\("; "(?i)\bdblink_exec\s*\("; "(?i)\bpg_notify\s*\(";
    "(?i)\bnotify\s+\w"; "(?i)\bfrom\s+\w+\.\w+\.\w+"; "(?i)\blo_import\s*\("; "(?i)\blo_export\s*\(";
    "(?i)\bpg_advisory_lock\s*\("; "(?i)\bpg_advisory_xact_lock\s*\(";
    "(?i)\bpg_try_advisory_lock\s*\("; "(?i)\bpg_try_advisory_xact_lock\s*\("].

(** [regexp.QuoteMeta] puts a backslash before each special byte. *)
Definition is_meta (c : Z) : bool := in_set (bytes_of <$> ["\"; "."; "+"; "*"; "?"; "("; ")"; "|"; "["; "]"; "{"; "}"; "^"; "$"]) [c].
Definition QuoteMeta (s : list Z) : list Z := s ≫= λ c, if is_meta c then [92; c] else [c].

Definition table_source (t : list Z) : list Z := bytes_of "(?i)\b" ++ QuoteMeta t ++ bytes_of "\b".

Local Close Scope string_scope.

Inductive guard_panic := BadPattern (p : list Z).

Section guard.
Context `{Unicode}.

(** [regexp.Compile]; the offset of the local time zone. *)
Context (Compile : list Z → option Pattern) (zone : Z → Z).

Definition MustCompile (p : list Z) : result guard_panic Pattern := of_option (BadPattern p) (Compile p).

Fixpoint must_compile_all (ps : list (list Z)) : result guard_panic (list Pattern) :=
  match ps with
  | [] => Ok []
  | p :: ps => re ← MustCompile p; res ← must_compile_all ps; Ok (re :: res)
  end.

(** A mask whose pattern does not compile is left out. *)
Definition compile_masks (ms : list MaskRule) : list (Pattern * list Z) :=
  omap (λ m, (λ re, (re, mask_replacement m)) <$> Compile (mask_pattern m)) ms.

Definition New (cfg : GuardConfig) : result guard_panic Guard :=
  ddl ← MustCompile ddl_source;
  times ← must_compile_all time_sources;
  exts ← must_compile_all external_sources;
  tables ← must_compile_all (table_source <$> IncludeTables cfg);
  excl ← must_compile_all (table_source <$> ExcludeTables cfg);
  Ok (MkGuard cfg ddl times exts (compile_masks (MaskPatterns cfg)) tables excl
        (ToLower <$> IncludeUsers cfg) false zeroTime 0).

(** ** The decision *)
Definition with_sql (ev : SQLEvent) (sql : list Z) : SQLEvent :=
  SqlEvent (Conn ev) sql (Timestamp ev) (TxID ev) (Seq ev) (Extended ev) (StmtName ev) (Params ev)
    (CopyData ev) (SourceExecTime ev) (User ev).

Definition with_counter (g : Guard) (n : Z) : Guard :=
  MkGuard (gcfg g) (ddlPattern g) (timePatterns g) (externalPatterns g) (maskPatterns g)
    (tablePatterns g) (excludeTablePat g) (includeUsers g) (paused g) (pausedAt g) n.

Definition has_prefix (p : string) (s : list Z) : bool := bool_decide (bytes_of p `prefix_of` s).

Definition isSelect (sql : list Z) : bool :=
  let upper := ToUpper (TrimSpace sql) in
  has_prefix "SELECT"%string upper || has_prefix "WITH"%string upper || has_prefix "EXPLAIN"%string upper.

Definition isSessionCommand (sql : list Z) : bool :=
  let upper := ToUpper (TrimSpace sql) in
  has_prefix "SET "%string upper || has_prefix "RESET "%string upper || has_prefix "DISCARD "%string upper.

Definition has_quotes (sql : list Z) : bool := existsb (λ c, c =? quote) sql || hasDollarQuote sql.

(** The text the patterns are matched against. *)
Definition stripped (sql : list Z) : list Z := if has_quotes sql then stripStringLiterals sql else sql.

(** The masking loop: whether a mask matched, and the masked text. *)
Definition mask_step (acc : bool * list Z) (m : Pattern * list Z) : bool * list Z :=
  let '(rw, sql) := acc in
  if MatchString m.1 sql then (true, ReplaceAllString m.1 sql m.2) else (rw, sql).

Definition mask (g : Guard) (sql : list Z) : bool * list Z := fold_left mask_step (maskPatterns g) (false, sql).

(** The sampling counter before and after an event, and whether it drops it. *)
Definition sampling (g : Guard) : bool :=
  fltb (float_of_Z 0) (ReplayPercentage (gcfg g)) && fltb (ReplayPercentage (gcfg g)) (float_of_Z 100).

Definition next_counter (g : Guard) : Z := wrap 64 (counter g + 1).

Definition sampled_out (g : Guard) : bool :=
  sampling g && fleb (ReplayPercentage (gcfg g)) (float_of_Z (next_counter g mod 100)).

Definition user_excluded (g : Guard) (user : list Z) : bool :=
  match includeUsers g with [] => false | us => negb (in_set us (ToLower user)) end.

Definition external_dep (g : Guard) (sql : list Z) : bool :=
  SkipExternalDeps (gcfg g) && existsb (λ p, MatchString p (stripped sql)) (externalPatterns g).

Definition table_excluded (g : Guard) (sql : list Z) : bool :=
  (negb (bool_decide (tablePatterns g = [])) || negb (bool_decide (excludeTablePat g = [])))
  && negb (isSessionCommand sql)
  && ((negb (bool_decide (tablePatterns g = [])) &&
       negb (existsb (λ p, MatchString p (stripped sql)) (tablePatterns g)))
      || existsb (λ p, MatchString p (stripped sql)) (excludeTablePat g)).

(** The replacement for the [i]-th time pattern. *)
Definition time_replacement (ts : Z) (i : nat) : list Z :=
  match i with
  | 2%nat => quote :: fmt_date ts (zone ts) ++ quote :: bytes_of "::date"%string
  | 6%nat => quote :: fmt_clock ts (zone ts) ++ quote :: bytes_of "::timetz"%string
  | _ => quote :: fmt_date ts (zone ts) ++ 32 :: fmt_clock ts (zone ts) ++ quote :: bytes_of "::timestamptz"%string
  end.

Fixpoint rewrite_times (ts : Z) (i : nat) (pats : list Pattern) (acc : bool * list Z) : bool * list Z :=
  match pats with
  | [] => acc
  | pat :: pats =>
      let '(rw, sql) := acc in
      let curStripped := stripped sql in
      let r := time_replacement ts i in
      rewrite_times ts (S i) pats
        (if MatchString pat curStripped then
           (true, if bool_decide (curStripped = sql) then ReplaceAllString pat sql r
                  else replaceOutsideStrings sql (λ seg, ReplaceAllString pat seg r))
         else (rw, sql))
  end.

(** [Apply]: the decision, the event as it leaves it, and the guard. *)
Definition Apply (g : Guard) (ev : SQLEvent) : Decision * SQLEvent * Guard :=
  let '(rewritten, sql) := mask g (SQL ev) in
  let ev := if rewritten then with_sql ev sql else ev in
  let g' := if sampling g then with_counter g (next_counter g) else g in
  if sampled_out g then (BlockEvent, ev, g') else
  if user_excluded g (User ev) then (BlockEvent, ev, g') else
  if ReadOnly (gcfg g) && negb (isSelect sql) then (BlockEvent, ev, g') else
  if ExcludeDDL (gcfg g) && MatchString (ddlPattern g) sql then (BlockEvent, ev, g') else
  if external_dep g sql then (BlockEvent, ev, g') else
  if table_excluded g sql then (BlockEvent, ev, g') else
  let '(rewritten, sql) :=
    if RewriteTimeFunctions (gcfg g) && negb (Timestamp ev =? zeroTime)
    then rewrite_times (Timestamp ev) 0 (timePatterns g) (rewritten, sql) else (rewritten, sql) in
  if (rewritten : bool) then (Rewrite, with_sql ev sql, g') else (Allow, ev, g').

(** ** Back-pressure and transaction limits *)

(** [CheckBackpressure]; [now] is the time [pausedAt] would record. *)
Definition should_pause (cfg : GuardConfig) (queueDepth : Z) (replayLagSec : float64) : bool :=
  ((0 <? MaxQueueDepth cfg) && (MaxQueueDepth cfg <? queueDepth))
  || (fltb (float_of_Z 0) (MaxReplayLagSeconds cfg) && fltb (MaxReplayLagSeconds cfg) replayLagSec).

Definition CheckBackpressure (g : Guard) (queueDepth : Z) (replayLagSec : float64) (now : Z) : bool * Guard :=
  let p := should_pause (gcfg g) queueDepth replayLagSec in
  (p, MkGuard (gcfg g) (ddlPattern g) (timePatterns g) (externalPatterns g) (maskPatterns g)
        (tablePatterns g) (excludeTablePat g) (includeUsers g) p
        (if p && negb (paused g) then now else pausedAt g) (counter g)).

Definition CheckTransaction (g : Guard) (txStartTime stmtCount now : Z) : Decision :=
  let cfg := gcfg g in
  if (0 <? MaxTransactionDuration cfg) && (MaxTransactionDuration cfg <? time_Sub now txStartTime) then BlockEvent
  else if (0 <? MaxStatementsPerTx cfg) && (MaxStatementsPerTx cfg <? stmtCount) then BlockEvent
  else Allow.
End guard.

(** ** What a decision says *)
Section facts.
Context `{Unicode} (zone : Z → Z).

(** The rules that block, on the masked text. *)
Definition blocked (g : Guard) (user sql : list Z) : bool :=
  sampled_out g || user_excluded g user || (ReadOnly (gcfg g) && negb (isSelect sql))
  || (ExcludeDDL (gcfg g) && MatchString (ddlPattern g) sql) || external_dep g sql || table_excluded g sql.

Lemma with_sql_same ev : with_sql ev (SQL ev) = ev.
Proof. by destruct ev. Qed.

Lemma mask_unchanged g sql : (mask g sql).1 = false → (mask g sql).2 = sql.
Proof.
  unfold mask. generalize (maskPatterns g) as ms. intros ms.
  enough (∀ acc, (fold_left mask_step ms acc).1 = false → acc.1 = false ∧ (fold_left mask_step ms acc).2 = acc.2)
    as Hg by (intros Hm; by destruct (Hg _ Hm)).
  induction ms as [|m ms IH]; intros acc Hm; [done|]. simpl in *.
  destruct (IH _ Hm) as [H1 H2]. destruct acc as [rw s]. simpl in *.
  by destruct (MatchString m.1 s); simpl in *.
Qed.

(** A time pattern that matches nowhere leaves everything as it is; one that
    matches makes the result a rewrite. *)
Lemma rewrite_times_kept ts i pats acc :
  (rewrite_times zone ts i pats acc).1 = false → acc.1 = false ∧ rewrite_times zone ts i pats acc = acc.
Proof.
  revert i acc. induction pats as [|pat pats IH]; intros i [rw sql] Hf; [done|]. simpl in *.
  destruct (IH _ _ Hf) as [Hi ->]. by destruct (MatchString _ _); simpl in *.
Qed.

(** The decision of [Apply] is the block rules, a rewrite or a pass. *)
Theorem guard_decision g ev :
  let '(d, ev', g') := Apply zone g ev in
  let sql := (mask g (SQL ev)).2 in
  (d = BlockEvent ↔ blocked g (User ev) sql = true) ∧
  (d = BlockEvent → ev' = with_sql ev sql) ∧
  (d = Allow → ev' = ev) ∧
  (d = Rewrite → RewriteTimeFunctions (gcfg g) = false → ev' = with_sql ev sql) ∧
  with_sql ev' [] = with_sql ev [] ∧
  gcfg g' = gcfg g ∧ counter g' = (if sampling g then next_counter g else counter g).
Proof.
  unfold Apply, blocked. pose proof (mask_unchanged g (SQL ev)) as Hmask.
  destruct (mask g (SQL ev)) as [rw sql]. simpl in Hmask |- *.
  set (ev1 := if rw then with_sql ev sql else ev).
  assert (ev1 = with_sql ev sql) as Hev.
  { unfold ev1. destruct rw; [done|]. rewrite Hmask by done. by rewrite with_sql_same. }
  assert (User ev1 = User ev) as Hu by (by rewrite Hev).
  assert (Timestamp ev1 = Timestamp ev) as Ht by (by rewrite Hev). rewrite Hu, Ht.
  set (g1 := if sampling g then _ else g).
  assert (gcfg g1 = gcfg g ∧ counter g1 = (if sampling g then next_counter g else counter g)) as Hg
    by (unfold g1; by destruct (sampling g)).
  clearbody g1.
  repeat match goal with
  | |- context [if ?b then (BlockEvent, _, _) else _] =>
      destruct b eqn:?; [rewrite ?orb_true_r; cbn [orb]; rewrite Hev; split_and!; (done || tauto)|]
  end.
  cbn [orb]. set (p := if _ && _ then _ else _).
  assert (p.1 = false → rw = false ∧ p.2 = sql) as Hp.
  { unfold p. destruct (RewriteTimeFunctions (gcfg g) && _); [|done]. intros Hf.
    by destruct (rewrite_times_kept _ _ _ _ Hf) as [? ->]. }
  assert (RewriteTimeFunctions (gcfg g) = false → p.2 = sql) as Hq.
  { unfold p. by intros ->. }
  destruct p as [rw' sql']. simpl in Hp, Hq. destruct rw'.
  - rewrite Hev. split_and!; try done; try tauto. intros _ Hr. by rewrite Hq.
  - destruct (Hp eq_refl) as [-> ->]. unfold ev1 in *. rewrite Hmask in Hev |- * by done.
    split_and!; try done; try tauto.
Qed.
(** ** Sampling *)
Fixpoint run_guard (g : Guard) (evs : list SQLEvent) : list Decision :=
  match evs with
  | [] => []
  | ev :: evs => let '(d, _, g') := Apply zone g ev in d :: run_guard g' evs
  end.

(** No rule but sampling. *)
Definition only_samples (g : Guard) : Prop :=
  includeUsers g = [] ∧ ReadOnly (gcfg g) = false ∧ ExcludeDDL (gcfg g) = false ∧
  SkipExternalDeps (gcfg g) = false ∧ tablePatterns g = [] ∧ excludeTablePat g = [].

Lemma apply_guard g ev :
  (Apply zone g ev).2 = if sampling g then with_counter g (next_counter g) else g.
Proof.
  unfold Apply. destruct (mask g (SQL ev)) as [rw sql].
  repeat match goal with |- context [if ?b then (BlockEvent, _, _) else _] => destruct b; [done|] end.
  by destruct (if RewriteTimeFunctions _ && _ then _ else _) as [[] ?].
Qed.

Lemma only_samples_blocks g ev :
  only_samples g → bool_decide ((Apply zone g ev).1.1 = BlockEvent) = sampled_out g.
Proof.
  intros (H1 & H2 & H3 & H4 & H5 & H6). pose proof (guard_decision g ev) as Hd.
  destruct (Apply zone g ev) as [[d ev'] g']. destruct Hd as [Hd _]. simpl in *.
  unfold blocked, user_excluded, external_dep, table_excluded in Hd.
  rewrite H1, H2, H3, H4, H5, H6 in Hd. cbn in Hd. rewrite !orb_false_r in Hd.
  destruct (sampled_out g); [apply bool_decide_true|apply bool_decide_false; intros ?%Hd]; [by apply Hd|done].
Qed.

(** Whether the event with counter value [k] is dropped at [n] per cent. *)
Definition drops (n k : Z) : bool := n <=? k mod 100.

Lemma float_percent n k :
  0 < n < 100 → 0 ≤ k < 100 →
  fleb (float_of_Z n) (float_of_Z k) = (n <=? k) ∧
  fltb (float_of_Z 0) (float_of_Z n) && fltb (float_of_Z n) (float_of_Z 100) = true.
Proof.
  intros Hn Hk.
  assert (∀ n, 0 ≤ n < 100 → ∃ i, (i < 100)%nat ∧ n = Z.of_nat i) as Hnat.
  { intros m Hm. exists (Z.to_nat m). lia. }
  destruct (Hnat n ltac:(lia)) as (i & Hi & ->). destruct (Hnat k Hk) as (j & Hj & ->).
  assert (forallb (λ i, (fltb (float_of_Z 0) (float_of_Z (Z.of_nat i)) && fltb (float_of_Z (Z.of_nat i)) (float_of_Z 100))
    && forallb (λ j, Bool.eqb (fleb (float_of_Z (Z.of_nat i)) (float_of_Z (Z.of_nat j))) (Z.of_nat i <=? Z.of_nat j))
         (List.seq 0 100)) (List.seq 1 99) = true) as Hall by (vm_compute; reflexivity).
  rewrite forallb_forall in Hall. specialize (Hall i ltac:(apply in_seq; lia)).
  apply andb_true_iff in Hall as [H1 H2]. rewrite forallb_forall in H2.
  specialize (H2 j ltac:(apply in_seq; lia)). apply eqb_prop in H2. by rewrite H1, H2.
Qed.

Lemma run_samples n g evs :
  0 < n < 100 → ReplayPercentage (gcfg g) = float_of_Z n → only_samples g →
  0 ≤ counter g → counter g + zlen evs < 2 ^ 64 →
  (λ d, bool_decide (d = BlockEvent)) <$> run_guard g evs =
    (λ i, drops n (counter g + 1 + Z.of_nat i)) <$> List.seq 0 (length evs).
Proof.
  intros Hn. revert g. induction evs as [|ev evs IH]; intros g Hp Hs Hc Hroom; [done|].
  rewrite zlen_cons in Hroom. pose proof (zlen_nonneg evs). cbn [run_guard].
  pose proof (only_samples_blocks g ev Hs) as Hb. pose proof (apply_guard g ev) as Hg.
  destruct (Apply zone g ev) as [[d ev'] g']. cbn [fst snd] in *. cbn [length List.seq]. rewrite !fmap_cons.
  assert (next_counter g = counter g + 1) as Hnext by (unfold next_counter; apply wrap_small; unfold in_width; lia).
  pose proof (float_percent n ((counter g + 1) mod 100) Hn ltac:(apply Z.mod_pos_bound; lia)) as [Hf1 Hf2].
  assert (sampling g = true) as Hsm by (unfold sampling; by rewrite Hp).
  rewrite Hsm, Hnext in Hg. rewrite Hb. f_equal.
  - unfold sampled_out, drops. rewrite Hsm, Hp, Hnext, Hf1. cbn [andb]. do 2 f_equal. lia.
  - rewrite Hg, IH by (done || simpl; lia). rewrite <- seq_shift.
    change (map S (List.seq 0 (length evs))) with (S <$> List.seq 0 (length evs)).
    rewrite <- list_fmap_compose. apply list_fmap_ext. intros i j _. simpl. f_equal. lia.
Qed.

(** How many of the [m] numbers from [c] on [f] does not drop. *)
Definition kept_by (f : Z → bool) (m : nat) (c : Z) : nat :=
  count_occ Bool.bool_dec (map (λ i, f (c + Z.of_nat i)) (List.seq 0 m)) false.

Definition kept_in (n c : Z) : nat := kept_by (drops n) 100 c.

Lemma kept_by_shift f m c :
  (kept_by f m (c + 1)%Z + Nat.b2n (negb (f c)) = kept_by f m c + Nat.b2n (negb (f (c + Z.of_nat m)%Z)))%nat.
Proof.
  unfold kept_by. induction m as [|m IH]; [by rewrite Z.add_0_r|].
  rewrite seq_S, !map_app, !count_occ_app. cbn [map count_occ Nat.add].
  replace (c + 1 + Z.of_nat m) with (c + Z.of_nat (S m)) by lia.
  destruct (f (c + Z.of_nat m)), (f (c + Z.of_nat (S m))), (f c); cbn [negb Nat.b2n] in *;
    repeat destruct (Bool.bool_dec _ _); try done; lia.
Qed.

(** Moving a window of one hundred drops and adds the same residue. *)
Lemma kept_shift n c : kept_in n (c + 1) = kept_in n c.
Proof.
  unfold kept_in. pose proof (kept_by_shift (drops n) 100 c) as Hs.
  assert (drops n (c + Z.of_nat 100) = drops n c) as Hp.
  { unfold drops. f_equal. apply (Z.mod_add c 1 100). lia. }
  rewrite Hp in Hs. lia.
Qed.

(** Any hundred consecutive numbers have [n] below [n] modulo 100. *)
Lemma window_count n c : 0 < n < 100 → 0 ≤ c → kept_in n c = Z.to_nat n.
Proof.
  intros Hn. revert c. apply natlike_ind.
  - rewrite <- (Z2Nat.id n) by lia. assert (0 < Z.to_nat n < 100)%nat as Hm by lia. rewrite Nat2Z.id.
    revert Hm. generalize (Z.to_nat n) as m. intros m Hm.
    assert (forallb (λ m, Nat.eqb (kept_in (Z.of_nat m) 0) m) (List.seq 1 99) = true) as Hall
      by (vm_compute; reflexivity).
    rewrite forallb_forall in Hall. by apply Nat.eqb_eq, Hall, in_seq; lia.
  - intros c _ IH. by rewrite <- Z.add_1_r, kept_shift.
Qed.

(** With a replay percentage of [n] and no other rule, any hundred consecutive
    events let exactly [n] through, wherever the counter starts. *)
Theorem guard_samples n g evs :
  0 < n < 100 → ReplayPercentage (gcfg g) = float_of_Z n → only_samples g →
  0 ≤ counter g → counter g + 100 < 2 ^ 64 → length evs = 100%nat →
  length (filter (λ d, d ≠ BlockEvent) (run_guard g evs)) = Z.to_nat n.
Proof.
  intros Hn Hp Hs Hc Hroom Hl. rewrite <- (window_count n (counter g + 1) Hn) by lia.
  unfold kept_in, kept_by. rewrite <- Hl at 1. fold (fmap (M := list) (λ i, drops n (counter g + 1 + Z.of_nat i)) (List.seq 0 (length evs))). rewrite <- run_samples by (done || unfold zlen; lia).
  generalize (run_guard g evs) as ds. clear. induction ds as [|d ds IH]; [done|].
  rewrite fmap_cons, filter_cons. destruct d;
    [rewrite decide_True by done|rewrite decide_False by tauto|rewrite decide_True by done];
    cbn [length count_occ bool_decide decide Decision_eq_dec]; by rewrite IH.
Qed.
End facts.

(** ** Concrete guards *)
Module GuardDemo.
#[local] Existing Instance ClassifierDemo.ascii.
Local Open Scope string_scope.

(** Replace every occurrence of a text that is not empty. *)
Fixpoint replace_all (fuel : nat) (p r s : list Z) : list Z :=
  match fuel, s with
  | S fuel, c :: s' =>
      if decide (p `prefix_of` s) then (r ++ replace_all fuel p r (drop (length p) s))%list
      else c :: replace_all fuel p r s'
  | _, _ => s
  end.

(** The pattern of a literal text. *)
Definition literal (p : string) : Pattern :=
  MkPattern (λ s, bool_decide (is_Some (str_index (bytes_of p) s)))
    (λ s r, replace_all (length s) (bytes_of p) r s).

Definition conn : ConnID := MkConnID (Addr4 [10; 0; 0; 1]) 40000 (Addr4 [10; 0; 0; 2]) 5432.

(** 15 January 2024, 08:30:00.25 UTC. *)
Definition captured_at : Z := (1705307400 * Second + 250000000)%Z.

Definition event (sql : string) : SQLEvent :=
  SqlEvent conn (bytes_of sql) captured_at 0 1 false [] [] [] 0 [].

Definition cfg (readonly times : bool) (percentage : Z) : GuardConfig :=
  MkGuardConfig false times false (float_of_Z 60) 0 0 0 [] (float_of_Z percentage) [] [] [] readonly.

Definition guard (readonly times : bool) (percentage : Z) : Guard :=
  MkGuard (cfg readonly times percentage) (literal "CREATE ") [literal "now()"] [] [] [] [] [] false zeroTime 0.

Definition decide_on (g : Guard) (sql : string) : Decision := (Apply (λ _, 0%Z) g (event sql)).1.1.
Definition replayed (g : Guard) (sql : string) : list Z := SQL (Apply (λ _, 0%Z) g (event sql)).1.2.
End GuardDemo.

Lemma replay_time_example :
  GuardDemo.replayed (GuardDemo.guard false true 100) "insert into t values ('now()', now())" =
  bytes_of "insert into t values ('now()', '2024-01-15 08:30:00.250000+00:00'::timestamptz)".
Proof. vm_compute. reflexivity. Qed.

Lemma guard_samples_witness :
  length (filter (λ d, d ≠ BlockEvent)
    (@run_guard ClassifierDemo.ascii (λ _, 0) (GuardDemo.guard false false 25)
       (replicate 100 (GuardDemo.event "select 1")))) = 25%nat.
Proof.
  apply (@guard_samples ClassifierDemo.ascii (λ _, 0) 25 (GuardDemo.guard false false 25));
    (lia || reflexivity || (vm_compute; split_and!; reflexivity) || (vm_compute; done)).
Defined.

(** The read-only mode replays statements that write: a prefix decides. *)
Theorem read_only_admits_writes :
  GuardDemo.decide_on (GuardDemo.guard true false 100)
    "WITH d AS (DELETE FROM t RETURNING *) SELECT count(*) FROM d" = Allow ∧
  GuardDemo.decide_on (GuardDemo.guard true false 100) "EXPLAIN ANALYZE DELETE FROM t" = Allow ∧
  GuardDemo.decide_on (GuardDemo.guard true false 100) "SELECT * INTO u FROM t" = Allow ∧
  GuardDemo.decide_on (GuardDemo.guard true false 100) "/* hint */ SELECT 1" = BlockEvent.
Proof. vm_compute. by split_and!. Qed.

(** Escape strings and comments are not known to the scanners: text inside a
    literal is rewritten, and a call after a comment is not seen. *)
Theorem scanners_misread_literals :
  GuardDemo.replayed (GuardDemo.guard false true 100) "select E'it\'s now()'" =
    bytes_of "select E'it\'s '2024-01-15 08:30:00.250000+00:00'::timestamptz'" ∧
  GuardDemo.replayed (GuardDemo.guard false true 100) "select E'it\'s', now()" =
    bytes_of "select E'it\'s', now()" ∧
  GuardDemo.replayed (GuardDemo.guard false true 100) "select 1 -- it's
, now()" = bytes_of "select 1 -- it's
, now()".
Proof. vm_compute. by split_and!. Qed.
