(* ===== verification/ReplayConfig.v ===== *)
(** * Replayer configuration (src/pkg/replayer/replayer.go, pool.go)

    The configuration record, the two enumerations with their spellings, and the
    connection string of the target.  What a connection string means is what the
    libpq documentation says of quoted values; the environment is a parameter. *)
From Stdlib Require Import String Ascii.
From S2P Require Import Prelude Core ConnKey GoTime Classifier.

(** Both are integers in the code, so that other values exist too. *)
Inductive ConcurrencyMode := Bounded | Faithful | Serial | OtherMode (n : Z).
Inductive ErrorPolicy := Skip | Retry | Abort | OtherPolicy (n : Z).

#[export] Instance ConcurrencyMode_eq_dec : EqDecision ConcurrencyMode.
Proof. solve_decision. Defined.
#[export] Instance ErrorPolicy_eq_dec : EqDecision ErrorPolicy.
Proof. solve_decision. Defined.

Record ReplayConfig := MkReplayConfig {
  TargetHost : list Z; TargetPort : Z; TargetDatabase : list Z; TargetUser : list Z;
  PasswordEnv : list Z; SSLMode : list Z; SSLRootCert : list Z;
  Workers : Z; RateLimitQPS : float64; SpeedFactor : float64; SessionAffinity : bool;
  Policy : ErrorPolicy; RMode : ConcurrencyMode; MaxConcurrency : Z; TargetDialect : list Z;
  PoolMaxConns : Z; PoolMinConns : Z; MaxLaneDepth : Z; AcquireTimeout : Z }.

Local Open Scope string_scope.

Section config.
Context `{Unicode}.

(** The spellings, and [UnmarshalYAML] on the decoded scalar; [None] is its error. *)
Definition mode_String (m : ConcurrencyMode) : list Z :=
  match m with
  | Bounded => bytes_of "bounded" | Faithful => bytes_of "faithful" | Serial => bytes_of "serial"
  | OtherMode n => bytes_of "ConcurrencyMode(" ++ decimal n ++ bytes_of ")"
  end%list.

Definition mode_Unmarshal (s : list Z) : option ConcurrencyMode :=
  let s := ToLower (TrimSpace s) in
  if is_kw s [""; "bounded"] then Some Bounded
  else if is_kw s ["faithful"] then Some Faithful
  else if is_kw s ["serial"] then Some Serial
  else None.

Definition policy_String (p : ErrorPolicy) : list Z :=
  match p with
  | Skip => bytes_of "skip" | Retry => bytes_of "retry" | Abort => bytes_of "abort"
  | OtherPolicy n => bytes_of "ErrorPolicy(" ++ decimal n ++ bytes_of ")"
  end%list.

Definition policy_Unmarshal (s : list Z) : option ErrorPolicy :=
  let s := ToLower (TrimSpace s) in
  if is_kw s [""; "skip"] then Some Skip
  else if is_kw s ["retry"] then Some Retry
  else if is_kw s ["abort"] then Some Abort
  else None.

(** ** The connection string *)
Definition forbiddenPasswordEnvPrefixes : list (list Z) :=
  bytes_of <$> ["AWS_"; "AZURE_"; "GCP_"; "HEROKU_"; "DATABASE_"; "DB_"; "MYSQL_"; "MONGODB_"; "REDIS_";
    "SECRET_"; "TOKEN_"].

Inductive dsn_error := ForbiddenPrefix (name prefix : list Z).

(** The prefix that forbids the name, if any. *)
Definition validatePasswordEnvName (name : list Z) : result dsn_error unit :=
  if bool_decide (name = []) then Ok tt else
  match list_find (λ p, p `prefix_of` ToUpper name) forbiddenPasswordEnvPrefixes with
  | Some (_, p) => Err (ForbiddenPrefix name p)
  | None => Ok tt
  end.

Definition special (c : Z) : bool := in_set (bytes_of <$> [" "; "'"; "\"; ":"; "="]) [c] || (c =? 9)%Z || (c =? 10)%Z.

Fixpoint dsn_escape (s : list Z) : list Z :=
  match s with
  | [] => []
  | c :: s => (if (c =? 39)%Z then [39; 39] else if (c =? 92)%Z then [92; 92] else [c])%Z ++ dsn_escape s
  end%list.

Definition dsnQuote (s : list Z) : list Z :=
  if existsb special s then (39 :: dsn_escape s ++ [39])%Z%list else s.

(** [os.Getenv] *)
Context (Getenv : list Z → list Z).

Definition or_default (s d : list Z) : list Z := if bool_decide (s = []) then d else s.

Definition keyword (k : string) (v : list Z) : list Z := (bytes_of k ++ v)%list.

Definition buildDSN (cfg : ReplayConfig) : result dsn_error (list Z) :=
  let host := or_default (TargetHost cfg) (bytes_of "localhost") in
  let port := if (TargetPort cfg =? 0)%Z then 5432%Z else TargetPort cfg in
  let dsn := (keyword "host=" (dsnQuote host) ++ keyword " port=" (decimal port))%list in
  let dsn := (dsn ++ if bool_decide (TargetDatabase cfg = []) then [] else keyword " dbname=" (dsnQuote (TargetDatabase cfg)))%list in
  let dsn := (dsn ++ if bool_decide (TargetUser cfg = []) then [] else keyword " user=" (dsnQuote (TargetUser cfg)))%list in
  pw ← (if bool_decide (PasswordEnv cfg = []) then Ok [] else
        _ ← validatePasswordEnvName (PasswordEnv cfg); Ok (Getenv (PasswordEnv cfg)));
  let dsn := (dsn ++ if bool_decide (pw = []) then [] else keyword " password=" (dsnQuote pw))%list in
  let dsn := (dsn ++ keyword " sslmode=" (or_default (SSLMode cfg) (bytes_of "require")))%list in
  Ok (dsn ++ if bool_decide (SSLRootCert cfg = []) then [] else keyword " sslrootcert=" (dsnQuote (SSLRootCert cfg)))%list.
End config.

Local Close Scope string_scope.

(** ** What the target's driver reads

    The documentation of libpq connection strings: a value that is empty or has
    spaces is put between single quotes, and inside the value a single quote or a
    backslash is written with a backslash before it.  [read_quoted] is the value
    up to the closing quote and what follows; an unquoted value ends at space. *)
Fixpoint read_quoted (s : list Z) : option (list Z * list Z) :=
  match s with
  | [] => None
  | c :: s1 =>
      if c =? 39 then Some ([], s1) else
      if c =? 92 then
        match s1 with
        | d :: s2 => (λ '(v, r), (d :: v, r)) <$> read_quoted s2
        | [] => None
        end
      else (λ '(v, r), (c :: v, r)) <$> read_quoted s1
  end.

Fixpoint read_plain (s : list Z) : option (list Z * list Z) :=
  match s with
  | [] => Some ([], [])
  | c :: s1 =>
      if is_space c then Some ([], s) else
      if c =? 92 then
        match s1 with
        | d :: s2 => (λ '(v, r), (d :: v, r)) <$> read_plain s2
        | [] => None
        end
      else (λ '(v, r), (c :: v, r)) <$> read_plain s1
  end.

Definition libpq_value (s : list Z) : option (list Z * list Z) :=
  match s with c :: s1 => if c =? 39 then read_quoted s1 else read_plain s | [] => read_plain s end.

(** The end of a connection string or the space before the next keyword. *)
Definition value_end (rest : list Z) : Prop := match rest with [] => True | c :: _ => is_space c = true end.

Lemma special_false c :
  special c = false → c ≠ 32 ∧ c ≠ 39 ∧ c ≠ 92 ∧ c ≠ 58 ∧ c ≠ 61 ∧ c ≠ 9 ∧ c ≠ 10.
Proof. intros Hs. split_and!; intros ->; vm_compute in Hs; discriminate. Qed.

Lemma read_escaped s rest :
  Forall (λ c, c ≠ 39) s → read_quoted (dsn_escape s ++ 39 :: rest) = Some (s, rest).
Proof.
  induction 1 as [|c s Hc _ IH]; [done|]. cbn [dsn_escape]. rewrite (proj2 (Z.eqb_neq _ _) Hc).
  destruct (Z.eqb_spec c 92) as [->|Hb]; rewrite <- app_assoc; cbn [app read_quoted Z.eqb Pos.eqb].
  - by rewrite IH.
  - rewrite (proj2 (Z.eqb_neq _ _) Hc), (proj2 (Z.eqb_neq _ _) Hb). by rewrite IH.
Qed.

Lemma read_plain_value s rest :
  Forall (λ c, special c = false ∧ is_space c = false) s → value_end rest →
  read_plain (s ++ rest) = Some (s, rest).
Proof.
  intros Hs Hr. induction Hs as [|c s [Hc Hsp] _ IH]; cbn [app].
  - destruct rest as [|c r]; [done|]. simpl in *. by rewrite Hr.
  - cbn [read_plain]. destruct (special_false c Hc) as (_ & _ & H92 & _).
    by rewrite Hsp, (proj2 (Z.eqb_neq _ _) H92), IH.
Qed.

(** A configuration value without single quotes reads back as it was, whatever
    keyword follows; the bytes 11 to 13 are space to the reader but do not make
    [dsnQuote] quote. *)
Theorem dsn_value_roundtrip s rest :
  s ≠ [] → Forall (λ c, c ≠ 39 ∧ ¬ (11 ≤ c ≤ 13)) s → value_end rest →
  libpq_value (dsnQuote s ++ rest) = Some (s, rest).
Proof.
  intros Hne Hs Hr. unfold dsnQuote. destruct (existsb special s) eqn:E.
  - cbn [app libpq_value Z.eqb Pos.eqb]. rewrite <- app_assoc. apply read_escaped.
    eapply Forall_impl; [exact Hs|]. by intros c [? _].
  - assert (Forall (λ c, special c = false ∧ is_space c = false) s) as Hsp.
    { apply Forall_forall. intros c Hc. assert (special c = false) as Hf.
      { destruct (special c) eqn:Ec; [|done]. rewrite <- E. symmetry. apply existsb_exists.
        exists c. by rewrite <- list_elem_of_In. }
      split; [done|]. rewrite Forall_forall in Hs. destruct (Hs c Hc) as [_ Hc'].
      destruct (special_false c Hf) as (?&_&_&_&_&?&?). unfold is_space.
      apply orb_false_iff. rewrite andb_false_iff, !Z.leb_gt, Z.eqb_neq. lia. }
    destruct s as [|c s]; [done|]. cbn [app libpq_value].
    inversion Hsp as [|?? [Hc _] _]; subst. destruct (special_false c Hc) as (_ & H39 & _).
    rewrite (proj2 (Z.eqb_neq _ _) H39). by apply (read_plain_value (c :: s)).
Qed.

Lemma dsn_value_roundtrip_witness :
  libpq_value (dsnQuote (bytes_of "pa ss\word") ++ bytes_of " sslmode=require") =
  Some (bytes_of "pa ss\word", bytes_of " sslmode=require").
Proof.
  apply dsn_value_roundtrip; [discriminate| |reflexivity].
  repeat constructor; try discriminate; vm_compute; intros [H1 H2]; (by apply H1) || (by apply H2).
Defined.

(** A single quote is doubled, where the reader wants a backslash: the value of
    such a password ends at the quote and the rest is read as another keyword. *)
Theorem dsn_quote_truncates (a b rest : list Z) :
  Forall (λ c, c ≠ 39) a →
  libpq_value (dsnQuote (a ++ 39 :: b) ++ rest) = Some (a, 39 :: dsn_escape b ++ 39 :: rest).
Proof.
  intros Ha. unfold dsnQuote.
  assert (existsb special (a ++ 39 :: b) = true) as ->.
  { rewrite existsb_app. cbn [existsb]. change (special 39) with true. by rewrite orb_true_r. }
  cbn [app libpq_value Z.eqb Pos.eqb].
  assert (dsn_escape (a ++ 39 :: b) = dsn_escape a ++ 39 :: 39 :: dsn_escape b) as ->.
  { clear. induction a as [|c a IH]; [done|]. cbn [app dsn_escape]. by rewrite IH, app_assoc. }
  rewrite <- !app_assoc. cbn [app]. by apply read_escaped.
Qed.

(** The spellings of the enumerations read back. *)
Lemma mode_roundtrip `{Unicode} m : m ∈ [Bounded; Faithful; Serial] → mode_Unmarshal (mode_String m) = Some m.
Proof. intros Hm. repeat (apply elem_of_cons in Hm as [->|Hm]; [done|]). by apply elem_of_nil in Hm. Qed.

Lemma policy_roundtrip `{Unicode} p : p ∈ [Skip; Retry; Abort] → policy_Unmarshal (policy_String p) = Some p.
Proof. intros Hp. repeat (apply elem_of_cons in Hp as [->|Hp]; [done|]). by apply elem_of_nil in Hp. Qed.
