(* ===== verification/Executors.v ===== *)
(** * The execution chain (src/pkg/replayer/exec_decorators.go, dialect.go,
      replayguard_executor.go, replayer_impl.go)

    Executors call one another as in the code: guard, pacing, rate limit, error
    policy, dialect, pool.  A call appends what it does to a history; the target
    database, the limiter and the context are an environment that answers from
    the history so far. *)
From Stdlib Require Import String Ascii.
From S2P Require Import Prelude Core GoTime Classifier ClassifierFacts ReplayGuard ReplayConfig.

(** ** What reaches the target *)

(** The three ways [poolExecutor] sends an event. *)
Inductive request :=
| CopyFrom (data : list Z) (sql : list Z)
| ExecParams (sql : list Z) (values : list (option (list Z))) (oids formats : list Z)
| ExecSimple (sql : list Z).

Definition splitParams (params : list ParamInfo) : list Z * list (option (list Z)) * list Z :=
  (OID <$> params, Value <$> params, Format <$> params).

(** The reader over the captured segments yields their bytes in order. *)
Definition copyDataReader (data : list (list Z)) : list Z := concat data.

Definition pool_request (ev : SQLEvent) : request :=
  match CopyData ev with
  | _ :: _ => CopyFrom (copyDataReader (CopyData ev)) (SQL ev)
  | [] =>
      match Extended ev, Params ev with
      | true, _ :: _ =>
          let '(oids, values, formats) := splitParams (Params ev) in
          ExecParams (SQL ev) values oids formats
      | _, _ => ExecSimple (SQL ev)
      end
  end.

(** ** Histories *)
Inductive effect :=
| Sleep (d : Z)
| Token
| Lease (conn : ConnID)
| Unlease (conn : ConnID)
| Send (conn : ConnID) (req : request)
| AbortRequested.

Inductive exec_error := TargetError (code : Z) | ContextDone.

(** The surroundings of the chain, as functions of what was done so far: the answer
    of the target, [pool.AcquireFor], the limiter's [Wait], and [ctx.Err()]. *)
Class Env := {
  target : list effect → ConnID → request → option exec_error;
  acquire : list effect → ConnID → option exec_error;
  limiter : list effect → option exec_error;
  ctx_err : list effect → bool }.

(** The chain's own state: the history, the last paced timestamp, and the guard. *)
Record chain := MkChain {
  hist : list effect; prev : option Z; sg : option Guard;
  blocked_n : Z; allowed_n : Z; rewritten_n : Z }.

Definition Executor : Type := ConnID → SQLEvent → chain → option exec_error * chain.

Definition push_effect (e : effect) (w : chain) : chain :=
  MkChain (hist w ++ [e]) (prev w) (sg w) (blocked_n w) (allowed_n w) (rewritten_n w).

Definition defaultRetryAttempts : nat := 3.
Definition maxPacingDelay : Z := 30 * Second.

Section chain.
Context `{Unicode} `{FloatConv} `{Env}.
Context (zone : Z → Z).

(** ** The executors *)

(** Without session affinity the connection is given back when the call returns. *)
Definition poolExecutor (sessionAffinity : bool) : Executor := λ conn ev w,
  let w1 := push_effect (Lease conn) w in
  match acquire (hist w) conn with
  | Some err => (Some err, w1)
  | None =>
      let req := pool_request ev in
      let w2 := push_effect (Send conn req) w1 in
      (target (hist w1) conn req, if sessionAffinity then w2 else push_effect (Unlease conn) w2)
  end.

(** *** Dialect *)
Definition txControlKeywords : list (list Z) :=
  bytes_of <$> ["begin"; "start"; "commit"; "end"; "rollback"; "abort"]%string.

Fixpoint noise_loop (fuel : nat) (s : list Z) : list Z :=
  match fuel, s with
  | S fuel, c :: s' =>
      if is_space c then noise_loop fuel s'
      else if (c =? 45) && starts 45 s' then noise_loop fuel (skip_line (tail s'))
      else if (c =? 47) && starts 42 s' then noise_loop fuel (skip_block 1 (tail s'))
      else s
  | _, _ => s
  end.

(** The suffix at which [skipLeadingNoise] stops. *)
Definition skipLeadingNoise (sql : list Z) : list Z := noise_loop (length sql) sql.

Definition word_byte (c : Z) : bool := ((97 <=? c) && (c <=? 122)) || ((65 <=? c) && (c <=? 90)) || (c =? 95).

Definition leadingKeyword (sql : list Z) : list Z := ToLower (span word_byte (skipLeadingNoise sql)).1.

Definition isTransactionControl (sql : list Z) : bool := in_set txControlKeywords (leadingKeyword sql).

Definition greenplumExecutor (next : Executor) : Executor := λ conn ev w,
  if isTransactionControl (SQL ev) then (None, w) else next conn ev w.

(** [strings.EqualFold] with a word of ASCII letters other than k and s. *)
Definition newDialectExecutor (next : Executor) (dialect : list Z) : Executor :=
  if bool_decide (lower_byte <$> TrimSpace dialect = bytes_of "greenplum"%string)
  then greenplumExecutor next else next.

(** *** Error policy *)
Definition rollbackEv (conn : ConnID) : SQLEvent :=
  SqlEvent conn (bytes_of "ROLLBACK"%string) zeroTime 0 0 false [] [] [] 0 [].

(** [reset] is [resetExec]; its error is ignored. *)
Definition resetTxState (reset : option Executor) (conn : ConnID) (w : chain) : chain :=
  match reset with Some ex => (ex conn (rollbackEv conn) w).2 | None => w end.

Fixpoint retry_loop (next : Executor) (reset : option Executor) (attempts : nat) (conn : ConnID)
    (ev : SQLEvent) (err : exec_error) (w : chain) : option exec_error * chain :=
  match attempts with
  | O => (None, resetTxState reset conn w)
  | S attempts =>
      if ctx_err (hist w) then (Some err, w) else
      match next conn ev w with
      | (None, w) => (None, w)
      | (Some err, w) => retry_loop next reset attempts conn ev err w
      end
  end.

Definition errorPolicyExecutor (next : Executor) (policy : ErrorPolicy) (reset : option Executor) : Executor :=
  λ conn ev w,
  match next conn ev w with
  | (None, w) => (None, w)
  | (Some err, w) =>
      if ctx_err (hist w) then (Some err, w) else
      match policy with
      | Retry => retry_loop next reset defaultRetryAttempts conn ev err w
      | Abort => (Some err, push_effect AbortRequested w)
      | _ => (None, resetTxState reset conn w)
      end
  end.

(** *** Rate limit *)
Definition rateLimitExecutor (next : Executor) : Executor := λ conn ev w,
  let w' := push_effect Token w in
  match limiter (hist w) with
  | Some err => (Some err, w')
  | None => next conn ev w'
  end.

(** *** Pacing *)
Definition pacingDelay (gap : Z) (factor : float64) : Z :=
  if fleb factor (float_of_Z 0) || (gap <=? 0) then 0
  else int64_of_float (fdiv (float_of_Z gap) factor).

(** The delay before an event, capped. *)
Definition paced (factor : float64) (prev : option Z) (ts : Z) : Z :=
  match prev with
  | Some p => Z.min (pacingDelay (time_Sub ts p) factor) maxPacingDelay
  | None => 0
  end.

Definition pacingExecutor (next : Executor) (factor : float64) : Executor := λ conn ev w,
  let delay := paced factor (prev w) (Timestamp ev) in
  let w := MkChain (hist w) (Some (Timestamp ev)) (sg w) (blocked_n w) (allowed_n w) (rewritten_n w) in
  next conn ev (if 0 <? delay then push_effect (Sleep delay) w else w).

(** *** Guard *)
Definition count_decision (d : Decision) (g : Guard) (w : chain) : chain :=
  MkChain (hist w) (prev w) (Some g)
    (if decide (d = BlockEvent) then wrap 64 (blocked_n w + 1) else blocked_n w)
    (if decide (d = Allow) then wrap 64 (allowed_n w + 1) else allowed_n w)
    (if decide (d = Rewrite) then wrap 64 (rewritten_n w + 1) else rewritten_n w).

Definition replayguardExecutor (next : Executor) : Executor := λ conn ev w,
  match sg w with
  | None => next conn ev w
  | Some g =>
      let '(d, ev, g) := Apply zone g ev in
      let w := count_decision d g w in
      match d with BlockEvent => (None, w) | _ => next conn ev w end
  end.

(** ** Composition

    [buildExecutor] around the pool, with the reset executor wired by
    [NewReplayerWithHook]; a chain without a guard has [sg = None]. *)
Definition buildExecutor (cfg : ReplayConfig) (base : Executor) (reset : option Executor) : Executor :=
  let ex := newDialectExecutor base (TargetDialect cfg) in
  let ex := errorPolicyExecutor ex (Policy cfg) reset in
  let ex := if fleb (RateLimitQPS cfg) (float_of_Z 0) then ex else rateLimitExecutor ex in
  let ex := if fltb (float_of_Z 0) (SpeedFactor cfg) then pacingExecutor ex (SpeedFactor cfg) else ex in
  replayguardExecutor ex.

Definition productionExecutor (cfg : ReplayConfig) : Executor :=
  buildExecutor cfg (poolExecutor (SessionAffinity cfg)) (Some (poolExecutor (SessionAffinity cfg))).

(** ** The effects of one call

    What a call must do, said without the executors: which effects it adds to the
    history, in which order, and what it returns. *)

(** One attempt on the target, after the effects [h]: a lease, and if that succeeds
    the request. *)
Inductive attempt (affinity : bool) (conn : ConnID) (req : request) (h : list effect) :
    option exec_error → list effect → Prop :=
| attempt_no_lease err :
    acquire h conn = Some err → attempt affinity conn req h (Some err) (h ++ [Lease conn])
| attempt_sent h' :
    acquire h conn = None →
    h' = h ++ [Lease conn; Send conn req] ++ (if affinity then [] else [Unlease conn]) →
    attempt affinity conn req h (target (h ++ [Lease conn]) conn req) h'.

(** [n] attempts that fail while the context lives. *)
Inductive failures (affinity : bool) (conn : ConnID) (req : request) : nat → list effect → list effect → Prop :=
| failures_none h : failures affinity conn req 0 h h
| failures_more n h err h1 h2 :
    attempt affinity conn req h (Some err) h1 → ctx_err h1 = false → failures affinity conn req n h1 h2 →
    failures affinity conn req (S n) h h2.

(** How often the first attempt is repeated, and the number of attempts after which the
    context is looked at. *)
Definition retries (policy : ErrorPolicy) : nat := match policy with Retry => 3 | _ => 0 end.
Definition watched (policy : ErrorPolicy) : nat := match policy with Retry => 3 | _ => 1 end.

Definition rollback_request : request := ExecSimple (bytes_of "ROLLBACK"%string).

(** A request under the error policy: it succeeds at the first attempt or at a retry;
    or the context is found done after a failure, whose error is returned; or every
    attempt fails, and the replay is aborted with the error, or the connection is
    rolled back and the failure swallowed. *)
Inductive executed (affinity : bool) (policy : ErrorPolicy) (conn : ConnID) (req : request) (h : list effect) :
    option exec_error → list effect → Prop :=
| executed_ok n h1 h2 :
    (n ≤ retries policy)%nat → failures affinity conn req n h h1 → attempt affinity conn req h1 None h2 →
    executed affinity policy conn req h None h2
| executed_cancelled n err h1 h2 :
    (n < watched policy)%nat → failures affinity conn req n h h1 → attempt affinity conn req h1 (Some err) h2 →
    ctx_err h2 = true → executed affinity policy conn req h (Some err) h2
| executed_aborts err h1 :
    policy = Abort → attempt affinity conn req h (Some err) h1 → ctx_err h1 = false →
    executed affinity policy conn req h (Some err) (h1 ++ [AbortRequested])
| executed_skips h1 r h2 :
    policy ≠ Abort → policy ≠ Retry → failures affinity conn req 1 h h1 →
    attempt affinity conn rollback_request h1 r h2 → executed affinity policy conn req h None h2
| executed_gives_up h1 err h2 r h3 :
    policy = Retry → failures affinity conn req 3 h h1 → attempt affinity conn req h1 (Some err) h2 →
    attempt affinity conn rollback_request h2 r h3 → executed affinity policy conn req h None h3.

(** [dialect_sends d sql]: the dialect lets the statement through. *)
Definition dialect_sends (dialect sql : list Z) : bool :=
  negb (bool_decide (lower_byte <$> TrimSpace dialect = bytes_of "greenplum"%string) && isTransactionControl sql).

Definition rate_limited (cfg : ReplayConfig) : bool := negb (fleb (RateLimitQPS cfg) (float_of_Z 0)).
Definition is_paced (cfg : ReplayConfig) : bool := fltb (float_of_Z 0) (SpeedFactor cfg).

(** The delay a paced replay makes before an event: the captured gap to the previous
    one over the speed, at most 30 seconds, and none for the first event or when the
    gap is not positive. *)
Definition delay_before (cfg : ReplayConfig) (before : option Z) (ts : Z) : list effect :=
  match before with
  | Some p =>
      let d := Z.min (int64_of_float (fdiv (float_of_Z (time_Sub ts p)) (SpeedFactor cfg))) (30 * Second) in
      if is_paced cfg && (0 <? time_Sub ts p) && (0 <? d) then [Sleep d] else []
  | None => []
  end.

(** The call on an event that is not blocked. *)
Inductive performed (cfg : ReplayConfig) (conn : ConnID) (ev : SQLEvent) (w : chain) :
    option exec_error → list effect → Prop :=
| performed_no_token err h1 :
    h1 = hist w ++ delay_before cfg (prev w) (Timestamp ev) →
    rate_limited cfg = true → limiter h1 = Some err →
    performed cfg conn ev w (Some err) (h1 ++ [Token])
| performed_dropped h1 h2 :
    h1 = hist w ++ delay_before cfg (prev w) (Timestamp ev) →
    (rate_limited cfg = true → limiter h1 = None) → h2 = h1 ++ (if rate_limited cfg then [Token] else []) →
    dialect_sends (TargetDialect cfg) (SQL ev) = false → performed cfg conn ev w None h2
| performed_executed h1 h2 r h3 :
    h1 = hist w ++ delay_before cfg (prev w) (Timestamp ev) →
    (rate_limited cfg = true → limiter h1 = None) → h2 = h1 ++ (if rate_limited cfg then [Token] else []) →
    dialect_sends (TargetDialect cfg) (SQL ev) = true →
    executed (SessionAffinity cfg) (Policy cfg) conn (pool_request ev) h2 r h3 →
    performed cfg conn ev w r h3.

(** *** The executors do that *)

(** A call that changes nothing of the chain but the history. *)
Definition only_hist (w w' : chain) : Prop :=
  w' = MkChain (hist w') (prev w) (sg w) (blocked_n w) (allowed_n w) (rewritten_n w).

Lemma only_hist_trans w1 w2 w3 : only_hist w1 w2 → only_hist w2 w3 → only_hist w1 w3.
Proof. unfold only_hist. intros -> ->. done. Qed.

Lemma pool_attempts affinity conn ev w :
  let '(r, w') := poolExecutor affinity conn ev w in
  attempt affinity conn (pool_request ev) (hist w) r (hist w') ∧ only_hist w w'.
Proof.
  unfold poolExecutor. destruct (acquire (hist w) conn) as [err|] eqn:Ea; [by split; [constructor|]|].
  split; [|by destruct affinity]. apply (attempt_sent affinity conn _ _ _ Ea).
  destruct affinity; cbn [hist push_effect]; by rewrite <- !app_assoc.
Qed.

Lemma dialect_cases base dialect conn ev w :
  newDialectExecutor base dialect conn ev w =
  if dialect_sends dialect (SQL ev) then base conn ev w else (None, w).
Proof.
  unfold newDialectExecutor, dialect_sends, greenplumExecutor.
  destruct (bool_decide _); [|done]. by destruct (isTransactionControl (SQL ev)).
Qed.

Section policy.
Context (affinity : bool) (dialect : list Z).
Notation base := (newDialectExecutor (poolExecutor affinity) dialect).

Lemma base_attempts conn ev w :
  dialect_sends dialect (SQL ev) = true →
  let '(r, w') := base conn ev w in
  attempt affinity conn (pool_request ev) (hist w) r (hist w') ∧ only_hist w w'.
Proof. intros Hd. rewrite dialect_cases, Hd. apply pool_attempts. Qed.

Lemma reset_attempts conn w :
  ∃ r, attempt affinity conn rollback_request (hist w) r (hist (resetTxState (Some (poolExecutor affinity)) conn w)) ∧
    only_hist w (resetTxState (Some (poolExecutor affinity)) conn w).
Proof.
  pose proof (pool_attempts affinity conn (rollbackEv conn) w) as Hp. unfold resetTxState.
  destruct (poolExecutor affinity conn (rollbackEv conn) w) as [r w']. by exists r.
Qed.

Lemma failures_snoc conn req n h err h1 h2 :
  failures affinity conn req n h h1 → attempt affinity conn req h1 (Some err) h2 → ctx_err h2 = false →
  failures affinity conn req (S n) h h2.
Proof.
  induction 1 as [h|n h err' h1' h2' Ha Hc _ IH]; intros Ht Hl.
  - eapply failures_more; [exact Ht|exact Hl|constructor].
  - eapply failures_more; [exact Ha|exact Hc|by apply IH].
Qed.

(** The loop, after [n] failures in a living context and one more failure. *)
Lemma retry_executes conn ev k n err w0 w1 w :
  dialect_sends dialect (SQL ev) = true → (n + k = 3)%nat →
  failures affinity conn (pool_request ev) n (hist w0) (hist w1) →
  attempt affinity conn (pool_request ev) (hist w1) (Some err) (hist w) → only_hist w0 w →
  let '(r, w') := retry_loop base (Some (poolExecutor affinity)) k conn ev err w in
  executed affinity Retry conn (pool_request ev) (hist w0) r (hist w') ∧ only_hist w0 w'.
Proof.
  intros Hd. revert n err w1 w. induction k as [|k IH]; intros n err w1 w Hk Hf Ha Hw; cbn [retry_loop].
  - destruct (reset_attempts conn w) as (r & Hr & Hr'). split; [|by eapply only_hist_trans].
    eapply (executed_gives_up affinity Retry); [done| |exact Ha|exact Hr]. by replace 3%nat with n by lia.
  - destruct (ctx_err (hist w)) eqn:Ec.
    { split; [|done]. eapply (executed_cancelled affinity Retry); [|exact Hf|exact Ha|exact Ec]. unfold watched. lia. }
    pose proof (failures_snoc _ _ _ _ _ _ _ Hf Ha Ec) as Hf'.
    pose proof (base_attempts conn ev w Hd) as Hb. destruct (base conn ev w) as [[err'|] w']; destruct Hb as [Hb Hb'].
    + apply (IH (S n) err' w w'); [lia|done|done|by eapply only_hist_trans].
    + split; [|by eapply only_hist_trans]. eapply (executed_ok affinity Retry); [|exact Hf'|exact Hb].
      unfold retries. lia.
Qed.

Lemma policy_executes policy conn ev w :
  let '(r, w') := errorPolicyExecutor base policy (Some (poolExecutor affinity)) conn ev w in
  (if dialect_sends dialect (SQL ev)
   then executed affinity policy conn (pool_request ev) (hist w) r (hist w')
   else r = None ∧ hist w' = hist w) ∧ only_hist w w'.
Proof.
  unfold errorPolicyExecutor. destruct (dialect_sends dialect (SQL ev)) eqn:Hd; cycle 1.
  { rewrite dialect_cases, Hd. split; [done|by destruct w]. }
  pose proof (base_attempts conn ev w Hd) as Hb. destruct (base conn ev w) as [[err|] w1]; destruct Hb as [Hb Hb'].
  - destruct (ctx_err (hist w1)) eqn:Ec.
    { split; [|done]. eapply executed_cancelled; [|constructor|exact Hb|exact Ec]. destruct policy; cbn; lia. }
    assert (failures affinity conn (pool_request ev) 1 (hist w) (hist w1)) as Hone
      by (eapply failures_more; [exact Hb|exact Ec|constructor]).
    destruct (reset_attempts conn w1) as (r' & Hr & Hr').
    destruct policy; try (split; [by eapply executed_skips|by eapply only_hist_trans]).
    + apply (retry_executes conn ev 3 0 err w w w1 Hd eq_refl); [constructor|done|done].
    + split; [by apply executed_aborts|]. by eapply only_hist_trans.
  - split; [|done]. eapply executed_ok; [|constructor|exact Hb]. lia.
Qed.
End policy.

Definition limitedExecutor (cfg : ReplayConfig) : Executor :=
  let ex := errorPolicyExecutor (newDialectExecutor (poolExecutor (SessionAffinity cfg)) (TargetDialect cfg))
    (Policy cfg) (Some (poolExecutor (SessionAffinity cfg))) in
  if fleb (RateLimitQPS cfg) (float_of_Z 0) then ex else rateLimitExecutor ex.

Definition pacedExecutor (cfg : ReplayConfig) : Executor :=
  if fltb (float_of_Z 0) (SpeedFactor cfg) then pacingExecutor (limitedExecutor cfg) (SpeedFactor cfg)
  else limitedExecutor cfg.

Lemma production_unfold cfg : productionExecutor cfg = replayguardExecutor (pacedExecutor cfg).
Proof. done. Qed.

Lemma limited_performs cfg conn ev w w1 :
  hist w1 = hist w ++ delay_before cfg (prev w) (Timestamp ev) →
  let '(r, w') := limitedExecutor cfg conn ev w1 in
  performed cfg conn ev w r (hist w') ∧ only_hist w1 w'.
Proof.
  intros Hh. unfold limitedExecutor.
  assert (∀ w2, hist w2 = hist w1 ++ (if rate_limited cfg then [Token] else []) → only_hist w1 w2 →
    (rate_limited cfg = true → limiter (hist w1) = None) →
    let '(r, w') := errorPolicyExecutor (newDialectExecutor (poolExecutor (SessionAffinity cfg)) (TargetDialect cfg))
      (Policy cfg) (Some (poolExecutor (SessionAffinity cfg))) conn ev w2 in
    performed cfg conn ev w r (hist w') ∧ only_hist w1 w') as Hrun.
  { intros w2 Hw2 Ho Hl.
    pose proof (policy_executes (SessionAffinity cfg) (TargetDialect cfg) (Policy cfg) conn ev w2) as Hp.
    destruct (errorPolicyExecutor _ _ _ _ _ _) as [r w']. destruct Hp as [Hp Ho'].
    split; [|by eapply only_hist_trans].
    destruct (dialect_sends (TargetDialect cfg) (SQL ev)) eqn:Hd.
    - by apply (performed_executed cfg conn ev w (hist w1) (hist w2)).
    - destruct Hp as [-> ->]. by apply (performed_dropped cfg conn ev w (hist w1)). }
  unfold rate_limited in Hrun. destruct (fleb (RateLimitQPS cfg) (float_of_Z 0)) eqn:Er; cbn [negb] in Hrun.
  - apply Hrun; [by rewrite app_nil_r|by destruct w1|done].
  - unfold rateLimitExecutor. destruct (limiter (hist w1)) as [err|] eqn:El; [|by apply Hrun].
    split; [|done]. apply performed_no_token; [done|unfold rate_limited; by rewrite Er|done].
Qed.

(** Only the history changes, and the timestamp pacing remembers. *)
Definition paced_prev (cfg : ReplayConfig) (w : chain) (ev : SQLEvent) : option Z :=
  if is_paced cfg then Some (Timestamp ev) else prev w.

Lemma paced_delay cfg before ts :
  is_paced cfg = true →
  (if 0 <? paced (SpeedFactor cfg) before ts then [Sleep (paced (SpeedFactor cfg) before ts)] else []) =
  delay_before cfg before ts.
Proof.
  intros Hp. unfold paced, delay_before, pacingDelay, maxPacingDelay. rewrite Hp. destruct before as [p|]; [|done].
  cbn [andb]. assert (fleb (SpeedFactor cfg) (float_of_Z 0) = false) as ->.
  { by apply positive_not_below. }
  cbn [orb]. rewrite Z.leb_antisym. destruct (0 <? time_Sub ts p); [done|]. done.
Qed.

Lemma paced_performs cfg conn ev w :
  let '(r, w') := pacedExecutor cfg conn ev w in
  performed cfg conn ev w r (hist w') ∧
  w' = MkChain (hist w') (paced_prev cfg w ev) (sg w) (blocked_n w) (allowed_n w) (rewritten_n w).
Proof.
  unfold pacedExecutor, paced_prev, is_paced. destruct (fltb (float_of_Z 0) (SpeedFactor cfg)) eqn:Ef.
  - unfold pacingExecutor. set (w1 := if 0 <? _ then _ else _).
    pose proof (limited_performs cfg conn ev w w1) as Hl. destruct (limitedExecutor cfg conn ev w1) as [r w'].
    destruct Hl as [Hl Ho].
    { rewrite <- paced_delay by done. unfold w1. destruct (0 <? _); cbn; [done|]. by rewrite app_nil_r. }
    split; [done|]. unfold only_hist in Ho. rewrite Ho. unfold w1. by destruct (0 <? _).
  - pose proof (limited_performs cfg conn ev w w) as Hl. destruct (limitedExecutor cfg conn ev w) as [r w'].
    destruct Hl as [Hl Ho].
    { unfold delay_before, is_paced. rewrite Ef. by destruct (prev w); rewrite app_nil_r. }
    done.
Qed.

(** C35 The effects of one call of the production chain, exactly.  An event the guard
    blocks has none, and is counted.  Any other, as the guard rewrote it, waits for
    the captured gap over the speed, at most 30 seconds; takes a token if the rate is
    limited, and returns the limiter's error if there is none; is dropped if it is
    transaction control for a Greenplum target; and otherwise is attempted, each
    attempt a lease of the connection and, if that succeeds, the request.  A failed
    attempt is repeated up to three times under the retry policy and not otherwise;
    when none succeeds, the abort policy stops the replay and returns the error, and
    the others roll the connection back and return none; a failure in a context that
    is done is returned as it is. *)
Theorem chain_effects cfg conn ev w :
  let '(r, w') := productionExecutor cfg conn ev w in
  match sg w with
  | Some g =>
      let '(d, ev', g') := Apply zone g ev in
      if decide (d = BlockEvent) then r = None ∧ w' = count_decision d g' w
      else performed cfg conn ev' w r (hist w') ∧
        w' = MkChain (hist w') (paced_prev cfg w ev') (Some g') (blocked_n w)
          (if decide (d = Allow) then wrap 64 (allowed_n w + 1) else allowed_n w)
          (if decide (d = Rewrite) then wrap 64 (rewritten_n w + 1) else rewritten_n w)
  | None =>
      performed cfg conn ev w r (hist w') ∧
      w' = MkChain (hist w') (paced_prev cfg w ev) None (blocked_n w) (allowed_n w) (rewritten_n w)
  end.
Proof.
  rewrite production_unfold. unfold replayguardExecutor. destruct (sg w) as [g|] eqn:Eg.
  - destruct (Apply zone g ev) as [[d ev'] g']. destruct (decide (d = BlockEvent)) as [->|Hd]; [done|].
    pose proof (paced_performs cfg conn ev' (count_decision d g' w)) as Hp.
    destruct d; try done; (destruct (pacedExecutor cfg conn ev' _) as [r w']); destruct Hp as [Hp Hw];
      (split; [|done]); revert Hp; clear; intros [? ? ? ? ?|? ? ? ? ? ?|? ? ? ? ? ? ? ? ?];
      by econstructor.
  - pose proof (paced_performs cfg conn ev w) as Hp. destruct (pacedExecutor cfg conn ev w) as [r w'].
    by rewrite Eg in Hp.
Qed.

(** ** Pacing *)
Fixpoint sleeps_of (h : list effect) : list Z :=
  match h with
  | [] => []
  | Sleep d :: h => d :: sleeps_of h
  | _ :: h => sleeps_of h
  end.

Lemma sleeps_app h1 h2 : sleeps_of (h1 ++ h2) = sleeps_of h1 ++ sleeps_of h2.
Proof. induction h1 as [|[] h1 IH]; simpl; by rewrite ?IH. Qed.

Lemma attempt_sleeps affinity conn req h r h' : attempt affinity conn req h r h' → sleeps_of h' = sleeps_of h.
Proof. destruct 1 as [err _|h' _ ->]; rewrite !sleeps_app; destruct affinity; by rewrite app_nil_r. Qed.

Lemma failures_sleeps affinity conn req n h h' : failures affinity conn req n h h' → sleeps_of h' = sleeps_of h.
Proof. induction 1 as [|n h err h1 h2 Ha%attempt_sleeps _ _ IH]; congruence. Qed.

Lemma executed_sleeps affinity policy conn req h r h' :
  executed affinity policy conn req h r h' → sleeps_of h' = sleeps_of h.
Proof.
  destruct 1 as [n h1 h2 _ Hf%failures_sleeps Ha%attempt_sleeps|n err h1 h2 _ Hf%failures_sleeps Ha%attempt_sleeps _
    |err h1 _ Ha%attempt_sleeps _|h1 r h2 _ _ Hf%failures_sleeps Ha%attempt_sleeps
    |h1 err h2 r h3 _ Hf%failures_sleeps Ha%attempt_sleeps Hr%attempt_sleeps]; try congruence.
  rewrite sleeps_app. cbn. by rewrite app_nil_r.
Qed.

Lemma limited_sleeps cfg conn ev w :
  sleeps_of (hist (limitedExecutor cfg conn ev w).2) = sleeps_of (hist w) ∧
  prev (limitedExecutor cfg conn ev w).2 = prev w ∧ sg (limitedExecutor cfg conn ev w).2 = sg w.
Proof.
  unfold limitedExecutor.
  assert (∀ w1, sleeps_of (hist w1) = sleeps_of (hist w) → prev w1 = prev w → sg w1 = sg w →
    let ex := errorPolicyExecutor (newDialectExecutor (poolExecutor (SessionAffinity cfg)) (TargetDialect cfg))
      (Policy cfg) (Some (poolExecutor (SessionAffinity cfg))) conn ev w1 in
    sleeps_of (hist ex.2) = sleeps_of (hist w) ∧ prev ex.2 = prev w ∧ sg ex.2 = sg w) as Hrun.
  { intros w1 Hs Hp Hg.
    pose proof (policy_executes (SessionAffinity cfg) (TargetDialect cfg) (Policy cfg) conn ev w1) as He.
    cbn zeta. destruct (errorPolicyExecutor _ _ _ _ _ _) as [r w']. destruct He as [He Ho]. cbn [snd].
    assert (sleeps_of (hist w') = sleeps_of (hist w1)) as Hw'.
    { destruct (dialect_sends _ _); [by eapply executed_sleeps|by destruct He as [_ ->]]. }
    rewrite Ho. cbn. by rewrite Hw'. }
  destruct (fleb _ _); [by apply Hrun|]. unfold rateLimitExecutor.
  assert (sleeps_of (hist w ++ [Token]) = sleeps_of (hist w)) as Ht by (rewrite sleeps_app; apply app_nil_r).
  destruct (limiter (hist w)) as [err|]; [done|]. by apply Hrun.
Qed.

(** Events one after the other. *)
Fixpoint run_events (ex : Executor) (evs : list SQLEvent) (w : chain) : chain :=
  match evs with
  | [] => w
  | ev :: evs => run_events ex evs (ex (Conn ev) ev w).2
  end.

Fixpoint gaps (p : Z) (ts : list Z) : list Z :=
  match ts with
  | [] => []
  | t :: ts => (t - p) :: gaps t ts
  end.

Lemma float_pow2_pos j : fleb (float_pow2 j) (float_of_Z 0) = false ∧ fltb (float_of_Z 0) (float_pow2 j) = true.
Proof. done. Qed.

Lemma paced_exact j p t :
  -9 ≤ j ≤ 512 → Z.abs (t - p) < 2 ^ 53 →
  paced (float_pow2 j) (Some p) t = if t - p <=? 0 then 0 else Z.min (Z.shiftr (t - p) j) maxPacingDelay.
Proof.
  intros Hj Hg. unfold paced, pacingDelay. rewrite time_Sub_exact by lia.
  destruct (float_pow2_pos j) as [-> _]. cbn [orb]. destruct (Z.leb_spec (t - p) 0).
  - unfold maxPacingDelay, Second. lia.
  - by rewrite scale_pow2 by lia.
Qed.

(** For a speed that is a power of two the sleeps of a run are the captured gaps
    scaled by it and capped, with no sleep for an event captured before the last. *)
Theorem pacing_reproduces_gaps cfg j p evs w :
  SpeedFactor cfg = float_pow2 j → -9 ≤ j ≤ 512 → sg w = None → prev w = Some p →
  Forall (λ g, Z.abs g < 2 ^ 53) (gaps p (Timestamp <$> evs)) →
  sleeps_of (hist (run_events (productionExecutor cfg) evs w)) =
  sleeps_of (hist w) ++ filter (λ d, 0 < d)
    ((λ g, Z.min (Z.shiftr (Z.max 0 g) j) maxPacingDelay) <$> gaps p (Timestamp <$> evs)).
Proof.
  intros Hf Hj. revert p w. induction evs as [|ev evs IH]; intros p w Hs Hp Hg.
  { by rewrite app_nil_r. }
  rewrite fmap_cons in Hg |- *. cbn [gaps] in *. apply Forall_cons in Hg as [Hg1 Hg]. cbn [run_events].
  rewrite production_unfold. unfold replayguardExecutor at 2. rewrite Hs. unfold pacedExecutor at 2.
  rewrite Hf. destruct (float_pow2_pos j) as [_ ->]. unfold pacingExecutor. rewrite Hp, paced_exact by done.
  rewrite fmap_cons, filter_cons.
  set (d := Z.min (Z.shiftr (Z.max 0 _) j) maxPacingDelay).
  assert ((if Timestamp ev - p <=? 0 then 0 else Z.min (Z.shiftr (Timestamp ev - p) j) maxPacingDelay) = d) as ->.
  { unfold d. destruct (Z.leb_spec (Timestamp ev - p) 0).
    - rewrite Z.max_l by lia. by rewrite Z.shiftr_0_l.
    - by rewrite Z.max_r by lia. }
  clearbody d. set (w1 := if 0 <? d then _ else _).
  destruct (limited_sleeps cfg (Conn ev) ev w1) as (Hsl & Hpr & Hsg).
  rewrite <- production_unfold, (IH (Timestamp ev)); [|..|done].
  - rewrite Hsl. unfold w1. destruct (Z.ltb_spec 0 d).
    + rewrite decide_True by done. cbn [hist push_effect]. rewrite sleeps_app. simpl.
      by rewrite <- app_assoc.
    + by rewrite decide_False by lia.
  - rewrite Hsg. unfold w1. by destruct (0 <? d).
  - rewrite Hpr. unfold w1. by destruct (0 <? d).
Qed.
End chain.

(** ** The dialect and the classifier *)
Lemma noise_fuel f1 f2 s : (length s ≤ f1)%nat → (length s ≤ f2)%nat → noise_loop f1 s = noise_loop f2 s.
Proof.
  revert f2 s. induction f1 as [|f1 IH]; intros f2 s H1 H2.
  { destruct s; [by destruct f2|simpl in H1; lia]. }
  destruct f2 as [|f2]; [destruct s; [done|simpl in H2; lia]|].
  destruct s as [|c s]; [done|]. cbn [noise_loop]. cbn [length] in *.
  pose proof (tail_length s). pose proof (skip_line_length (tail s)). pose proof (skip_block_length (tail s) 1).
  repeat case_match; try apply IH; lia || done.
Qed.

Lemma noise_step c s :
  skipLeadingNoise (c :: s) =
  if is_space c then skipLeadingNoise s
  else if (c =? 45) && starts 45 s then skipLeadingNoise (skip_line (tail s))
  else if (c =? 47) && starts 42 s then skipLeadingNoise (skip_block 1 (tail s))
  else c :: s.
Proof.
  unfold skipLeadingNoise. cbn [length noise_loop].
  pose proof (tail_length s). pose proof (skip_line_length (tail s)). pose proof (skip_block_length (tail s) 1).
  repeat case_match; try done; apply noise_fuel; lia.
Qed.

Lemma noise_blank p s : blank p → skipLeadingNoise (p ++ s) = skipLeadingNoise s.
Proof.
  induction 1 as [|c p Hc _ IH|body p Hb _ IH|body p Hb _ IH]; [done|cbn [app]; rewrite noise_step..].
  - by rewrite Hc.
  - cbn [is_space starts tail Z.leb Z.eqb Z.compare Pos.compare Pos.compare_cont Pos.eqb andb orb].
    rewrite <- app_assoc. cbn [app]. rewrite skip_line_newline by done. by rewrite noise_step.
  - cbn [is_space starts tail Z.leb Z.eqb Z.compare Pos.compare Pos.compare_cont Pos.eqb andb orb].
    rewrite <- app_assoc. by rewrite (skip_block_tail _ Hb), skip_block_0.
Qed.

Lemma letter_word_byte c : is_letter (lower_byte c) = true → word_byte c = true.
Proof.
  unfold is_letter, lower_byte, word_byte.
  destruct (65 <=? c) eqn:E1, (c <=? 90) eqn:E2; simpl; rewrite ?andb_true_iff; zb; intros;
    rewrite ?orb_true_iff, ?andb_true_iff, ?Z.leb_le, ?Z.eqb_eq; lia.
Qed.

Lemma leadingKeyword_opens `{Unicode} k sql :
  k ≠ [] → Forall (λ c, is_letter c = true) k → opens_with k sql → leadingKeyword sql = k.
Proof.
  intros Hne Hk (p & w & rest & Hp & Hw & Hr & ->). unfold leadingKeyword. rewrite noise_blank by done.
  destruct (lower_word _ _ Hw Hk) as [Hid Ha].
  assert (skipLeadingNoise (w ++ rest) = w ++ rest) as ->.
  { destruct w as [|c w]; [by rewrite <- Hw in Hne|]. inversion Hid as [|?? [Hc _] _]; subst.
    destruct (isIdentPart_not_special c Hc) as (Hs & H45 & H47 & _). cbn [app]. rewrite noise_step, Hs.
    by rewrite (proj2 (Z.eqb_neq _ _) H45), (proj2 (Z.eqb_neq _ _) H47). }
  rewrite (span_exact word_byte w rest).
  - unfold ToLower. cbn [fst]. by rewrite Ha.
  - apply Forall_forall. intros c Hc. apply letter_word_byte.
    rewrite <- Hw, Forall_fmap, Forall_forall in Hk. by apply Hk.
  - intros d r Hd. pose proof (Hr d r Hd) as Hf. unfold isIdentPart, isIdentStart, word_byte in *.
    repeat rewrite orb_false_iff in Hf. repeat rewrite orb_false_iff. tauto.
Qed.

(** The Greenplum decorator and the filter agree on single statements: one that
    opens with a command word is dropped exactly when the classifier calls it the
    start or the end of a transaction. *)
Theorem dialect_agrees `{Unicode} builtins sql k c :
  closed false sql → (k, c) ∈ keyword_classes → opens_with k sql →
  isTransactionControl sql = true ↔ Classify builtins sql = ClassBegin ∨ Classify builtins sql = ClassCommitRollback.
Proof.
  intros Hs Hin Ho. rewrite (classify_keyword builtins sql k c Hs Hin Ho).
  destruct (keyword_letters _ _ Hin) as [Hne Hk]. unfold isTransactionControl.
  rewrite (leadingKeyword_opens k sql Hne Hk Ho). clear -Hin.
  assert (Forall (λ kc, Bool.eqb (in_set txControlKeywords kc.1)
    (bool_decide (kc.2 = ClassBegin) || bool_decide (kc.2 = ClassCommitRollback)) = true) keyword_classes) as Hall
    by (by apply (bool_decide_unpack _)).
  rewrite Forall_forall in Hall. specialize (Hall _ Hin). simpl in Hall. apply eqb_prop in Hall. rewrite Hall.
  by rewrite orb_true_iff, !bool_decide_eq_true.
Qed.

(** ** Concrete runs *)
Module ChainDemo.
#[local] Existing Instance ClassifierDemo.ascii.
Local Open Scope string_scope.

#[export] Instance conv : FloatConv.
Proof. refine {| float_oob := (- 2 ^ 63)%Z |}. split; reflexivity || discriminate. Defined.

(** A target that rejects one statement; the context is done after an abort. *)
Definition rejects (bad : string) (req : request) : bool :=
  match req with ExecSimple sql => bool_decide (sql = bytes_of bad) | _ => false end.

Definition is_abort (e : effect) : bool := match e with AbortRequested => true | _ => false end.

(** The context of a run is cancelled by an abort. *)
Definition env (bad : string) : Env := {|
  target h conn req := if rejects bad req then Some (TargetError 1) else None;
  acquire h conn := None;
  limiter h := None;
  ctx_err h := existsb is_abort h |}.

Definition cfg (policy : ErrorPolicy) (speed : float64) (dialect : string) : ReplayConfig :=
  MkReplayConfig [] 0 [] [] [] [] [] 4 (float_of_Z 0) speed true policy Bounded 0 (bytes_of dialect) 10 0 0 0.

Definition w0 : chain := MkChain [] (Some 0%Z) None 0 0 0.

Definition event (sql : string) (ts : Z) : SQLEvent :=
  SqlEvent GuardDemo.conn (bytes_of sql) ts 0 0 false [] [] [] 0 [].

Definition run (bad : string) (c : ReplayConfig) (evs : list SQLEvent) : list effect :=
  hist (@run_events (@productionExecutor ClassifierDemo.ascii conv (env bad) (λ _, 0%Z) c) evs w0).

(** What an attempt leaves in the history. *)
Definition sent (sql : string) : list effect :=
  [Lease GuardDemo.conn; Send GuardDemo.conn (ExecSimple (bytes_of sql))].
End ChainDemo.

(** A statement the target rejects, under the retry policy: four attempts, then the
    rollback, and no error. *)
Lemma chain_effects_witness :
  @performed ClassifierDemo.ascii ChainDemo.conv (ChainDemo.env "bad") (ChainDemo.cfg Retry (float_of_Z 0) "")
    GuardDemo.conn (ChainDemo.event "bad" 0) ChainDemo.w0 None
    (ChainDemo.sent "bad" ++ ChainDemo.sent "bad" ++ ChainDemo.sent "bad" ++ ChainDemo.sent "bad" ++
     ChainDemo.sent "ROLLBACK").
Proof.
  pose proof (@chain_effects ClassifierDemo.ascii ChainDemo.conv (ChainDemo.env "bad") (λ _, 0)
    (ChainDemo.cfg Retry (float_of_Z 0) "") GuardDemo.conn (ChainDemo.event "bad" 0) ChainDemo.w0) as H.
  destruct (productionExecutor _ _ _ _ _) as [r w'] eqn:E. vm_compute in E. injection E as <- <-. exact (proj1 H).
Defined.

Lemma pacing_reproduces_gaps_witness :
  sleeps_of (ChainDemo.run "bad" (ChainDemo.cfg Skip (float_pow2 1) "")
    [ChainDemo.event "select 1" (4 * Second); ChainDemo.event "select 2" (5 * Second);
     ChainDemo.event "select 3" (500 * Second)]) = [2 * Second; 500000000; 30 * Second].
Proof.
  unfold ChainDemo.run.
  rewrite (@pacing_reproduces_gaps ClassifierDemo.ascii ChainDemo.conv (ChainDemo.env "bad") (λ _, 0)
    (ChainDemo.cfg Skip (float_pow2 1) "") 1 0);
    [reflexivity|reflexivity|lia|reflexivity|reflexivity|].
  repeat constructor.
Defined.

Lemma dialect_agrees_witness :
  @isTransactionControl ClassifierDemo.ascii (47 :: 42 :: ClassifierDemo.comment ++ bytes_of " BeGin work") = true.
Proof.
  apply (@dialect_agrees ClassifierDemo.ascii [] _ (bytes_of "begin") ClassBegin).
  - apply closed_block; [exact ClassifierDemo.comment_ok|]. cbn. ClassifierDemo.solve_closed.
  - by apply (bool_decide_unpack _).
  - exists (47 :: 42 :: ClassifierDemo.comment ++ [32]), (bytes_of "BeGin"), (bytes_of " work").
    split_and!; [|reflexivity|by intros d r [= <- <-]|reflexivity].
    apply blank_block; [exact ClassifierDemo.comment_ok|]. by apply blank_space; [|apply blank_nil].
  - left. reflexivity.
Defined.

(** A failed statement inside a transaction: the skip policy rolls back, and the
    statements that follow run on their own. *)
Theorem skip_splits_transaction :
  ChainDemo.run "insert bad" (ChainDemo.cfg Skip (float_of_Z 0) "")
    [ChainDemo.event "begin" 0; ChainDemo.event "insert bad" 0; ChainDemo.event "insert good" 0;
     ChainDemo.event "rollback" 0] =
  ChainDemo.sent "begin" ++ ChainDemo.sent "insert bad" ++ ChainDemo.sent "ROLLBACK" ++
  ChainDemo.sent "insert good" ++ ChainDemo.sent "rollback".
Proof. vm_compute. reflexivity. Qed.

(** With the Greenplum dialect a batch that opens with BEGIN is dropped whole, and
    the reset after a failure still sends ROLLBACK. *)
Theorem greenplum_drops_batches :
  ChainDemo.run "bad" (ChainDemo.cfg Skip (float_of_Z 0) "Greenplum")
    [ChainDemo.event "begin; insert into t values (1); commit" 0; ChainDemo.event "bad" 0] =
  ChainDemo.sent "bad" ++ ChainDemo.sent "ROLLBACK".
Proof. vm_compute. reflexivity. Qed.

(** Pacing remembers the last event only: two connections that took ten seconds
    side by side are replayed in twenty when their events alternate. *)
Theorem pacing_counts_twice :
  sleeps_of (ChainDemo.run "bad" (ChainDemo.cfg Skip (float_pow2 0) "")
    [ChainDemo.event "a1" 0; ChainDemo.event "a2" (10 * Second); ChainDemo.event "b1" 0;
     ChainDemo.event "b2" (10 * Second)]) = [10 * Second; 10 * Second].
Proof. vm_compute. reflexivity. Qed.
