(* ===== verification/Replayer.v ===== *)
(** * The replayer (src/pkg/replayer/replayer_impl.go, unbounded_lane.go)

    The dispatcher and the lane workers as a step relation.  The dispatcher reads
    the queue through its interface ([QueueSpec]), each lane is drained by one
    goroutine, and a buffered channel of [concurrency] slots bounds the executions
    under way.  Every lock-protected operation, channel operation and select
    branch is one step; a goroutine that waits has no step. *)
From S2P Require Import Prelude Core ConnKey GoTime QueueSpec Classifier ReplayGuard ReplayConfig.

(** ** Lanes

    The capacity of the slice and its re-allocation are not observable. *)
Record unboundedLane := Lane { buf : list SQLEvent; lane_closed : bool }.

Definition newUnboundedLane : unboundedLane := Lane [] false.

Definition lane_Enqueue (l : unboundedLane) (ev : SQLEvent) : unboundedLane := Lane (buf l ++ [ev]) (lane_closed l).

(** [Dequeue] with the lock held, up to its return or [cond.Wait]. *)
Definition lane_Dequeue (l : unboundedLane) : outcome (option SQLEvent) * unboundedLane :=
  match buf l with
  | [] => (if lane_closed l then Return None false else Wait, l)
  | ev :: b => (Return (Some ev) false, Lane b (lane_closed l))
  end.

Definition lane_Close (l : unboundedLane) : unboundedLane := Lane (buf l) true.

Definition lane_Len (l : unboundedLane) : Z := zlen (buf l).

(** ** Configuration *)
Definition defaultWorkers : Z := 32.
Definition defaultPoolMaxConns : Z := 100.
Definition defaultMaxLaneDepth : Z := 100000.

Record replayer := MkReplayer { serial : bool; concurrency : Z; maxLaneDepth : Z }.

Definition configureMode (cfg : ReplayConfig) : replayer :=
  let workers := if Workers cfg <=? 0 then defaultWorkers else Workers cfg in
  let poolMax := if PoolMaxConns cfg <=? 0 then defaultPoolMaxConns else PoolMaxConns cfg in
  let '(ser, conc) :=
    match RMode cfg with
    | Serial => (true, 1)
    | Faithful => (false, if MaxConcurrency cfg <=? 0 then workers else MaxConcurrency cfg)
    | _ => (false, if poolMax <? workers then poolMax else workers)
    end in
  MkReplayer ser (if conc <? 1 then 1 else conc)
    (if MaxLaneDepth cfg <=? 0 then defaultMaxLaneDepth else MaxLaneDepth cfg).

Definition serialLaneKey : list Z := bytes_of_string "__serial__".

Definition laneKey (r : replayer) (ev : SQLEvent) : list Z := if serial r then serialLaneKey else Key (Conn ev).

(** ** State *)

(** Where a lane's goroutine is: about to dequeue, waiting for a slot with an
    event, executing it, releasing the connections it has seen, or gone. *)
Inductive worker :=
| WDequeue
| WAcquire (ev : SQLEvent)
| WExec (ev : SQLEvent)
| WRelease (rem : gmap (list Z) ConnID)
| WDone.

Record lane_state := LaneState { lane : unboundedLane; wk : worker; seen : gmap (list Z) ConnID }.

(** Where the dispatcher is: summing the depths of the lanes still in [rem],
    pausing, dequeuing, routing an event, closing the lanes in [rem], waiting for
    the workers, or returned with [ctx.Err() != nil]. *)
Inductive dispatcher :=
| DSum (rem : gset (list Z)) (laneDepth : Z)
| DPause
| DDequeue
| DRoute (ev : SQLEvent)
| DClose (rem : gset (list Z))
| DWait
| DReturned (err : bool).

Record rstate := RState {
  rq : @QueueSpec.bounded SQLEvent; lanes : gmap (list Z) lane_state; disp : dispatcher;
  sem : Z; cancelled : bool; replayLagSec : float64; guard : option Guard }.

Definition set_disp (d : dispatcher) (s : rstate) : rstate :=
  RState (rq s) (lanes s) d (sem s) (cancelled s) (replayLagSec s) (guard s).
Definition set_lanes (m : gmap (list Z) lane_state) (s : rstate) : rstate :=
  RState (rq s) m (disp s) (sem s) (cancelled s) (replayLagSec s) (guard s).
Definition set_lane (k : list Z) (l : lane_state) (s : rstate) : rstate := set_lanes (<[k := l]> (lanes s)) s.
Definition set_queue (q : @QueueSpec.bounded SQLEvent) (s : rstate) : rstate :=
  RState q (lanes s) (disp s) (sem s) (cancelled s) (replayLagSec s) (guard s).
Definition set_sem (n : Z) (s : rstate) : rstate :=
  RState (rq s) (lanes s) (disp s) n (cancelled s) (replayLagSec s) (guard s).
Definition cancel (b : bool) (s : rstate) : rstate :=
  RState (rq s) (lanes s) (disp s) (sem s) (cancelled s || b) (replayLagSec s) (guard s).

Definition Run_start (q : @QueueSpec.bounded SQLEvent) (g : option Guard) : rstate :=
  RState q ∅ (DSum ∅ 0) 0 false (float_of_Z 0) g.

(** ** The dispatcher *)

(** The test of the back-pressure loop, once the depths are summed. *)
Definition check_backpressure (r : replayer) (acc now : Z) (s : rstate) : rstate :=
  if maxLaneDepth r <=? acc then set_disp DPause s else
  match guard s with
  | None => set_disp DDequeue s
  | Some g =>
      let '(p, g) := CheckBackpressure g (zlen (b_list (rq s)) + acc) (replayLagSec s) now in
      RState (rq s) (lanes s) (if p : bool then DPause else DDequeue) (sem s) (cancelled s) (replayLagSec s) (Some g)
  end.

(** The lag of the event just dequeued at [now]. *)
Definition lag_after (ev : SQLEvent) (now : Z) (lag : float64) : float64 :=
  if Timestamp ev =? zeroTime then lag else Seconds (time_Sub now (Timestamp ev)).

Definition after_dequeue (ev : SQLEvent) (l : list SQLEvent) (now : Z) (s : rstate) : rstate :=
  RState (QueueSpec.Bounded (b_cap (rq s)) (b_policy (rq s)) (b_closed (rq s)) l) (lanes s) (DRoute ev)
    (sem s) (cancelled s) (lag_after ev now (replayLagSec s)) (guard s).

(** The lane of a key, made with its worker if there is none. *)
Definition lane_for (k : list Z) (s : rstate) : lane_state :=
  default (LaneState newUnboundedLane WDequeue ∅) (lanes s !! k).

Definition route (r : replayer) (ev : SQLEvent) (s : rstate) : rstate :=
  let l := lane_for (laneKey r ev) s in
  let m := <[laneKey r ev := LaneState (lane_Enqueue (lane l) ev) (wk l) (seen l)]> (lanes s) in
  set_disp (DSum (dom m) 0) (set_lanes m s).

(** ** Steps *)
Inductive label :=
| LQueue (o : @QueueSpec.op SQLEvent)
| LCancel
| LPoll
| LDispatch
| LDequeue (ev : SQLEvent)
| LWorker
| LStart (k : list Z) (ev : SQLEvent)
| LFinish (k : list Z) (ev : SQLEvent)
| LRelease (c : ConnID).

Definition workers_done (s : rstate) : Prop := ∀ k l, lanes s !! k = Some l → wk l = WDone.

Inductive step (r : replayer) (s : rstate) : label → rstate → Prop :=
(* the producer, and the caller's context *)
| step_enqueue ev : step r s (LQueue (OpEnqueue ev)) (set_queue (spec_op (rq s) (OpEnqueue ev)).2 s)
| step_close : step r s (LQueue OpClose) (set_queue (spec_op (rq s) OpClose).2 s)
| step_cancel : step r s LCancel (cancel true s)
(* the dispatcher *)
| step_sum rem acc k l :
    disp s = DSum rem acc → k ∈ rem → lanes s !! k = Some l →
    step r s LDispatch (set_disp (DSum (rem ∖ {[k]}) (acc + lane_Len (lane l))) s)
| step_check acc now : disp s = DSum ∅ acc → step r s LDispatch (check_backpressure r acc now s)
| step_pause_done : disp s = DPause → cancelled s = true → step r s LDispatch (set_disp (DClose (dom (lanes s))) s)
| step_pause_timer : disp s = DPause → step r s LPoll (set_disp (DSum (dom (lanes s)) 0) s)
| step_dequeue ev l sig now :
    disp s = DDequeue →
    dequeue_spec (b_closed (rq s)) (cancelled s) (b_list (rq s)) = (Return (Some ev) sig, l) →
    step r s (LDequeue ev) (after_dequeue ev l now s)
| step_dequeue_end l sig :
    disp s = DDequeue →
    dequeue_spec (b_closed (rq s)) (cancelled s) (b_list (rq s)) = (Return None sig, l) →
    step r s LDispatch (set_disp (DClose (dom (lanes s))) s)
| step_route ev : disp s = DRoute ev → step r s LDispatch (route r ev s)
| step_close_lane rem k l :
    disp s = DClose rem → k ∈ rem → lanes s !! k = Some l →
    step r s LDispatch
      (set_disp (DClose (rem ∖ {[k]})) (set_lane k (LaneState (lane_Close (lane l)) (wk l) (seen l)) s))
| step_wait : disp s = DClose ∅ → step r s LDispatch (set_disp DWait s)
| step_return : disp s = DWait → workers_done s → step r s LDispatch (set_disp (DReturned (cancelled s)) s)
(* a lane worker *)
| step_take k l ev sig ln :
    lanes s !! k = Some l → wk l = WDequeue → lane_Dequeue (lane l) = (Return (Some ev) sig, ln) →
    step r s LWorker (set_lane k (LaneState ln (WAcquire ev) (<[Key (Conn ev) := Conn ev]> (seen l))) s)
| step_drained k l sig ln :
    lanes s !! k = Some l → wk l = WDequeue → lane_Dequeue (lane l) = (Return None sig, ln) →
    step r s LWorker (set_lane k (LaneState ln (WRelease (seen l)) (seen l)) s)
| step_acquire k l ev :
    lanes s !! k = Some l → wk l = WAcquire ev → sem s < concurrency r →
    step r s (LStart k ev) (set_sem (sem s + 1) (set_lane k (LaneState (lane l) (WExec ev) (seen l)) s))
| step_acquire_done k l ev :
    lanes s !! k = Some l → wk l = WAcquire ev → cancelled s = true →
    step r s LWorker (set_lane k (LaneState (lane l) (WRelease (seen l)) (seen l)) s)
| step_finish k l ev abort :
    lanes s !! k = Some l → wk l = WExec ev →
    step r s (LFinish k ev)
      (cancel abort (set_sem (sem s - 1) (set_lane k (LaneState (lane l) WDequeue (seen l)) s)))
| step_release k l rem k' c :
    lanes s !! k = Some l → wk l = WRelease rem → rem !! k' = Some c →
    step r s (LRelease c) (set_lane k (LaneState (lane l) (WRelease (delete k' rem)) (seen l)) s)
| step_done k l :
    lanes s !! k = Some l → wk l = WRelease ∅ →
    step r s LWorker (set_lane k (LaneState (lane l) WDone (seen l)) s).

(** Runs, extended at the end. *)
Inductive run (r : replayer) (s : rstate) : list label → rstate → Prop :=
| run_nil : run r s [] s
| run_snoc tr s1 a s2 : run r s tr s1 → step r s1 a s2 → run r s (tr ++ [a]) s2.

(** ** What a run shows *)
Definition dequeues (tr : list label) : list SQLEvent :=
  omap (λ a, match a with LDequeue ev => Some ev | _ => None end) tr.
Definition starts_on (k : list Z) (tr : list label) : list SQLEvent :=
  omap (λ a, match a with LStart k' ev => if decide (k = k') then Some ev else None | _ => None end) tr.
Definition finishes_on (k : list Z) (tr : list label) : list SQLEvent :=
  omap (λ a, match a with LFinish k' ev => if decide (k = k') then Some ev else None | _ => None end) tr.
Definition starts (tr : list label) : list SQLEvent :=
  omap (λ a, match a with LStart _ ev => Some ev | _ => None end) tr.
Definition releases (tr : list label) : list ConnID :=
  omap (λ a, match a with LRelease c => Some c | _ => None end) tr.

(** The events a lane has not started. *)
Definition waiting (l : lane_state) : list SQLEvent :=
  (match wk l with WAcquire ev => [ev] | _ => [] end) ++ buf (lane l).

Definition executing (l : lane_state) : list SQLEvent := match wk l with WExec ev => [ev] | _ => [] end.

Definition retired (w : worker) : bool := match w with WRelease _ | WDone => true | _ => false end.

Definition routing (k : list Z) (r : replayer) (d : dispatcher) : list SQLEvent :=
  match d with DRoute ev => if decide (laneKey r ev = k) then [ev] else [] | _ => [] end.

Definition closing (d : dispatcher) : bool :=
  match d with DClose _ | DWait | DReturned _ => true | _ => false end.
