(* ===== verification/ReplayerFacts.v ===== *)
(** * Invariants of the replayer

    Every reachable state of the step relation of [Replayer], under any
    scheduling: order and serialisation per lane, the bound on concurrent
    executions and on buffered events, completion, termination and the states in
    which the back-pressure test never passes again. *)
From S2P Require Import Prelude Core ConnKey GoTime QueueSpec Classifier ReplayGuard ReplayConfig Replayer.

(** ** Sums over the lanes *)
Definition total (f : list Z → lane_state → Z) (m : gmap (list Z) lane_state) : Z :=
  map_fold (λ k l acc, f k l + acc) 0 m.

Lemma total_empty f : total f ∅ = 0.
Proof. apply map_fold_empty. Qed.

Lemma total_new f m k l : m !! k = None → total f (<[k := l]> m) = f k l + total f m.
Proof. intros Hk. unfold total. by rewrite map_fold_insert_L by (done || intros; lia). Qed.

Lemma total_delete f m k l : m !! k = Some l → total f m = f k l + total f (delete k m).
Proof.
  intros Hk. rewrite <- (insert_delete_id m k l Hk) at 1. by rewrite total_new by apply lookup_delete_eq.
Qed.

Lemma total_update f m k l l' :
  m !! k = Some l → total f (<[k := l']> m) = total f m - f k l + f k l'.
Proof.
  intros Hk. rewrite <- insert_delete_eq, total_new, (total_delete f m k l) by (done || apply lookup_delete_eq). lia.
Qed.

Lemma total_mono f g m :
  (∀ k l, m !! k = Some l → f k l ≤ g k l) → total f m ≤ total g m.
Proof.
  induction m as [|k l m Hk IH] using map_ind; intros H; [by rewrite !total_empty|].
  rewrite !total_new by done. pose proof (H k l (lookup_insert_eq _ _ _)).
  enough (total f m ≤ total g m) by lia. apply IH. intros k' l' Hl. apply H.
  rewrite lookup_insert_ne; [done|]. by intros ->; rewrite Hk in Hl.
Qed.

Lemma lane_total_nonneg f m : (∀ k l, m !! k = Some l → 0 ≤ f k l) → 0 ≤ total f m.
Proof.
  intros H. assert (total (λ _ _, 0) m = 0) as <-; [|by apply total_mono].
  clear. induction m as [|k l m Hk IH] using map_ind; [done|]. by rewrite total_new.
Qed.

(** A positive sum has a positive term. *)
Lemma total_pos f m : 0 < total f m → ∃ k l, m !! k = Some l ∧ 0 < f k l.
Proof.
  induction m as [|k l m Hk IH] using map_ind; [rewrite total_empty; lia|].
  rewrite total_new by done. intros H. destruct (decide (0 < f k l)).
  - exists k, l. by rewrite lookup_insert_eq.
  - destruct IH as (k' & l' & Hl & Hf); [lia|]. exists k', l'.
    rewrite lookup_insert_ne; [done|]. by intros ->; rewrite Hk in Hl.
Qed.

(** ** Traces *)
Lemma dequeues_snoc tr a : dequeues (tr ++ [a]) = dequeues tr ++ match a with LDequeue ev => [ev] | _ => [] end.
Proof. unfold dequeues. rewrite omap_app. by destruct a. Qed.

Lemma starts_on_snoc k tr a :
  starts_on k (tr ++ [a]) = starts_on k tr ++
    match a with LStart k' ev => if decide (k = k') then [ev] else [] | _ => [] end.
Proof. unfold starts_on. rewrite omap_app. destruct a; try done. simpl. by destruct (decide _). Qed.

Lemma finishes_on_snoc k tr a :
  finishes_on k (tr ++ [a]) = finishes_on k tr ++
    match a with LFinish k' ev => if decide (k = k') then [ev] else [] | _ => [] end.
Proof. unfold finishes_on. rewrite omap_app. destruct a; try done. simpl. by destruct (decide _). Qed.

(** ** Single steps, seen from one lane

    What a step does to the lane of [k] is one of these. *)
Definition at_lane {A} (f : lane_state → list A) (k : list Z) (s : rstate) : list A :=
  match lanes s !! k with Some l => f l | None => [] end.

(** Case analysis on a step; [lanes] of the new state become an insertion. *)
Ltac inv_step H :=
  inversion H; subst; clear H; unfold set_lane, after_dequeue in *;
  cbn [set_disp set_lanes set_queue set_sem cancel rq lanes disp sem cancelled replayLagSec guard] in *.

Lemma check_lanes r acc now s :
  lanes (check_backpressure r acc now s) = lanes s ∧ rq (check_backpressure r acc now s) = rq s ∧
  sem (check_backpressure r acc now s) = sem s ∧ cancelled (check_backpressure r acc now s) = cancelled s ∧
  replayLagSec (check_backpressure r acc now s) = replayLagSec s ∧
  (disp (check_backpressure r acc now s) = DPause ∨
   disp (check_backpressure r acc now s) = DDequeue ∧ acc < maxLaneDepth r).
Proof.
  unfold check_backpressure. destruct (Z.leb_spec (maxLaneDepth r) acc); [by split_and!; auto|].
  destruct (guard s) as [g|]; [|by split_and!; auto].
  destruct (CheckBackpressure g _ _ _) as [[] g']; simpl; split_and!; auto.
Qed.

Lemma lane_Dequeue_some l ev sig l' :
  lane_Dequeue l = (Return (Some ev) sig, l') → buf l = ev :: buf l' ∧ lane_closed l' = lane_closed l.
Proof. unfold lane_Dequeue. destruct (buf l) as [|e b] eqn:E; [by destruct (lane_closed l)|]. by intros [= -> _ <-]. Qed.

Lemma lane_Dequeue_none l sig l' :
  lane_Dequeue l = (Return None sig, l') → buf l = [] ∧ l' = l ∧ lane_closed l = true.
Proof.
  unfold lane_Dequeue. destruct (buf l) as [|e b] eqn:E; [|done]. destruct (lane_closed l) eqn:Ec; [|done].
  by intros [= _ <-].
Qed.

(** The test of the back-pressure loop only moves the dispatcher. *)
Ltac use_check :=
  match goal with
  | |- context [check_backpressure ?r ?acc ?now ?s] =>
      let H1 := fresh in let H2 := fresh in let H3 := fresh in let H4 := fresh in let H5 := fresh in
      let Hd := fresh "Hd" in
      destruct (check_lanes r acc now s) as (H1 & H2 & H3 & H4 & H5 & Hd);
      rewrite ?H1, ?H2, ?H3, ?H4, ?H5; clear H1 H2 H3 H4 H5
  end.

(** Split on whether the lane a step changed is that of [k]. *)
Ltac lane_case k :=
  unfold route in *; cbn [lanes set_disp set_lanes disp] in *;
  match goal with
  | |- context [<[?k0 := _]> (lanes ?s) !! k] =>
      destruct (decide (k0 = k)) as [Ek|?]; [first [subst k0 | rewrite Ek in *]|];
      [rewrite ?lookup_insert_eq in *; rewrite ?decide_True by done
      |rewrite ?lookup_insert_ne in * by done; rewrite ?(decide_False (P := k = k0)) by done]
  | _ => idtac
  end.

(** Executions on a lane alternate: started, then finished. *)
Lemma step_exec r s a s' k tr :
  step r s a s' →
  starts_on k tr = finishes_on k tr ++ at_lane executing k s →
  starts_on k (tr ++ [a]) = finishes_on k (tr ++ [a]) ++ at_lane executing k s'.
Proof.
  intros Hs. rewrite starts_on_snoc, finishes_on_snoc. intros ->. unfold at_lane.
  inv_step Hs; lane_case k; rewrite ?app_nil_r; try done;
    try match goal with E : lanes s !! _ = Some _ |- _ => rewrite E end;
    unfold executing; cbn [wk];
    try match goal with E : wk _ = _ |- _ => rewrite E end; rewrite ?app_nil_r; try done.
  - by destruct (check_lanes r acc now s) as [-> _].
  - unfold lane_for. by destruct (lanes s !! _).
Qed.

(** What was dequeued for a lane is what it started, what it waits to start, and
    what is on its way to it, in this order; a cancelled worker may give up the
    event it holds. *)
Definition is_retired (k : list Z) (s : rstate) : bool :=
  match lanes s !! k with Some l => retired (wk l) | None => false end.

Definition lane_order (r : replayer) (k : list Z) (s : rstate) (tr : list label) : Prop :=
  ∃ lost, filter (λ ev, laneKey r ev = k) (dequeues tr) =
      starts_on k tr ++ lost ++ at_lane waiting k s ++ routing k r (disp s) ∧
    (lost ≠ [] → cancelled s = true ∧ is_retired k s = true).

Lemma routing_other k r d : (∀ ev, d ≠ DRoute ev) → routing k r d = [].
Proof. destruct d; try done. intros H. by destruct (H ev). Qed.

Lemma step_order r s a s' k tr :
  step r s a s' → lane_order r k s tr → lane_order r k s' (tr ++ [a]).
Proof.
  intros Hs (lost & Ho & Hl). unfold lane_order.
  rewrite dequeues_snoc, starts_on_snoc, filter_app. unfold at_lane, is_retired in *.
  assert (∀ l, lanes s !! k = Some l → retired (wk l) = false → lost = []) as Hnone.
  { intros l Hk Hr. destruct lost; [done|]. destruct (Hl ltac:(done)) as [_ Hr']. by rewrite Hk, Hr in Hr'. }
  inv_step Hs; lane_case k; rewrite ?filter_nil, ?app_nil_r;
    try match goal with E : lanes s !! k = Some _ |- _ => rewrite E in * end;
    try match goal with E : disp s = _ |- _ => rewrite E in *; cbn [routing] in *; rewrite ?app_nil_r in * end;
    try (exists lost; split; [done|]; intros Hne; destruct (Hl Hne) as [Hc ?]; by rewrite ?Hc).
  - destruct (check_lanes r acc now s) as (-> & _ & _ & -> & _ & Hd). exists lost.
    rewrite (routing_other _ _ (disp _)) by (destruct Hd as [->|[-> _]]; done). by rewrite app_nil_r.
  - exists lost. split; [|done]. rewrite Ho, filter_cons, filter_nil, <- !app_assoc. by destruct (decide _).
  - exists lost. cbn [cancelled set_disp set_lanes wk]. unfold lane_for, waiting, lane_Enqueue in *. cbn [wk lane buf].
    rewrite decide_True in Ho by done. split; [|destruct (lanes s !! k); [done|]; intros Hne; by destruct (Hl Hne)].
    rewrite Ho. destruct (lanes s !! k) as [l|]; simpl; by rewrite <- ?app_assoc.
  - exists lost. rewrite decide_False, app_nil_r in Ho by done. done.
  - apply lane_Dequeue_some in H1 as [Hb _]. rewrite (Hnone l eq_refl) in Ho by (by rewrite H0).
    exists []. split; [|done]. rewrite Ho. unfold waiting. rewrite H0, Hb. done.
  - apply lane_Dequeue_none in H1 as (Hb & -> & _). rewrite (Hnone l eq_refl) in Ho by (by rewrite H0).
    exists []. split; [|done]. rewrite Ho. unfold waiting. by rewrite H0.
  - rewrite (Hnone l eq_refl) in Ho by (by rewrite H0). exists []. split; [|done].
    rewrite Ho. unfold waiting. rewrite H0. cbn. by rewrite <- app_assoc.
  - rewrite (Hnone l eq_refl) in Ho by (by rewrite H0). exists [ev]. split; [|done].
    rewrite Ho. unfold waiting. by rewrite H0.
  - rewrite (Hnone l eq_refl) in Ho by (by rewrite H0). exists []. split; [|done].
    rewrite Ho. unfold waiting. by rewrite H0.
  - exists lost. rewrite Ho. unfold waiting. rewrite H0. split; [done|]. intros Hne. by destruct (Hl Hne).
  - exists lost. rewrite Ho. unfold waiting. rewrite H0. split; [done|]. intros Hne. by destruct (Hl Hne).
Qed.

(** ** Slots *)
Definition is_exec (_ : list Z) (l : lane_state) : Z := match wk l with WExec _ => 1 | _ => 0 end.

Definition slots_ok (r : replayer) (s : rstate) : Prop :=
  sem s = total is_exec (lanes s) ∧ sem s ≤ concurrency r.

(** A lane replaced by another, or added. *)
Lemma total_set (f : list Z → lane_state → Z) (m : gmap (list Z) lane_state) (k : list Z) (l' : lane_state) :
  total f (<[k := l']> m) = total f m - match m !! k with Some l => f k l | None => 0 end + f k l'.
Proof.
  destruct (m !! k) as [l|] eqn:E; [by apply total_update|]. rewrite total_new by done. lia.
Qed.

Lemma step_slots r s a s' : step r s a s' → slots_ok r s → slots_ok r s'.
Proof.
  intros Hs [He Hb]. unfold slots_ok.
  inv_step Hs; try use_check;
    unfold route; cbn [set_disp set_lanes lanes sem];
    rewrite ?total_set;
    try match goal with E : lanes s !! ?k = Some _ |- context [lanes s !! ?k] => rewrite E end;
    set (n := total is_exec (lanes s)) in *; clearbody n; unfold is_exec; cbn [wk];
    try match goal with E : wk _ = _ |- _ => rewrite E end; try (split; lia).
  - unfold lane_for. destruct (lanes s !! laneKey r ev) as [l|]; cbn [default wk from_option id]; split; lia.
Qed.

(** ** Closing and retiring *)
Definition disp_ok (d : dispatcher) (m : gmap (list Z) lane_state) (c : bool) : Prop :=
  match d with
  | DSum rem _ => rem ⊆ dom m
  | DClose rem => rem ⊆ dom m ∧ ∀ k l, m !! k = Some l → k ∉ rem → lane_closed (lane l) = true
  | DWait => ∀ k l, m !! k = Some l → lane_closed (lane l) = true
  | DReturned err => (∀ k l, m !! k = Some l → wk l = WDone) ∧ (err = true → c = true)
  | _ => True
  end.

Record lanes_ok (s : rstate) : Prop := LanesOk {
  lo_closed : ∀ k l, lanes s !! k = Some l → lane_closed (lane l) = true → closing (disp s) = true;
  lo_retired : ∀ k l, lanes s !! k = Some l → retired (wk l) = true →
    cancelled s = true ∨ (lane_closed (lane l) = true ∧ buf (lane l) = []);
  lo_disp : disp_ok (disp s) (lanes s) (cancelled s) }.

Lemma step_closed r s a s' :
  step r s a s' → lanes_ok s →
  ∀ k l, lanes s' !! k = Some l → lane_closed (lane l) = true → closing (disp s') = true.
Proof.
  intros Hs [Hc _ _] k x. inv_step Hs; try use_check; lane_case k; intros Hx Hcl; simplify_eq; cbn [lane lane_closed closing] in *;
    try (eapply Hc; eassumption); try done;
    try match goal with E : disp s = _ |- _ => pose proof (Hc _ _ Hx Hcl) as Hd'; rewrite E in Hd'; done end.
  - unfold lane_for, lane_Enqueue in Hcl. cbn in Hcl. destruct (lanes s !! laneKey r ev) as [l|] eqn:E; [|done].
    pose proof (Hc _ _ E Hcl) as Hd'. by rewrite H in Hd'.
  - apply lane_Dequeue_some in H1 as [_ Hcl']. rewrite Hcl' in Hcl. by eapply Hc.
  - apply lane_Dequeue_none in H1 as (_ & -> & Hcl'). by eapply Hc.
Qed.

Lemma step_retired r s a s' :
  step r s a s' → lanes_ok s →
  ∀ k l, lanes s' !! k = Some l → retired (wk l) = true →
    cancelled s' = true ∨ (lane_closed (lane l) = true ∧ buf (lane l) = []).
Proof.
  intros Hs [Hc Hr _] k x. inv_step Hs; try use_check; lane_case k; intros Hx Hre; simplify_eq; cbn [wk lane lane_closed buf retired] in *;
    try (eapply Hr; eassumption); try done;
    try (destruct (Hr _ _ Hx Hre) as [->|?]; auto; done).
  - unfold lane_for in Hre. destruct (lanes s !! laneKey r ev) as [l|] eqn:E; [|done].
    destruct (Hr _ _ E Hre) as [Hcan|[Hcl _]]; [by left|]. pose proof (Hc _ _ E Hcl) as Hd'. by rewrite H in Hd'.
  - destruct (Hr _ _ H1 Hre) as [?|[_ ?]]; auto.
  - apply lane_Dequeue_none in H1 as (Hb & -> & Hcl'). by right.
  - by left.
  - apply (Hr _ _ H). by rewrite H0.
  - apply (Hr _ _ H). by rewrite H0.
Qed.

Lemma dom_update (m : gmap (list Z) lane_state) (k : list Z) l l' :
  m !! k = Some l → dom (<[k := l']> m) = dom m.
Proof. intros H. rewrite dom_insert_L. apply elem_of_dom_2 in H. set_solver. Qed.

(** A worker that is not gone changes its own lane, without closing it. *)
Lemma disp_ok_update d m c k l l' :
  disp_ok d m c → m !! k = Some l → wk l ≠ WDone → lane_closed (lane l') = lane_closed (lane l) →
  disp_ok d (<[k := l']> m) c.
Proof.
  intros Hd Hk Hw Hl.
  assert (∀ (P : list Z → Prop), (∀ k0 l0, m !! k0 = Some l0 → P k0 → lane_closed (lane l0) = true) →
    ∀ k0 l0, <[k := l']> m !! k0 = Some l0 → P k0 → lane_closed (lane l0) = true) as Hall.
  { intros P Hm k0 l0 Hk0 HP. apply lookup_insert_Some in Hk0 as [[<- <-]|[_ Hk0]]; [|by eapply Hm].
    rewrite Hl. by eapply Hm. }
  destruct d; try done; simpl in *.
  - by rewrite (dom_update _ _ _ _ Hk).
  - rewrite (dom_update _ _ _ _ Hk). destruct Hd as [Hd1 Hd2]. split; [done|].
    intros k0 l0 Hk0 Hn. by eapply (Hall (λ k0, k0 ∉ rem)).
  - intros k0 l0 Hk0. by eapply (Hall (λ _, True)); eauto.
  - destruct Hd as [Hd1 _]. by destruct (Hw (Hd1 _ _ Hk)).
Qed.

Lemma disp_ok_cancel d m c b : disp_ok d m c → disp_ok d m (c || b).
Proof. destruct d; simpl; try done. intros [? Hc]. split; [done|]. intros He. by rewrite (Hc He). Qed.

Lemma step_lanes r s a s' : step r s a s' → lanes_ok s → lanes_ok s'.
Proof.
  intros Hs Hok. split; [by eapply step_closed|by eapply step_retired|].
  destruct Hok as [Hc Hr Hd].
  inv_step Hs; try use_check; unfold route; cbn [lanes set_disp set_lanes disp cancelled] in *;
    try done; try apply disp_ok_cancel;
    try (eapply disp_ok_update; [done|eassumption|by rewrite H0|]; cbn [lane]; try done);
    try match goal with E : disp s = _ |- _ => rewrite E in Hd; simpl in Hd end.
  all: try (by apply lane_Dequeue_some in H1 as [_ ->]); try (by apply lane_Dequeue_none in H1 as (_ & -> & _)).
  - done.
  - simpl. set_solver.
  - destruct Hd0 as [->|[-> _]]; done.
  - split; [set_solver|]. intros k l Hl []. by apply elem_of_dom.
  - simpl. set_solver.
  - split; [set_solver|]. intros k l0 Hl []. by apply elem_of_dom.
  - simpl. set_solver.
  - split.
    + rewrite (dom_update _ _ _ _ H1). destruct Hd. set_solver.
    + intros k0 l0 Hk0 Hn. apply lookup_insert_Some in Hk0 as [[<- <-]|[Hne Hk0]]; [done|].
      destruct Hd as [_ Hd]. apply (Hd _ _ Hk0). set_solver.
  - destruct Hd as [_ Hd]. intros k l Hk. apply (Hd _ _ Hk). set_solver.
Qed.

(** ** Buffered events *)
Definition depth_of (_ : list Z) (l : lane_state) : Z := lane_Len (lane l).
Definition depth_outside (rem : gset (list Z)) (k : list Z) (l : lane_state) : Z :=
  if decide (k ∈ rem) then 0 else lane_Len (lane l).

Lemma lane_Len_nonneg l : 0 ≤ lane_Len l.
Proof. apply zlen_nonneg. Qed.

(** The depths summed so far bound those of the lanes already read, since only
    the dispatcher adds events. *)
Record depth_ok (r : replayer) (s : rstate) : Prop := DepthOk {
  do_bound : total depth_of (lanes s) ≤ maxLaneDepth r;
  do_disp : match disp s with
    | DSum rem acc => 0 ≤ acc ∧ total (depth_outside rem) (lanes s) ≤ acc
    | DDequeue | DRoute _ => total depth_of (lanes s) < maxLaneDepth r
    | _ => True
    end }.

(** A lane replaced by one that is not longer. *)
Lemma depth_ok_update r s s' k l l' :
  depth_ok r s → lanes s !! k = Some l → lanes s' = <[k := l']> (lanes s) → disp s' = disp s →
  lane_Len (lane l') ≤ lane_Len (lane l) → depth_ok r s'.
Proof.
  intros [Hb Hd] Hk Hl' Hdisp Hle. split; rewrite Hl', ?Hdisp.
  - rewrite (total_update _ _ _ _ _ Hk). unfold depth_of at 2 3. lia.
  - destruct (disp s); try done; [destruct Hd as [? Hd]; split; [done|]| |];
      rewrite (total_update _ _ _ _ _ Hk).
    + unfold depth_outside at 2 3. destruct (decide _); lia.
    + unfold depth_of at 2 3. lia.
    + unfold depth_of at 2 3. lia.
Qed.

Lemma total_ext f g m : (∀ k l, m !! k = Some l → f k l = g k l) → total f m = total g m.
Proof. intros H. apply Z.le_antisymm; apply total_mono; intros k l Hk; by rewrite (H k l Hk). Qed.

Lemma total_dom m : total (depth_outside (dom m)) m = 0.
Proof.
  rewrite (total_ext _ (λ _ _, 0)).
  - apply Z.le_antisymm; [|by apply lane_total_nonneg]. rewrite <- Z.opp_nonneg_nonpos.
    assert (total (λ _ _, 0) m = 0) as ->; [|lia].
    clear. induction m as [|k l m Hk IH] using map_ind; [done|]. by rewrite total_new.
  - intros k l Hk. unfold depth_outside. rewrite decide_True; [done|]. by apply elem_of_dom.
Qed.

(** Reading one more lane. *)
Lemma total_read m rem k l :
  m !! k = Some l → k ∈ rem →
  total (depth_outside (rem ∖ {[k]})) m = total (depth_outside rem) m + lane_Len (lane l).
Proof.
  intros Hk Hin. rewrite !(total_delete _ m k l Hk).
  rewrite (total_ext (depth_outside (rem ∖ {[k]})) (depth_outside rem) (delete k m)).
  - unfold depth_outside at 1 3. rewrite decide_False, decide_True by set_solver. lia.
  - intros k' l' Hk'. unfold depth_outside. assert (k' ≠ k) by (intros ->; by rewrite lookup_delete_eq in Hk').
    destruct (decide (k' ∈ rem)); [rewrite decide_True by set_solver|rewrite decide_False by set_solver]; done.
Qed.

Lemma step_depth r s a s' : 0 ≤ maxLaneDepth r → step r s a s' → depth_ok r s → depth_ok r s'.
Proof.
  intros Hmax Hs Hok. pose proof Hok as [Hb Hd].
  inv_step Hs;
    try (by eapply (depth_ok_update r s); [done|exact H|done|done|cbn [lane]; lia]);
    try match goal with E : disp s = _ |- _ => rewrite E in Hd end.
  - by split.
  - by split.
  - by split.
  - split; [done|]. cbn. pose proof (lane_Len_nonneg (lane l)). rewrite (total_read _ _ _ _ H1) by done. lia.
  - destruct (check_lanes r acc now s) as (E & _ & _ & _ & _ & Hd'). split; rewrite E; [done|].
    destruct Hd' as [->|[-> ?]]; [done|]. destruct Hd as [_ Hd].
    rewrite (total_ext (depth_outside ∅) depth_of) in Hd; [lia|]. done.
  - by split.
  - split; [done|]. cbn. by rewrite total_dom.
  - by split.
  - by split.
  - split; unfold route; cbn; [|by rewrite total_dom].
    rewrite total_set. unfold depth_of at 2 3. unfold lane_for, lane_Len, lane_Enqueue. cbn [lane buf].
    rewrite zlen_app. destruct (lanes s !! laneKey r ev); cbn; [change (zlen [ev]) with 1; lia|].
    change (zlen (@nil SQLEvent)) with 0. change (zlen [ev]) with 1. lia.
  - eapply (depth_ok_update r (set_disp (DClose (rem ∖ {[k]})) s)); [by split|exact H1|done|done|done].
  - by split.
  - by split.
  - eapply (depth_ok_update r s); [done|exact H|done|done|]. apply lane_Dequeue_some in H1 as [Hbuf _].
    cbn [lane]. unfold lane_Len. rewrite Hbuf, zlen_cons. lia.
  - eapply (depth_ok_update r s); [done|exact H|done|done|]. by apply lane_Dequeue_none in H1 as (_ & -> & _).
Qed.

(** ** The queue *)
Definition enqueues (tr : list label) : list SQLEvent :=
  omap (λ a, match a with LQueue (OpEnqueue ev) => Some ev | _ => None end) tr.

Lemma enqueues_snoc tr a :
  enqueues (tr ++ [a]) = enqueues tr ++ match a with LQueue (OpEnqueue ev) => [ev] | _ => [] end.
Proof. unfold enqueues. rewrite omap_app. by destruct a as [[]| | | | | | | |]. Qed.

(** What was dequeued and what waits is an in-order selection of what came in;
    once the dispatcher closes the lanes of a run that was not cancelled, the
    queue is closed and empty. *)
Record queue_ok (q : @QueueSpec.bounded SQLEvent) (s : rstate) (tr : list label) : Prop := QueueOk {
  qo_order : dequeues tr ++ b_list (rq s) `sublist_of` b_list q ++ enqueues tr;
  qo_drained : closing (disp s) = true → cancelled s = true ∨ (b_closed (rq s) = true ∧ b_list (rq s) = []) }.

Lemma enqueue_sublist (l : list SQLEvent) cap p c ev :
  (enqueue_spec cap p c l ev).2 `sublist_of` l ++ [ev] ∧
  (c = true → (enqueue_spec cap p c l ev).2 = l).
Proof.
  unfold enqueue_spec. destruct c; [split; [by apply sublist_inserts_r|done]|]. split; [|done].
  destruct (zlen l <? cap); [done|]. destruct p; simpl; [|by apply sublist_inserts_r..].
  destruct l; [done|]. simpl. by apply sublist_cons.
Qed.

Lemma dequeue_some (l l' : list SQLEvent) c d ev sig :
  dequeue_spec c d l = (Return (Some ev) sig, l') → l = ev :: l'.
Proof. destruct l; simpl; [by destruct (c || d)|]. by intros [= -> _ ->]. Qed.

Lemma dequeue_none (l l' : list SQLEvent) c d sig :
  dequeue_spec c d l = (Return None sig, l') → l = [] ∧ (c = true ∨ d = true).
Proof. destruct l; simpl; [|done]. destruct c, d; simpl; intros [=]; auto. Qed.

Lemma step_queue r q s a s' tr : step r s a s' → queue_ok q s tr → queue_ok q s' (tr ++ [a]).
Proof.
  intros Hs [Ho Hd].
  assert (∀ s', rq s' = rq s → (cancelled s = true → cancelled s' = true) →
    (closing (disp s') = true → closing (disp s) = true) →
    match a with LQueue _ | LDequeue _ => False | _ => True end → queue_ok q s' (tr ++ [a])) as Hsame.
  { intros s2 Hq Hcan Hcl Ha. split; rewrite ?dequeues_snoc, ?enqueues_snoc, Hq.
    - destruct a; try done; by rewrite !app_nil_r.
    - intros H. destruct (Hd (Hcl H)); auto. }
  inv_step Hs;
    try (apply Hsame; cbn; try done; try (by rewrite H); try (intros ->; done); done).
  - split; cbn -[enqueue_spec]; rewrite ?dequeues_snoc, ?enqueues_snoc, ?app_nil_r;
      pose proof (enqueue_sublist (b_list (rq s)) (b_cap (rq s)) (b_policy (rq s)) (b_closed (rq s)) ev) as [He Hc];
      destruct (enqueue_spec _ _ _ _ _) as [o l]; cbn in *.
    + etransitivity; [by apply sublist_app|]. rewrite !app_assoc. by apply sublist_app.
    + intros H. destruct (Hd H) as [?|[Hcl He']]; [by left|right]. split; [done|]. by rewrite (Hc Hcl).
  - split; cbn; rewrite ?dequeues_snoc, ?enqueues_snoc, ?app_nil_r; [done|].
    intros H. destruct (Hd H) as [?|[_ ?]]; auto.
  - destruct (check_lanes r acc now s) as (_ & Hq & _ & Hc & _ & Hdd). apply Hsame; try done.
    + by rewrite Hc.
    + by destruct Hdd as [->|[-> _]].
  - split; cbn; rewrite ?dequeues_snoc, ?enqueues_snoc, ?app_nil_r; [done|auto].
  - apply dequeue_some in H0. split; cbn; rewrite ?dequeues_snoc, ?enqueues_snoc, ?app_nil_r; [|done].
    rewrite H0 in Ho. by rewrite <- app_assoc.
  - apply dequeue_none in H0 as [Hl Hcl]. split; cbn; rewrite ?dequeues_snoc, ?enqueues_snoc, ?app_nil_r; [done|].
    destruct Hcl; auto.
Qed.

(** ** Releasing connections *)
Lemma releases_snoc tr a : releases (tr ++ [a]) = releases tr ++ match a with LRelease c => [c] | _ => [] end.
Proof. unfold releases. rewrite omap_app. by destruct a. Qed.

(** The events a worker has taken from its lane. *)
Definition taken (l : lane_state) : list SQLEvent := match wk l with WAcquire ev => [ev] | _ => [] end.

Record released_ok (k : list Z) (l : lane_state) (tr : list label) : Prop := ReleasedOk {
  ro_seen : ∀ ev, ev ∈ starts_on k tr ++ taken l →
    ∃ c, seen l !! Key (Conn ev) = Some c ∧ Key c = Key (Conn ev);
  ro_released : retired (wk l) = true → ∀ k' c, seen l !! k' = Some c →
    c ∈ releases tr ∨ ∃ rem, wk l = WRelease rem ∧ rem !! k' = Some c }.

Definition releases_ok (s : rstate) (tr : list label) : Prop :=
  (∀ k, lanes s !! k = None → starts_on k tr = []) ∧ ∀ k l, lanes s !! k = Some l → released_ok k l tr.

(** A step that leaves a lane's worker as it is. *)
Lemma released_frame k l l' tr a :
  released_ok k l tr → wk l' = wk l → seen l' = seen l → starts_on k (tr ++ [a]) = starts_on k tr →
  released_ok k l' (tr ++ [a]).
Proof.
  intros [H1 H2] Hw Hs Hst. split; unfold taken in *; rewrite Hw, Hs, ?Hst, ?releases_snoc.
  - done.
  - intros Hr k' c Hk. destruct (H2 Hr k' c Hk); [left; apply elem_of_app; auto|auto].
Qed.

Lemma step_releases r s a s' tr : step r s a s' → releases_ok s tr → releases_ok s' (tr ++ [a]).
Proof.
  intros Hs [Hn Hr]. split; intros k.
  - rewrite starts_on_snoc. inv_step Hs; try use_check; lane_case k; intros Hk; try done; rewrite Hn by done; try done.
  - intros x. pose proof (starts_on_snoc k tr a) as Hst.
    inv_step Hs; try use_check; lane_case k; intros Hk; simplify_eq;
      rewrite ?decide_False in Hst by done; rewrite ?app_nil_r in Hst;
      try (eapply released_frame; [by apply Hr|done..]).
    + unfold lane_for. destruct (lanes s !! laneKey r ev) as [l|] eqn:E.
      * eapply released_frame; [by apply Hr|done..].
      * split; [|done]. rewrite Hst, Hn by done. intros e He. by apply elem_of_nil in He.
    + destruct (Hr _ _ H) as [H2 _]. split; [|done]. rewrite Hst. unfold taken in *. rewrite H0, app_nil_r in H2.
      intros e [He|He%list_elem_of_singleton]%elem_of_app; cbn [seen].
      * destruct (H2 e He) as (c & Hc & Hk). destruct (decide (Key (Conn ev) = Key (Conn e))) as [E|E].
        -- rewrite E, lookup_insert_eq. by exists (Conn ev).
        -- rewrite lookup_insert_ne by done. by exists c.
      * subst e. rewrite lookup_insert_eq. by exists (Conn ev).
    + destruct (Hr _ _ H) as [H2 _]. split; [|cbn [wk seen]; eauto]. rewrite Hst. unfold taken in *. by rewrite H0 in H2.
    + destruct (Hr _ _ H) as [H2 _]. split; [|done]. rewrite Hst, decide_True by done. unfold taken in *. rewrite H0 in H2.
      cbn [wk seen]. by rewrite app_nil_r.
    + destruct (Hr _ _ H) as [H2 _]. split; [|cbn [wk seen]; eauto]. rewrite Hst. unfold taken in *. rewrite H0 in H2.
      cbn [wk seen]. rewrite app_nil_r. intros e He. apply H2, elem_of_app. by left.
    + destruct (Hr _ _ H) as [H2 _]. split; [|done]. rewrite Hst. unfold taken in *. by rewrite H0 in H2.
    + destruct (Hr _ _ H) as [H2 H3]. split.
      * rewrite Hst. unfold taken in *. by rewrite H0 in H2.
      * cbn [wk seen]. intros _ k2 c2 Hk2. rewrite H0 in H3. rewrite releases_snoc.
        destruct (H3 eq_refl k2 c2 Hk2) as [?|(rem' & [= <-] & Hrem)]; [left; apply elem_of_app; auto|].
        destruct (decide (k' = k2)) as [->|Hne].
        -- left. apply elem_of_app. right. simplify_eq. by apply list_elem_of_singleton.
        -- right. eexists. split; [done|]. by rewrite lookup_delete_ne.
    + destruct (Hr _ _ H) as [H2 H3]. split.
      * rewrite Hst. unfold taken in *. by rewrite H0 in H2.
      * cbn [wk seen]. intros _ k2 c2 Hk2. rewrite H0 in H3. rewrite releases_snoc.
        destruct (H3 eq_refl k2 c2 Hk2) as [?|(rem' & [= <-] & Hrem)]; [left; apply elem_of_app; auto|].
        by rewrite lookup_empty in Hrem.
Qed.

(** ** Every reachable state *)
Record reachable_ok (r : replayer) (q : @QueueSpec.bounded SQLEvent) (s : rstate) (tr : list label) : Prop := ReachableOk {
  re_order : ∀ k, lane_order r k s tr;
  re_exec : ∀ k, starts_on k tr = finishes_on k tr ++ at_lane executing k s;
  re_slots : slots_ok r s;
  re_lanes : lanes_ok s;
  re_depth : depth_ok r s;
  re_queue : queue_ok q s tr;
  re_releases : releases_ok s tr }.

Lemma configureMode_pos cfg : 1 ≤ concurrency (configureMode cfg) ∧ 1 ≤ maxLaneDepth (configureMode cfg).
Proof.
  unfold configureMode, defaultMaxLaneDepth.
  destruct (RMode cfg); cbn [concurrency maxLaneDepth];
    (split; [|by destruct (Z.leb_spec (MaxLaneDepth cfg) 0); lia]);
    match goal with |- context [if ?c <? 1 then 1 else _] => destruct (Z.ltb_spec c 1); lia end.
Qed.

Lemma run_ok cfg q g tr s :
  run (configureMode cfg) (Run_start q g) tr s → reachable_ok (configureMode cfg) q s tr.
Proof.
  pose proof (configureMode_pos cfg) as [Hc Hm]. generalize dependent (configureMode cfg). intros r Hc Hm.
  induction 1 as [|tr s1 a s2 _ [] Hs].
  - split; [|done|..|done].
    + intros k. by exists [].
    + split; cbn; rewrite ?total_empty; lia.
    + by split.
    + split; cbn; rewrite ?total_empty; lia.
    + split; [|done]. by rewrite app_nil_r.
  - split; [..|by eapply step_releases].
    + intros k. by eapply step_order.
    + intros k. by eapply step_exec.
    + by eapply step_slots.
    + by eapply step_lanes.
    + eapply step_depth; [lia|done..].
    + by eapply step_queue.
Qed.

(** The routing key depends on the connection only. *)
Definition conn_lane (r : replayer) (c : ConnID) : list Z := if serial r then serialLaneKey else Key c.

Lemma starts_lane r s tr k ev : lane_order r k s tr → LStart k ev ∈ tr → laneKey r ev = k.
Proof.
  intros (lost & Ho & _) Hin.
  assert (ev ∈ filter (λ ev, laneKey r ev = k) (dequeues tr)) as [? _]%list_elem_of_filter; [|done].
  rewrite Ho. apply elem_of_app. left. unfold starts_on. apply list_elem_of_omap.
  exists (LStart k ev). split; [done|]. by rewrite decide_True.
Qed.

Lemma starts_on_cons k k' ev tr :
  starts_on k (LStart k' ev :: tr) = if decide (k = k') then ev :: starts_on k tr else starts_on k tr.
Proof. unfold starts_on. simpl. by destruct (decide _). Qed.

(** The executions of a connection all happen on its lane. *)
Lemma starts_of_conn r tr c :
  (∀ k ev, LStart k ev ∈ tr → laneKey r ev = k) →
  filter (λ ev, Conn ev = c) (starts tr) = filter (λ ev, Conn ev = c) (starts_on (conn_lane r c) tr).
Proof.
  induction tr as [|a tr IH]; intros Hk; [done|].
  assert (∀ k ev, LStart k ev ∈ tr → laneKey r ev = k) as Hk' by (intros; apply Hk; by right).
  specialize (IH Hk'). destruct a; try done. rewrite starts_on_cons.
  change (starts (LStart k ev :: tr)) with (ev :: starts tr).
  pose proof (Hk k ev ltac:(left)) as Hl. rewrite filter_cons, IH.
  destruct (decide (Conn ev = c)) as [<-|Hne].
  - unfold conn_lane in *. unfold laneKey in Hl. rewrite Hl, decide_True by done. rewrite filter_cons. by rewrite decide_True.
  - destruct (decide (conn_lane r c = k)); [|done]. rewrite filter_cons. by rewrite decide_False.
Qed.

(** Executions of a connection, in the order of the queue. *)
Lemma conn_prefix r q s tr c :
  reachable_ok r q s tr →
  filter (λ ev, Conn ev = c) (starts tr) `prefix_of` filter (λ ev, Conn ev = c) (dequeues tr).
Proof.
  intros [Ho _ _ _ _ _ _]. rewrite (starts_of_conn r) by (intros; by eapply starts_lane).
  destruct (Ho (conn_lane r c)) as (lost & E & _).
  assert (filter (λ ev, Conn ev = c) (dequeues tr) =
          filter (λ ev, Conn ev = c) (filter (λ ev, laneKey r ev = conn_lane r c) (dequeues tr))) as ->.
  { rewrite list_filter_filter. apply list_filter_iff. intros ev. split; [|tauto]. intros <-. by split. }
  rewrite E, filter_app. by apply prefix_app_r.
Qed.

(** When the dispatcher has returned without a cancellation nothing is left. *)
Lemma all_drained r q s tr err :
  reachable_ok r q s tr → disp s = DReturned err → cancelled s = false →
  (b_closed (rq s) = true ∧ b_list (rq s) = []) ∧ (∀ k, at_lane executing k s = []) ∧
  ∀ k, filter (λ ev, laneKey r ev = k) (dequeues tr) = starts_on k tr.
Proof.
  intros [Ho _ _ [_ Hret Hdisp] _ [_ Hdr] _] Hd Hc. rewrite Hd in Hdr, Hdisp. destruct Hdisp as [Hdone _].
  destruct (Hdr eq_refl) as [Hcan|[Hcl Hl]]; [by rewrite Hcan in Hc|].
  assert (∀ k, at_lane waiting k s = [] ∧ at_lane executing k s = []) as Hk.
  { intros k. unfold at_lane. destruct (lanes s !! k) as [l|] eqn:E; [|done].
    pose proof (Hdone _ _ E) as Hw. destruct (Hret _ _ E ltac:(by rewrite Hw)) as [Hcan|[_ Hb]]; [by rewrite Hcan in Hc|].
    unfold waiting, executing. by rewrite Hw, Hb. }
  split_and!; [done|done|intros k; apply Hk|].
  intros k. destruct (Ho k) as (lost & E & Hlost). rewrite E, (proj1 (Hk k)), Hd. destruct lost.
  - by rewrite !app_nil_r.
  - destruct (Hlost ltac:(done)) as [Hcan _]. by rewrite Hcan in Hc.
Qed.

Lemma conn_complete r q s tr err c :
  reachable_ok r q s tr → disp s = DReturned err → cancelled s = false →
  filter (λ ev, Conn ev = c) (starts tr) = filter (λ ev, Conn ev = c) (dequeues tr).
Proof.
  intros Hr Hd Hc. destruct (all_drained _ _ _ _ _ Hr Hd Hc) as (_ & _ & Hall). destruct Hr as [Ho _ _ _ _ _ _].
  rewrite (starts_of_conn r) by (intros; by eapply starts_lane). rewrite <- Hall, list_filter_filter.
  apply list_filter_iff. intros ev. split; [tauto|]. intros <-. by split.
Qed.

(** C7 Under every scheduling, and whatever the mode, the events of a connection are
    executed in the order in which they left the queue, which is the order in which
    they entered it; in serial mode this holds of all events together. *)
Theorem replay_order cfg q g tr s c :
  run (configureMode cfg) (Run_start q g) tr s →
  filter (λ ev, Conn ev = c) (starts tr) `prefix_of` filter (λ ev, Conn ev = c) (dequeues tr) ∧
  (serial (configureMode cfg) = true → starts tr `prefix_of` dequeues tr) ∧
  dequeues tr `sublist_of` b_list q ++ enqueues tr.
Proof.
  intros Hrun%run_ok. pose proof (conn_prefix _ _ _ _ c Hrun) as Hcp.
  destruct Hrun as [Ho _ _ _ _ [Hq _] _]. set (r := configureMode cfg) in *.
  assert (∀ k ev, LStart k ev ∈ tr → laneKey r ev = k) as Hk by (intros; by eapply starts_lane).
  split_and!; [done| |].
  - intros Hser. destruct (Ho serialLaneKey) as (lost & E & _).
    assert (filter (λ ev, laneKey r ev = serialLaneKey) (dequeues tr) = dequeues tr) as Hd.
    { clear -Hser. induction (dequeues tr) as [|ev l IH]; [done|]. rewrite filter_cons, decide_True; [by rewrite IH|].
      unfold laneKey. by rewrite Hser. }
    assert (starts_on serialLaneKey tr = starts tr) as Hs.
    { assert (∀ k ev, LStart k ev ∈ tr → k = serialLaneKey) as Hall.
      { intros k ev Hin. rewrite <- (Hk k ev Hin). unfold laneKey. by rewrite Hser. }
      clear -Hall. induction tr as [|a tr IH]; [done|].
      assert (∀ k ev, LStart k ev ∈ tr → k = serialLaneKey) as Hall' by (intros; eapply Hall; by right).
      destruct a; try by apply IH. rewrite starts_on_cons, (Hall k ev), decide_True, IH by (done || left). done. }
    rewrite Hd, Hs in E. rewrite E. by apply prefix_app_r.
  - etransitivity; [|exact Hq]. by apply sublist_inserts_r.
Qed.

Definition finishes (tr : list label) : list SQLEvent :=
  omap (λ a, match a with LFinish _ ev => Some ev | _ => None end) tr.

Lemma inflight r q g tr s :
  run r (Run_start q g) tr s → zlen (starts tr) = zlen (finishes tr) + sem s.
Proof.
  induction 1 as [|tr s1 a s2 _ IH Hs]; [done|]. unfold starts, finishes in *.
  rewrite !omap_app, !zlen_app, IH.
  inv_step Hs; try use_check; cbn [omap list_omap zlen length]; rewrite ?zlen_cons, ?zlen_nil; unfold route; cbn; lia.
Qed.

(** C32 Under every scheduling, at most [concurrency] events execute at once, at most
    one of them on a lane, and the lanes together never hold more than
    [maxLaneDepth] events. *)
Theorem replay_bounds cfg q g tr s :
  run (configureMode cfg) (Run_start q g) tr s →
  0 ≤ zlen (starts tr) - zlen (finishes tr) ≤ concurrency (configureMode cfg) ∧
  total depth_of (lanes s) ≤ maxLaneDepth (configureMode cfg) ∧
  ∀ k, ∃ now, starts_on k tr = finishes_on k tr ++ now ∧ (length now ≤ 1)%nat.
Proof.
  intros Hrun. pose proof (inflight _ _ _ _ _ Hrun) as Hin. apply run_ok in Hrun as [_ He [Hs1 Hs2] _ [Hd _] _ _].
  split_and!; [| |done|].
  - rewrite Hin, Hs1. pose proof (lane_total_nonneg is_exec (lanes s)) as Hn.
    enough (0 ≤ total is_exec (lanes s)) by lia. apply Hn. intros k l _. unfold is_exec. by destruct (wk l).
  - lia.
  - intros k. exists (at_lane executing k s). split; [done|]. unfold at_lane, executing.
    destruct (lanes s !! k) as [l|]; [destruct (wk l)|]; simpl; lia.
Qed.

Lemma filter_none {A} (P : A → Prop) `{∀ x, base.Decision (P x)} l : Forall (λ x, ¬ P x) l → filter P l = [].
Proof. induction 1 as [|x l Hx _ IH]; [done|]. by rewrite filter_cons, decide_False. Qed.

(** Lists that agree on every connection have the same events. *)
Lemma filter_conn_perm (l1 l2 : list SQLEvent) :
  (∀ c, filter (λ ev, Conn ev = c) l1 = filter (λ ev, Conn ev = c) l2) → l1 ≡ₚ l2.
Proof.
  revert l2. induction l1 as [|x l1 IH]; intros l2 H.
  { destruct l2 as [|y l2]; [done|]. specialize (H (Conn y)). rewrite filter_cons, decide_True in H by done. done. }
  pose proof (H (Conn x)) as Hx. rewrite filter_cons, decide_True in Hx by done.
  destruct (head_filter_Some (λ ev, Conn ev = Conn x) l2 x) as (a & b & -> & Ha); [by rewrite <- Hx|].
  rewrite <- Permutation_middle. f_equiv. apply IH. intros c. specialize (H c).
  rewrite filter_cons, !filter_app, filter_cons in H. rewrite filter_app.
  destruct (decide (Conn x = c)) as [<-|]; [|done].
  rewrite (filter_none (λ ev, Conn ev = Conn x) a Ha) in H |- *. by injection H.
Qed.

(** C13 When [Run] has returned and was not cancelled, the queue is closed and empty,
    every event it held was executed to its end, in order on its connection, and
    the connection of every executed event was released. *)
Theorem replay_complete cfg q g tr s err :
  run (configureMode cfg) (Run_start q g) tr s → disp s = DReturned err → cancelled s = false →
  b_closed (rq s) = true ∧ b_list (rq s) = [] ∧
  (∀ c, filter (λ ev, Conn ev = c) (starts tr) = filter (λ ev, Conn ev = c) (dequeues tr)) ∧
  (∀ k, starts_on k tr = finishes_on k tr) ∧ dequeues tr ≡ₚ starts tr ∧ zlen (finishes tr) = zlen (starts tr) ∧
  ∀ ev, ev ∈ starts tr → ∃ c, c ∈ releases tr ∧ Key c = Key (Conn ev).
Proof.
  intros Hrun Hd Hc. pose proof (inflight _ _ _ _ _ Hrun) as Hin.
  apply run_ok in Hrun. destruct (all_drained _ _ _ _ _ Hrun Hd Hc) as ([Hcl Hl] & Hk & Hall).
  assert (∀ c, filter (λ ev, Conn ev = c) (starts tr) = filter (λ ev, Conn ev = c) (dequeues tr)) as Hconn
    by (intros c; by eapply conn_complete).
  destruct Hrun as [_ He [Hsem _] [_ _ Hdisp] _ _ [Hn Hrel]]. rewrite Hd in Hdisp. destruct Hdisp as [Hdone _].
  set (r := configureMode cfg) in *.
  split_and!; try done.
  - intros k. by rewrite He, Hk, app_nil_r.
  - symmetry. by apply filter_conn_perm.
  - assert (¬ 0 < total is_exec (lanes s)).
    { intros (k & l & E & Hx)%total_pos. unfold is_exec in Hx. by rewrite (Hdone _ _ E) in Hx. }
    pose proof (lane_total_nonneg is_exec (lanes s)) as Hnn.
    enough (0 ≤ total is_exec (lanes s)) by lia. apply Hnn. intros k l _. unfold is_exec. by destruct (wk l).
  - intros ev Hev. assert (ev ∈ starts_on (laneKey r ev) tr) as Hst.
    { rewrite <- Hall. apply list_elem_of_filter. split; [done|]. by rewrite <- (filter_conn_perm _ _ Hconn). }
    destruct (lanes s !! laneKey r ev) as [l|] eqn:E; [|rewrite Hn in Hst by done; by apply elem_of_nil in Hst].
    destruct (Hrel _ _ E) as [H1 H2]. destruct (H1 ev) as (c & Hs & Hkc); [apply elem_of_app; by left|].
    exists c. split; [|done]. pose proof (Hdone _ _ E) as Hw. rewrite Hw in H2.
    by destruct (H2 eq_refl _ _ Hs) as [?|(rem & ? & _)].
Qed.

Lemma closing_stays r s a s' : step r s a s' → closing (disp s) = true → closing (disp s') = true.
Proof.
  intros Hs. inv_step Hs; try done; try use_check; try (by rewrite H).
Qed.

Lemma cancel_stays r s a s' : step r s a s' → cancelled s = true → cancelled s' = true.
Proof. intros Hs Hc. inv_step Hs; try use_check; unfold route; cbn; by rewrite ?Hc. Qed.

(** Connections are released only when a lane retires: never while the dispatcher
    takes events and the run is not cancelled. *)
Lemma no_release_while_running cfg q g tr s :
  run (configureMode cfg) (Run_start q g) tr s →
  closing (disp s) = false → cancelled s = false → releases tr = [].
Proof.
  induction 1 as [|tr s1 a s2 Hrun IH Hs]; [done|]. intros Hd Hc. rewrite releases_snoc.
  assert (closing (disp s1) = false) as Hd1.
  { destruct (closing (disp s1)) eqn:E; [|done]. by rewrite (closing_stays _ _ _ _ Hs E) in Hd. }
  assert (cancelled s1 = false) as Hc1.
  { destruct (cancelled s1) eqn:E; [|done]. by rewrite (cancel_stays _ _ _ _ Hs E) in Hc. }
  rewrite IH by done. inv_step Hs; try done.
  destruct (run_ok _ _ _ _ _ Hrun) as [_ _ _ [Hcl Hret _] _ _ _].
  destruct (Hret _ _ H ltac:(by rewrite H0)) as [Hcan|[Hclosed _]]; [by rewrite Hcan in Hc1|].
  by rewrite (Hcl _ _ H Hclosed) in Hd1.
Qed.
