(* ===== verification/ReplayerLive.v ===== *)
(** * Termination of the replayer, and where it stops for good

    Without a guard, a replay whose queue is closed ends under every fair
    scheduling; with a guard, a state in which the queue or the lag is over its
    threshold is never left. *)
From S2P Require Import Prelude Core ConnKey GoTime QueueSpec Classifier ReplayGuard ReplayConfig Replayer ReplayerFacts.

(** ** Weights

    What is left to do for the events and the workers, and, while that does not
    change, for the dispatcher. *)
Definition worker_weight (l : lane_state) : Z :=
  match wk l with
  | WDequeue => 2 + Z.of_nat (size (seen l))
  | WAcquire _ => 6 + Z.of_nat (size (seen l))
  | WExec _ => 5 + Z.of_nat (size (seen l))
  | WRelease rem => 1 + Z.of_nat (size rem)
  | WDone => 0
  end.

Definition lane_weight (_ : list Z) (l : lane_state) : Z := 6 * lane_Len (lane l) + worker_weight l.

Definition route_weight (d : dispatcher) : Z := match d with DRoute _ => 9 | _ => 0 end.

Definition work (s : rstate) : Z :=
  10 * zlen (b_list (rq s)) + route_weight (disp s) + total lane_weight (lanes s).

Definition depth_inside (rem : gset (list Z)) (k : list Z) (l : lane_state) : Z :=
  if decide (k ∈ rem) then lane_Len (lane l) else 0.

Definition phase (r : replayer) (s : rstate) : Z :=
  let n := Z.of_nat (size (lanes s)) in
  match disp s with
  | DSum rem acc =>
      Z.of_nat (size rem) + (if acc + total (depth_inside rem) (lanes s) <? maxLaneDepth r then n + 6 else 2 * n + 9)
  | DPause => 2 * n + 8
  | DDequeue => n + 5
  | DRoute _ => 0
  | DClose rem => Z.of_nat (size rem) + 3
  | DWait => 2
  | DReturned _ => 0
  end.

(** The steps of the replayer itself, polls of a pause included, and those of its lane
    workers. *)
Definition own (a : label) : bool := match a with LQueue _ | LCancel => false | _ => true end.
Definition of_worker (a : label) : bool :=
  match a with LWorker | LStart _ _ | LFinish _ _ | LRelease _ => true | _ => false end.

Definition own_step (r : replayer) (s s' : rstate) : Prop := ∃ a, own a = true ∧ step r s a s'.
Definition worker_step (r : replayer) (s s' : rstate) : Prop := ∃ a, of_worker a = true ∧ step r s a s'.
(** The 100 ms of a pause are over, and the depths are summed again. *)
Definition polls (s s' : rstate) : Prop := disp s = DPause ∧ ∃ rem acc, disp s' = DSum rem acc.
Definition workers_can_move (r : replayer) (s : rstate) : Prop := ∃ s', worker_step r s s'.

Lemma worker_weight_nonneg l : 0 ≤ worker_weight l.
Proof. unfold worker_weight. destruct (wk l); lia. Qed.

Lemma lane_weight_nonneg k l : 0 ≤ lane_weight k l.
Proof. unfold lane_weight. pose proof (worker_weight_nonneg l). pose proof (lane_Len_nonneg (lane l)). lia. Qed.

Lemma work_nonneg s : 0 ≤ work s.
Proof.
  unfold work, route_weight. pose proof (zlen_nonneg (b_list (rq s))).
  pose proof (lane_total_nonneg lane_weight (lanes s) (λ k l _, lane_weight_nonneg k l)). destruct (disp s); lia.
Qed.

Lemma phase_nonneg r s : 0 ≤ phase r s.
Proof. unfold phase. destruct (disp s); try case_match; lia. Qed.

Lemma size_insert_le (m : gmap (list Z) ConnID) k c : (size (<[k := c]> m) ≤ S (size m))%nat.
Proof. rewrite map_size_insert. destruct (m !! k); simpl; lia. Qed.

(** A worker's step does some of its work. *)
Lemma work_update s s' k l l' :
  lanes s !! k = Some l → lanes s' = <[k := l']> (lanes s) → rq s' = rq s → disp s' = disp s →
  lane_weight k l' < lane_weight k l → work s' < work s.
Proof.
  intros Hk Hl Hq Hd Hw. unfold work. rewrite Hl, Hq, Hd, (total_update _ _ _ _ _ Hk). lia.
Qed.

Lemma total_inside_read m rem k l :
  m !! k = Some l → k ∈ rem →
  total (depth_inside (rem ∖ {[k]})) m = total (depth_inside rem) m - lane_Len (lane l).
Proof.
  intros Hk Hin. rewrite !(total_delete _ m k l Hk).
  rewrite (total_ext (depth_inside (rem ∖ {[k]})) (depth_inside rem) (delete k m)).
  - unfold depth_inside at 1 3. rewrite decide_False, decide_True by set_solver. lia.
  - intros k' l' Hk'. unfold depth_inside. assert (k' ≠ k) by (intros ->; by rewrite lookup_delete_eq in Hk').
    destruct (decide (k' ∈ rem)); [rewrite decide_True by set_solver|rewrite decide_False by set_solver]; done.
Qed.

Lemma size_remove (rem : gset (list Z)) (k : list Z) : k ∈ rem → Z.of_nat (size (rem ∖ {[k]})) = Z.of_nat (size rem) - 1.
Proof.
  intros Hk. rewrite size_difference by set_solver. rewrite size_singleton.
  assert (size rem ≠ 0)%nat by (rewrite size_non_empty_iff; set_solver). lia.
Qed.

Lemma total_zero_inside m rem : total depth_of m = 0 → total (depth_inside rem) m = 0.
Proof.
  intros H0. apply Z.le_antisymm.
  - rewrite <- H0. apply total_mono. intros k l _. unfold depth_inside, depth_of.
    pose proof (lane_Len_nonneg (lane l)). destruct (decide _); lia.
  - apply lane_total_nonneg. intros k l _. unfold depth_inside. pose proof (lane_Len_nonneg (lane l)). destruct (decide _); lia.
Qed.

Lemma route_work r ev s : disp s = DRoute ev → work (route r ev s) < work s.
Proof.
  intros Hd. unfold work, route. cbn [rq lanes disp set_disp set_lanes route_weight]. rewrite Hd, total_set.
  cbn [route_weight].
  assert (lane_weight (laneKey r ev)
    (LaneState (lane_Enqueue (lane (lane_for (laneKey r ev) s)) ev) (wk (lane_for (laneKey r ev) s))
       (seen (lane_for (laneKey r ev) s))) ≤
    match lanes s !! laneKey r ev with Some l => lane_weight (laneKey r ev) l | None => 0 end + 8); [|lia].
  unfold lane_for, lane_weight, lane_Len, lane_Enqueue, worker_weight. cbn [lane buf wk seen].
  destruct (lanes s !! laneKey r ev) as [l|]; cbn [default from_option id lane buf wk seen newUnboundedLane];
    rewrite zlen_app, zlen_cons, zlen_nil.
  - destruct (wk l); lia.
  - rewrite map_size_empty. lia.
Qed.

(** Every step but a poll with events waiting does some of the work or advances the
    dispatcher; a worker's step does some of the work. *)
Lemma step_decreases r s a s' :
  1 ≤ maxLaneDepth r → guard s = None → own a = true → step r s a s' →
  work s' < work s ∨
  (of_worker a = false ∧ work s' = work s ∧
   (phase r s' < phase r s ∨ (polls s s' ∧ 0 < total depth_of (lanes s)))).
Proof.
  intros Hm Hg Ha Hs.
  pose proof (λ k l l' s' H1 H2 H3 H4 H5, or_introl (work_update s s' k l l' H1 H2 H3 H4 H5)
    : work s' < work s ∨ (of_worker a = false ∧ work s' = work s ∧
        (phase r s' < phase r s ∨ (polls s s' ∧ 0 < total depth_of (lanes s))))) as Hupd.
  inv_step Hs; try done;
    try (eapply Hupd; [exact H|done|done|done|]; unfold lane_weight, worker_weight; cbn [lane wk seen]; rewrite H0; lia).
  - right. split; [done|]. unfold work, phase. cbn. rewrite H. split; [done|]. left.
    rewrite (total_inside_read _ _ _ _ H1) by done. rewrite size_remove by done.
    replace (acc + lane_Len (lane l) + (total (depth_inside rem) (lanes s) - lane_Len (lane l)))
      with (acc + total (depth_inside rem) (lanes s)) by lia. case_match; lia.
  - right. split; [done|]. unfold check_backpressure. rewrite Hg. unfold work, phase. rewrite H.
    assert (total (depth_inside ∅) (lanes s) = 0) as Hz.
    { rewrite (total_ext _ (λ _ _, 0)) by (intros; unfold depth_inside; by rewrite decide_False by set_solver).
      apply Z.le_antisymm; [|by apply lane_total_nonneg].
      generalize (lanes s) as m. induction m as [|k l m Hk IH] using map_ind; [done|]. rewrite total_new by done. lia. }
    rewrite Hz, Z.add_0_r. destruct (Z.leb_spec (maxLaneDepth r) acc); cbn; (split; [lia|]); left; case_match; lia.
  - right. split; [done|]. unfold work, phase. cbn. rewrite H, size_dom. cbn. lia.
  - right. split; [done|]. pose proof (lane_total_nonneg depth_of (lanes s) (λ k l _, lane_Len_nonneg (lane l))).
    destruct (decide (total depth_of (lanes s) = 0)) as [Hz|Hz]; [|split; [unfold work; cbn; by rewrite H|right; split; [split; [done|by eexists _, _]|lia]]].
    unfold work, phase. cbn. rewrite H, size_dom, (total_zero_inside _ _ Hz). cbn. split; [lia|]. left.
    rewrite (proj2 (Z.ltb_lt _ _)) by lia. lia.
  - left. apply dequeue_some in H0. unfold work. cbn. rewrite H, H0, zlen_cons. cbn. lia.
  - right. split; [done|]. unfold work, phase. cbn. rewrite H, size_dom. cbn. lia.
  - left. by apply route_work.
  - right. split; [done|]. unfold work, phase. cbn [rq lanes disp set_disp set_lanes]. rewrite H, (total_update _ _ _ _ _ H1), size_remove by done.
    change (lane_weight k (LaneState (lane_Close (lane l)) (wk l) (seen l))) with (lane_weight k l).
    cbn [route_weight]. lia.
  - right. split; [done|]. unfold work, phase. cbn. rewrite H, size_empty. cbn. lia.
  - right. split; [done|]. unfold work, phase. cbn. rewrite H. cbn. lia.
  - apply lane_Dequeue_some in H1 as [Hb _]. eapply Hupd; [exact H|done|done|done|].
    unfold lane_weight, worker_weight, lane_Len. cbn [lane wk seen]. rewrite H0, Hb, zlen_cons.
    pose proof (size_insert_le (seen l) (Key (Conn ev)) (Conn ev)). lia.
  - apply lane_Dequeue_none in H1 as (_ & -> & _). eapply Hupd; [exact H|done|done|done|].
    unfold lane_weight, worker_weight. cbn [lane wk seen]. rewrite H0. lia.
  - eapply Hupd; [exact H|done|done|done|]. unfold lane_weight, worker_weight. cbn [lane wk seen]. rewrite H0.
    rewrite (map_size_delete_Some k' rem) by done.
    assert (size rem ≠ 0)%nat by (rewrite map_size_non_empty_iff; intros ->; by rewrite lookup_empty in H1). lia.
Qed.

(** ** Progress *)
Definition is_done (w : worker) : bool := match w with WDone => true | _ => false end.

(** What the worker of a lane waits for. *)
Definition ready (r : replayer) (s : rstate) (l : lane_state) : Prop :=
  match wk l with
  | WDequeue => buf (lane l) ≠ [] ∨ lane_closed (lane l) = true
  | WAcquire _ => sem s < concurrency r ∨ cancelled s = true
  | WExec _ | WRelease _ => True
  | WDone => False
  end.

Lemma ready_moves r s k l : lanes s !! k = Some l → ready r s l → workers_can_move r s.
Proof.
  intros Hk. unfold ready. destruct (wk l) as [|ev|ev|rem|] eqn:E; [| | | |done].
  - intros Hq. destruct (buf (lane l)) as [|ev b] eqn:Eb.
    + destruct Hq as [?|Hcl]; [done|]. eexists _, LWorker. split; [done|]. eapply (step_drained r s k l); [done|done|].
      unfold lane_Dequeue. by rewrite Eb, Hcl.
    + eexists _, LWorker. split; [done|]. eapply (step_take r s k l); [done|done|].
      unfold lane_Dequeue. by rewrite Eb.
  - intros [Hlt|Hc].
    + eexists _, (LStart k ev). split; [done|]. by eapply step_acquire.
    + eexists _, LWorker. split; [done|]. by eapply (step_acquire_done r s k l ev).
  - intros _. eexists _, (LFinish k ev). split; [done|]. by eapply (step_finish r s k l ev false).
  - intros _. destruct (decide (rem = ∅)) as [->|He].
    + eexists _, LWorker. split; [done|]. by eapply step_done.
    + apply map_choose in He as (k' & c & Hc'). eexists _, (LRelease c). split; [done|]. by eapply step_release.
Qed.

Lemma moves_ready r s : workers_can_move r s → ∃ k l, lanes s !! k = Some l ∧ ready r s l.
Proof.
  intros (s' & a & Ha & Hs). unfold ready. inv_step Hs; try done;
    match goal with Hk : lanes s !! ?k = Some ?l, E : wk ?l = _ |- _ => exists k, l; rewrite E; split; [done|] end; auto.
  - apply lane_Dequeue_some in H1 as [Hb _]. left. by rewrite Hb.
  - apply lane_Dequeue_none in H1 as (_ & _ & Hc). by right.
Qed.

Lemma worker_moves r s k l :
  1 ≤ concurrency r → slots_ok r s → lanes s !! k = Some l → wk l ≠ WDone →
  (wk l = WDequeue → buf (lane l) ≠ [] ∨ lane_closed (lane l) = true) →
  workers_can_move r s.
Proof.
  intros Hc [Hs1 _] Hk Hw Hq. destruct (wk l) as [|ev|ev|rem|] eqn:E; [| | | |done];
    try (apply (ready_moves r s k l Hk); unfold ready; rewrite E; auto; fail).
  destruct (decide (sem s < concurrency r)) as [Hlt|Hge].
  { apply (ready_moves r s k l Hk). unfold ready. rewrite E. by left. }
  destruct (total_pos is_exec (lanes s)) as (k' & l' & Hk' & He); [lia|]. unfold is_exec in He.
  apply (ready_moves r s k' l' Hk'). unfold ready. by destruct (wk l'); try lia.
Qed.

(** A pause with events waiting in a run that is not cancelled has a worker that moves. *)
Lemma buffered_moves r q s tr :
  1 ≤ concurrency r → reachable_ok r q s tr → cancelled s = false → disp s = DPause →
  0 < total depth_of (lanes s) → workers_can_move r s.
Proof.
  intros Hc [_ _ Hsl [_ Hret _] _ _ _] Hcan Hcl Hd. destruct (total_pos depth_of (lanes s) Hd) as (k & l & Hk & Hl).
  assert (buf (lane l) ≠ []) as Hb by (intros Hb; unfold depth_of, lane_Len in Hl; by rewrite Hb in Hl).
  apply (worker_moves r s k l); auto. intros Hw. destruct (Hret _ _ Hk ltac:(by rewrite Hw)) as [?|[_ ?]]; congruence.
Qed.

Lemma replayer_progress r q s tr :
  1 ≤ concurrency r → reachable_ok r q s tr →
  b_closed (rq s) = true ∨ cancelled s = true → (∀ err, disp s ≠ DReturned err) → ∃ s', own_step r s s'.
Proof.
  intros Hc [_ _ Hsl [_ Hret Hdisp] _ _ _] Hend Hne.
  assert (∀ s', step r s LDispatch s' → ∃ s', own_step r s s') as Hgo by (intros s' Hs; by exists s', LDispatch).
  assert (workers_can_move r s → ∃ s', own_step r s s') as Hworker.
  { intros (s' & a & Ha & Hs). exists s', a. split; [by destruct a|done]. }
  destruct (disp s) as [rem acc| | |ev|rem| |err] eqn:E; simpl in Hdisp.
  - destruct (set_choose_or_empty rem) as [[k Hk]|He].
    + assert (is_Some (lanes s !! k)) as [l Hl] by (apply elem_of_dom; set_solver). eapply Hgo. by eapply step_sum.
    + apply leibniz_equiv in He as ->. eapply Hgo. by apply (step_check r s acc 0).
  - eexists _, LPoll. split; [done|by apply step_pause_timer].
  - destruct (b_list (rq s)) as [|ev l] eqn:El.
    + eapply Hgo. eapply (step_dequeue_end r s [] false); [done|]. rewrite El. simpl.
      by destruct Hend as [->| ->]; rewrite ?orb_true_r.
    + eexists _, (LDequeue ev). split; [done|]. eapply (step_dequeue r s ev l true 0); [done|]. by rewrite El.
  - eapply Hgo. by eapply step_route.
  - destruct (set_choose_or_empty rem) as [[k Hk]|He].
    + assert (is_Some (lanes s !! k)) as [l Hl] by (apply elem_of_dom; set_solver). eapply Hgo. by eapply step_close_lane.
    + apply leibniz_equiv in He as ->. eapply Hgo. by apply step_wait.
  - destruct (decide (map_Forall (λ _ l, is_done (wk l) = true) (lanes s))) as [Hall|Hall].
    + eapply Hgo. apply step_return; [done|]. intros k l Hk. specialize (Hall k l Hk). simpl in Hall.
      by destruct (wk l).
    + apply map_not_Forall in Hall as (k & l & Hk & Hw); [|apply _].
      apply Hworker, (worker_moves r s k l); auto; [by destruct (wk l)|]. intros _. right. by eapply Hdisp.
  - by destruct (Hne err).
Qed.

(** ** Termination *)

(** A step that does none of the work leaves the workers that can move able to. *)
Lemma idle_step_keeps r s a s' :
  own a = true → of_worker a = false → step r s a s' → ¬ work s' < work s →
  workers_can_move r s → workers_can_move r s'.
Proof.
  intros Ho Hw Hs Hwork (k & l & Hk & Hr)%moves_ready.
  assert (∀ l', lanes s' !! k = Some l' → wk l' = wk l → buf (lane l') = buf (lane l) →
    (lane_closed (lane l) = true → lane_closed (lane l') = true) → sem s' = sem s → cancelled s' = cancelled s →
    workers_can_move r s') as Hgo.
  { intros l' Hl' E1 E2 E3 E4 E5. apply (ready_moves r s' k l' Hl'). unfold ready in *. rewrite E1, E2, E4, E5.
    destruct (wk l); tauto. }
  inv_step Hs; try done; try (by eapply Hgo).
  - destruct (check_lanes r acc now s) as (E1 & _ & E2 & E3 & _). eapply Hgo; rewrite ?E1; done.
  - destruct Hwork. by apply route_work.
  - destruct (decide (k0 = k)) as [->|Hne].
    + rewrite Hk in H1. injection H1 as <-. eapply Hgo; cbn; [by rewrite lookup_insert_eq|done..].
    + eapply Hgo; cbn; [by rewrite lookup_insert_ne|done..].
Qed.

Lemma guard_none_stays r s a s' : step r s a s' → guard s = None → guard s' = None.
Proof.
  intros Hs Hg. inv_step Hs; try done. unfold check_backpressure. rewrite Hg. by destruct (_ <=? _).
Qed.

Lemma lex_ind (A B : nat → Z) (P : nat → Prop) :
  (∀ n, 0 ≤ A n ∧ 0 ≤ B n) →
  (∀ n, (∀ m, A m < A n ∨ (A m = A n ∧ B m < B n) → P m) → P n) → ∀ n, P n.
Proof.
  intros Hpos Hstep. enough (∀ a, 0 ≤ a → ∀ b, 0 ≤ b → ∀ n, A n = a → B n = b → P n) as H.
  { intros n. destruct (Hpos n). by apply (H (A n) ltac:(done) (B n)). }
  intros a. induction a as [a IHa] using (well_founded_induction (Z.lt_wf 0)). intros Ha b.
  induction b as [b IHb] using (well_founded_induction (Z.lt_wf 0)). intros Hb n <- <-. apply Hstep.
  intros m Hlt. destruct (Hpos m) as [H1 H2].
  destruct Hlt as [Hlt|[Heq Hlt]]; [by apply (IHa (A m) ltac:(lia) H1 (B m))|by apply (IHb (B m) ltac:(lia))].
Qed.

Definition returned (s : rstate) : Prop := ∃ err, disp s = DReturned err.

(** An endless scheduling of the replayer's steps, which stays where it is once [Run]
    has returned.  It is fair if workers that can move do not wait for ever, and if a
    pause is not polled for ever after the context is done: the context is ready at
    once, the timer after 100 ms. *)
Definition scheduling (r : replayer) (σ : nat → rstate) : Prop :=
  ∀ n, own_step r (σ n) (σ (S n)) ∨ (returned (σ n) ∧ σ (S n) = σ n).
Definition fair (r : replayer) (σ : nat → rstate) : Prop :=
  (∀ n, workers_can_move r (σ n) →
     ∃ m, (n ≤ m)%nat ∧ (worker_step r (σ m) (σ (S m)) ∨ ¬ workers_can_move r (σ m))) ∧
  (∀ n, cancelled (σ n) = true → ∃ m, (n ≤ m)%nat ∧ ∀ i, (m ≤ i)%nat → ¬ polls (σ i) (σ (S i))).

Section fairness.
Context (cfg : ReplayConfig) (q : @QueueSpec.bounded SQLEvent) (σ : nat → rstate).
Let r := configureMode cfg.
Context (Hstart : ∃ tr, run r (Run_start q None) tr (σ 0%nat)) (Hsched : scheduling r σ) (Hfair : fair r σ).

Lemma scheduled_reachable n : guard (σ n) = None ∧ ∃ tr, run r (Run_start q None) tr (σ n).
Proof.
  induction n as [|n [IHg [tr IH]]].
  - split; [|done]. destruct Hstart as [tr Hrun]. clear -Hrun. remember (Run_start q None) as s0 eqn:E0.
    induction Hrun as [|tr s1 a s2 _ IH Hs]; [by subst|]. eapply guard_none_stays; [done|by apply IH].
  - destruct (Hsched n) as [(a & _ & Hs)|[_ ->]]; [|by eauto].
    split; [by eapply guard_none_stays|]. eexists. by eapply run_snoc.
Qed.

Lemma scheduled_decreases n :
  returned (σ n) ∨ work (σ (S n)) < work (σ n) ∨
  (work (σ (S n)) = work (σ n) ∧
   (workers_can_move r (σ n) → workers_can_move r (σ (S n))) ∧
   (phase r (σ (S n)) < phase r (σ n) ∨ (polls (σ n) (σ (S n)) ∧ 0 < total depth_of (lanes (σ n))))).
Proof.
  destruct (Hsched n) as [(a & Ho & Hs)|[Hr _]]; [right|by left].
  destruct (step_decreases r _ _ _ (proj2 (configureMode_pos cfg)) (proj1 (scheduled_reachable n)) Ho Hs)
    as [?|(Hw & He & Hp)]; [by left|right]. split_and!; [done| |done].
  apply (idle_step_keeps r _ a); [done..|lia].
Qed.

Lemma worker_step_works s s' : guard s = None → worker_step r s s' → work s' < work s.
Proof.
  intros Hg (a & Ha & Hs).
  destruct (step_decreases r s a s' (proj2 (configureMode_pos cfg)) Hg ltac:(by destruct a) Hs) as [?|[? _]];
    [done|congruence].
Qed.

Lemma work_monotone n m : (n ≤ m)%nat → work (σ m) ≤ work (σ n).
Proof.
  induction 1 as [|m _ IH]; [done|]. destruct (Hsched m) as [(a & Ho & Hs)|[_ ->]]; [|done].
  destruct (step_decreases r _ _ _ (proj2 (configureMode_pos cfg)) (proj1 (scheduled_reachable m)) Ho Hs); lia.
Qed.

(** Workers that can move still can while none of the work is done. *)
Lemma idle_keeps n m :
  (n ≤ m)%nat → work (σ m) = work (σ n) → workers_can_move r (σ n) → workers_can_move r (σ m).
Proof.
  intros Hnm. induction Hnm as [|m Hnm IH]; [done|]. intros He Hc.
  pose proof (work_monotone n m Hnm). pose proof (work_monotone m (S m) ltac:(lia)).
  specialize (IH ltac:(lia) Hc).
  destruct (Hsched m) as [(a & Ho & Hs)|[_ ->]]; [|done].
  destruct (step_decreases r _ _ _ (proj2 (configureMode_pos cfg)) (proj1 (scheduled_reachable m)) Ho Hs)
    as [?|(Hw & _ & _)]; [lia|]. eapply idle_step_keeps; [exact Ho|exact Hw|exact Hs|lia|exact IH].
Qed.

Lemma workers_work n : workers_can_move r (σ n) → ∃ m, (n ≤ m)%nat ∧ work (σ m) < work (σ n).
Proof.
  intros Hc. destruct (proj1 Hfair n Hc) as (m & Hnm & [Hw|Hno]); pose proof (work_monotone n m Hnm).
  - exists (S m). split; [lia|]. pose proof (worker_step_works _ _ (proj1 (scheduled_reachable m)) Hw). lia.
  - exists m. split; [done|]. destruct (decide (work (σ m) = work (σ n))) as [He|He]; [|lia].
    destruct Hno. by apply (idle_keeps n m).
Qed.

Lemma measures_nonneg n : 0 ≤ work (σ n) ∧ 0 ≤ phase r (σ n).
Proof. split; [apply work_nonneg|apply phase_nonneg]. Qed.

(** Without polls every step counts. *)
Lemma unpolled_returns n : (∀ i, (n ≤ i)%nat → ¬ polls (σ i) (σ (S i))) → ∃ m, returned (σ m).
Proof.
  revert n. apply (lex_ind (λ n, work (σ n)) (λ n, phase r (σ n))
    (λ n, (∀ i, (n ≤ i)%nat → ¬ polls (σ i) (σ (S i))) → ∃ m, returned (σ m)) measures_nonneg).
  intros n IH Hno. assert (∀ i, (S n ≤ i)%nat → ¬ polls (σ i) (σ (S i))) as Hno' by (intros i Hi; apply Hno; lia).
  destruct (scheduled_decreases n) as [Hr|[Hlt|(He & _ & [Hlt|[Hp _]])]];
    [by exists n|by apply (IH (S n)); auto|by apply (IH (S n)); auto|]. by destruct (Hno n ltac:(lia)).
Qed.

Lemma fair_returns : ∃ m, returned (σ m).
Proof.
  apply (lex_ind (λ n, work (σ n)) (λ n, phase r (σ n)) (λ _, ∃ m, returned (σ m)) measures_nonneg); [|exact 0%nat].
  intros n IH. destruct (scheduled_decreases n) as [Hr|[Hlt|(He & _ & [Hlt|[Hp Hd]])]];
    [by exists n|by apply (IH (S n)); auto|by apply (IH (S n)); auto|].
  destruct (cancelled (σ n)) eqn:Ec.
  - destruct (proj2 Hfair n Ec) as (m & _ & Hno). by apply (unpolled_returns m).
  - destruct (scheduled_reachable n) as [_ [tr Hrun]].
    assert (workers_can_move r (σ n)) as Hc.
    { apply (buffered_moves r q (σ n) tr); [apply configureMode_pos|by apply (run_ok cfg q None)|done|apply Hp|done]. }
    destruct (workers_work n Hc) as (m & _ & Hlt). apply (IH m). by left.
Qed.
End fairness.

(** Steps on events and by workers. *)
Definition handles (a : label) : bool := match a with LDequeue _ => true | _ => of_worker a end.

Lemma run_handles r s tr s' :
  1 ≤ maxLaneDepth r → guard s = None → run r s tr s' → Forall (λ a, own a = true) tr →
  guard s' = None ∧ zlen (List.filter handles tr) + work s' ≤ work s.
Proof.
  intros Hm Hg. induction 1 as [|tr s1 a s2 _ IH Hs]; intros Hf; [split; [done|]; change (0 + work s ≤ work s); lia|].
  apply Forall_app in Hf as [Hf Ha]. apply Forall_inv in Ha. destruct (IH Hf) as [Hg1 Hle].
  split; [by eapply guard_none_stays|]. rewrite List.filter_app, zlen_app. cbn [List.filter].
  destruct (step_decreases r s1 a s2 Hm Hg1 Ha Hs) as [Hlt|(Hw & He & _)].
  - destruct (handles a); rewrite ?zlen_cons, (@zlen_nil label); lia.
  - assert (handles a = false) as ->; [|rewrite (@zlen_nil label); lia].
    destruct a; try done. exfalso. inversion Hs as [| | | | | | |? ? ? ? Hd Hq| | | | | | | | | | | |]; subst.
    apply dequeue_some in Hq. unfold work in He. cbn in He. rewrite Hd, Hq, zlen_cons in He. cbn in He. lia.
Qed.


(** ** Where back-pressure never ends *)

(** The dispatcher is in its back-pressure loop with a guard whose thresholds the
    queue alone, or the last measured lag, exceeds. *)
Definition over_threshold (s : rstate) : Prop :=
  ∃ g, guard s = Some g ∧ should_pause (gcfg g) (zlen (b_list (rq s))) (replayLagSec s) = true.

Definition summing (d : dispatcher) : Prop :=
  match d with DSum _ acc => 0 ≤ acc | DPause => True | _ => False end.

Lemma should_pause_mono cfg d d' lag :
  d ≤ d' → should_pause cfg d lag = true → should_pause cfg d' lag = true.
Proof.
  intros Hd. unfold should_pause. rewrite !orb_true_iff, !andb_true_iff, !Z.ltb_lt.
  intros [[? ?]|?]; [left; lia|by right].
Qed.

Lemma enqueue_length (q : @QueueSpec.bounded SQLEvent) ev :
  zlen (b_list q) ≤ zlen (b_list (spec_op q (OpEnqueue ev)).2).
Proof.
  cbn. unfold enqueue_spec. destruct (b_closed q); [done|]. destruct (_ <? _); cbn.
  - rewrite zlen_app. pose proof (zlen_nonneg [ev]). lia.
  - destruct (b_policy q); cbn; try done. rewrite zlen_app, zlen_cons, zlen_nil. unfold zlen.
    destruct (b_list q); cbn [length tail list.tail]; lia.
Qed.

Definition wedged (s : rstate) : Prop :=
  (over_threshold s ∧ summing (disp s)) ∨ (closing (disp s) = true ∧ cancelled s = true).

Lemma wedged_stays r s a s' :
  step r s a s' → wedged s → wedged s' ∧ ∀ ev, a ≠ LDequeue ev.
Proof.
  intros Hs [[(g & Hg & Hp) Hd]|[Hd Hc]].
  - inv_step Hs; try (by rewrite H in Hd);
      try (split; [left; split; [by exists g|done]|done]);
      try match goal with E : disp s = _ |- _ => rewrite E in Hd; simpl in Hd end.
    + split; [|done]. left. split; [|done]. exists g. split; [done|].
      eapply should_pause_mono; [apply enqueue_length|done].
    + split; [|done]. left. split; [by exists g|]. simpl. pose proof (lane_Len_nonneg (lane l)). lia.
    + split; [|done]. unfold check_backpressure.
      destruct (_ <=? _); [left; split; [by exists g|done]|]. rewrite Hg. unfold CheckBackpressure.
      rewrite (should_pause_mono _ (zlen (b_list (rq s)))) by (done || lia).
      left. split; [|done]. eexists. split; [done|]. done.
    + split; [|done]. right. by split.
  - assert (closing (disp s') = true ∧ cancelled s' = true) as Hnext
      by (split; [by eapply closing_stays|by eapply cancel_stays]).
    split; [by right|]. intros ev ->. inversion Hs; subst. by rewrite H0 in Hd.
Qed.

(** C37 The lag is measured when an event is dequeued and the depth of the queue only
    grows while nobody dequeues: once the thresholds of the guard are exceeded, no
    event is ever dequeued again, and [Run] returns only by cancellation. *)
Theorem backpressure_wedges r s tr s' :
  over_threshold s → summing (disp s) → run r s tr s' →
  dequeues tr = [] ∧ ∀ err, disp s' = DReturned err → cancelled s' = true.
Proof.
  intros Ho Hd Hrun. enough (dequeues tr = [] ∧ wedged s') as [H1 H2].
  { split; [done|]. intros err E. destruct H2 as [[_ Hs]|[_ ?]]; [by rewrite E in Hs|done]. }
  induction Hrun as [|tr s1 a s2 _ IH Hs]; [split; [done|by left]|].
  destruct IH as [IH Hw]. destruct (wedged_stays _ _ _ _ Hs Hw) as [Hw' Hne]. split; [|done].
  rewrite dequeues_snoc, IH. destruct a; try done. by destruct (Hne ev).
Qed.
