(* ===== verification/ReplayerDemo.v ===== *)
(** * Concrete schedules of the replayer

    An executable scheduler for the step relation, proved sound, and runs that
    show the hypotheses of the replayer's theorems hold and what they say. *)
From Stdlib Require Import String Ascii.
From S2P Require Import Prelude Core ConnKey GoTime QueueSpec Classifier ReplayGuard ReplayConfig Replayer ReplayerFacts ReplayerLive.

(** ** The scheduler

    A choice names the goroutine that moves, and what it finds. *)
Inductive choice :=
| CEnqueue (ev : SQLEvent) | CCloseQueue | CCancel
| CSum (k : list Z) | CCheck (now : Z) | CPoll | CPauseDone | CDequeue (now : Z) | CEnd | CRoute
| CCloseLane (k : list Z) | CWait | CReturn
| CTake (k : list Z) | CDrained (k : list Z) | CAcquire (k : list Z) | CGiveUp (k : list Z)
| CFinish (k : list Z) (abort : bool) | CRelease (k k' : list Z) | CDone (k : list Z).

Definition on_lane {A} (s : rstate) (k : list Z) (f : lane_state → option A) : option A := lanes s !! k ≫= f.

Definition exec_step (r : replayer) (s : rstate) (c : choice) : option (label * rstate) :=
  match c with
  | CEnqueue ev => Some (LQueue (OpEnqueue ev), set_queue (spec_op (rq s) (OpEnqueue ev)).2 s)
  | CCloseQueue => Some (LQueue OpClose, set_queue (spec_op (rq s) OpClose).2 s)
  | CCancel => Some (LCancel, cancel true s)
  | CSum k =>
      match disp s with
      | DSum rem acc =>
          if decide (k ∈ rem) then
            on_lane s k (λ l, Some (LDispatch, set_disp (DSum (rem ∖ {[k]}) (acc + lane_Len (lane l))) s))
          else None
      | _ => None
      end
  | CCheck now =>
      match disp s with
      | DSum rem acc => if decide (rem = ∅) then Some (LDispatch, check_backpressure r acc now s) else None
      | _ => None
      end
  | CPoll => match disp s with DPause => Some (LPoll, set_disp (DSum (dom (lanes s)) 0) s) | _ => None end
  | CPauseDone =>
      match disp s, cancelled s with
      | DPause, true => Some (LDispatch, set_disp (DClose (dom (lanes s))) s)
      | _, _ => None
      end
  | CDequeue now =>
      match disp s, dequeue_spec (b_closed (rq s)) (cancelled s) (b_list (rq s)) with
      | DDequeue, (Return (Some ev) _, l) => Some (LDequeue ev, after_dequeue ev l now s)
      | _, _ => None
      end
  | CEnd =>
      match disp s, dequeue_spec (b_closed (rq s)) (cancelled s) (b_list (rq s)) with
      | DDequeue, (Return None _, _) => Some (LDispatch, set_disp (DClose (dom (lanes s))) s)
      | _, _ => None
      end
  | CRoute => match disp s with DRoute ev => Some (LDispatch, route r ev s) | _ => None end
  | CCloseLane k =>
      match disp s with
      | DClose rem =>
          if decide (k ∈ rem) then
            on_lane s k (λ l, Some (LDispatch, set_disp (DClose (rem ∖ {[k]}))
              (set_lane k (LaneState (lane_Close (lane l)) (wk l) (seen l)) s)))
          else None
      | _ => None
      end
  | CWait =>
      match disp s with
      | DClose rem => if decide (rem = ∅) then Some (LDispatch, set_disp DWait s) else None
      | _ => None
      end
  | CReturn =>
      match disp s with
      | DWait =>
          if decide (map_Forall (λ _ l, is_done (wk l) = true) (lanes s))
          then Some (LDispatch, set_disp (DReturned (cancelled s)) s) else None
      | _ => None
      end
  | CTake k =>
      on_lane s k (λ l, match wk l, lane_Dequeue (lane l) with
        | WDequeue, (Return (Some ev) _, ln) =>
            Some (LWorker, set_lane k (LaneState ln (WAcquire ev) (<[Key (Conn ev) := Conn ev]> (seen l))) s)
        | _, _ => None end)
  | CDrained k =>
      on_lane s k (λ l, match wk l, lane_Dequeue (lane l) with
        | WDequeue, (Return None _, ln) => Some (LWorker, set_lane k (LaneState ln (WRelease (seen l)) (seen l)) s)
        | _, _ => None end)
  | CAcquire k =>
      on_lane s k (λ l, match wk l with
        | WAcquire ev =>
            if decide (sem s < concurrency r) then
              Some (LStart k ev, set_sem (sem s + 1) (set_lane k (LaneState (lane l) (WExec ev) (seen l)) s))
            else None
        | _ => None end)
  | CGiveUp k =>
      on_lane s k (λ l, match wk l, cancelled s with
        | WAcquire _, true => Some (LWorker, set_lane k (LaneState (lane l) (WRelease (seen l)) (seen l)) s)
        | _, _ => None end)
  | CFinish k abort =>
      on_lane s k (λ l, match wk l with
        | WExec ev =>
            Some (LFinish k ev,
              cancel abort (set_sem (sem s - 1) (set_lane k (LaneState (lane l) WDequeue (seen l)) s)))
        | _ => None end)
  | CRelease k k' =>
      on_lane s k (λ l, match wk l with
        | WRelease rem =>
            c ← rem !! k';
            Some (LRelease c, set_lane k (LaneState (lane l) (WRelease (delete k' rem)) (seen l)) s)
        | _ => None end)
  | CDone k =>
      on_lane s k (λ l, match wk l with
        | WRelease rem =>
            if decide (rem = ∅) then Some (LWorker, set_lane k (LaneState (lane l) WDone (seen l)) s) else None
        | _ => None end)
  end.

Lemma exec_step_sound r s c a s' : exec_step r s c = Some (a, s') → step r s a s'.
Proof.
  destruct c; cbn [exec_step]; unfold on_lane; intros E;
    [injection E as <- <-; by constructor..| | | | | | | | | | | | | | | | |];
    repeat first [case_match; try done | progress simplify_option_eq];
    try (econstructor; eauto; fail).
  match goal with Hall : map_Forall _ _ |- _ =>
    apply step_return; [done|]; intros k l Hk; pose proof (Hall k l Hk) as Hx; simpl in Hx; by destruct (wk l) end.
Qed.

Fixpoint exec_steps (r : replayer) (s : rstate) (cs : list choice) : option (list label * rstate) :=
  match cs with
  | [] => Some ([], s)
  | c :: cs =>
      '(a, s1) ← exec_step r s c;
      '(tr, s2) ← exec_steps r s1 cs;
      Some (a :: tr, s2)
  end.

Lemma run_app r s tr1 s1 tr2 s2 : run r s tr1 s1 → run r s1 tr2 s2 → run r s (tr1 ++ tr2) s2.
Proof.
  intros H1. induction 1 as [|tr s3 a s4 _ IH Hs]; [by rewrite app_nil_r|]. rewrite app_assoc. by eapply run_snoc.
Qed.

Lemma exec_steps_sound r s cs tr s' : exec_steps r s cs = Some (tr, s') → run r s tr s'.
Proof.
  revert s tr s'. induction cs as [|c cs IH]; intros s tr s' E; simpl in E.
  { injection E as <- <-. constructor. }
  destruct (exec_step r s c) as [[a s1]|] eqn:E1; [|done]. simpl in E.
  destruct (exec_steps r s1 cs) as [[tr' s2]|] eqn:E2; [|done]. simpl in E. injection E as <- <-.
  apply (run_app r s [a] s1 tr' s2); [|by apply IH].
  apply (run_snoc r s [] s); [constructor|]. by eapply exec_step_sound.
Qed.

(** *** Schedules that end, as endless ones *)
Lemma exec_steps_app r s cs1 cs2 :
  exec_steps r s (cs1 ++ cs2) =
    '(tr1, s1) ← exec_steps r s cs1; '(tr2, s2) ← exec_steps r s1 cs2; Some (tr1 ++ tr2, s2).
Proof.
  revert s. induction cs1 as [|c cs1 IH]; intros s; cbn; [by destruct (exec_steps r s cs2) as [[]|]|].
  destruct (exec_step r s c) as [[a s1]|]; cbn; [|done]. rewrite IH.
  destruct (exec_steps r s1 cs1) as [[tr1 s2]|]; cbn; [|done]. by destruct (exec_steps r s2 cs2) as [[]|].
Qed.

(** The state after [n] choices, the last one from then on. *)
Definition play (r : replayer) (s : rstate) (cs : list choice) (n : nat) : rstate :=
  default s (snd <$> exec_steps r s (take n cs)).

Lemma play_step r s cs tr f n :
  exec_steps r s cs = Some (tr, f) → Forall (λ a, own a = true) tr → (n < length cs)%nat →
  own_step r (play r s cs n) (play r s cs (S n)).
Proof.
  intros He Ho Hn. destruct (lookup_lt_is_Some_2 cs n Hn) as [c Hc]. unfold play.
  rewrite (take_S_r _ _ _ Hc), exec_steps_app. rewrite <- (take_drop_middle cs n c Hc), exec_steps_app in He.
  destruct (exec_steps r s (take n cs)) as [[tr1 s1]|]; [|done]. cbn in He |- *.
  destruct (exec_step r s1 c) as [[a s2]|] eqn:E; [|done]. cbn in He |- *.
  destruct (exec_steps r s2 _) as [[tr2 s3]|]; [|done]. injection He as <- <-. exists a. split; [|by eapply exec_step_sound].
  apply Forall_app in Ho as [_ Ho]. by apply Forall_inv in Ho.
Qed.

Lemma play_end r s cs tr f n : exec_steps r s cs = Some (tr, f) → (length cs ≤ n)%nat → play r s cs n = f.
Proof. intros He Hn. unfold play. by rewrite take_ge, He. Qed.

Lemma play_scheduling r s cs tr f :
  exec_steps r s cs = Some (tr, f) → Forall (λ a, own a = true) tr → returned f → scheduling r (play r s cs).
Proof.
  intros He Ho Hr n. destruct (decide (n < length cs)%nat) as [Hn|Hn]; [left; by eapply play_step|].
  right. rewrite !(play_end r s cs tr f) by (done || lia). done.
Qed.

Lemma play_fair r s cs tr f :
  exec_steps r s cs = Some (tr, f) → returned f → map_Forall (λ _ l, is_done (wk l) = true) (lanes f) →
  fair r (play r s cs).
Proof.
  intros He [err Hr] Hd. split.
  - intros n _. exists (n `max` length cs)%nat. split; [lia|]. right. rewrite (play_end r s cs tr f) by (done || lia).
    intros (k & l & Hk & Hm)%moves_ready. specialize (Hd k l Hk). cbn in Hd. unfold ready in Hm. by destruct (wk l).
  - intros n _. exists (n `max` length cs)%nat. split; [lia|]. intros i Hi [Hp _].
    rewrite (play_end r s cs tr f) in Hp by (done || lia). congruence.
Qed.

(** ** A run *)
Module ReplayDemo.
Definition connA : ConnID := MkConnID (Addr4 [10; 0; 0; 1]) 40000 (Addr4 [10; 0; 0; 9]) 5432.
Definition connB : ConnID := MkConnID (Addr4 [10; 0; 0; 2]) 40000 (Addr4 [10; 0; 0; 9]) 5432.
Definition kA : list Z := Key connA.
Definition kB : list Z := Key connB.

Definition event (c : ConnID) (n ts : Z) : SQLEvent := SqlEvent c [n] ts 0 n false [] [] [] 0 [].
Definition a1 : SQLEvent := event connA 1 0.
Definition a2 : SQLEvent := event connA 2 0.
Definition b1 : SQLEvent := event connB 3 0.

Definition cfg : ReplayConfig :=
  MkReplayConfig [] 0 [] [] [] [] [] 2 (float_of_Z 0) (float_of_Z 0) true Skip ReplayConfig.Bounded 0 [] 10 0 50 0.
Definition r : replayer := configureMode cfg.

Definition queue (l : list SQLEvent) (closed : bool) : @QueueSpec.bounded SQLEvent :=
  QueueSpec.Bounded 100 DropOldest closed l.

(** One event from the queue to its lane, with the lanes in [ks]. *)
Definition dispatch_once (ks : list (list Z)) (now : Z) : list choice := (CSum <$> ks) ++ [CCheck now; CDequeue now; CRoute].

(** Two connections; the second of A's events waits until the first is done. *)
Definition schedule : list choice :=
  dispatch_once [] 0 ++ dispatch_once [kA] 0 ++ dispatch_once [kA] 0 ++
  [CTake kA; CTake kB; CAcquire kB; CAcquire kA; CFinish kA false; CTake kA; CFinish kB false; CAcquire kA;
   CSum kA; CSum kB; CCheck 0; CEnd; CCloseLane kA; CFinish kA false; CDrained kA; CRelease kA kA; CDone kA;
   CCloseLane kB; CWait; CDrained kB; CRelease kB kB; CDone kB; CReturn].

Definition start : rstate := Run_start (queue [a1; a2; b1] true) None.

Definition trace : list label := default [] (fst <$> exec_steps r start schedule).
Definition final : rstate := default start (snd <$> exec_steps r start schedule).

Lemma schedule_runs : run r start trace final.
Proof. apply (exec_steps_sound r start schedule). vm_compute. reflexivity. Qed.

(** A guard that pauses at a lag of sixty seconds. *)
Definition no_pattern : Pattern := MkPattern (λ _, false) (λ s _, s).
Definition guard60 : Guard :=
  MkGuard (MkGuardConfig false false false (float_of_Z 60) 0 0 0 [] (float_of_Z 0) [] [] [] false)
    no_pattern [] [] [] [] [] [] false zeroTime 0.

Definition late : rstate :=
  default start (snd <$> exec_steps r (Run_start (queue [a1; a2; b1] false) (Some guard60)) (dispatch_once [] (61 * Second))).
End ReplayDemo.

Lemma replay_order_witness :
  filter (λ ev, Conn ev = ReplayDemo.connA) (starts ReplayDemo.trace) `prefix_of` [ReplayDemo.a1; ReplayDemo.a2].
Proof.
  destruct (replay_order ReplayDemo.cfg (ReplayDemo.queue [ReplayDemo.a1; ReplayDemo.a2; ReplayDemo.b1] true) None
    ReplayDemo.trace ReplayDemo.final ReplayDemo.connA ReplayDemo.schedule_runs) as [H _]. exact H.
Defined.

Lemma replay_bounds_witness :
  0 ≤ zlen (starts ReplayDemo.trace) - zlen (finishes ReplayDemo.trace) ≤ 2.
Proof.
  apply (replay_bounds ReplayDemo.cfg (ReplayDemo.queue [ReplayDemo.a1; ReplayDemo.a2; ReplayDemo.b1] true) None
    ReplayDemo.trace ReplayDemo.final ReplayDemo.schedule_runs).
Defined.

Lemma replay_complete_witness :
  b_list (rq ReplayDemo.final) = [] ∧ starts ReplayDemo.trace = [ReplayDemo.b1; ReplayDemo.a1; ReplayDemo.a2] ∧
  dequeues ReplayDemo.trace ≡ₚ starts ReplayDemo.trace.
Proof.
  destruct (replay_complete ReplayDemo.cfg (ReplayDemo.queue [ReplayDemo.a1; ReplayDemo.a2; ReplayDemo.b1] true) None
    ReplayDemo.trace ReplayDemo.final false ReplayDemo.schedule_runs) as (_ & Hl & _ & _ & Hp & _);
    [vm_compute; reflexivity|vm_compute; reflexivity|].
  split; [exact Hl|]. split; [vm_compute; reflexivity|exact Hp].
Defined.


(** One event that is replayed 61 seconds late stops the replay with a
    [max_replay_lag_seconds] of 60, while two more events wait. *)
Lemma backpressure_wedges_witness :
  b_list (rq ReplayDemo.late) = [ReplayDemo.a2; ReplayDemo.b1] ∧
  ∀ tr s', run ReplayDemo.r ReplayDemo.late tr s' → dequeues tr = [].
Proof.
  split; [vm_compute; reflexivity|]. intros tr s' Hrun.
  apply (backpressure_wedges ReplayDemo.r ReplayDemo.late tr s'); [|vm_compute; discriminate|exact Hrun].
  exists ReplayDemo.guard60. split; vm_compute; reflexivity.
Defined.
