(* ===== verification/Pool.v ===== *)
(** * The affinity pool (src/pkg/replayer/pool.go)

    Concurrent calls of acquireFor, release and close on a pool of leases.  Every
    critical section and every call of the underlying pool is one step, so calls
    interleave between them; [Ping] and [Acquire] run without the lock.  The
    underlying pool (pgxpool) is what its documentation promises: an acquired
    handle is new, at most [max] are out, and releasing a handle again does
    nothing. *)
From S2P Require Import Prelude Core.

(** A handle is the number of the acquisition that made it. *)
Definition handle : Type := nat.

(** Where a call is. *)
Inductive call :=
| AStart (c : ConnID)
| APing (c : ConnID) (h : handle)
| AAlive (c : ConnID) (h : handle)
| ADead (c : ConnID) (h : handle)
| AFree (c : ConnID) (h : handle)
| AAcquire (c : ConnID)
| AInsert (c : ConnID) (h : handle)
| AExtra (c : ConnID) (h : handle) (res : option handle)
| AReturn (c : ConnID) (res : option handle)
| RStart (c : ConnID)
| RFree (h : handle)
| RDone
| XStart
| XFree (hs : gset handle)
| XSource
| XDone.

(** The pool: the leases and the closed flag under the lock, and of the
    underlying pool the handles that are out, the number of the next one and
    whether it is closed. *)
Record affinityPool := MkPool {
  leases : gmap ConnID handle; closed : bool;
  out : gset handle; next : handle; src_closed : bool }.

Definition newAffinityPool : affinityPool := MkPool ∅ false ∅ 0%nat false.

(** What a call finds outside the pool's state: the result of [Ping], whether
    [Acquire] gave up, and which handle a loop takes next. *)
Inductive env := Alive (b : bool) | GiveUp (b : bool) | Pick (h : handle).

Section pool.
Context (sessionAffinity : bool) (max : nat).

Definition range (m : gmap ConnID handle) : gset handle := map_to_set (λ _ h, h) m.

Definition set_leases (m : gmap ConnID handle) (p : affinityPool) : affinityPool :=
  MkPool m (closed p) (out p) (next p) (src_closed p).
Definition free (h : handle) (p : affinityPool) : affinityPool :=
  MkPool (leases p) (closed p) (out p ∖ {[h]}) (next p) (src_closed p).

(** The next step of a call; [None] when it waits. *)
Definition call_step (p : affinityPool) (k : call) (e : env) : option (affinityPool * call) :=
  match k, e with
  | AStart c, _ =>
      if closed p then Some (p, AReturn c None) else
      match (if sessionAffinity then leases p !! c else None) with
      | Some h => Some (p, APing c h)
      | None => Some (p, AAcquire c)
      end
  | APing c h, Alive b => Some (p, if b then AAlive c h else ADead c h)
  | AAlive c h, _ => Some (p, if decide (leases p !! c = Some h) then AReturn c (Some h) else AAcquire c)
  | ADead c h, _ =>
      Some (if decide (leases p !! c = Some h) then set_leases (delete c (leases p)) p else p, AFree c h)
  | AFree c h, _ => Some (free h p, AAcquire c)
  | AAcquire c, GiveUp b =>
      if b then Some (p, AReturn c None) else
      if decide (size (out p) < max)%nat then
        if src_closed p then None else
        let h := next p in
        let p' := MkPool (leases p) (closed p) (out p ∪ {[h]}) (S h) (src_closed p) in
        Some (p', if sessionAffinity then AInsert c h else AReturn c (Some h))
      else None
  | AInsert c h, _ =>
      if closed p then Some (p, AExtra c h None) else
      match leases p !! c with
      | Some h' => Some (p, AExtra c h (Some h'))
      | None => Some (set_leases (<[c := h]> (leases p)) p, AReturn c (Some h))
      end
  | AExtra c h res, _ => Some (free h p, AReturn c res)
  | RStart c, _ =>
      match leases p !! c with
      | Some h => Some (set_leases (delete c (leases p)) p, RFree h)
      | None => Some (p, RDone)
      end
  | RFree h, _ => Some (free h p, RDone)
  | XStart, _ =>
      if closed p then Some (p, XDone) else
      Some (MkPool ∅ true (out p) (next p) (src_closed p), XFree (range (leases p)))
  | XFree hs, Pick h =>
      if decide (h ∈ hs) then Some (free h p, XFree (hs ∖ {[h]}))
      else if decide (hs = ∅) then Some (p, XSource) else None
  | XSource, _ => Some (MkPool (leases p) (closed p) (out p) (next p) true, XDone)
  | _, _ => None
  end.

(** ** Concurrent calls *)
Record system := System { pl : affinityPool; calls : gmap nat call }.

Definition first_step (k : call) : Prop :=
  match k with AStart _ | RStart _ | XStart => True | _ => False end.

Definition finished (k : call) : bool :=
  match k with AReturn _ _ | RDone | XDone => true | _ => false end.

Inductive sys_step (s : system) : nat → call → system → Prop :=
| sys_begin t k :
    calls s !! t = None → first_step k → sys_step s t k (System (pl s) (<[t := k]> (calls s)))
| sys_move t k e p k' :
    calls s !! t = Some k → call_step (pl s) k e = Some (p, k') →
    sys_step s t k' (System p (<[t := k']> (calls s))).

(** The steps of a run: which call is where. *)
Inductive sys_run (s : system) : list (nat * call) → system → Prop :=
| sys_nil : sys_run s [] s
| sys_snoc tr s1 t k s2 : sys_run s tr s1 → sys_step s1 t k s2 → sys_run s (tr ++ [(t, k)]) s2.

Definition pool_start : system := System newAffinityPool ∅.

(** ** The invariant *)
Definition refs (k : call) : gset handle :=
  match k with
  | APing _ h | AAlive _ h | ADead _ h | AFree _ h | AInsert _ h | AExtra _ h _ | RFree h => {[h]}
  | XFree hs => hs
  | _ => ∅
  end.

(** Handles a call is about to give back. *)
Definition freeing (k : call) : gset handle :=
  match k with AFree _ h | AExtra _ h _ | RFree h => {[h]} | XFree hs => hs | _ => ∅ end.

Definition inserting (k : call) : gset handle := match k with AInsert _ h => {[h]} | _ => ∅ end.

(** The connection and lease a call looked up. *)
Definition looked_up (k : call) : option (ConnID * handle) :=
  match k with APing c h | AAlive c h | ADead c h => Some (c, h) | _ => None end.

Definition leased (p : affinityPool) (h : handle) : Prop := ∃ c, leases p !! c = Some h.

Record pool_ok (s : system) : Prop := PoolOk {
  po_inj : ∀ c1 c2 h, leases (pl s) !! c1 = Some h → leases (pl s) !! c2 = Some h → c1 = c2;
  po_out : ∀ h, leased (pl s) h → h ∈ out (pl s);
  po_next : ∀ h, h ∈ out (pl s) → (h < next (pl s))%nat;
  po_refs : ∀ t k h, calls s !! t = Some k → h ∈ refs k → (h < next (pl s))%nat;
  po_freeing : ∀ t k h, calls s !! t = Some k → h ∈ freeing k ∪ inserting k → ¬ leased (pl s) h;
  po_insert : ∀ t k h t' k', calls s !! t = Some k → h ∈ inserting k → calls s !! t' = Some k' → t' ≠ t →
    h ∉ refs k';
  po_held : ∀ t k h, calls s !! t = Some k → h ∈ inserting k → h ∈ out (pl s);
  po_lookup : ∀ t k c h c', calls s !! t = Some k → looked_up k = Some (c, h) →
    leases (pl s) !! c' = Some h → c' = c;
  po_owned : sessionAffinity = true → ∀ h, h ∈ out (pl s) →
    leased (pl s) h ∨ ∃ t k, calls s !! t = Some k ∧ h ∈ freeing k ∪ inserting k;
  po_closed : closed (pl s) = true → leases (pl s) = ∅;
  po_size : (size (out (pl s)) ≤ max)%nat }.

(** A call that waited at [k], or had not begun. *)
Definition was (s : system) (t : nat) (k : call) : Prop :=
  calls s !! t = Some k ∨ (calls s !! t = None ∧ k = RDone).

Lemma was_spec s t k :
  was s t k → refs k = ∅ ∧ freeing k ∪ inserting k = ∅ ∧ looked_up k = None ∨ calls s !! t = Some k.
Proof. intros [?|[_ ->]]; [by right|left]. split_and!; set_solver. Qed.

Ltac call_case H := apply lookup_insert_Some in H as [[<- <-]|[? H]].

(** The call moved and the pool did not. *)
Lemma ok_same s t k k' :
  pool_ok s → was s t k →
  (∀ h, h ∈ refs k' → h ∈ refs k ∨ leased (pl s) h) →
  (∀ h, h ∈ freeing k' ∪ inserting k' → ¬ leased (pl s) h) →
  inserting k' = ∅ ∨ inserting k' = inserting k →
  (∀ c h, looked_up k' = Some (c, h) → looked_up k = Some (c, h) ∨ leases (pl s) !! c = Some h) →
  freeing k ∪ inserting k ⊆ freeing k' ∪ inserting k' →
  pool_ok (System (pl s) (<[t := k']> (calls s))).
Proof.
  intros [Hinj Hout Hnext Hrefs Hfree Hins Hheld Hlook Hown Hcl Hsz] Hk' H1 H2 H3 H4 H5. pose proof (was_spec _ _ _ Hk') as Hk.
  split; cbn [pl calls]; try done.
  - intros t0 k0 h Hk0 Hh. call_case Hk0; [|by eapply Hrefs]. destruct (H1 h Hh) as [Hr|Hl]; [|by apply Hnext, Hout].
    destruct Hk as [[E _]|Hk]; [set_solver|by eapply Hrefs].
  - intros t0 k0 h Hk0 Hh. call_case Hk0; [by apply H2|by eapply Hfree].
  - intros t0 k0 h t1 k1 Hk0 Hh Hk1 Hne. call_case Hk0; call_case Hk1; try done.
    + destruct H3 as [E|E]; [set_solver|]. rewrite E in Hh. destruct Hk as [(_ & E' & _)|Hk]; [set_solver|by apply (Hins t k h t1 k1)].
    + intros Hr. destruct (H1 h Hr) as [Hr'|Hl].
      * destruct Hk as [[E _]|Hk]; [set_solver|]. by apply (Hins t0 k0 h t k).
      * apply (Hfree t0 k0 h Hk0); [set_solver|done].
    + by apply (Hins t0 k0 h t1 k1).
  - intros t0 k0 h Hk0 Hh. call_case Hk0; [|by eapply Hheld].
    destruct H3 as [E|E]; rewrite E in Hh; [set_solver|].
    destruct Hk as [(_ & E' & _)|Hk]; [set_solver|by eapply Hheld].
  - intros t0 k0 c h c' Hk0 Hl Hc. call_case Hk0; [|by eapply Hlook].
    destruct (H4 c h Hl) as [Hl'|Hl']; [|by eapply Hinj]. destruct Hk as [(_ & _ & E)|Hk]; [by rewrite E in Hl'|by eapply Hlook].
  - intros Ha h Hh. destruct (Hown Ha h Hh) as [?|(t0 & k0 & Hk0 & Hf)]; [by left|right].
    destruct (decide (t0 = t)) as [->|Hne].
    + destruct Hk as [(_ & E & _)|Hk]; [|rewrite Hk in Hk0; injection Hk0 as <-].
      * exfalso. destruct Hk' as [Hk'|[Hk' _]]; rewrite Hk' in Hk0; [injection Hk0 as <-; by rewrite E in Hf|done].
      * exists t, k'. rewrite lookup_insert_eq. split; [done|by apply H5].
    + exists t0, k0. by rewrite lookup_insert_ne.
Qed.

Lemma freeing_refs k : freeing k ⊆ refs k.
Proof. destruct k; set_solver. Qed.

(** The call gave the handle [h] back. *)
Lemma ok_free s t k k' h :
  pool_ok s → calls s !! t = Some k → h ∈ freeing k → refs k' ⊆ refs k → freeing k' ⊆ freeing k →
  inserting k = ∅ → inserting k' = ∅ → looked_up k' = None → freeing k ⊆ freeing k' ∪ {[h]} →
  pool_ok (System (free h (pl s)) (<[t := k']> (calls s))).
Proof.
  intros [Hinj Hout Hnext Hrefs Hfree Hins Hheld Hlook Hown Hcl Hsz] Hk Hh H1 H2 H3 H4 H5 H6.
  assert (¬ leased (pl s) h) as Hnl by (eapply Hfree; [done|set_solver]).
  split; cbn [pl calls free leases out next closed]; try done.
  - intros h' [c Hc]. apply elem_of_difference. split; [apply Hout; by exists c|].
    intros ->%elem_of_singleton. apply Hnl. by exists c.
  - intros h' Hh'. apply Hnext. set_solver.
  - intros t0 k0 h' Hk0 Hh'. call_case Hk0; [|by eapply Hrefs]. eapply Hrefs; [done|set_solver].
  - intros t0 k0 h' Hk0 Hh'. call_case Hk0; [|by eapply Hfree]. eapply Hfree; [done|set_solver].
  - intros t0 k0 h' t1 k1 Hk0 Hh' Hk1 Hne. call_case Hk0; call_case Hk1; try done; [set_solver| |by apply (Hins t0 k0 h' t1 k1)].
    intros Hr. apply (Hins t0 k0 h' t k); try done. by apply H1.
  - intros t0 k0 h' Hk0 Hh'. call_case Hk0; [set_solver|]. apply elem_of_difference. split; [by eapply Hheld|].
    intros ->%elem_of_singleton. apply (Hins t0 k0 h t k); try done. by apply freeing_refs.
  - intros t0 k0 c h' c' Hk0 Hl Hc. call_case Hk0; [by rewrite H5 in Hl|by eapply Hlook].
  - intros Ha h' Hh'. apply elem_of_difference in Hh' as [Hh' Hne].
    destruct (Hown Ha h' Hh') as [?|(t0 & k0 & Hk0 & Hf)]; [by left|right].
    destruct (decide (t0 = t)) as [->|Hne'].
    + rewrite Hk in Hk0. injection Hk0 as <-. exists t, k'. rewrite lookup_insert_eq. split; [done|].
      apply elem_of_union in Hf as [Hf|Hf]; [|by rewrite H3 in Hf]. apply H6 in Hf. set_solver.
    + exists t0, k0. by rewrite lookup_insert_ne.
  - etransitivity; [|exact Hsz]. apply subseteq_size. set_solver.
Qed.

(** A lease was taken out of the map; the call now frees its handle. *)
Lemma ok_unlease s t k k' c h :
  pool_ok s → calls s !! t = Some k → leases (pl s) !! c = Some h →
  refs k' = {[h]} → freeing k' = {[h]} → inserting k' = ∅ → looked_up k' = None → freeing k ∪ inserting k = ∅ →
  pool_ok (System (set_leases (delete c (leases (pl s))) (pl s)) (<[t := k']> (calls s))).
Proof.
  intros [Hinj Hout Hnext Hrefs Hfree Hins Hheld Hlook Hown Hcl Hsz] Hk Hc H1 H2 H3 H4 H5.
  assert (∀ c' h', delete c (leases (pl s)) !! c' = Some h' → leases (pl s) !! c' = Some h' ∧ h' ≠ h) as Hdel.
  { intros c' h' [Hne Hl]%lookup_delete_Some. split; [done|]. intros ->. by apply Hne, (Hinj c c' h). }
  assert (∀ h', leased (set_leases (delete c (leases (pl s))) (pl s)) h' → leased (pl s) h' ∧ h' ≠ h) as Hle.
  { intros h' [c' Hc']. apply Hdel in Hc' as [? ?]. split; [by exists c'|done]. }
  assert (leased (pl s) h) as Hlh by (by exists c).
  split; cbn [pl calls set_leases leases out next closed].
  - intros c1 c2 h' Hc1 Hc2. eapply Hinj; by apply Hdel.
  - intros h' Hh'. by apply Hout, Hle.
  - done.
  - intros t0 k0 h' Hk0 Hh'. call_case Hk0; [|by eapply Hrefs].
    rewrite H1 in Hh'. apply elem_of_singleton in Hh' as ->. by apply Hnext, Hout.
  - intros t0 k0 h' Hk0 Hh' Hl. apply Hle in Hl as [Hl Hne]. call_case Hk0; [set_solver|by eapply Hfree].
  - intros t0 k0 h' t1 k1 Hk0 Hh' Hk1 Hne. call_case Hk0; call_case Hk1; try done; [set_solver| |by apply (Hins t0 k0 h' t1 k1)].
    rewrite H1. intros ->%elem_of_singleton. apply (Hfree t0 k0 h Hk0); [set_solver|done].
  - intros t0 k0 h' Hk0 Hh'. call_case Hk0; [set_solver|by eapply Hheld].
  - intros t0 k0 c1 h' c2 Hk0 Hl Hc2. call_case Hk0; [by rewrite H4 in Hl|]. eapply Hlook; [done..|by apply Hdel].
  - intros Ha h' Hh'. destruct (decide (h' = h)) as [->|Hne].
    + right. exists t, k'. rewrite lookup_insert_eq. split; [done|]. set_solver.
    + destruct (Hown Ha h' Hh') as [[c' Hc']|(t0 & k0 & Hk0 & Hf)].
      * left. exists c'. simpl. rewrite lookup_delete_ne; [done|]. intros ->. congruence.
      * right. exists t0, k0. rewrite lookup_insert_ne; [done|]. intros ->. rewrite Hk in Hk0. injection Hk0 as <-. set_solver.
  - intros Hx. by rewrite (Hcl Hx), lookup_empty in Hc.
  - done.
Qed.

(** A handle was acquired for a lease. *)
Lemma ok_acquire s t c :
  pool_ok s → calls s !! t = Some (AAcquire c) → (size (out (pl s)) < max)%nat →
  pool_ok (System (MkPool (leases (pl s)) (closed (pl s)) (out (pl s) ∪ {[next (pl s)]}) (S (next (pl s)))
      (src_closed (pl s)))
    (<[t := if sessionAffinity then AInsert c (next (pl s)) else AReturn c (Some (next (pl s)))]> (calls s))).
Proof.
  intros [Hinj Hout Hnext Hrefs Hfree Hins Hheld Hlook Hown Hcl Hsz] Hk Hroom.
  set (k' := if sessionAffinity then _ else _).
  assert (refs k' ⊆ {[next (pl s)]} ∧ freeing k' ∪ inserting k' ⊆ {[next (pl s)]} ∧ looked_up k' = None ∧
    (sessionAffinity = true → inserting k' = {[next (pl s)]})) as (R1 & R2 & R3 & R4).
  { unfold k'. destruct sessionAffinity; simpl; split_and!; set_solver. }
  assert (∀ h, leased (pl s) h → (h < next (pl s))%nat) as Hlt by (intros; by apply Hnext, Hout).
  split; cbn [pl calls leases out next closed].
  - done.
  - intros h [c' Hc']. apply elem_of_union_l, Hout. by exists c'.
  - intros h [Hh|Hh]%elem_of_union; [specialize (Hnext h Hh); lia|set_solver by lia].
  - intros t0 k0 h Hk0 Hh. call_case Hk0; [set_solver by lia|]. specialize (Hrefs t0 k0 h Hk0 Hh). lia.
  - intros t0 k0 h Hk0 Hh Hl. call_case Hk0; [|by eapply Hfree]. specialize (Hlt h Hl). set_solver by lia.
  - intros t0 k0 h t1 k1 Hk0 Hh Hk1 Hne. call_case Hk0; call_case Hk1; try done; [| |by apply (Hins t0 k0 h t1 k1)].
    + intros Hr. specialize (Hrefs t1 k1 h Hk1 Hr). assert (h = next (pl s)) by set_solver. lia.
    + intros Hr. assert (h = next (pl s)) as -> by set_solver.
      specialize (Hrefs t0 k0 (next (pl s)) Hk0). destruct k0; simpl in *; try set_solver by lia.
  - intros t0 k0 h Hk0 Hh. call_case Hk0; [set_solver|]. apply elem_of_union_l. by eapply Hheld.
  - intros t0 k0 c1 h c2 Hk0 Hl Hc2. call_case Hk0; [by rewrite R3 in Hl|by eapply Hlook].
  - intros Ha h [Hh|Hh]%elem_of_union.
    + destruct (Hown Ha h Hh) as [?|(t0 & k0 & Hk0 & Hf)]; [by left|right]. exists t0, k0.
      rewrite lookup_insert_ne; [done|]. intros ->. rewrite Hk in Hk0. injection Hk0 as <-. set_solver.
    + right. exists t, k'. rewrite lookup_insert_eq. split; [done|]. rewrite (R4 Ha). set_solver.
  - done.
  - rewrite size_union, size_singleton; [lia|]. intros h Hh ->%elem_of_singleton. specialize (Hnext _ Hh). lia.
Qed.

(** The acquired handle became the lease of its connection. *)
Lemma ok_insert s t c h :
  pool_ok s → calls s !! t = Some (AInsert c h) → leases (pl s) !! c = None → closed (pl s) = false →
  pool_ok (System (set_leases (<[c := h]> (leases (pl s))) (pl s)) (<[t := AReturn c (Some h)]> (calls s))).
Proof.
  intros [Hinj Hout Hnext Hrefs Hfree Hins Hheld Hlook Hown Hcl Hsz] Hk Hc Hopen.
  assert (h ∈ out (pl s)) as Hho by (eapply Hheld; [done|set_solver]).
  assert (¬ leased (pl s) h) as Hnl by (eapply Hfree; [done|set_solver]).
  assert (∀ h', leased (set_leases (<[c := h]> (leases (pl s))) (pl s)) h' → h' = h ∨ leased (pl s) h') as Hle.
  { intros h' [c' Hc']. cbn in Hc'. apply lookup_insert_Some in Hc' as [[_ ->]|[_ Hc']]; [by left|right; by exists c']. }
  assert (∀ t0 k0, calls s !! t0 = Some k0 → t0 ≠ t → h ∉ refs k0) as Hother.
  { intros t0 k0 Hk0 Hne. apply (Hins t (AInsert c h) h t0 k0); [done|set_solver|done|done]. }
  split; cbn [pl calls set_leases leases out next closed].
  - intros c1 c2 h' H1 H2. apply lookup_insert_Some in H1 as [[E1 F1]|[? H1]]; apply lookup_insert_Some in H2 as [[E2 F2]|[? H2]].
    + congruence.
    + destruct Hnl. exists c2. congruence.
    + destruct Hnl. exists c1. congruence.
    + by eapply Hinj.
  - intros h' [->|Hl]%Hle; [done|by apply Hout].
  - done.
  - intros t0 k0 h' Hk0 Hh'. call_case Hk0; [set_solver|by eapply Hrefs].
  - intros t0 k0 h' Hk0 Hh' Hl. call_case Hk0; [set_solver|]. apply Hle in Hl as [->|Hl]; [|by eapply Hfree].
    apply (Hother t0 k0); [done|done|]. destruct k0; simpl in *; set_solver.
  - intros t0 k0 h' t1 k1 Hk0 Hh' Hk1 Hne. call_case Hk0; call_case Hk1; try done. by apply (Hins t0 k0 h' t1 k1).
  - intros t0 k0 h' Hk0 Hh'. call_case Hk0; [set_solver|by eapply Hheld].
  - intros t0 k0 c1 h' c2 Hk0 Hl Hc2. call_case Hk0; [done|].
    apply lookup_insert_Some in Hc2 as [[<- <-]|[_ Hc2]]; [|by eapply Hlook].
    destruct (Hother t0 k0 Hk0 ltac:(done)). destruct k0; simpl in *; simplify_eq; set_solver.
  - intros Ha h' Hh'. destruct (decide (h' = h)) as [->|Hne].
    { left. exists c. cbn. apply lookup_insert_eq. }
    destruct (Hown Ha h' Hh') as [[c' Hc']|(t0 & k0 & Hk0 & Hf)].
    + left. exists c'. cbn. rewrite lookup_insert_ne; [done|]. congruence.
    + right. exists t0, k0. rewrite lookup_insert_ne; [done|]. intros ->. rewrite Hk in Hk0. injection Hk0 as <-. set_solver.
  - congruence.
  - done.
Qed.

Lemma elem_of_range m h : h ∈ range m ↔ ∃ c, m !! c = Some h.
Proof. unfold range. rewrite elem_of_map_to_set. split; [intros (c & h' & ? & <-); by exists c|intros [c ?]; by exists c, h]. Qed.

(** The pool was closed and its leases handed to the closing call. *)
Lemma ok_close s t :
  pool_ok s → calls s !! t = Some XStart →
  pool_ok (System (MkPool ∅ true (out (pl s)) (next (pl s)) (src_closed (pl s)))
    (<[t := XFree (range (leases (pl s)))]> (calls s))).
Proof.
  intros [Hinj Hout Hnext Hrefs Hfree Hins Hheld Hlook Hown Hcl Hsz] Hk.
  split; cbn [pl calls leases out next closed].
  - done.
  - intros h [c Hc]. done.
  - done.
  - intros t0 k0 h Hk0 Hh. call_case Hk0; [|by eapply Hrefs]. apply elem_of_range in Hh. by apply Hnext, Hout.
  - by intros t0 k0 h Hk0 Hh [c Hc].
  - intros t0 k0 h t1 k1 Hk0 Hh Hk1 Hne. call_case Hk0; call_case Hk1; try done; [|by apply (Hins t0 k0 h t1 k1)].
    intros Hr%elem_of_range. apply (Hfree t0 k0 h Hk0); [set_solver|done].
  - intros t0 k0 h Hk0 Hh. call_case Hk0; [set_solver|by eapply Hheld].
  - done.
  - intros Ha h Hh. destruct (Hown Ha h Hh) as [Hl|(t0 & k0 & Hk0 & Hf)]; right.
    + exists t, (XFree (range (leases (pl s)))). rewrite lookup_insert_eq. split; [done|].
      apply elem_of_union_l, elem_of_range, Hl.
    + exists t0, k0. rewrite lookup_insert_ne; [done|]. intros ->. rewrite Hk in Hk0. injection Hk0 as <-. set_solver.
  - done.
  - done.
Qed.

(** The call moved on with the handles it had, or without any. *)
Ltac same := eapply ok_same; [eassumption|eassumption|set_solver|set_solver|by left|set_solver|set_solver].
Ltac keep :=
  match goal with
  | Hok : pool_ok ?s, Hw : was ?s ?t ?k, Hk : calls ?s !! ?t = Some ?k |- _ =>
      eapply (ok_same s t _ _ Hok Hw); simpl; [set_solver| |by left|done|set_solver];
      intros h'' Hh''; eapply (po_freeing s Hok t k h'' Hk); simpl; set_solver
  end.

Lemma sys_step_ok s t k' s' : sys_step s t k' s' → pool_ok s → pool_ok s'.
Proof.
  intros Hs Hok. pose proof Hok as [_ Hout _ _ Hfree _ _ Hlook _ _ _].
  destruct Hs as [t k Hn Hf|t k e p k' Hk E].
  { destruct k; try done; (eapply (ok_same s t RDone); [done|by right|try set_solver..|]; auto). }
  assert (was s t k) as Hw by (by left).
  destruct k as [c|c h|c h|c h|c h|c|c h|c h res|c res|c|h| | |hs| |]; simpl in E; try done.
  - destruct (closed (pl s)); [injection E as <- <-; by same|].
    destruct (if sessionAffinity then _ else None) as [h|] eqn:El; injection E as <- <-; [|by same].
    assert (leases (pl s) !! c = Some h) as Hl by (by destruct sessionAffinity).
    eapply (ok_same s t _ _ Hok Hw); simpl; [|set_solver|by left|by intros ?? [= <- <-]; right|set_solver].
    intros h' ->%elem_of_singleton. right. by exists c.
  - destruct e as [[]| |]; try done; injection E as <- <-; by same.
  - injection E as <- <-. destruct (decide _); by same.
  - injection E as <- <-. destruct (decide (leases (pl s) !! c = Some h)) as [Hl|Hl].
    + eapply (ok_unlease s t _ _ c h Hok Hk Hl); simpl; set_solver.
    + eapply (ok_same s t _ _ Hok Hw); simpl; [set_solver| |by left|done|set_solver].
      intros h' Hh' [c' Hc']. assert (h' = h) as -> by set_solver.
      rewrite (Hlook t (ADead c h) c h c' Hk eq_refl Hc') in Hc'. done.
  - injection E as <- <-. apply (ok_free s t _ _ h Hok Hk); simpl; set_solver.
  - destruct e as [|[]|]; try done; [injection E as <- <-; by same|].
    destruct (decide _) as [Hroom|]; [|done]. destruct (src_closed (pl s)) eqn:Es; [done|].
    injection E as <- <-. rewrite <- Es. by apply ok_acquire.
  - destruct (closed (pl s)) eqn:Ec.
    { injection E as <- <-. by keep. }
    destruct (leases (pl s) !! c) as [h'|] eqn:El; injection E as <- <-; [by keep|]. by apply ok_insert.
  - injection E as <- <-. apply (ok_free s t _ _ h Hok Hk); simpl; set_solver.
  - destruct (leases (pl s) !! c) as [h|] eqn:El; injection E as <- <-; [|by same].
    eapply (ok_unlease s t _ _ c h Hok Hk El); simpl; set_solver.
  - injection E as <- <-. apply (ok_free s t _ _ h Hok Hk); simpl; set_solver.
  - destruct (closed (pl s)); injection E as <- <-; [by same|]. by apply ok_close.
  - destruct e as [| |h]; try done. destruct (decide (h ∈ hs)) as [Hin|Hnin].
    + injection E as <- <-. apply (ok_free s t _ _ h Hok Hk); simpl; try set_solver.
      intros x Hx. destruct (decide (x = h)); set_solver.
    + destruct (decide (hs = ∅)) as [->|]; [|done]. injection E as <- <-. by same.
  - injection E as <- <-.
    assert (pool_ok (System (pl s) (<[t := XDone]> (calls s)))) as [] by same. by split.
Qed.

Lemma pool_start_ok : pool_ok pool_start.
Proof.
  split; cbn; try done; try (by intros h [c Hc]); try (by intros h ?%elem_of_empty); try (by intros _ h ?%elem_of_empty);
    try (rewrite size_empty; lia).
Qed.

Lemma sys_run_ok s tr s' : sys_run s tr s' → pool_ok s → pool_ok s'.
Proof. induction 1 as [|tr s1 t k s2 _ IH Hs]; [done|]. intros Hok. by eapply sys_step_ok, IH. Qed.

(** C15 Under every interleaving of calls, a target connection is leased to at most one
    source connection, is not back in the underlying pool while it is leased, and
    at most [max] connections are out; and when no call is under way nothing is
    lost: exactly the leased connections are out, and none after a close. *)
Theorem pool_safe tr s :
  sys_run pool_start tr s →
  (∀ c1 c2 h, leases (pl s) !! c1 = Some h → leases (pl s) !! c2 = Some h → c1 = c2) ∧
  (∀ c h, leases (pl s) !! c = Some h → h ∈ out (pl s)) ∧ (size (out (pl s)) ≤ max)%nat ∧
  (sessionAffinity = true → (∀ t k, calls s !! t = Some k → finished k = true) →
    out (pl s) = range (leases (pl s)) ∧ (closed (pl s) = true → out (pl s) = ∅)).
Proof.
  intros Hrun. destruct (sys_run_ok _ _ _ Hrun pool_start_ok) as [Hinj Hout _ _ _ _ _ _ Hown Hcl Hsz].
  split_and!; [done| |done|].
  - intros c h Hc. apply Hout. by exists c.
  - intros Ha Hfin. assert (out (pl s) = range (leases (pl s))) as Heq.
    { apply set_eq. intros h. rewrite elem_of_range. split; [|by apply Hout].
      intros Hh. destruct (Hown Ha h Hh) as [?|(t & k & Hk & Hf)]; [done|].
      specialize (Hfin t k Hk). destruct k; try done; set_solver. }
    split; [done|]. intros Hc. rewrite Heq, (Hcl Hc). apply set_eq. intros h. rewrite elem_of_range. set_solver.
Qed.

(** ** Exhaustion *)

(** Calls that neither hold a handle of their own nor give one back. *)
Definition idle_call (c : ConnID) (k : call) : Prop :=
  match k with
  | AStart _ | APing _ _ | AAlive _ _ | AAcquire _ | RDone | XDone => True
  | AReturn c' res => c' = c → res = None
  | _ => False
  end ∧ (∀ c' h, looked_up k = Some (c', h) → c' ≠ c).

(** Under session affinity a full pool stays full until a lease is released: while
    no call releases, closes or finds its connection dead, a connection without a
    lease gets none. *)
Theorem pool_exhausted s tr s' c :
  sessionAffinity = true → (∀ t k, calls s !! t = Some k → idle_call c k) →
  leases (pl s) !! c = None → size (out (pl s)) = max → sys_run s tr s' →
  (∀ t k, (t, k) ∈ tr → match k with ADead _ _ | RStart _ | XStart => False | _ => True end) →
  ∀ t h, (t, AReturn c (Some h)) ∉ tr.
Proof.
  intros Ha Hidle Hc Hfull Hrun Htr.
  enough ((∀ t k, calls s' !! t = Some k → idle_call c k) ∧ leases (pl s') !! c = None ∧
    size (out (pl s')) = max ∧ ∀ t h, (t, AReturn c (Some h)) ∉ tr) by tauto.
  induction Hrun as [|tr s1 t k s2 _ IH Hs]; [split_and!; try done; intros; set_solver|].
  destruct IH as (IH1 & IH2 & IH3 & IH4); [intros t' k' Hin; apply (Htr t' k'); set_solver|].
  specialize (Htr t k ltac:(set_solver)).
  enough (idle_call c k ∧ leases (pl s2) !! c = None ∧ size (out (pl s2)) = max ∧
    ∃ p, s2 = System p (<[t := k]> (calls s1))) as (Hk & Hl & Hsz & p & E).
  { split_and!; [|done|done|].
    - rewrite E. simpl. intros t0 k0 [[<- <-]|[_ Hk0]]%lookup_insert_Some; [done|by eapply IH1].
    - intros t0 h [Hin|Hin]%elem_of_app; [by apply IH4 in Hin|].
      apply list_elem_of_singleton in Hin as [= <- <-]. destruct Hk as [Hk _]. simpl in Hk. by specialize (Hk eq_refl). }
  destruct Hs as [t k Hn Hf|t k e p k' Hk E].
  - split_and!; try done; [|by eexists]. destruct k; try done.
  - destruct (IH1 t k Hk) as [Hkind Hlook]. cbn [pl].
    enough (p = pl s1 ∧ idle_call c k') as [-> ?] by (split_and!; try done; by eexists).
    destruct k as [c'|c' h|c' h| | |c'| | |c' res| | | | | | |]; try done; simpl in E.
    + destruct (closed (pl s1)); [by injection E as <- <-|].
      rewrite Ha in E. destruct (leases (pl s1) !! c') as [h|] eqn:El; injection E as <- <-; split; try done.
      split; [done|]. intros c2 h2 [= <- <-]. congruence.
    + destruct e as [[]| |]; try done; injection E as <- <-; [|done]. split; [done|]. split; [done|]. exact Hlook.
    + specialize (Hlook c' h eq_refl). injection E as <- <-. destruct (decide _); split; try done; split; try done.
    + destruct e as [|[]|]; try done; [by injection E as <- <-|].
      destruct (decide _) as [Hroom|]; [lia|done].
Qed.
End pool.

(** ** A full pool *)
Module PoolDemo.
Definition connA : ConnID := MkConnID (Addr4 [10; 0; 0; 1]) 40000 (Addr4 [10; 0; 0; 9]) 5432.
Definition connB : ConnID := MkConnID (Addr4 [10; 0; 0; 2]) 40000 (Addr4 [10; 0; 0; 9]) 5432.

(** Begin a call, or move one. *)
Inductive act := Begin (t : nat) (k : call) | Move (t : nat) (e : env).

Definition sys_exec (aff : bool) (max : nat) (s : system) (a : act) : option (nat * call * system) :=
  match a with
  | Begin t k =>
      match calls s !! t, k with
      | None, (AStart _ | RStart _ | XStart) => Some (t, k, System (pl s) (<[t := k]> (calls s)))
      | _, _ => None
      end
  | Move t e =>
      k ← calls s !! t;
      '(p, k') ← call_step aff max (pl s) k e;
      Some (t, k', System p (<[t := k']> (calls s)))
  end.

Lemma sys_exec_sound aff max s a t k s' : sys_exec aff max s a = Some (t, k, s') → sys_step aff max s t k s'.
Proof.
  destruct a as [t0 k0|t0 e]; simpl; intros E.
  - destruct (calls s !! t0) eqn:Ec; [done|]. destruct k0; try done; injection E as <- <- <-; by constructor.
  - destruct (calls s !! t0) as [k0|] eqn:Ec; [|done]. simpl in E.
    destruct (call_step aff max (pl s) k0 e) as [[p k']|] eqn:Ek; [|done]. injection E as <- <- <-. by econstructor.
Qed.

Fixpoint sys_execs (aff : bool) (max : nat) (acc : list (nat * call)) (s : system) (acts : list act)
    : option (list (nat * call) * system) :=
  match acts with
  | [] => Some (acc, s)
  | a :: acts => '(t, k, s1) ← sys_exec aff max s a; sys_execs aff max (acc ++ [(t, k)]) s1 acts
  end.

Lemma sys_execs_sound aff max s0 acc s acts tr s' :
  sys_run aff max s0 acc s → sys_execs aff max acc s acts = Some (tr, s') → sys_run aff max s0 tr s'.
Proof.
  revert acc s. induction acts as [|a acts IH]; intros acc s Hrun E; simpl in E; [by injection E as <- <-|].
  destruct (sys_exec aff max s a) as [[[t k] s1]|] eqn:Ea; [|done]. simpl in E.
  eapply IH; [|done]. eapply sys_snoc; [done|by eapply sys_exec_sound].
Qed.

Definition result (s : system) (acts : list act) : list (nat * call) * system :=
  default ([], s) (sys_execs true 1 [] s acts).

(** A pool of one connection, leased to A, and then asked for one by B. *)
Definition acts1 : list act :=
  [Begin 0 (AStart connA); Move 0 (Alive true); Move 0 (GiveUp false); Move 0 (Alive true)].
Definition acts2 : list act := [Begin 1 (AStart connB); Move 1 (Alive true); Move 1 (GiveUp true)].
Definition lease : list (nat * call) * system := result pool_start acts1.
Definition refused : list (nat * call) * system := result lease.2 acts2.

Lemma lease_run : sys_run true 1 pool_start lease.1 lease.2.
Proof. apply (sys_execs_sound true 1 pool_start [] pool_start acts1); [constructor|]. vm_compute. reflexivity. Qed.

Lemma refused_run : sys_run true 1 lease.2 refused.1 refused.2.
Proof. apply (sys_execs_sound true 1 lease.2 [] lease.2 acts2); [constructor|]. vm_compute. reflexivity. Qed.
End PoolDemo.

Lemma pool_safe_witness :
  leases (pl PoolDemo.lease.2) !! PoolDemo.connA = Some 0%nat ∧ 0%nat ∈ out (pl PoolDemo.lease.2).
Proof.
  split; [vm_compute; reflexivity|].
  destruct (pool_safe true 1 _ _ PoolDemo.lease_run) as (_ & H & _). apply (H PoolDemo.connA). vm_compute. reflexivity.
Defined.

Lemma pool_exhausted_witness : (1%nat, AReturn PoolDemo.connB (Some 0%nat)) ∉ PoolDemo.refused.1.
Proof.
  apply (pool_exhausted true 1 PoolDemo.lease.2 PoolDemo.refused.1 PoolDemo.refused.2 PoolDemo.connB);
    [reflexivity| |vm_compute; reflexivity|vm_compute; reflexivity|exact PoolDemo.refused_run|].
  - assert (calls PoolDemo.lease.2 = {[0%nat := AReturn PoolDemo.connA (Some 0%nat)]}) as -> by (vm_compute; reflexivity).
    intros t0 k0 [<- <-]%lookup_singleton_Some. split; [discriminate|discriminate].
  - assert (PoolDemo.refused.1 = [(1%nat, AStart PoolDemo.connB); (1%nat, AAcquire PoolDemo.connB);
      (1%nat, AReturn PoolDemo.connB None)]) as -> by (vm_compute; reflexivity).
    intros t0 k0 Hin. rewrite !elem_of_cons, elem_of_nil in Hin.
    destruct Hin as [[= -> ->]|[[= -> ->]|[[= -> ->]|[]]]]; exact I.
Defined.
