(* ===== verification/CaptureConfig.v ===== *)
(** * Opening a capture (src/pkg/capture/capture.go, bpf_validator.go)

    The capture settings, their defaults, the filter expression they stand for,
    and [Open] up to the constructor of the source it selects.  The constructors
    and tcpdump are outside; [Open] returns which constructor it calls and with
    which settings. *)
From Stdlib Require Import String Ascii.
From S2P Require Import Prelude Classifier ConnKey EbpfSource.

Local Open Scope string_scope.

(** ** Settings *)
Definition ModePcap : list Z := bytes_of "pcap".
Definition ModeAFPacket : list Z := bytes_of "af_packet".
Definition ModeEBPF : list Z := bytes_of "ebpf".
Definition ModeEBPFSSL : list Z := bytes_of "ebpf_ssl".

Definition DefaultMode : list Z := ModePcap.
Definition DefaultBufferSize : Z := Z.shiftl 64 20.
Definition DefaultSnapLen : Z := 65536.

Record CaptureConfig := MkCaptureConfig {
  Interface : list Z; Port : Z; CMode : list Z; BPFFilter : list Z; BufferSize : Z;
  Bidirectional : bool; SnapLen : Z; SourceHost : list Z; SourcePort : Z }.

(** A string or number that is set, or its default. *)
Definition or_str (s d : list Z) : list Z := if bool_decide (s = []) then d else s.
Definition or_int (n d : Z) : Z := if (n =? 0)%Z then d else n.

Definition buildBPFFilter (cfg : CaptureConfig) : list Z :=
  if bool_decide (BPFFilter cfg = []) then
    let port := or_int (Port cfg) DefaultPort in
    if bool_decide (SourceHost cfg = []) then (bytes_of "tcp port " ++ decimal port)%list
    else
      let srcPort := or_int (SourcePort cfg) port in
      (bytes_of "tcp port " ++ decimal srcPort ++ bytes_of " and host " ++ SourceHost cfg)%list
  else BPFFilter cfg.

Definition with_filter (f : list Z) (c : CaptureConfig) : CaptureConfig :=
  MkCaptureConfig (Interface c) (Port c) (CMode c) f (BufferSize c) (Bidirectional c) (SnapLen c)
    (SourceHost c) (SourcePort c).

Definition withDefaults (c : CaptureConfig) : CaptureConfig :=
  let out := MkCaptureConfig (Interface c) (or_int (Port c) DefaultPort) (or_str (CMode c) DefaultMode)
    (BPFFilter c) (or_int (BufferSize c) DefaultBufferSize) (Bidirectional c)
    (or_int (SnapLen c) DefaultSnapLen) (SourceHost c) (SourcePort c) in
  with_filter (buildBPFFilter out) out.

(** ** Checking a filter *)
Inductive bpf_error :=
| EmptyFilter
| UnbalancedParens (opened closed : Z)
| UnbalancedQuotes
| EmptyParens
| FilterTooLong
| ToolRejects.

Definition Count (c : Z) (s : list Z) : Z := zlen (List.filter (λ d, (d =? c)%Z) s).

Fixpoint Contains (pat s : list Z) : bool :=
  bool_decide (pat `prefix_of` s) || match s with [] => false | _ :: s => Contains pat s end.

Section open.
Context `{Unicode}.

Definition QuickBPFFilterValidation (filter : list Z) : result bpf_error unit :=
  _ ← guard_or EmptyFilter (negb (bool_decide (TrimSpace filter = [])));
  let openCount := Count 40 filter in
  let closeCount := Count 41 filter in
  _ ← guard_or (UnbalancedParens openCount closeCount) (openCount =? closeCount)%Z;
  _ ← guard_or UnbalancedQuotes (Count 39 filter mod 2 =? 0)%Z;
  _ ← guard_or EmptyParens (negb (Contains [40; 41] filter));
  guard_or FilterTooLong (zlen filter <=? 4096)%Z.

(** ** Open *)
Inductive open_error :=
| CannotOpenInterface
| BadMode (m : list Z)
| InvalidBPF (filter : list Z) (cause : bpf_error).

Definition validateMode (mode : list Z) : result open_error unit :=
  guard_or (BadMode mode) (in_set [ModePcap; ModeAFPacket; ModeEBPF; ModeEBPFSSL] mode).

(** The constructor [Open] calls. *)
Inductive constructor := PcapSource | AFPacketSource | EBPFSource | EBPFSSLSource.

(** tcpdump's verdict on a filter; [None] when it is not installed. *)
Context (tcpdump : option (list Z → bool)).

Definition check_filter (filter : list Z) : result open_error unit :=
  match QuickBPFFilterValidation filter with
  | Err e => Err (InvalidBPF filter e)
  | Ok _ =>
      match tcpdump with
      | Some accepts => guard_or (InvalidBPF filter ToolRejects) (accepts filter)
      | None => Ok tt
      end
  end.

Definition Open (cfg : CaptureConfig) : result open_error (constructor * CaptureConfig) :=
  let cfg := withDefaults cfg in
  _ ← guard_or CannotOpenInterface (negb (bool_decide (Interface cfg = [])));
  _ ← validateMode (CMode cfg);
  _ ← (if negb (bool_decide (BPFFilter cfg = [])) && negb (bool_decide (BPFFilter cfg = buildBPFFilter cfg))
       then check_filter (BPFFilter cfg) else Ok tt);
  if bool_decide (CMode cfg = ModePcap) then Ok (PcapSource, cfg)
  else if bool_decide (CMode cfg = ModeAFPacket) then Ok (AFPacketSource, cfg)
  else if bool_decide (CMode cfg = ModeEBPF) then Ok (EBPFSource, cfg)
  else if bool_decide (CMode cfg = ModeEBPFSSL) then Ok (EBPFSSLSource, cfg)
  else Err (BadMode (CMode cfg)).
End open.

(** ** Facts *)

(** The filter is never empty, and applying the defaults settles it. *)
Lemma build_nonempty cfg : buildBPFFilter cfg ≠ [].
Proof.
  unfold buildBPFFilter. case_bool_decide; [|done]. case_bool_decide; intros E; by destruct (app_eq_nil _ _ E).
Qed.

Lemma build_settled cfg : BPFFilter cfg ≠ [] → buildBPFFilter cfg = BPFFilter cfg.
Proof. intros Hf. unfold buildBPFFilter. by rewrite bool_decide_false. Qed.

Lemma defaults_settled cfg : buildBPFFilter (withDefaults cfg) = BPFFilter (withDefaults cfg).
Proof. apply build_settled. unfold withDefaults. apply build_nonempty. Qed.

(** What [Open] hands to the constructor: nothing but the interface and the mode
    can be refused. *)
Lemma Open_spec `{Unicode} tcpdump cfg :
  Open tcpdump cfg =
    (_ ← guard_or CannotOpenInterface (negb (bool_decide (Interface cfg = [])));
     _ ← validateMode (CMode (withDefaults cfg));
     Ok (if bool_decide (CMode (withDefaults cfg) = ModePcap) then PcapSource
         else if bool_decide (CMode (withDefaults cfg) = ModeAFPacket) then AFPacketSource
         else if bool_decide (CMode (withDefaults cfg) = ModeEBPF) then EBPFSource else EBPFSSLSource,
         withDefaults cfg)).
Proof.
  unfold Open. rewrite (bool_decide_true (BPFFilter _ = buildBPFFilter _)) by (by rewrite defaults_settled).
  rewrite andb_false_r. change (Interface (withDefaults cfg)) with (Interface cfg).
  destruct (guard_or CannotOpenInterface _) as [[]|]; [|done]. cbn [mbind result_bind].
  destruct (validateMode (CMode (withDefaults cfg))) as [[]|] eqn:E; [|done]. cbn [mbind result_bind].
  apply guard_or_ok in E. apply bool_decide_eq_true in E.
  repeat (case_bool_decide; [done|]). set_solver.
Qed.

(** The check of custom filters is unreachable: [withDefaults] has stored the
    filter [buildBPFFilter] returns, so the two never differ, and [Open] neither
    consults tcpdump nor refuses a filter. *)
Theorem open_never_validates `{Unicode} tcpdump tcpdump' cfg f e :
  Open tcpdump cfg = Open tcpdump' cfg ∧ Open tcpdump cfg ≠ Err (InvalidBPF f e).
Proof.
  rewrite !Open_spec. split; [done|].
  unfold validateMode, guard_or. destruct (negb _); [|done]. cbn. by destruct (in_set _ _).
Qed.
