(* ===== verification/Config.v ===== *)
(** * The configuration (src/pkg/config/config.go, cmd/pgshadow/main.go)

    The aggregate configuration, its defaults, the checks of [Load] and the
    bridge to the guard's settings.  Decoding the YAML document over the defaults
    is a parameter: it assigns the fields the document has. *)
From Stdlib Require Import String Ascii Permutation.
From S2P Require Import Prelude GoTime Core Classifier ClassifierFacts Filter QueueSpec ConnState ConnKey EbpfSource ReplayGuard ReplayConfig Executors Replayer CaptureConfig.

Local Open Scope string_scope.

(** ** Sections *)
Record KafkaConfig := MkKafkaConfig {
  Brokers : list (list Z); Topic : list Z; Partitions : Z; SASLMechanism : list Z; SASLUsername : list Z;
  SASLPassword : list Z; SASLPasswordEnv : list Z; TLSEnabled : bool; TLSSkipVerify : bool;
  TLSCAFile : list Z; TLSCertFile : list Z; TLSKeyFile : list Z }.

Record QueueConfig := MkQueueConfig {
  QType : list Z; Capacity : Z; Overflow : Z; DataDir : list Z; Kafka : KafkaConfig }.

(** The integer of an [OverflowPolicy], as [iota] numbers them. *)
Definition overflow_of (n : Z) : option OverflowPolicy :=
  if (n =? 0)%Z then Some DropOldest else if (n =? 1)%Z then Some DropNewest
  else if (n =? 2)%Z then Some Block else None.

Record MetricsConfig := MkMetricsConfig {
  Enabled : bool; MPort : Z; ExportErrors : bool; ErrorLog : list Z }.

Record ReplayGuardConfig := MkReplayGuardConfig {
  c_ExcludeDDL : bool; c_RewriteSequences : bool; c_RewriteTimeFunctions : bool; c_SkipNonDeterministic : bool;
  c_SkipExternalDeps : bool; c_MaxReplayLagSeconds : float64; c_MaxQueueDepth : Z;
  c_MaxTransactionDuration : list Z; c_MaxStatementsPerTx : Z; c_ReplayPercentage : float64;
  c_IncludeTables : list (list Z); c_ExcludeTables : list (list Z); c_IncludeUsers : list (list Z);
  c_ReadOnly : bool; c_MaskPatterns : list (list Z * list Z) }.

Record MonitorConfig := MkMonitorConfig {
  FailoverCheckInterval : list Z; MonitoredHost : list Z; DiffOutput : list Z; SlowThreshold : float64 }.

Record ControlConfig := MkControlConfig { ControlEnabled : bool; ControlPort : Z }.

Record Config := MkSettings {
  Capture : CaptureConfig; Parser : ProtocolConfig; FilterCfg : Filter.Config; Queue : QueueConfig;
  Replay : ReplayConfig; Metrics : MetricsConfig; GuardCfg : ReplayGuardConfig; Monitor : MonitorConfig;
  Control : ControlConfig; TargetPassword : list Z }.

(** ** Defaults *)
Definition defaultPasswordEnv : list Z := bytes_of "PGSHADOW_DB_PASSWORD".
Definition defaultCapturePort : Z := 5432.

Definition no_kafka : KafkaConfig :=
  MkKafkaConfig [] (bytes_of "pgshadow") 16 [] [] [] [] false false [] [] [].
Definition no_guard : ReplayGuardConfig :=
  MkReplayGuardConfig false false false false false (float_of_Z 0) 0 [] 0 (float_of_Z 0) [] [] [] false [].

Definition defaults : Config :=
  MkSettings
    (MkCaptureConfig [] defaultCapturePort (bytes_of "pcap") [] (Z.shiftl 64 20) true 0 [] 0)
    (MkProtocolConfig (Z.shiftl 1 20) 300 true false)
    (MkConfig (bytes_of "write_only") ∅ [] [] [] [])
    (MkQueueConfig (bytes_of "ringbuffer") 500000 0 [] no_kafka)
    (MkReplayConfig [] 5432 [] [] defaultPasswordEnv [] [] 32 (float_of_Z 0) (float_of_Z 1) true Skip Bounded 256
       (bytes_of "postgresql") 100 20 0 0)
    (MkMetricsConfig true 9090 false [])
    no_guard (MkMonitorConfig [] [] [] (float_of_Z 0)) (MkControlConfig false 0) [].

Definition with_capture (c : CaptureConfig) (s : Config) : Config :=
  MkSettings c (Parser s) (FilterCfg s) (Queue s) (Replay s) (Metrics s) (GuardCfg s) (Monitor s) (Control s)
    (TargetPassword s).

Definition with_passwordEnv (n : list Z) (r : ReplayConfig) : ReplayConfig :=
  MkReplayConfig (TargetHost r) (TargetPort r) (TargetDatabase r) (TargetUser r) n (SSLMode r) (SSLRootCert r)
    (Workers r) (RateLimitQPS r) (SpeedFactor r) (SessionAffinity r) (Policy r) (RMode r) (MaxConcurrency r)
    (TargetDialect r) (PoolMaxConns r) (PoolMinConns r) (MaxLaneDepth r) (AcquireTimeout r).

Definition with_replay (r : ReplayConfig) (s : Config) : Config :=
  MkSettings (Capture s) (Parser s) (FilterCfg s) (Queue s) r (Metrics s) (GuardCfg s) (Monitor s) (Control s)
    (TargetPassword s).

Definition with_password (p : list Z) (s : Config) : Config :=
  MkSettings (Capture s) (Parser s) (FilterCfg s) (Queue s) (Replay s) (Metrics s) (GuardCfg s) (Monitor s)
    (Control s) p.

(** The capture settings with the derived filter: the port is filled in only when
    the filter is. *)
Definition derived_capture (c : CaptureConfig) : CaptureConfig :=
  if bool_decide (BPFFilter c = []) then
    let port := or_int (Port c) defaultCapturePort in
    MkCaptureConfig (Interface c) port (CMode c) (bytes_of "tcp port " ++ decimal port)%list (BufferSize c)
      (Bidirectional c) (SnapLen c) (SourceHost c) (SourcePort c)
  else c.

Definition applyDerivedDefaults (s : Config) : Config :=
  let s := with_capture (derived_capture (Capture s)) s in
  with_replay (with_passwordEnv (or_str (PasswordEnv (Replay s)) defaultPasswordEnv) (Replay s)) s.

(** ** Validation *)
Inductive config_error :=
| ReadFailed | ParseFailed | PasswordUnset (name : list Z) | Missing (param : string)
| BadDialect | BadPoolMax | BadPoolMin | PoolMinAboveMax | BadWorkers | BadCapacity | BadFilterMode
| BadOverflow | BadErrorPolicy | BadMode
| BadMaxSQLLength | BadTimeoutIdle | BadPort (param : string) | BadMaxConcurrency.

Definition validFilterModes : list (list Z) :=
  bytes_of <$> ["write_only"; "all"; "ddl_only"; "dml_only"; "custom"].

Section config.
Context `{Unicode} (LookupEnv : list Z → option (list Z)).

Definition resolvePassword (s : Config) : result config_error Config :=
  match LookupEnv (PasswordEnv (Replay s)) with
  | Some v => Ok (with_password v s)
  | None => Err (PasswordUnset (PasswordEnv (Replay s)))
  end.

Definition required (s : Config) : list (string * list Z) :=
  [("capture.interface", Interface (Capture s)); ("replayer.target_host", TargetHost (Replay s));
   ("replayer.target_database", TargetDatabase (Replay s)); ("replayer.target_user", TargetUser (Replay s))].

Fixpoint check_required (rs : list (string * list Z)) : result config_error unit :=
  match rs with
  | [] => Ok tt
  | (name, v) :: rs => if bool_decide (TrimSpace v = []) then Err (Missing name) else check_required rs
  end.

Definition validateStructural (s : Config) : result config_error unit := check_required (required s).

(** The ports, in the order in which the map of the code is ranged over: any. *)
Definition ports (s : Config) : list (string * Z) :=
  [("capture.port", Port (Capture s)); ("replayer.target_port", TargetPort (Replay s));
   ("metrics.port", MPort (Metrics s))].

Fixpoint check_ports (ps : list (string * Z)) : result config_error unit :=
  match ps with
  | [] => Ok tt
  | (name, p) :: ps => if (p <? 1)%Z || (65535 <? p)%Z then Err (BadPort name) else check_ports ps
  end.

Definition validateSemantic (range : list (string * Z) → list (string * Z)) (s : Config) : result config_error unit :=
  let r := Replay s in
  _ ← guard_or BadDialect (in_set (bytes_of <$> ["postgresql"; "greenplum"]) (TargetDialect r));
  _ ← guard_or BadPoolMax (1 <=? PoolMaxConns r)%Z;
  _ ← guard_or BadPoolMin (0 <=? PoolMinConns r)%Z;
  _ ← guard_or PoolMinAboveMax (PoolMinConns r <=? PoolMaxConns r)%Z;
  _ ← guard_or BadWorkers (1 <=? Workers r)%Z;
  _ ← guard_or BadCapacity (1 <=? Capacity (Queue s))%Z;
  _ ← guard_or BadFilterMode (in_set validFilterModes (Mode (FilterCfg s)));
  _ ← guard_or BadOverflow (bool_decide (is_Some (overflow_of (Overflow (Queue s)))));
  _ ← guard_or BadErrorPolicy (bool_decide (Policy r ∈ [Skip; Retry; Abort]));
  _ ← guard_or BadMode (bool_decide (RMode r ∈ [ReplayConfig.Bounded; Faithful; Serial]));
  _ ← guard_or BadMaxSQLLength (1 <=? MaxSQLLength (Parser s))%Z;
  _ ← guard_or BadTimeoutIdle (0 <=? TimeoutIdle (Parser s))%Z;
  _ ← check_ports (range (ports s));
  guard_or BadMaxConcurrency (1 <=? MaxConcurrency r)%Z.

Definition Validate (range : list (string * Z) → list (string * Z)) (s : Config) : result config_error unit :=
  _ ← validateStructural s; validateSemantic range s.

(** [file] is [None] when it cannot be read; [Some f] decodes its document over a
    configuration. *)
Definition Load (range : list (string * Z) → list (string * Z)) (file : option (Config → option Config)) :
    result config_error Config :=
  unmarshal ← of_option ReadFailed file;
  cfg ← of_option ParseFailed (unmarshal defaults);
  cfg ← resolvePassword (applyDerivedDefaults cfg);
  _ ← Validate range cfg;
  Ok cfg.
End config.

(** ** The guard's settings (main.go) *)
Definition convertReplayGuardConfig (ParseDuration : list Z → option Z) (c : ReplayGuardConfig) : GuardConfig :=
  let txDur := if bool_decide (c_MaxTransactionDuration c = []) then 0%Z
               else default 0%Z (ParseDuration (c_MaxTransactionDuration c)) in
  MkGuardConfig (c_ExcludeDDL c) (c_RewriteTimeFunctions c) (c_SkipExternalDeps c)
    (c_MaxReplayLagSeconds c) (c_MaxQueueDepth c) txDur (c_MaxStatementsPerTx c)
    ((λ '(p, r), MkMaskRule p r) <$> c_MaskPatterns c) (c_ReplayPercentage c)
    (c_IncludeTables c) (c_ExcludeTables c) (c_IncludeUsers c) (c_ReadOnly c).

(** ** What [Load] accepts *)
Section facts.
Context `{Unicode} (LookupEnv : list Z → option (list Z)).

Record valid (s : Config) : Prop := Valid {
  valid_required : Forall (λ r, TrimSpace r.2 ≠ []) (required s);
  valid_dialect : TargetDialect (Replay s) ∈ bytes_of <$> ["postgresql"; "greenplum"];
  valid_pool : (1 ≤ PoolMaxConns (Replay s) ∧ 0 ≤ PoolMinConns (Replay s) ≤ PoolMaxConns (Replay s))%Z;
  valid_workers : (1 ≤ Workers (Replay s))%Z;
  valid_capacity : (1 ≤ Capacity (Queue s))%Z;
  valid_mode : Mode (FilterCfg s) ∈ validFilterModes;
  valid_overflow : is_Some (overflow_of (Overflow (Queue s)));
  valid_policy : Policy (Replay s) ∈ [Skip; Retry; Abort];
  valid_rmode : RMode (Replay s) ∈ [ReplayConfig.Bounded; Faithful; Serial];
  valid_parser : (1 ≤ MaxSQLLength (Parser s) ∧ 0 ≤ TimeoutIdle (Parser s))%Z;
  valid_ports : Forall (λ p, 1 ≤ p.2 ≤ 65535)%Z (ports s);
  valid_concurrency : (1 ≤ MaxConcurrency (Replay s))%Z }.

Lemma check_required_ok rs : check_required rs = Ok tt ↔ Forall (λ r, TrimSpace r.2 ≠ []) rs.
Proof.
  induction rs as [|[n v] rs IH]; [done|]. cbn [check_required]. rewrite Forall_cons.
  case_bool_decide; [naive_solver|tauto].
Qed.

Lemma check_ports_ok ps : check_ports ps = Ok tt ↔ Forall (λ p, 1 ≤ p.2 ≤ 65535)%Z ps.
Proof.
  induction ps as [|[n p] ps IH]; [done|]. cbn [check_ports]. rewrite Forall_cons. cbn [snd].
  destruct (_ || _) eqn:E.
  - split; [done|]. intros [? _]. apply orb_true_iff in E as [?%Z.ltb_lt|?%Z.ltb_lt]; lia.
  - apply orb_false_iff in E as [?%Z.ltb_ge ?%Z.ltb_ge]. rewrite IH. split; [|tauto]. intros; split; [lia|done].
Qed.

Lemma guarded {E A} (e : E) b (m : result E A) a :
  (_ ← guard_or e b; m) = Ok a ↔ b = true ∧ m = Ok a.
Proof. destruct b; cbn; naive_solver. Qed.

Lemma checked {E A} (u : result E unit) (m : result E A) a :
  (_ ← u; m) = Ok a ↔ u = Ok tt ∧ m = Ok a.
Proof. destruct u as [[]|]; cbn; naive_solver. Qed.

Lemma in_set_spec set w : in_set set w = true ↔ w ∈ set.
Proof. apply bool_decide_eq_true. Qed.

(** Both phases pass exactly when every constraint holds, whatever the order in
    which the ports are ranged over. *)
Lemma Validate_ok range s : (∀ l, range l ≡ₚ l) → Validate range s = Ok tt ↔ valid s.
Proof.
  intros Hr. unfold Validate, validateStructural, validateSemantic.
  rewrite checked, check_required_ok, !guarded, checked, check_ports_ok, guard_or_ok, !in_set_spec, !bool_decide_eq_true, !Z.leb_le, Hr.
  split; [intros; split; tauto|]. intros []. tauto.
Qed.

Lemma Load_ok range file s :
  (∀ l, range l ≡ₚ l) →
  Load LookupEnv range file = Ok s ↔
  ∃ unmarshal cfg pw, file = Some unmarshal ∧ unmarshal defaults = Some cfg ∧
    LookupEnv (PasswordEnv (Replay s)) = Some pw ∧ s = with_password pw (applyDerivedDefaults cfg) ∧ valid s.
Proof.
  intros Hr. unfold Load, resolvePassword. rewrite bind_ok. split.
  - intros (f & Hf & (cfg & Hc & (s' & Hs & [Hv [= ->]]%checked)%bind_ok)%bind_ok).
    apply of_option_ok in Hf as ->. apply of_option_ok in Hc. apply Validate_ok in Hv; [|done].
    destruct (LookupEnv _) as [pw|] eqn:Ep; [|done]. injection Hs as <-. by exists f, cfg, pw.
  - intros (f & cfg & pw & -> & E & Hp & -> & Hv). exists f. split; [done|]. apply bind_ok. exists cfg.
    rewrite E. split; [done|]. apply bind_ok. eexists. split; [cbn in Hp |- *; by rewrite Hp|]. apply checked. by rewrite Validate_ok.
Qed.

Lemma derived_filter c : BPFFilter (derived_capture c) ≠ [].
Proof. unfold derived_capture. by case_bool_decide. Qed.

(** The accepted filter modes are those the filter knows. *)
Lemma valid_mode_parses m : m ∈ validFilterModes → ∃ p, parse_mode m = Ok p.
Proof.
  intros Hm. repeat (apply elem_of_cons in Hm as [->|Hm]; [by eexists|]). by apply elem_of_nil in Hm.
Qed.


Definition with_source (host : list Z) (port : Z) (c : CaptureConfig) : CaptureConfig :=
  MkCaptureConfig (Interface c) (Port c) (CMode c) (BPFFilter c) (BufferSize c) (Bidirectional c) (SnapLen c)
    host port.

(** [source_host] and [source_port] never reach the capture filter: [Load] stores
    "tcp port <port>" when the file has no filter of its own, and a stored filter
    wins over the host.  Opening the capture for another source, as a failover
    does, uses the same filter. *)
Theorem source_host_ignored range file s host port tool k c :
  (∀ l, range l ≡ₚ l) → Load LookupEnv range file = Ok s →
  Open tool (with_source host port (Capture s)) = Ok (k, c) →
  BPFFilter c = BPFFilter (Capture s) ∧
  Open tool (Capture s) = Ok (k, with_source (SourceHost (Capture s)) (SourcePort (Capture s)) c) ∧
  ∀ unmarshal cfg, file = Some unmarshal → unmarshal defaults = Some cfg → BPFFilter (Capture cfg) = [] →
    BPFFilter c = (bytes_of "tcp port " ++ decimal (Port (Capture s)))%list.
Proof.
  intros Hr (f & cfg & pw & -> & Hf & _ & Hs & _)%Load_ok; [|done].
  assert (BPFFilter (Capture s) ≠ []) as Hne by (rewrite Hs; apply derived_filter).
  assert (BPFFilter (withDefaults (with_source host port (Capture s))) = BPFFilter (Capture s)) as Hw.
  { unfold withDefaults. cbn [BPFFilter with_filter with_source]. by rewrite build_settled. }
  assert (with_source (SourceHost (Capture s)) (SourcePort (Capture s))
    (withDefaults (with_source host port (Capture s))) = withDefaults (Capture s)) as Hd.
  { unfold withDefaults, with_filter, with_source. cbn. f_equal. by rewrite !build_settled. }
  rewrite !Open_spec. change (Interface (with_source host port (Capture s))) with (Interface (Capture s)).
  change (CMode (withDefaults (with_source host port (Capture s)))) with (CMode (withDefaults (Capture s))).
  intros [Hif [Hm [= <- <-]]%checked]%guarded. rewrite Hw, Hd.
  split_and!; [done|apply guarded; split; [done|]; by apply checked|]. intros f' cfg' [= <-] Hc Hb. rewrite Hf in Hc. injection Hc as <-.
  rewrite Hs. cbn. unfold derived_capture. by rewrite bool_decide_true.
Qed.
End facts.

(** No event carries a user: with [include_users] set, and no empty name in it, the
    guard blocks every event that the builder makes. *)
Theorem include_users_blocks_all `{Unicode} zone g b conn msg ts ev o b' :
  includeUsers g ≠ [] → [] ∉ includeUsers g → Build b conn msg ts = (Some ev, o, b') →
  (Apply zone g ev).1.1 = BlockEvent.
Proof.
  intros Hu Hn Hb. assert (User ev = []) as Hev.
  { unfold Build, emit in Hb. repeat case_match; simplify_eq; done. }
  unfold Apply. destruct (mask g (SQL ev)) as [rw sql].
  assert (User (if rw then with_sql ev sql else ev) = []) as -> by (by destruct rw).
  destruct (sampled_out g); [done|]. unfold user_excluded. destruct (includeUsers g) as [|u us] eqn:E; [done|].
  rewrite <- E in Hn |- *. unfold in_set. change (ToLower []) with (@nil Z). by rewrite bool_decide_false.
Qed.

(** ** A configuration file *)
Module ConfigDemo.
#[local] Existing Instance ClassifierDemo.ascii.

(** Names the interface, the source host and the target, and nothing else. *)
Definition document (d : Config) : option Config :=
  let c := Capture d in
  let r := Replay d in
  Some (with_capture
    (MkCaptureConfig (bytes_of "eth0") (Port c) (CMode c) (BPFFilter c) (BufferSize c) (Bidirectional c) (SnapLen c)
       (bytes_of "10.0.0.7") 0)
    (with_replay
      (MkReplayConfig (bytes_of "shadow") (TargetPort r) (bytes_of "app") (bytes_of "replay") (PasswordEnv r)
         (SSLMode r) (SSLRootCert r) (Workers r) (RateLimitQPS r) (SpeedFactor r) (SessionAffinity r) (Policy r)
         (RMode r) (MaxConcurrency r) (TargetDialect r) (PoolMaxConns r) (PoolMinConns r) (MaxLaneDepth r)
         (AcquireTimeout r)) d)).

Definition getenv (n : list Z) : option (list Z) :=
  if bool_decide (n = defaultPasswordEnv) then Some (bytes_of "secret") else None.

Definition loaded : Config :=
  match Load getenv (λ l, l) (Some document) with Ok s => s | Err _ => defaults end.

(** The same file without the interface is refused, as is a metrics port of 0. *)
Example interface_required : Load getenv (λ l, l) (Some Some) = Err (Missing "capture.interface").
Proof. reflexivity. Qed.

Example default_filter_replaced : buildBPFFilter (with_filter [] (Capture loaded)) = bytes_of "tcp port 5432 and host 10.0.0.7".
Proof. reflexivity. Qed.
End ConfigDemo.


Lemma source_host_ignored_witness :
  BPFFilter (withDefaults (with_source (bytes_of "10.0.0.8") 6432 (Capture ConfigDemo.loaded))) =
  bytes_of "tcp port 5432".
Proof.
  apply (@source_host_ignored ClassifierDemo.ascii ConfigDemo.getenv (λ l, l) (Some ConfigDemo.document)
    ConfigDemo.loaded (bytes_of "10.0.0.8") 6432 None PcapSource _ (λ _, reflexivity _)) with
    (unmarshal := ConfigDemo.document) (cfg := default defaults (ConfigDemo.document defaults));
    (reflexivity || (vm_compute; reflexivity)).
Defined.
