(* ===== verification/Sources.v ===== *)
(** * Opening and closing the packet sources (src/pkg/capture/source_pcap.go,
      source_afpacket.go, source_ebpf.go, source_ebpf_ssl.go)

    The constructors as the sequence of handles they acquire and release, for
    every outcome of the library calls they make; the sizing of the AF_PACKET
    ring; and the search for the TLS library that the SSL probes attach to, over
    a file system that is a parameter. *)
From Stdlib Require Import String Ascii.
From S2P Require Import Prelude Core Classifier ConnKey CaptureConfig.

(** ** Handles *)
Inductive handle :=
| HInactive | HPcap | HTPacket
| HObjects | HXdpLink | HReader
| HReadEnter | HReadExit | HWriteEnter | HWriteExit.

#[export] Instance handle_eq_dec : EqDecision handle.
Proof. solve_decision. Defined.

Inductive hact := Acquire (h : handle) | Release (h : handle).

Definition acquires (log : list hact) : list handle := omap (λ a, match a with Acquire h => Some h | _ => None end) log.
Definition releases (log : list hact) : list handle := omap (λ a, match a with Release h => Some h | _ => None end) log.

(** The calls into libraries that can fail. *)
Inductive lib_call :=
| NewInactiveHandle | SetSnapLen | SetPromisc | SetTimeout | SetBufferSize | Activate | SetDirection | SetBPFFilter
| NewTPacket | CompileBPFFilter | SetBPF
| RemoveMemlock | LoadObjects | UpdatePort | AttachNative | AttachGeneric | NewRingReader
| FindLibSSL | UpdatePid | OpenExecutable | UprobeRead | UretprobeRead | UprobeWrite | UretprobeWrite.

(** A source is the handles it owns, in the order in which [Close] releases them;
    [closeOnce] is whether it has. *)
Record source := MkSource { owned : list handle; closed_once : bool }.

Definition source_Close (s : source) : source * list hact :=
  if closed_once s then (s, []) else (MkSource (owned s) true, Release <$> owned s).

Section constructors.
(** Which calls succeed. *)
Context (ok : lib_call → bool).

(** [CleanUp] is deferred; it does nothing once the handle is activated. *)
Definition newPcapSource (cfg : CaptureConfig) : result lib_call source * list hact :=
  if negb (ok NewInactiveHandle) then (Err NewInactiveHandle, []) else
  let log := [Acquire HInactive] in
  if negb (ok SetSnapLen) then (Err SetSnapLen, log ++ [Release HInactive]) else
  if negb (ok SetPromisc) then (Err SetPromisc, log ++ [Release HInactive]) else
  if negb (ok SetTimeout) then (Err SetTimeout, log ++ [Release HInactive]) else
  if (0 <? BufferSize cfg) && negb (ok SetBufferSize) then (Err SetBufferSize, log ++ [Release HInactive]) else
  if negb (ok Activate) then (Err Activate, log ++ [Release HInactive]) else
  let log := log ++ [Release HInactive; Acquire HPcap] in
  if negb (Bidirectional cfg) && negb (ok SetDirection) then (Err SetDirection, log ++ [Release HPcap]) else
  if negb (ok SetBPFFilter) then (Err SetBPFFilter, log ++ [Release HPcap]) else
  (Ok (MkSource [HPcap] false), log).

Definition newAFPacketSource : result lib_call source * list hact :=
  if negb (ok NewTPacket) then (Err NewTPacket, []) else
  let log := [Acquire HTPacket] in
  if negb (ok CompileBPFFilter) then (Err CompileBPFFilter, log ++ [Release HTPacket]) else
  if negb (ok SetBPF) then (Err SetBPF, log ++ [Release HTPacket]) else
  (Ok (MkSource [HTPacket] false), log).

(** Native mode first, generic mode when that fails. *)
Definition newEBPFSource : result lib_call source * list hact :=
  if negb (ok RemoveMemlock) then (Err RemoveMemlock, []) else
  if negb (ok LoadObjects) then (Err LoadObjects, []) else
  let log := [Acquire HObjects] in
  if negb (ok UpdatePort) then (Err UpdatePort, log ++ [Release HObjects]) else
  if negb (ok AttachNative) && negb (ok AttachGeneric) then (Err AttachGeneric, log ++ [Release HObjects]) else
  let log := log ++ [Acquire HXdpLink] in
  if negb (ok NewRingReader) then (Err NewRingReader, log ++ [Release HXdpLink; Release HObjects]) else
  (Ok (MkSource [HReader; HXdpLink; HObjects] false), log ++ [Acquire HReader]).

Definition newEBPFSSLSource (libSSLPath : list Z) : result lib_call source * list hact :=
  if negb (ok RemoveMemlock) then (Err RemoveMemlock, []) else
  if bool_decide (libSSLPath = []) && negb (ok FindLibSSL) then (Err FindLibSSL, []) else
  if negb (ok LoadObjects) then (Err LoadObjects, []) else
  let log := [Acquire HObjects] in
  if negb (ok UpdatePid) then (Err UpdatePid, log ++ [Release HObjects]) else
  if negb (ok OpenExecutable) then (Err OpenExecutable, log ++ [Release HObjects]) else
  if negb (ok UprobeRead) then (Err UprobeRead, log ++ [Release HObjects]) else
  let log := log ++ [Acquire HReadEnter] in
  if negb (ok UretprobeRead) then (Err UretprobeRead, log ++ [Release HReadEnter; Release HObjects]) else
  let log := log ++ [Acquire HReadExit] in
  if negb (ok UprobeWrite) then (Err UprobeWrite, log ++ [Release HReadExit; Release HReadEnter; Release HObjects]) else
  let log := log ++ [Acquire HWriteEnter] in
  if negb (ok UretprobeWrite)
  then (Err UretprobeWrite, log ++ [Release HWriteEnter; Release HReadExit; Release HReadEnter; Release HObjects]) else
  let log := log ++ [Acquire HWriteExit] in
  if negb (ok NewRingReader)
  then (Err NewRingReader,
        log ++ [Release HWriteExit; Release HWriteEnter; Release HReadExit; Release HReadEnter; Release HObjects]) else
  (Ok (MkSource [HReader; HReadEnter; HReadExit; HWriteEnter; HWriteExit; HObjects] false), log ++ [Acquire HReader]).

(** The constructor that [Open] selects; the SSL source gets the empty [SSLConfig]. *)
Definition construct (k : constructor) (cfg : CaptureConfig) : result lib_call source * list hact :=
  match k with
  | PcapSource => newPcapSource cfg
  | AFPacketSource => newAFPacketSource
  | EBPFSource => newEBPFSource
  | EBPFSSLSource => newEBPFSSLSource []
  end.
End constructors.

Fixpoint closes (n : nat) (s : source) : list hact :=
  match n with
  | O => []
  | S n => let '(s', log) := source_Close s in log ++ closes n s'
  end.

Lemma closes_once n hs : closes n (MkSource hs true) = [].
Proof. induction n; [done|]. by cbn. Qed.

Lemma releases_all hs : releases (Release <$> hs) = hs ∧ acquires (Release <$> hs) = [].
Proof. induction hs as [|h hs [IH1 IH2]]; [done|]. unfold releases, acquires in *. cbn. by rewrite IH1. Qed.

(** A constructor that fails has released what it acquired; one that succeeds owns
    exactly what is left. *)
Definition balanced (r : result lib_call source * list hact) : Prop :=
  NoDup (acquires r.2) ∧
  match r.1 with
  | Err _ => releases r.2 ≡ₚ acquires r.2
  | Ok s => closed_once s = false ∧ releases r.2 ++ owned s ≡ₚ acquires r.2
  end.

Lemma construct_balanced ok k cfg : balanced (construct ok k cfg).
Proof.
  destruct k; cbn [construct];
    unfold newPcapSource, newAFPacketSource, newEBPFSource, newEBPFSSLSource;
    repeat match goal with
    | |- balanced (if ?b then _ else _) => destruct b
    end;
    (split; [apply (bool_decide_unpack _); vm_compute; exact I|]); cbn;
    try (split; [done|]); solve_Permutation.
Qed.

(** C24 Whichever source is opened and whichever of the calls into libpcap, AF_PACKET and
    the kernel fail, no handle is leaked or released twice: a failed open has
    released everything it acquired, and after an open that succeeded the first
    [Close] releases the rest, later ones nothing. *)
Theorem sources_release_once ok k cfg n :
  let r := construct ok k cfg in
  NoDup (acquires r.2) ∧
  match r.1 with
  | Err _ => releases r.2 ≡ₚ acquires r.2
  | Ok s => releases (r.2 ++ closes (S n) s) ≡ₚ acquires (r.2 ++ closes (S n) s) ∧ acquires (closes (S n) s) = []
  end.
Proof.
  intros r. destruct (construct_balanced ok k cfg) as [Hn Hb]. fold r in Hn, Hb. split; [done|].
  destruct r.1 as [s|e]; [|done]. destruct Hb as [Hc Hb]. cbn [closes]. unfold source_Close. rewrite Hc, closes_once, app_nil_r.
  destruct (releases_all (owned s)) as [E1 E2]. split; [|done].
  unfold releases, acquires in *. by rewrite !omap_app, E1, E2, app_nil_r.
Qed.

(** ** Counters

    What the library counted, [None] for an error: libpcap's received packets and
    those dropped by the kernel and by the interface, as [int]; the ring's
    packets and drops, as [uint].  The result is received and dropped. *)
Definition pcap_Stats (st : option (Z * Z * Z)) : option (Z * Z) :=
  (λ '(received, dropped, ifDropped), (wrap 64 received, wrap 64 (wrap 64 dropped + wrap 64 ifDropped))) <$> st.

Definition afpacket_Stats (st : option (Z * Z)) : option (Z * Z) := (λ '(packets, drops), (wrap 64 packets, wrap 64 drops)) <$> st.

(** ** The AF_PACKET ring *)
Section sizing.
(** afpacket.DefaultFrameSize, DefaultBlockSize and DefaultNumBlocks. *)
Context (defFrame defBlock defBlocks : Z).

(** The doubling loop; [None] when [fuel] doublings were not enough. *)
Fixpoint grow (fuel : nat) (snapLen frameSize : Z) : option Z :=
  if frameSize <? snapLen then
    match fuel with O => None | S fuel => grow fuel snapLen (signed 64 (Z.shiftl frameSize 1)) end
  else Some frameSize.

Definition afpacketSizing (fuel : nat) (cfg : CaptureConfig) : option (Z * Z * Z) :=
  frameSize ← (if defFrame <? SnapLen cfg then grow fuel (SnapLen cfg) 1 else Some defFrame);
  let blockSize := if defBlock <? frameSize then frameSize else defBlock in
  let numBlocks :=
    if 0 <? BufferSize cfg then
      let n := Z.quot (BufferSize cfg) blockSize in if defBlocks <? n then n else defBlocks
    else defBlocks in
  Some (frameSize, blockSize, numBlocks).
End sizing.

Lemma signed_double i : 0 ≤ i < 62 → signed 64 (Z.shiftl (2 ^ i) 1) = 2 ^ (i + 1).
Proof.
  intros Hi. rewrite Z.shiftl_mul_pow2, <- Z.pow_add_r by lia. unfold signed.
  assert (2 ^ (i + 1) < 2 ^ 63) by (apply Z.pow_lt_mono_r; lia).
  assert (0 < 2 ^ (i + 1)) by (apply Z.pow_pos_nonneg; lia).
  rewrite wrap_small by (unfold in_width; lia). by rewrite (proj2 (Z.ltb_lt _ _)) by lia.
Qed.

Lemma grow_spec fuel snap i :
  0 ≤ i ≤ 62 → 2 ^ i < 2 * snap → snap ≤ 2 ^ 62 → 62 - i ≤ Z.of_nat fuel →
  ∃ j, grow fuel snap (2 ^ i) = Some (2 ^ j) ∧ i ≤ j ≤ 62 ∧ snap ≤ 2 ^ j < 2 * snap.
Proof.
  revert i. induction fuel as [|fuel IH]; intros i Hi Hlt Hs Hf; cbn [grow]; destruct (Z.ltb_spec (2 ^ i) snap).
  - assert (i = 62) by lia. subst. lia.
  - exists i. split; [done|]. lia.
  - assert (i ≠ 62) by (intros ->; lia). rewrite signed_double by lia.
    destruct (IH (i + 1)) as (j & E & Hj & Hb); [lia|rewrite Z.pow_add_r by lia; lia|done|lia|].
    exists j. split; [done|]. lia.
  - exists i. split; [done|]. lia.
Qed.

Lemma grow_zero fuel snap : 0 < snap → grow fuel snap 0 = None.
Proof.
  intros Hs. induction fuel as [|fuel IH]; cbn [grow]; by rewrite (proj2 (Z.ltb_lt 0 snap)).
Qed.

(** Past 2^62 the doubling overflows to zero and the loop never ends. *)
Theorem grow_diverges fuel snap i : 0 ≤ i ≤ 62 → 2 ^ 62 < snap → grow fuel snap (2 ^ i) = None.
Proof.
  intros Hi Hs. assert (2 ^ i ≤ 2 ^ 62) by (apply Z.pow_le_mono_r; lia).
  revert i Hi H. induction fuel as [|fuel IH]; intros i Hi Hle; cbn [grow]; rewrite (proj2 (Z.ltb_lt _ _)) by lia; [done|].
  destruct (decide (i = 62)) as [->|Hne].
  - destruct fuel as [|fuel]; cbn [grow].
    + by rewrite (proj2 (Z.ltb_lt _ _)) by (change (signed 64 (Z.shiftl (2 ^ 62) 1)) with (- 2 ^ 63); lia).
    + rewrite (proj2 (Z.ltb_lt _ _)) by (change (signed 64 (Z.shiftl (2 ^ 62) 1)) with (- 2 ^ 63); lia).
      change (signed 64 (Z.shiftl (signed 64 (Z.shiftl (2 ^ 62) 1)) 1)) with 0. apply grow_zero. lia.
  - rewrite signed_double by lia. apply IH; [lia|]. apply Z.pow_le_mono_r; lia.
Qed.

(** The ring for any snapshot length up to 2^62 is sized in at most 62 doublings: a
    snapshot fits a frame, frames are no more than twice what is needed, blocks hold
    a whole number of frames, and there are at least the default number of blocks
    and as many as the buffer asks for. *)
Theorem afpacket_ring defFrame defBlock defBlocks cfg a b :
  0 ≤ a → 0 ≤ b → defFrame = 2 ^ a → defBlock = 2 ^ b → a ≤ b ≤ 62 → 0 < defBlocks → SnapLen cfg ≤ 2 ^ 62 →
  ∃ frameSize blockSize numBlocks,
    afpacketSizing defFrame defBlock defBlocks 62 cfg = Some (frameSize, blockSize, numBlocks) ∧
    SnapLen cfg ≤ frameSize ∧ frameSize ≤ Z.max defFrame (2 * SnapLen cfg) ∧ (frameSize | blockSize) ∧
    defBlock ≤ blockSize ∧ defBlocks ≤ numBlocks ∧
    (0 < BufferSize cfg → BufferSize cfg < (numBlocks + 1) * blockSize).
Proof.
  intros Ha Hb -> -> Hab Hn Hs. unfold afpacketSizing.
  assert (∃ j, (if 2 ^ a <? SnapLen cfg then grow 62 (SnapLen cfg) 1 else Some (2 ^ a)) = Some (2 ^ j) ∧
    0 ≤ j ≤ 62 ∧ SnapLen cfg ≤ 2 ^ j ∧ 2 ^ j ≤ Z.max (2 ^ a) (2 * SnapLen cfg)) as (j & -> & Hj & H1 & H2).
  { assert (0 < 2 ^ a) by (apply Z.pow_pos_nonneg; lia). destruct (Z.ltb_spec (2 ^ a) (SnapLen cfg)).
    - destruct (grow_spec 62 (SnapLen cfg) 0) as (j & E & Hj & Hb'); [lia|lia|done|lia|]. exists j. split; [exact E|]. lia.
    - exists a. split; [done|]. lia. }
  cbn [mbind option_bind]. set (block := if 2 ^ b <? 2 ^ j then 2 ^ j else 2 ^ b). do 3 eexists. split; [done|].
  assert ((2 ^ j | block) ∧ 2 ^ b ≤ block ∧ 0 < block) as (Hd & Hle & Hpos).
  { assert (0 < 2 ^ j) by (apply Z.pow_pos_nonneg; lia). assert (0 < 2 ^ b) by (apply Z.pow_pos_nonneg; lia).
    unfold block. destruct (Z.ltb_spec (2 ^ b) (2 ^ j)); [split; [apply Z.divide_refl|lia]|].
    split; [|lia]. exists (2 ^ (b - j)). rewrite <- Z.pow_add_r; [f_equal; lia| |lia].
    assert (j ≤ b); [|lia]. destruct (Z.le_gt_cases j b); [done|].
    assert (2 ^ b < 2 ^ j) by (apply Z.pow_lt_mono_r; lia). lia. }
  split_and!; [done|done|done|done|..].
  - destruct (0 <? _); [|lia]. destruct (Z.ltb_spec defBlocks (Z.quot (BufferSize cfg) block)); lia.
  - intros Hbuf. rewrite (proj2 (Z.ltb_lt _ _) Hbuf), Z.quot_div_nonneg by lia.
    pose proof (Z.mul_succ_div_gt (BufferSize cfg) block Hpos).
    destruct (Z.ltb_spec defBlocks (BufferSize cfg / block)); [lia|nia].
Qed.

(** ** Finding the TLS library *)

(** [strings.Split] at newlines. *)
Fixpoint Split_lines (cur s : list Z) : list (list Z) :=
  match s with
  | [] => [cur]
  | c :: s => if c =? 10 then cur :: Split_lines [] s else Split_lines (cur ++ [c]) s
  end.

Definition flush_word (w : list Z) : list (list Z) := match w with [] => [] | _ => [w] end.

Fixpoint ascii_fields (cur s : list Z) : list (list Z) :=
  match s with
  | [] => flush_word cur
  | c :: s => if is_space c then flush_word cur ++ ascii_fields [] s else ascii_fields (cur ++ [c]) s
  end.

Fixpoint digits_value (acc : Z) (s : list Z) : option Z :=
  match s with
  | [] => Some acc
  | c :: s => if isDigit c then digits_value (10 * acc + (c - 48)) s else None
  end.

(** [strconv.Atoi]: an optional sign and decimal digits, in the range of int64. *)
Definition Atoi (s : list Z) : option Z :=
  let '(neg, ds) := match s with 43 :: ds => (false, ds) | 45 :: ds => (true, ds) | _ => (false, s) end in
  match ds with
  | [] => None
  | _ =>
      n ← digits_value 0 ds;
      let n := if neg : bool then - n else n in
      if (- 2 ^ 63 <=? n) && (n <? 2 ^ 63) then Some n else None
  end.

Section libssl.
(** [strings.Fields] on text that is not ASCII, and the file system: the content of
    a file, whether a path exists, and the entries of /proc with whether each is a
    directory. *)
Context (unicode_fields : list Z → list (list Z)).
Context (ReadFile : list Z → option (list Z)) (Exists : list Z → bool) (proc : list (list Z * bool)).

Definition Fields (s : list Z) : list (list Z) := if is_ascii s then ascii_fields [] s else unicode_fields s.

Definition is_libssl (line : list Z) : bool := Contains (bytes_of "libssl") line && Contains (bytes_of ".so") line.

(** The loop over the lines of a maps file. *)
Fixpoint libssl_in (lines : list (list Z)) : option (list Z) :=
  match lines with
  | [] => None
  | line :: lines =>
      if is_libssl line && (6 <=? zlen (Fields line)) then last (Fields line) else libssl_in lines
  end.

Definition candidates : list (list Z) :=
  bytes_of <$> ["/usr/lib/aarch64-linux-gnu/libssl.so.3"; "/usr/lib/x86_64-linux-gnu/libssl.so.3";
    "/usr/lib/aarch64-linux-gnu/libssl.so.1.1"; "/usr/lib/x86_64-linux-gnu/libssl.so.1.1";
    "/usr/lib64/libssl.so.3"; "/usr/lib64/libssl.so.1.1"; "/lib/libssl.so.3"]%string.

Definition proc_file (pid : Z) (name : string) : list Z := bytes_of "/proc/" ++ decimal pid ++ bytes_of name.

(** One entry of /proc in the last search. *)
Definition libssl_of_entry (entry : list Z * bool) : option (list Z) :=
  if negb entry.2 then None else
  pid ← Atoi entry.1;
  cmdline ← ReadFile (proc_file pid "/cmdline");
  if negb (Contains (bytes_of "postgres") cmdline) then None else
  maps ← ReadFile (proc_file pid "/maps");
  libssl_in (Split_lines [] maps).

Fixpoint first_some {A B} (f : A → option B) (l : list A) : option B :=
  match l with [] => None | a :: l => match f a with Some b => Some b | None => first_some f l end end.

Definition findLibSSL (targetPID : Z) : option (list Z) :=
  if 0 <? targetPID then
    maps ← ReadFile (proc_file targetPID "/maps");
    libssl_in (Split_lines [] maps)
  else
    match first_some (λ p, if Exists p then Some p else None) candidates with
    | Some p => Some p
    | None => first_some libssl_of_entry proc
    end.
End libssl.

(** A line of a maps file: five words, then the path, all separated by blanks.  The
    kernel pads with several blanks before the path and appends a word to the path
    of a file that was removed. *)
Record mapping := MkMapping { m_words : list (list Z); m_pad : nat; m_path : list (list Z) }.

Fixpoint join (ws : list (list Z)) : list Z :=
  match ws with [] => [] | [w] => w | w :: ws => w ++ 32 :: join ws end.

Definition maps_line (m : mapping) : list Z := join (m_words m) ++ replicate (S (m_pad m)) 32 ++ join (m_path m).
Definition maps_text (ms : list mapping) : list Z := concat ((λ m, maps_line m ++ [10]) <$> ms).

Definition is_word (w : list Z) : Prop := w ≠ [] ∧ Forall (λ c, 0 ≤ c < 128 ∧ is_space c = false) w.
Definition wf_mapping (m : mapping) : Prop :=
  length (m_words m) = 5%nat ∧ Forall is_word (m_words m) ∧ Forall is_word (m_path m).

Lemma split_line cur l s : Forall (λ c, c ≠ 10) l → Split_lines cur (l ++ 10 :: s) = (cur ++ l) :: Split_lines [] s.
Proof.
  intros Hl. revert cur. induction Hl as [|c l Hc _ IH]; intros cur; cbn; [by rewrite app_nil_r|].
  rewrite (proj2 (Z.eqb_neq _ _) Hc), IH. by rewrite <- app_assoc.
Qed.

Lemma split_lines ls :
  Forall (Forall (λ c, c ≠ 10)) ls → Split_lines [] (concat ((λ l, l ++ [10]) <$> ls)) = ls ++ [[]].
Proof.
  induction 1 as [|l ls Hl _ IH]; [done|]. rewrite fmap_cons. cbn [concat]. rewrite <- app_assoc. cbn [app].
  by rewrite split_line, IH.
Qed.

Lemma fields_word cur w s :
  Forall (λ c, 0 ≤ c < 128 ∧ is_space c = false) w → ascii_fields cur (w ++ s) = ascii_fields (cur ++ w) s.
Proof.
  intros Hw. revert cur. induction Hw as [|c w [_ Hc] _ IH]; intros cur; cbn; [by rewrite app_nil_r|].
  by rewrite Hc, IH, <- app_assoc.
Qed.

Lemma fields_pad n s : ascii_fields [] (replicate n 32 ++ s) = ascii_fields [] s.
Proof. by induction n. Qed.

Lemma flush_nonempty w : w ≠ [] → flush_word w = [w].
Proof. by destruct w. Qed.

Lemma fields_blank cur s : ascii_fields cur (32 :: s) = flush_word cur ++ ascii_fields [] s.
Proof. done. Qed.

(** Words separated by blanks are the fields, whatever follows a blank. *)
Lemma fields_join ws s :
  Forall is_word ws → ascii_fields [] (join ws ++ 32 :: s) = ws ++ ascii_fields [] s.
Proof.
  induction 1 as [|w ws [Hne Hw] Hws IH]; [done|]. destruct ws as [|w' ws];
    [cbn [join]|change (join (w :: w' :: ws)) with (w ++ 32 :: join (w' :: ws))].
  - by rewrite fields_word, fields_blank, flush_nonempty.
  - rewrite <- app_assoc, fields_word by done. cbn [app]. by rewrite fields_blank, flush_nonempty, IH.
Qed.

Lemma fields_join_end ws : Forall is_word ws → ascii_fields [] (join ws) = ws.
Proof.
  induction 1 as [|w ws [Hne Hw] Hws IH]; [done|]. destruct ws as [|w' ws];
    [cbn [join]|change (join (w :: w' :: ws)) with (w ++ 32 :: join (w' :: ws))].
  - rewrite <- (app_nil_r w), fields_word by done. cbn. by rewrite app_nil_r, flush_nonempty.
  - by rewrite fields_word, fields_blank, flush_nonempty, IH.
Qed.

Lemma join_chars (P : Z → Prop) ws : P 32 → Forall is_word ws → (∀ c, 0 ≤ c < 128 ∧ is_space c = false → P c) → Forall P (join ws).
Proof.
  intros H32 Hws HP. induction Hws as [|w ws [_ Hw] Hws IH]; [constructor|].
  assert (Forall P w) by (by eapply Forall_impl). destruct ws; [done|]. cbn [join]. apply Forall_app. split; [done|]. by constructor.
Qed.

Lemma maps_line_chars (P : Z → Prop) m :
  P 32 → (∀ c, 0 ≤ c < 128 ∧ is_space c = false → P c) → wf_mapping m → Forall P (maps_line m).
Proof.
  intros H32 HP (_ & Hw & Hp). unfold maps_line. rewrite !Forall_app.
  split_and!; [by apply join_chars|by apply Forall_replicate|by apply join_chars].
Qed.

Lemma maps_line_fields uf m : wf_mapping m → Fields uf (maps_line m) = m_words m ++ m_path m.
Proof.
  intros Hwf. unfold Fields. assert (is_ascii (maps_line m) = true) as ->.
  { apply Is_true_true, forallb_True, (maps_line_chars (λ c, Is_true (c <? 128))); [done| |done]. intros c [Hc _].
    apply Is_true_true, Z.ltb_lt. lia. }
  destruct Hwf as (_ & Hw & Hp). unfold maps_line. cbn [replicate app].
  by rewrite fields_join, fields_pad, fields_join_end.
Qed.

(** With a process given, the path found is the last word of the first mapping that
    mentions the library: the path itself when it has no blanks. *)
Theorem libssl_of_process uf ReadFile Exists proc pid before m after path :
  0 < pid → ReadFile (proc_file pid "/maps") = Some (maps_text (before ++ m :: after)) →
  Forall wf_mapping (before ++ m :: after) → Forall (λ m, is_libssl (maps_line m) = false) before →
  is_libssl (maps_line m) = true → last (m_path m) = Some path →
  findLibSSL uf ReadFile Exists proc pid = Some path.
Proof.
  intros Hpid Hread Hwf Hb Hm Hl. unfold findLibSSL. rewrite (proj2 (Z.ltb_lt _ _) Hpid), Hread. cbn [mbind option_bind].
  unfold maps_text. rewrite (list_fmap_compose maps_line (λ l, l ++ [10])), split_lines; cycle 1.
  { apply Forall_fmap. eapply Forall_impl; [done|]. intros m' Hw. apply maps_line_chars; [done| |done].
    intros c [_ Hc] ->. discriminate. }
  apply Forall_app in Hwf as [_ [(Hlen & Hw & Hp) _]%Forall_cons]. rewrite fmap_app, fmap_cons, <- app_assoc. clear Hread.
  induction Hb as [|m' before Hm' _ IH]; cbn [fmap list_fmap app libssl_in]; [|by rewrite Hm'].
  rewrite Hm, maps_line_fields by done. rewrite zlen_app.
  assert (zlen (m_words m) = 5) as -> by (unfold zlen; lia).
  destruct (m_path m) as [|w ws] eqn:E; [done|]. rewrite zlen_cons. pose proof (zlen_nonneg ws).
  rewrite (proj2 (Z.leb_le _ _)) by lia. cbn [andb]. by rewrite last_app, Hl.
Qed.

(** ** Concrete inputs *)
Module SourcesDemo.
Local Open Scope string_scope.

Definition words : list (list Z) := bytes_of <$> ["7f1c2a"; "r-xp"; "0001d000"; "103:02"; "1311"].
Definition libc : mapping := MkMapping words 3 [bytes_of "/usr/lib/libc.so.6"].
Definition libssl : mapping := MkMapping words 3 [bytes_of "/opt/libssl.so.3"].
(** The library was upgraded while the process ran. *)
Definition upgraded : mapping := MkMapping words 3 [bytes_of "/opt/libssl.so.3"; bytes_of "(deleted)"].

Definition fs (ms : list mapping) (path : list Z) : option (list Z) :=
  if bool_decide (path = proc_file 77 "/maps") then Some (maps_text ms) else None.

Definition search (ms : list mapping) : option (list Z) := findLibSSL (λ _, []) (fs ms) (λ _, false) [] 77.

Definition cfg (snap buf : Z) : CaptureConfig := MkCaptureConfig (bytes_of "eth0") 5432 ModeAFPacket [] buf true snap [] 0.
End SourcesDemo.

Lemma libssl_of_process_witness :
  SourcesDemo.search [SourcesDemo.libc; SourcesDemo.libssl] = Some (bytes_of "/opt/libssl.so.3").
Proof.
  apply (libssl_of_process (λ _, []) (SourcesDemo.fs [SourcesDemo.libc; SourcesDemo.libssl]) (λ _, false) [] 77
    [SourcesDemo.libc] SourcesDemo.libssl [] (bytes_of "/opt/libssl.so.3")).
  - lia.
  - vm_compute. reflexivity.
  - repeat constructor; discriminate || (vm_compute; discriminate).
  - repeat constructor.
  - vm_compute. reflexivity.
  - vm_compute. reflexivity.
Defined.

(** For a library that was replaced on disk the search answers "(deleted)", which is
    no path. *)
Theorem libssl_deleted :
  SourcesDemo.search [SourcesDemo.libc; SourcesDemo.upgraded] = Some (bytes_of "(deleted)").
Proof. vm_compute. reflexivity. Qed.

Lemma afpacket_ring_witness :
  afpacketSizing 4096 524288 128 62 (SourcesDemo.cfg 65536 (64 * 2 ^ 20)) = Some (65536, 524288, 128).
Proof.
  destruct (afpacket_ring 4096 524288 128 (SourcesDemo.cfg 65536 (64 * 2 ^ 20)) 12 19) as (f & b & n & E & _);
    [lia|lia|reflexivity|reflexivity|lia|lia|vm_compute; discriminate|].
  rewrite E. vm_compute in E. by injection E as <- <- <-.
Defined.
