(* ===== verification/Resilient.v ===== *)
(** * The resilient source (src/pkg/capture/source_resilient.go)

    The goroutine that pumps packets from the current inner source and reopens it
    when it ends, next to callers of [Close] and the consumer of the channel.
    Every lock-protected section, channel operation and call of the inner source
    is one step; what the inner sources deliver, report and whether reopening
    succeeds is up to the surroundings. *)
From S2P Require Import Prelude GoTime.

Definition reconnectInitialDelay : Z := 1 * Second.
Definition reconnectMaxDelay : Z := 16 * Second.
Definition packetsCap : Z := 256.

Definition next_delay (delay : Z) : Z :=
  let d := delay * 2 in if reconnectMaxDelay <? d then reconnectMaxDelay else d.

Section resilient.
Context {P : Type}.

(** Where the goroutine is; inner sources are numbered as they are opened. *)
Inductive pump :=
| PTop
| PAccumulate (h : nat)
| PRange (h : nat)
| PSend (h : nat) (p : P)
| PEnded (h : nat)
| PFinish (h : nat)
| PRelease (h : nat)
| PRetry (delay : Z)
| PSleep (delay : Z)
| PReopen (delay : Z)
| POpen (delay : Z)
| PInstall (h : nat)
| PExit.

Record resilientSource := MkResilient {
  inner : option nat; rclosed : bool; rpackets : list P; pumping : pump;
  totalReceived : Z; totalDropped : Z; reconnects : Z;
  opened : nat; shut : list nat }.

Definition set_pump (g : pump) (s : resilientSource) : resilientSource :=
  MkResilient (inner s) (rclosed s) (rpackets s) g (totalReceived s) (totalDropped s) (reconnects s) (opened s) (shut s).
Definition set_packets (l : list P) (s : resilientSource) : resilientSource :=
  MkResilient (inner s) (rclosed s) l (pumping s) (totalReceived s) (totalDropped s) (reconnects s) (opened s) (shut s).
Definition set_inner (o : option nat) (s : resilientSource) : resilientSource :=
  MkResilient o (rclosed s) (rpackets s) (pumping s) (totalReceived s) (totalDropped s) (reconnects s) (opened s) (shut s).
Definition shut_inner (h : nat) (s : resilientSource) : resilientSource :=
  MkResilient (inner s) (rclosed s) (rpackets s) (pumping s) (totalReceived s) (totalDropped s) (reconnects s)
    (opened s) (shut s ++ [h]).
Definition open_inner (s : resilientSource) : resilientSource :=
  MkResilient (inner s) (rclosed s) (rpackets s) (pumping s) (totalReceived s) (totalDropped s) (reconnects s)
    (S (opened s)) (shut s).
Definition count_attempt (s : resilientSource) : resilientSource :=
  MkResilient (inner s) (rclosed s) (rpackets s) (pumping s) (totalReceived s) (totalDropped s)
    (wrap 64 (reconnects s + 1)) (opened s) (shut s).

(** [accumulateStats]: the counters of the inner source, when it has them. *)
Definition accumulateStats (st : option (Z * Z)) (s : resilientSource) : resilientSource :=
  match st with
  | Some (r, d) => MkResilient (inner s) (rclosed s) (rpackets s) (pumping s) r d (reconnects s) (opened s) (shut s)
  | None => s
  end.

(** The first inner source is opened before the goroutine starts. *)
Definition NewResilientSource : resilientSource := MkResilient (Some 0%nat) false [] PTop 0 0 0 1 [].

(** [Stats]; [live] is what the inner source answers. *)
Definition resilient_Stats (live : option (Z * Z)) (s : resilientSource) : Z * Z :=
  match inner s, live with
  | Some _, Some st => st
  | _, _ => (totalReceived s, totalDropped s)
  end.

(** [Close] takes the inner source under the lock and closes it after. *)
Definition resilient_Close (s : resilientSource) : resilientSource :=
  if rclosed s then s else
  let s' := MkResilient None true (rpackets s) (pumping s) (totalReceived s) (totalDropped s) (reconnects s)
              (opened s) (shut s) in
  match inner s with Some h => shut_inner h s' | None => s' end.

Inductive rlabel := RGot (p : P) | RSent | RTaken (p : P) | RSlept (delay : Z) | RClosed | RStep.

Inductive rstep (s : resilientSource) : rlabel → resilientSource → Prop :=
(* the surroundings *)
| r_close : rstep s RClosed (resilient_Close s)
| r_take p l : rpackets s = p :: l → rstep s (RTaken p) (set_packets l s)
(* pumpLoop *)
| r_top_closed : pumping s = PTop → rclosed s = true → rstep s RStep (set_pump PExit s)
| r_top h : pumping s = PTop → rclosed s = false → inner s = Some h → rstep s RStep (set_pump (PAccumulate h) s)
| r_top_none : pumping s = PTop → rclosed s = false → inner s = None → rstep s RStep (set_pump PExit s)
| r_accumulate h st : pumping s = PAccumulate h → rstep s RStep (set_pump (PRange h) (accumulateStats st s))
| r_got h p : pumping s = PRange h → rstep s (RGot p) (set_pump (PSend h p) s)
| r_end h : pumping s = PRange h → rstep s RStep (set_pump (PEnded h) s)
| r_send h p : pumping s = PSend h p → zlen (rpackets s) < packetsCap →
    rstep s RSent (set_pump (PRange h) (set_packets (rpackets s ++ [p]) s))
| r_ended_closed h : pumping s = PEnded h → rclosed s = true → rstep s RStep (set_pump PExit s)
| r_ended h : pumping s = PEnded h → rclosed s = false → rstep s RStep (set_pump (PFinish h) s)
| r_finish h st : pumping s = PFinish h → rstep s RStep (set_pump (PRelease h) (accumulateStats st s))
| r_release h : pumping s = PRelease h → rstep s RStep (set_pump (PRetry reconnectInitialDelay) (shut_inner h s))
(* reconnect *)
| r_retry_closed d : pumping s = PRetry d → rclosed s = true → rstep s RStep (set_pump PExit s)
| r_retry d : pumping s = PRetry d → rclosed s = false → rstep s RStep (set_pump (PSleep d) (count_attempt s))
| r_slept d : pumping s = PSleep d → rstep s (RSlept d) (set_pump (PReopen d) s)
| r_reopen_closed d : pumping s = PReopen d → rclosed s = true → rstep s RStep (set_pump PExit s)
| r_reopen d : pumping s = PReopen d → rclosed s = false → rstep s RStep (set_pump (POpen d) s)
| r_open_fails d : pumping s = POpen d → rstep s RStep (set_pump (PRetry (next_delay d)) s)
| r_open d : pumping s = POpen d → rstep s RStep (set_pump (PInstall (opened s)) (open_inner s))
| r_install h : pumping s = PInstall h → rstep s RStep (set_pump PTop (set_inner (Some h) s)).

Inductive rrun : list rlabel → resilientSource → Prop :=
| rrun_nil : rrun [] NewResilientSource
| rrun_snoc tr s a s' : rrun tr s → rstep s a s' → rrun (tr ++ [a]) s'.

(** ** What a run shows *)
Definition got (tr : list rlabel) : list P := omap (λ a, match a with RGot p => Some p | _ => None end) tr.
Definition taken (tr : list rlabel) : list P := omap (λ a, match a with RTaken p => Some p | _ => None end) tr.
Definition slept (tr : list rlabel) : list Z := omap (λ a, match a with RSlept d => Some d | _ => None end) tr.

Definition in_hand (g : pump) : list P := match g with PSend _ p => [p] | _ => [] end.

(** The inner source the goroutine has in hand and has not closed. *)
Definition current (g : pump) (o : option nat) : option nat :=
  match g with
  | PTop => o
  | PAccumulate h | PRange h | PSend h _ | PEnded h | PFinish h | PRelease h | PInstall h => Some h
  | _ => None
  end.

Definition backing_off (g : pump) : option Z :=
  match g with PRetry d | PSleep d | PReopen d | POpen d => Some d | _ => None end.

(** The delays the back-off takes: one second, doubled at most four times. *)
Definition is_delay (d : Z) : Prop := ∃ k, 0 ≤ k ≤ 4 ∧ d = 2 ^ k * Second.

Record resilient_ok (s : resilientSource) (tr : list rlabel) : Prop := ResilientOk {
  ro_order : got tr = taken tr ++ rpackets s ++ in_hand (pumping s);
  ro_live : ∀ h, (h < opened s)%nat → h ∉ shut s → current (pumping s) (inner s) = Some h ∨ pumping s = PExit ∧ rclosed s = true ∧ S h = opened s;
  ro_last : ∀ h, current (pumping s) (inner s) = Some h → S h = opened s;
  ro_delay : ∀ d, backing_off (pumping s) = Some d → is_delay d;
  ro_slept : Forall is_delay (slept tr) }.

Lemma next_delay_ok d : is_delay d → is_delay (next_delay d).
Proof.
  intros (k & Hk & ->). unfold next_delay, reconnectMaxDelay. destruct (Z.ltb_spec (16 * Second) (2 ^ k * Second * 2)).
  - exists 4. split; [lia|]. done.
  - assert (k ≠ 4) by (intros ->; unfold Second in *; lia). exists (k + 1). split; [lia|].
    rewrite Z.pow_add_r by lia. lia.
Qed.

Lemma trace_snoc tr a :
  got (tr ++ [a]) = got tr ++ match a with RGot p => [p] | _ => [] end ∧
  taken (tr ++ [a]) = taken tr ++ match a with RTaken p => [p] | _ => [] end ∧
  slept (tr ++ [a]) = slept tr ++ match a with RSlept d => [d] | _ => [] end.
Proof. unfold got, taken, slept. rewrite !omap_app. by destruct a. Qed.

(** A step that moves the goroutine only. *)
Lemma ok_move s s' tr :
  resilient_ok s tr → rpackets s' = rpackets s → in_hand (pumping s') = in_hand (pumping s) →
  opened s' = opened s → shut s' = shut s → rclosed s' = rclosed s →
  (current (pumping s') (inner s') = current (pumping s) (inner s) ∨
   current (pumping s') (inner s') = None ∧ (pumping s' = PExit ∧ rclosed s = true ∨ current (pumping s) (inner s) = None)) →
  pumping s ≠ PExit →
  (∀ d, backing_off (pumping s') = Some d → is_delay d) → resilient_ok s' (tr ++ [RStep]).
Proof.
  intros [H1 H2 H3 H4 H5] Ep Eh Eo Es Ec Hcur Hne Hd. destruct (trace_snoc tr RStep) as (T1 & T2 & T3). rewrite app_nil_r in T1, T2, T3.
  split; rewrite ?T1, ?T2, ?T3, ?Ep, ?Eh, ?Eo, ?Es, ?Ec; try done.
  - intros h Hlt Hin. destruct (H2 h Hlt Hin) as [E|[? _]]; [|done].
    destruct Hcur as [->|[-> [[Hx Hc]|Hn]]]; [by left|right|by rewrite Hn in E]. split_and!; [done|done|]. by apply H3.
  - intros h Hc. apply H3. destruct Hcur as [<-|[Hn _]]; [done|]. by rewrite Hn in Hc.
Qed.

Ltac just_moves s Hp Hok :=
  apply (ok_move s); [done|done|cbn; by rewrite Hp|done|done|done|cbn; rewrite Hp; cbn; by auto|by rewrite Hp|];
  cbn; intros ? [=]; subst; apply (ro_delay _ _ Hok); by rewrite Hp.

Lemma close_ok s tr : resilient_ok s tr → resilient_ok (resilient_Close s) (tr ++ [RClosed]).
Proof.
  intros [H1 H2 H3 H4 H5]. destruct (trace_snoc tr RClosed) as (T1 & T2 & T3). rewrite app_nil_r in T1, T2, T3.
  unfold resilient_Close. destruct (rclosed s) eqn:Ec; [split; rewrite ?T1, ?T2, ?T3, ?Ec; done|].
  assert (∀ h, current (pumping s) None = Some h → current (pumping s) (inner s) = Some h) as Hcur
    by (by destruct (pumping s)).
  assert (∀ h, (h < opened s)%nat → h ∉ shut s → current (pumping s) None = Some h ∨ inner s = Some h) as Hlive.
  { intros h Hlt Hin. destruct (H2 h Hlt Hin) as [E|(_ & ? & _)]; [|done]. destruct (pumping s); auto. }
  destruct (inner s) as [g|] eqn:Ei; split; cbn; rewrite ?T1, ?T2, ?T3; try done.
  - intros h Hlt Hin. apply not_elem_of_app in Hin as [Hin Hg]. left.
    destruct (Hlive h Hlt Hin) as [?|[= <-]]; [done|]. set_solver.
  - intros h Hh. by apply H3, Hcur.
  - intros h Hlt Hin. left. by destruct (Hlive h Hlt Hin).
Qed.

Lemma resilient_step_ok s a s' tr : rstep s a s' → resilient_ok s tr → resilient_ok s' (tr ++ [a]).
Proof.
  intros Hs Hok. destruct (trace_snoc tr a) as (T1 & T2 & T3).
  destruct Hs as [|p l Hl|Hp Hc|h Hp Hc Hi|Hp Hc Hi|h st Hp|h p Hp|h Hp|h p Hp Hcap|h Hp Hc|h Hp Hc|h st Hp|h Hp
    |d Hp Hc|d Hp Hc|d Hp|d Hp Hc|d Hp Hc|d Hp|d Hp|h Hp];
    try destruct st as [[??]|]; try (by just_moves s Hp Hok); [by apply close_ok|..].
  all: pose proof Hok as [H1 H2 H3 H4 H5]; try rewrite app_nil_r in T1; try rewrite app_nil_r in T2; try rewrite app_nil_r in T3.
  all: try (rewrite Hp in H1, H2, H3, H4; cbn in H1, H2, H3, H4).
  - split; cbn; rewrite ?T1, ?T2, ?T3; try done. by rewrite H1, Hl, <- !app_assoc.
  - split; cbn; rewrite ?T1, ?T2, ?T3; try done; [by rewrite H1, app_nil_r, <- !app_assoc|].
    intros ? Hlt Hin. destruct (H2 _ Hlt Hin) as [?|[? _]]; [by left|done].
  - split; cbn; rewrite ?T1, ?T2, ?T3; try done; [by rewrite H1, app_nil_r|].
    intros ? Hlt Hin. destruct (H2 _ Hlt Hin) as [?|[? _]]; [by left|done].
  - split; cbn; rewrite ?T1, ?T2, ?T3; try done.
    + intros h' Hlt Hin. apply not_elem_of_app in Hin as [Hin Hg].
      destruct (H2 h' Hlt Hin) as [[= <-]|[? _]]; [set_solver|done].
    + intros d [= <-]. exists 0. done.
  - split; cbn; rewrite ?T1, ?T2, ?T3; try done.
    + intros ? Hlt Hin. by destruct (H2 _ Hlt Hin) as [?|[? _]].
    + apply Forall_app. split; [done|]. apply Forall_singleton. by apply H4.
  - apply (ok_move s); cbn; rewrite ?Hp; cbn; try done; [by auto|].
    intros d' [= <-]. by apply next_delay_ok, H4.
  - split; cbn; rewrite ?T1, ?T2, ?T3; try done.
    + intros h Hlt Hin. destruct (decide (h = opened s)) as [->|Hne]; [by left|].
      destruct (H2 h ltac:(lia) Hin) as [?|[? _]]; done.
    + by intros h [= <-].
Qed.

Lemma resilient_run_ok tr s : rrun tr s → resilient_ok s tr.
Proof.
  induction 1 as [|tr s a s' _ IH Hs]; [|by eapply resilient_step_ok].
  split; try done; cbn; [|by intros h [= <-]]. intros h Hlt _. left. f_equal. lia.
Qed.

(** Under every interleaving of the pump, the consumer and closers, packets reach the
    consumer across reconnections in the order in which the inner sources delivered
    them, none lost or doubled; never more than one inner source is open, the one
    that was opened last; and the pauses between attempts are 1, 2, 4, 8 or 16
    seconds. *)
Theorem resilient_safe tr s :
  rrun tr s →
  taken tr `prefix_of` got tr ∧ got tr = taken tr ++ rpackets s ++ in_hand (pumping s) ∧
  (∀ h, (h < opened s)%nat → h ∉ shut s → S h = opened s) ∧
  Forall (λ d, d ∈ [1 * Second; 2 * Second; 4 * Second; 8 * Second; 16 * Second]) (slept tr).
Proof.
  intros [H1 H2 H3 _ H5]%resilient_run_ok. split_and!; [|done|..].
  - rewrite H1. by apply prefix_app_r.
  - intros h Hlt Hin. destruct (H2 h Hlt Hin) as [?|(_ & _ & ?)]; [by apply H3|done].
  - eapply Forall_impl; [done|]. intros d (k & Hk & ->).
    assert (k = 0 ∨ k = 1 ∨ k = 2 ∨ k = 3 ∨ k = 4) as [->|[->|[->|[->| ->]]]] by lia; apply (bool_decide_unpack _); vm_compute; exact I.
Qed.

(** A pump that holds a packet for a full channel does not notice [Close]: until the
    consumer reads, no step of it is possible. *)
Theorem resilient_close_stuck s h p a s' :
  pumping s = PSend h p → packetsCap ≤ zlen (rpackets s) → rstep s a s' →
  pumping s' = PSend h p ∧ (a = RClosed ∨ ∃ q, a = RTaken q).
Proof.
  intros Hp Hf Hs. destruct Hs as [| | | | | | | |h' p' Hp' Hcap| | | | | | | | | | | |]; try congruence;
    cbn; (split; [try (unfold resilient_Close; repeat case_match; done)|eauto]); try lia.
  all: rewrite Hp in Hp'; simplify_eq; lia.
Qed.
End resilient.

(** ** Concrete runs *)
Inductive rsteps {P} (s : resilientSource (P := P)) : list rlabel → resilientSource → Prop :=
| rsteps_nil : rsteps s [] s
| rsteps_cons a s1 tr s2 : rstep s a s1 → rsteps s1 tr s2 → rsteps s (a :: tr) s2.

Lemma rsteps_rrun {P} tr (s : resilientSource (P := P)) tr' s' : rrun tr s → rsteps s tr' s' → rrun (tr ++ tr') s'.
Proof.
  intros Hr Hs. revert tr Hr. induction Hs as [|s a s1 tr' s2 Hs _ IH]; intros tr Hr; [by rewrite app_nil_r|].
  rewrite cons_middle, app_assoc. apply IH. by eapply rrun_snoc.
Qed.

Ltac go r := eapply rsteps_cons; [eapply r; reflexivity|].

Module ResilientDemo.
(** The first inner source delivers 7 and ends; the second attempt opens another,
    which delivers 8. *)
Lemma reconnects_run : ∃ tr s, rrun tr s ∧ got tr = [7; 8]%nat ∧ taken tr = [7]%nat ∧ slept tr = [1 * Second; 2 * Second].
Proof.
  eexists _, _. split.
  - eapply (rsteps_rrun [] NewResilientSource); [apply rrun_nil|].
    go @r_top. eapply rsteps_cons; [apply (r_accumulate _ 0 None); reflexivity|].
    eapply rsteps_cons; [apply (r_got _ 0 7%nat); reflexivity|]. go @r_send. go @r_take. go @r_end. go @r_ended.
    eapply rsteps_cons; [apply (r_finish _ 0 None); reflexivity|]. go @r_release. go @r_retry. go @r_slept. go @r_reopen.
    go @r_open_fails. go @r_retry. go @r_slept. go @r_reopen. go @r_open. go @r_install. go @r_top.
    eapply rsteps_cons; [apply (r_accumulate _ 1 None); reflexivity|].
    eapply rsteps_cons; [apply (r_got _ 1 8%nat); reflexivity|]. apply rsteps_nil.
  - by vm_compute.
Qed.
End ResilientDemo.

Lemma resilient_safe_witness : ∃ tr : list (rlabel (P := nat)), taken tr = [7]%nat ∧ taken tr `prefix_of` got tr ∧ got tr = [7; 8]%nat.
Proof.
  destruct ResilientDemo.reconnects_run as (tr & s & Hr & Hg & Ht & _). exists tr.
  destruct (resilient_safe tr s Hr) as [H _]. split_and!; [exact Ht|exact H|exact Hg].
Defined.

(** [Close] during the call that reopens the source: the new source is installed
    after it, and never closed. *)
Theorem resilient_leaks :
  ∃ tr (s : resilientSource (P := nat)), rrun tr s ∧ rclosed s = true ∧ pumping s = PExit ∧
    opened s = 2%nat ∧ 1%nat ∉ shut s.
Proof.
  eexists _, _. split.
  - eapply (rsteps_rrun [] NewResilientSource); [apply rrun_nil|].
    go @r_top. eapply rsteps_cons; [apply (r_accumulate _ 0 None); reflexivity|]. go @r_end. go @r_ended.
    eapply rsteps_cons; [apply (r_finish _ 0 None); reflexivity|]. go @r_release. go @r_retry. go @r_slept. go @r_reopen.
    eapply rsteps_cons; [apply r_close|]. go @r_open. go @r_install. go @r_top_closed. apply rsteps_nil.
  - split_and!; [reflexivity|reflexivity|reflexivity|]. cbn. set_solver.
Qed.

(** The counters restart with every source: after a reconnection the 100 packets of
    the first source are forgotten. *)
Theorem resilient_stats_restart :
  ∃ tr (s : resilientSource (P := nat)), rrun tr s ∧ opened s = 2%nat ∧ totalReceived s = 5 ∧
    resilient_Stats (Some (5, 0)) s = (5, 0) ∧ resilient_Stats None s = (5, 0).
Proof.
  eexists _, _. split.
  - eapply (rsteps_rrun [] NewResilientSource); [apply rrun_nil|].
    go @r_top. eapply rsteps_cons; [apply (r_accumulate _ 0 None); reflexivity|]. go @r_end. go @r_ended.
    eapply rsteps_cons; [apply (r_finish _ 0 (Some (100, 0))); reflexivity|].
    go @r_release. go @r_retry. go @r_slept. go @r_reopen. go @r_open. go @r_install. go @r_top.
    eapply rsteps_cons; [apply (r_accumulate _ 1 (Some (5, 0))); reflexivity|]. apply rsteps_nil.
  - by vm_compute.
Qed.
