(* ===== verification/Reassembler.v ===== *)
(** * The TCP reassembler (src/pkg/capture/reassembler.go)

    What the reassembler does around the gopacket assembler: it extracts the
    four-tuple of a packet, names the connection from the client's side whichever
    side was seen first, and passes the assembler's callbacks on to the stream
    handler.  The assembler itself is a parameter: it answers a segment or a flush
    with a list of callbacks. *)
From Stdlib Require Import String Ascii.
From S2P Require Import Prelude Core Classifier ClassifierFacts Filter Processor ProcessorFacts Stamping EbpfSource CaptureConfig Scenarios.

(** ** Packets *)

(** [netip.AddrFromSlice] and [Unmap]. *)
Definition AddrFromSlice (b : list Z) : option Addr :=
  if (zlen b =? 4) then Some (Addr4 b) else if (zlen b =? 16) then Some (Addr16 b) else None.

Definition mapped_prefix : list Z := replicate 10 0 ++ [255; 255].

Definition Unmap (a : Addr) : Addr :=
  match a with
  | Addr16 b => if bool_decide (take 12 b = mapped_prefix) then Addr4 (drop 12 b) else a
  | _ => a
  end.

(** The layers gopacket decoded: the raw network addresses and the TCP ports. *)
Record packet := MkPacket { net : option (list Z * list Z); tcp : option (Z * Z) }.

Record captureContext := MkContext { srcIP : Addr; dstIP : Addr; srcPort : Z; dstPort : Z }.

(** [Assemble] up to the call of the assembler: the context it is given. *)
Definition Assemble_context (pkt : option packet) : option captureContext :=
  p ← pkt; '(src, dst) ← net p; '(sp, dp) ← tcp p;
  s ← AddrFromSlice src; d ← AddrFromSlice dst;
  Some (MkContext (Unmap s) (Unmap d) sp dp).

(** ** Streams *)
Record stream := MkStream { sconn : ConnID; firstFromClient : bool }.

(** [streamFactory.New]; the context is the one of the packet that created the
    connection, or nil. *)
Definition factory_New (serverPort : Z) (ac : option captureContext) : stream :=
  match ac with
  | None => MkStream (MkConnID AddrZero 0 AddrZero 0) true
  | Some cc =>
      let first :=
        if dstPort cc =? serverPort then true
        else if srcPort cc =? serverPort then false
        else true in
      MkStream
        (if first then MkConnID (srcIP cc) (srcPort cc) (dstIP cc) (dstPort cc)
         else MkConnID (dstIP cc) (dstPort cc) (srcIP cc) (srcPort cc)) first
  end.

(** Direction relative to the packet that created the connection. *)
Inductive TCPFlowDirection := TCPDirClientToServer | TCPDirServerToClient.

Inductive handler_call :=
| CallBytes (conn : ConnID) (fromClient : bool) (data : list Z)
| CallClose (conn : ConnID).

(** [Accept] admits the segment and forces the start of the stream. *)
Definition Accept : bool * bool := (true, true).

(** [ReassembledSG]: [data] are the bytes available, [skip] the bytes the assembler
    gave up on before them. *)
Definition ReassembledSG (s : stream) (dir : TCPFlowDirection) (skip : Z) (data : list Z) : list handler_call :=
  match data with
  | [] => []
  | _ =>
      let fromClient := match dir with
                        | TCPDirClientToServer => firstFromClient s
                        | TCPDirServerToClient => negb (firstFromClient s)
                        end in
      [CallBytes (sconn s) fromClient data]
  end.

Definition ReassemblyComplete (s : stream) : list handler_call := [CallClose (sconn s)].

(** ** The reassembler over an assembler *)
Inductive callback :=
| CbNew (id : nat) (ac : option captureContext)
| CbReassembled (id : nat) (dir : TCPFlowDirection) (skip : Z) (data : list Z)
| CbComplete (id : nat).

(** The streams the factory made, by the connection the assembler has for them. *)
Record streamReassembler := MkReassembler {
  serverPort : Z; streams : gmap nat stream; closedCount : Z }.

Definition NewReassembler (cfg : CaptureConfig) : streamReassembler :=
  MkReassembler (wrap 16 (or_int (Port cfg) DefaultPort)) ∅ 0.

Definition on_callback (r : streamReassembler) (cb : callback) : streamReassembler * list handler_call :=
  match cb with
  | CbNew id ac => (MkReassembler (serverPort r) (<[id := factory_New (serverPort r) ac]> (streams r)) (closedCount r), [])
  | CbReassembled id dir skip data =>
      (r, match streams r !! id with Some s => ReassembledSG s dir skip data | None => [] end)
  | CbComplete id =>
      match streams r !! id with
      | Some s =>
          (MkReassembler (serverPort r) (delete id (streams r)) (signed 64 (closedCount r + 1)), ReassemblyComplete s)
      | None => (r, [])
      end
  end.

Fixpoint on_callbacks (r : streamReassembler) (cbs : list callback) : streamReassembler * list handler_call :=
  match cbs with
  | [] => (r, [])
  | cb :: cbs =>
      let '(r1, out1) := on_callback r cb in
      let '(r2, out2) := on_callbacks r1 cbs in
      (r2, out1 ++ out2)
  end.

(** A flush that makes the callbacks [cbs] reports how many connections it released. *)
Definition FlushOlderThan (r : streamReassembler) (cbs : list callback) : streamReassembler * list handler_call * Z :=
  let '(r', out) := on_callbacks r cbs in
  (r', out, signed 64 (closedCount r' - closedCount r)).

(** ** Orientation *)

(** The same connection, seen from the other side. *)
Definition flip (cc : captureContext) : captureContext := MkContext (dstIP cc) (srcIP cc) (dstPort cc) (srcPort cc).
Definition flip_dir (d : TCPFlowDirection) : TCPFlowDirection :=
  match d with TCPDirClientToServer => TCPDirServerToClient | TCPDirServerToClient => TCPDirClientToServer end.

(** Exactly one end of the connection is on the server's port. *)
Definition one_server (port : Z) (cc : captureContext) : Prop :=
  (srcPort cc = port ∧ dstPort cc ≠ port) ∨ (srcPort cc ≠ port ∧ dstPort cc = port).

(** The port of the end that sent data of a direction. *)
Definition sender_port (cc : captureContext) (d : TCPFlowDirection) : Z :=
  match d with TCPDirClientToServer => srcPort cc | TCPDirServerToClient => dstPort cc end.

Lemma factory_first port cc :
  one_server port cc →
  factory_New port (Some cc) =
    if bool_decide (dstPort cc = port)
    then MkStream (MkConnID (srcIP cc) (srcPort cc) (dstIP cc) (dstPort cc)) true
    else MkStream (MkConnID (dstIP cc) (dstPort cc) (srcIP cc) (srcPort cc)) false.
Proof.
  intros Hc. unfold factory_New. case_bool_decide as Hd; [by rewrite Hd, Z.eqb_refl|].
  destruct Hc as [[-> _]|[_ ?]]; [|done]. by rewrite (proj2 (Z.eqb_neq _ _) Hd), Z.eqb_refl.
Qed.

Lemma flip_one_server port cc : one_server port cc → one_server port (flip cc).
Proof. unfold one_server. cbn. tauto. Qed.

Lemma factory_flip port cc :
  one_server port cc →
  factory_New port (Some (flip cc)) =
    MkStream (sconn (factory_New port (Some cc))) (negb (firstFromClient (factory_New port (Some cc)))).
Proof.
  intros Hc. rewrite !factory_first by (done || by apply flip_one_server). cbn [flip srcIP dstIP srcPort dstPort].
  destruct Hc as [[Hs Hd]|[Hs Hd]].
  - by rewrite (bool_decide_true (srcPort cc = port)), (bool_decide_false (dstPort cc = port)).
  - by rewrite (bool_decide_true (dstPort cc = port)), (bool_decide_false (srcPort cc = port)).
Qed.

(** Data of a connection with one end on the server's port is delivered under the
    client's four-tuple, flagged by who sent it. *)
Lemma delivered port cc dir skip data :
  one_server port cc → data ≠ [] →
  ∃ c, ReassembledSG (factory_New port (Some cc)) dir skip data =
         [CallBytes c (bool_decide (sender_port cc dir ≠ port)) data] ∧
       DstPort c = port ∧ SrcPort c ≠ port.
Proof.
  intros Hc Hd. rewrite factory_first by done. unfold ReassembledSG. destruct data; [done|].
  destruct Hc as [[Hs Hp]|[Hs Hp]].
  - rewrite (bool_decide_false (dstPort cc = port)) by done.
    exists (MkConnID (dstIP cc) (dstPort cc) (srcIP cc) (srcPort cc)). split; [|by split].
    destruct dir; cbn [sender_port firstFromClient negb sconn].
    + by rewrite (bool_decide_false (srcPort cc ≠ port)) by tauto.
    + by rewrite (bool_decide_true (dstPort cc ≠ port)).
  - rewrite (bool_decide_true (dstPort cc = port)) by done.
    exists (MkConnID (srcIP cc) (srcPort cc) (dstIP cc) (dstPort cc)). split; [|by split].
    destruct dir; cbn [sender_port firstFromClient negb sconn].
    + by rewrite (bool_decide_true (srcPort cc ≠ port)).
    + by rewrite (bool_decide_false (dstPort cc ≠ port)) by tauto.
Qed.

(** Two contexts get the same name only when they are the two sides of one
    connection. *)
Lemma factory_inj port cc cc' :
  one_server port cc → one_server port cc' →
  sconn (factory_New port (Some cc)) = sconn (factory_New port (Some cc')) → cc' = cc ∨ cc' = flip cc.
Proof.
  intros Hc Hc'. rewrite !factory_first by done. destruct cc, cc'. unfold one_server, flip in *. cbn in *.
  repeat case_bool_decide; cbn; intros [= -> -> -> ->]; tauto.
Qed.

(** The callbacks of an assembler that saw the other side first on the connections
    of [F]. *)
Definition flip_callback (F : nat → bool) (cb : callback) : callback :=
  match cb with
  | CbNew id ac => CbNew id (if F id then flip <$> ac else ac)
  | CbReassembled id dir skip data => CbReassembled id (if F id then flip_dir dir else dir) skip data
  | CbComplete id => CbComplete id
  end.

Definition oriented (port : Z) (cb : callback) : Prop :=
  match cb with CbNew _ ac => ∃ cc, ac = Some cc ∧ one_server port cc | _ => True end.

Definition same_stream (f : bool) (s s' : option stream) : Prop :=
  match s, s' with
  | Some s, Some s' => sconn s' = sconn s ∧ firstFromClient s' = xorb f (firstFromClient s)
  | None, None => True
  | _, _ => False
  end.

Definition same_side (F : nat → bool) (r r' : streamReassembler) : Prop :=
  serverPort r' = serverPort r ∧ closedCount r' = closedCount r ∧
  ∀ id, same_stream (F id) (streams r !! id) (streams r' !! id).

Lemma same_side_callback F r r' cb :
  same_side F r r' → oriented (serverPort r) cb →
  same_side F (on_callback r cb).1 (on_callback r' (flip_callback F cb)).1 ∧
  (on_callback r' (flip_callback F cb)).2 = (on_callback r cb).2.
Proof.
  intros (Hp & Hn & Hs) Ho. destruct cb as [id ac|id dir skip data|id]; cbn [flip_callback on_callback].
  - split; [|done]. split_and!; [done|done|]. cbn. intros id'. destruct (decide (id = id')) as [<-|Hne].
    + rewrite !lookup_insert_eq. destruct Ho as (cc & -> & Ho). rewrite Hp.
      destruct (F id); cbn [fmap option_fmap option_map same_stream]; [rewrite factory_flip by done|];
        generalize (factory_New (serverPort r) (Some cc)) as s; intros [c []]; done.
    + by rewrite !lookup_insert_ne by done.
  - split; [done|]. specialize (Hs id). cbn. destruct (streams r !! id) as [s|], (streams r' !! id) as [s'|]; try done.
    destruct Hs as [Hc Hf]. unfold ReassembledSG. destruct data; [done|]. rewrite Hc, Hf.
    by destruct (F id), dir, (firstFromClient s).
  - pose proof (Hs id) as Hi. destruct (streams r !! id) as [s|], (streams r' !! id) as [s'|]; try done.
    destruct Hi as [Hc _]. cbn. unfold ReassemblyComplete. rewrite Hc. split; [|done].
    split_and!; cbn; [done|by rewrite Hn|]. intros id'. destruct (decide (id = id')) as [<-|Hne].
    + by rewrite !lookup_delete_eq.
    + by rewrite !lookup_delete_ne by done.
Qed.

Lemma on_callback_port r cb : serverPort (on_callback r cb).1 = serverPort r.
Proof. destruct cb; cbn; repeat case_match; done. Qed.

Lemma same_side_callbacks F r r' cbs :
  same_side F r r' → Forall (oriented (serverPort r)) cbs →
  (on_callbacks r' (flip_callback F <$> cbs)).2 = (on_callbacks r cbs).2.
Proof.
  revert r r'. induction cbs as [|cb cbs IH]; intros r r' Hr Ho; [done|].
  apply Forall_cons in Ho as [Ho Hos]. destruct (same_side_callback F r r' cb Hr Ho) as [Hr1 Hout].
  rewrite fmap_cons. cbn [on_callbacks]. pose proof (on_callback_port r cb) as Hp.
  destruct (on_callback r cb) as [r1 out1], (on_callback r' _) as [r1' out1']. cbn in *. subst.
  rewrite <- Hp in Hos. specialize (IH r1 r1' Hr1 Hos).
  destruct (on_callbacks r1 cbs), (on_callbacks r1' _). cbn in *. by subst.
Qed.


(** ** Counting *)
Definition is_close (c : handler_call) : bool := match c with CallClose _ => true | _ => false end.

Lemma on_callbacks_closed r cbs :
  let '(r', out) := on_callbacks r cbs in
  wrap 64 (closedCount r') = wrap 64 (closedCount r + zlen (List.filter is_close out)) ∧
  zlen (List.filter is_close out) ≤ zlen cbs.
Proof.
  revert r. induction cbs as [|cb cbs IH]; intros r; [cbn; rewrite Z.add_0_r; done|]. cbn [on_callbacks].
  assert (wrap 64 (closedCount (on_callback r cb).1) =
    wrap 64 (closedCount r + zlen (List.filter is_close (on_callback r cb).2)) ∧
    zlen (List.filter is_close (on_callback r cb).2) ≤ 1) as [H1 H2].
  { destruct cb as [id ac|id dir skip data|id]; cbn.
    - by rewrite Z.add_0_r.
    - destruct (streams r !! id) as [s|]; [|by rewrite Z.add_0_r]. unfold ReassembledSG. destruct data; cbn; by rewrite Z.add_0_r.
    - destruct (streams r !! id) as [s|]; cbn; [|by rewrite Z.add_0_r]. split; [by apply wrap_signed|done]. }
  destruct (on_callback r cb) as [r1 out1]. specialize (IH r1). destruct (on_callbacks r1 cbs) as [r2 out2].
  destruct IH as [IH1 IH2]. cbn in H1, H2. rewrite List.filter_app, zlen_app, zlen_cons. split; [|lia].
  rewrite IH1, <- wrap_add_l, H1, wrap_add_l. f_equal. lia.
Qed.

(** The number a flush returns is the number of connections it closed. *)
Lemma flush_reports r cbs :
  zlen cbs < 2 ^ 63 →
  let '(_, out, n) := FlushOlderThan r cbs in n = zlen (List.filter is_close out).
Proof.
  intros Hl. unfold FlushOlderThan. pose proof (on_callbacks_closed r cbs) as Hc.
  destruct (on_callbacks r cbs) as [r' out]. destruct Hc as [Hc Hle]. pose proof (zlen_nonneg (List.filter is_close out)).
  assert (wrap 64 (closedCount r' - closedCount r) = zlen (List.filter is_close out)) as E.
  { unfold Z.sub. rewrite <- wrap_add_l, Hc, wrap_add_l. rewrite wrap_small; [lia|unfold in_width; lia]. }
  unfold signed. rewrite E. by rewrite (proj2 (Z.ltb_lt _ _)) by lia.
Qed.

(** ** Concrete histories *)
Module ReassemblerDemo.
#[local] Existing Instance ClassifierDemo.ascii.
Local Open Scope string_scope.

Definition cfg : CaptureConfig := MkCaptureConfig (bytes_of "eth0") 5432 [] [] 0 true 0 [] 0.
Definition client : captureContext := MkContext (Addr4 [10; 0; 0; 1]) (Addr4 [10; 0; 0; 2]) 40000 5432.

(** The handler calls as the processor receives them. *)
Definition inputs (cs : list handler_call) : list input :=
  (λ c, match c with CallBytes conn fc data => Bytes conn fc data 1%Z | CallClose conn => Closed conn end) <$> cs.

Definition sent : list Z :=
  Scenario.client_bytes [Scenario.query "delete from t where id = 7"; Scenario.query "select 1"].

(** The client's bytes without the segment [from, to). *)
Definition history (from to : nat) : list callback :=
  [CbNew 0 (Some client); CbReassembled 0 TCPDirClientToServer 0 (take from sent);
   CbReassembled 0 TCPDirClientToServer (Z.of_nat (to - from)) (drop to sent)].

Definition statements (cbs : list callback) : list (list Z) :=
  SQL <$> enqueued_events (outs (run (inputs (on_callbacks (NewReassembler cfg) cbs).2)) Scenario.s0).
End ReassemblerDemo.


(** Bytes the assembler skipped are not reported: what follows a lost segment is
    joined to what came before it.  Here the segment with "where id = 7" is lost, and
    the statement is completed by the next message. *)
Theorem lost_segment_changes_statement :
  ReassemblerDemo.statements (ReassemblerDemo.history 28 41) =
  [bytes_of "delete from t Q" ++ [0; 0; 0; 13] ++ bytes_of "select 1"].
Proof. vm_compute. reflexivity. Qed.

(** When neither end is on the configured port, the side seen first is taken for the
    client: a capture that starts with the server's packet names the connection from
    the server's side and delivers the server's bytes as the client's. *)
Theorem orientation_guessed port cc data :
  srcPort cc ≠ port → dstPort cc ≠ port → data ≠ [] →
  ReassembledSG (factory_New port (Some (flip cc))) TCPDirClientToServer 0 data =
    [CallBytes (MkConnID (dstIP cc) (dstPort cc) (srcIP cc) (srcPort cc)) true data] ∧
  ReassembledSG (factory_New port (Some cc)) TCPDirServerToClient 0 data =
    [CallBytes (MkConnID (srcIP cc) (srcPort cc) (dstIP cc) (dstPort cc)) false data].
Proof.
  intros Hs Hd Hne. unfold factory_New, ReassembledSG. cbn [flip srcPort dstPort srcIP dstIP].
  rewrite !(proj2 (Z.eqb_neq _ _) Hs), !(proj2 (Z.eqb_neq _ _) Hd). by destruct data.
Qed.
