(* ===== verification/Lifecycle.v ===== *)
(** * Startup, the running pipeline and shutdown (src/cmd/pgshadow/main.go,
      pipeline.go, src/internal/monitor/monitor.go)

    The process as the sequence of resources it acquires and releases: the ordered
    startup, the operations on the running pipeline (pause, resume, restart after a
    failover), the drain, and the failover detector; the control server that calls
    them is [Control].  The operations hold the pipeline's mutex, so each is one
    step.  Whether an external resource opens, and whether a wait times out, is an
    argument. *)
From Stdlib Require Import String Ascii.
From S2P Require Import Prelude Classifier CaptureConfig.

(** ** Resources *)
Inductive resource := RExport | RCapture (h : nat) | RQueue | RPool.

#[export] Instance resource_eq_dec : EqDecision resource.
Proof. solve_decision. Defined.

Inductive action :=
| Acquired (r : resource)
| Released (r : resource)
| ConsumerCancelled
| ConsumerStopped.

(** What [components] holds; a capture is its handle. *)
Record components := MkComponents {
  c_export : bool; c_capture : option nat; c_queue : bool; c_pool : bool }.

Definition release_if (b : bool) (r : resource) : list action := if b then [Released r] else [].
Definition release_capture (o : option nat) : list action :=
  match o with Some h => [Released (RCapture h)] | None => [] end.

Definition components_Close (c : components) : list action :=
  release_if (c_pool c) RPool ++ release_if (c_queue c) RQueue ++ release_capture (c_capture c) ++
  release_if (c_export c) RExport.

(** ** Startup *)

(** Which of the steps succeed. *)
Record deps := MkDeps {
  loadConfig : bool; newErrorExporter : bool; openCapture : bool; newQueue : bool; newPool : bool }.

Inductive startup_error := ConfigError | MetricsError | CaptureError | QueueError | PoolError.

Definition startup (d : deps) : result startup_error components * list action :=
  if negb (loadConfig d) then (Err ConfigError, []) else
  let c := MkComponents false None false false in
  if negb (newErrorExporter d) then (Err MetricsError, components_Close c) else
  let c := MkComponents true None false false in
  let log := [Acquired RExport] in
  if negb (openCapture d) then (Err CaptureError, log ++ components_Close c) else
  let c := MkComponents true (Some 0%nat) false false in
  let log := log ++ [Acquired (RCapture 0)] in
  if negb (newQueue d) then (Err QueueError, log ++ components_Close c) else
  let c := MkComponents true (Some 0%nat) true false in
  let log := log ++ [Acquired RQueue] in
  if negb (newPool d) then (Err PoolError, log ++ components_Close c) else
  (Ok (MkComponents true (Some 0%nat) true true), log ++ [Acquired RPool]).

(** ** The running pipeline *)

(** [prod] is the producer that [prodCancel] stops, named by the capture it reads;
    [running] are the producers whose goroutines run. *)
Record pipelineState := MkPipeline {
  comps : components; pmode : list Z; sourceHost : list Z; prod : nat; paused : bool;
  running : gset nat; fresh : nat }.

Definition set_capture (o : option nat) (c : components) : components :=
  MkComponents (c_export c) o (c_queue c) (c_pool c).

Definition running_pipeline (mode host : list Z) (c : components) (h : nat) : pipelineState :=
  MkPipeline c mode host h false {[h]} (S h).

(** [builds] tells whether [NewStreamProcessor] accepts the configuration; if not,
    nothing is started. *)
Definition startPipeline (builds : bool) (mode host : list Z) (c : components) (h : nat) : option pipelineState :=
  if builds then Some (running_pipeline mode host c h) else None.

(** Cancel the current producer, close the capture and wait for the producer. *)
Definition stop_producer (p : pipelineState) : pipelineState * list action :=
  (MkPipeline (comps p) (pmode p) (sourceHost p) (prod p) (paused p) (running p ∖ {[prod p]}) (fresh p),
   release_capture (c_capture (comps p))).

(** Open a capture and start a producer on it. *)
Definition start_producer (p : pipelineState) : pipelineState * list action :=
  let h := fresh p in
  (MkPipeline (set_capture (Some h) (comps p)) (pmode p) (sourceHost p) h (paused p) ({[h]} ∪ running p) (S h),
   [Acquired (RCapture h)]).

Definition set_paused (b : bool) (p : pipelineState) : pipelineState :=
  MkPipeline (comps p) (pmode p) (sourceHost p) (prod p) b (running p) (fresh p).
Definition drop_capture (p : pipelineState) : pipelineState :=
  MkPipeline (set_capture None (comps p)) (pmode p) (sourceHost p) (prod p) (paused p) (running p) (fresh p).
Definition set_host (ip : list Z) (p : pipelineState) : pipelineState :=
  MkPipeline (comps p) (pmode p) ip (prod p) (paused p) (running p) (fresh p).

Definition pauseCapture (p : pipelineState) : pipelineState * list action :=
  if paused p then (p, []) else
  let '(p, acts) := stop_producer p in
  (set_paused true (drop_capture p), acts).

(** [opens] tells whether [capture.Open] succeeds; the boolean is the error. *)
Definition resumeCapture (opens : bool) (p : pipelineState) : bool * pipelineState * list action :=
  if negb (paused p) then (false, p, []) else
  if negb opens then (true, p, []) else
  let '(p, acts) := start_producer p in
  (false, set_paused false p, acts).

Definition restartCapture (newIP : list Z) (opens : bool) (p : pipelineState) : pipelineState * list action :=
  if bool_decide (pmode p = ModeEBPF) || bool_decide (pmode p = ModeEBPFSSL) then (p, []) else
  let '(p, acts) := stop_producer p in
  let p := set_host newIP p in
  if negb opens then (drop_capture p, acts) else
  let '(p, acts') := start_producer p in
  (p, acts ++ acts').

(** The drain; [t1] and [t2] tell whether the wait for the producer and the wait
    for the consumer time out. *)
Definition drainWithin (t1 t2 : bool) (p : pipelineState) : pipelineState * list action :=
  let '(p', acts) := stop_producer p in
  let c := comps p in
  (MkPipeline (MkComponents (c_export c) None false false) (pmode p) (sourceHost p) (prod p) (paused p)
     (if t1 then running p else running p') (fresh p),
   acts ++ release_if (c_queue c) RQueue ++ (if t1 || t2 then [ConsumerCancelled] else []) ++
   [ConsumerStopped] ++ release_if (c_pool c) RPool).

(** ** Sequences of operations *)
Inductive op := OpPause | OpResume (opens : bool) | OpRestart (ip : list Z) (opens : bool).

Definition do_op (p : pipelineState) (o : op) : pipelineState * list action :=
  match o with
  | OpPause => pauseCapture p
  | OpResume opens => let '(_, p, acts) := resumeCapture opens p in (p, acts)
  | OpRestart ip opens => restartCapture ip opens p
  end.

Fixpoint do_ops (p : pipelineState) (os : list op) : pipelineState * list action :=
  match os with
  | [] => (p, [])
  | o :: os =>
      let '(p, a1) := do_op p o in
      let '(p, a2) := do_ops p os in
      (p, a1 ++ a2)
  end.

(** The whole process once its flags are parsed: startup, the start of the pipeline, operations, drain, and
    the deferred [Close], which is all that runs when the pipeline does not start. *)
Definition process (mode host : list Z) (d : deps) (builds : bool) (os : list op) (t1 t2 : bool) : list action :=
  match startup d with
  | (Err _, acts) => acts
  | (Ok c, acts) =>
      match startPipeline builds mode host c 0 with
      | None => acts ++ components_Close c
      | Some p =>
          let '(p, a1) := do_ops p os in
          let '(p, a2) := drainWithin t1 t2 p in
          acts ++ a1 ++ a2 ++ components_Close (comps p)
      end
  end.

(** ** The failover detector *)

(** One tick of [monitorLoop]: the new address, and the call of [onFailover]. *)
Definition check_failover (currentIP : list Z) (resolved : list Z) : list Z * option (list Z * list Z) :=
  if negb (bool_decide (resolved = [])) && negb (bool_decide (resolved = currentIP))
  then (resolved, Some (currentIP, resolved)) else (currentIP, None).

(** ** One producer at a time *)
Definition acquired (acts : list action) : list resource :=
  omap (λ a, match a with Acquired r => Some r | _ => None end) acts.
Definition released (acts : list action) : list resource :=
  omap (λ a, match a with Released r => Some r | _ => None end) acts.

#[local] Arguments acquired : simpl never.
#[local] Arguments released : simpl never.

(** The capture the components hold. *)
Definition held (p : pipelineState) : list resource :=
  match c_capture (comps p) with Some h => [RCapture h] | None => [] end.

(** No failover restarts a capture that is paused. *)
Fixpoint calm (p : pipelineState) (os : list op) : bool :=
  match os with
  | [] => true
  | o :: os => match o with OpRestart _ _ => negb (paused p) | _ => true end && calm (do_op p o).1 os
  end.

(** What an operation loses: a resumption opens a capture in place of the one that is
    held, without closing that. *)
Definition loses (p : pipelineState) (o : op) : list resource :=
  match o with OpResume true => if paused p then held p else [] | _ => [] end.
Fixpoint leaks (p : pipelineState) (os : list op) : list resource :=
  match os with
  | [] => []
  | o :: os => loses p o ++ leaks (do_op p o).1 os
  end.
Definition leaked (mode host : list Z) (d : deps) (builds : bool) (os : list op) : list resource :=
  match (startup d).1 with
  | Ok c => match startPipeline builds mode host c 0 with Some p => leaks p os | None => [] end
  | Err _ => []
  end.

Record pipeline_ok (p : pipelineState) : Prop := PipelineOk {
  ok_running : running p = match c_capture (comps p) with Some h => {[h]} | None => ∅ end;
  ok_prod : ∀ h, c_capture (comps p) = Some h → prod p = h ∧ (h < fresh p)%nat;
  ok_paused : paused p = true → c_capture (comps p) = None }.

(** The resources that are not captures. *)
Definition others (c : components) : bool * bool * bool := (c_export c, c_queue c, c_pool c).

Lemma acquired_app a b : acquired (a ++ b) = acquired a ++ acquired b.
Proof. apply omap_app. Qed.
Lemma released_app a b : released (a ++ b) = released a ++ released b.
Proof. apply omap_app. Qed.

Lemma stop_ok p :
  pipeline_ok p →
  running (stop_producer p).1 = ∅ ∧ acquired (stop_producer p).2 = [] ∧ released (stop_producer p).2 = held p.
Proof.
  intros [Hr Hp _]. cbn. unfold held, release_capture. rewrite Hr.
  destruct (c_capture (comps p)) as [h|]; [|by rewrite difference_empty_L || set_solver].
  destruct (Hp h eq_refl) as [-> _]. split_and!; [set_solver|done|done].
Qed.

Definition starts_from (n m : nat) : list resource := RCapture <$> seq n (m - n).
#[local] Arguments starts_from : simpl never.

Lemma starts_none n : starts_from n n = [].
Proof. unfold starts_from. by rewrite Nat.sub_diag. Qed.
Lemma starts_one n : starts_from n (S n) = [RCapture n].
Proof. unfold starts_from. by replace (S n - n)%nat with 1%nat by lia. Qed.

(** One operation: the invariant, and the captures it acquires and releases. *)
Lemma do_op_ok p o :
  pipeline_ok p → match o with OpRestart _ _ => negb (paused p) | _ => true end = true →
  let '(p', acts) := do_op p o in
  pipeline_ok p' ∧ others (comps p') = others (comps p) ∧ (fresh p ≤ fresh p')%nat ∧
  acquired acts = starts_from (fresh p) (fresh p') ∧
  held p ++ acquired acts ≡ₚ released acts ++ held p'.
Proof.
  intros Hok Hc. pose proof (stop_ok p Hok) as (Hrun & Hacq & Hrel).
  assert (pipeline_ok p ∧ others (comps p) = others (comps p) ∧ (fresh p ≤ fresh p)%nat ∧
    acquired [] = starts_from (fresh p) (fresh p) ∧ held p ++ acquired [] ≡ₚ released [] ++ held p) as Hnop
    by (rewrite starts_none, app_nil_r; done).
  destruct o as [|opens|ip opens]; cbn [do_op].
  - unfold pauseCapture. destruct (paused p) eqn:Hp; [done|].
    cbn in Hrun, Hacq, Hrel |- *. rewrite starts_none, Hacq, Hrel. by split_and!.
  - unfold resumeCapture. destruct (paused p) eqn:Hp; [|done]. destruct opens; [|done].
    pose proof (ok_paused _ Hok Hp) as Hn. pose proof (ok_running _ Hok) as Hr. rewrite Hn in Hr.
    cbn. rewrite starts_one. split_and!; try done; try lia; try (unfold held; by rewrite Hn).
    split; cbn; [by rewrite Hr, union_empty_r_L|intros h [= <-]; split; [done|lia]|done].
  - unfold restartCapture. destruct (_ || _); [done|].
    apply negb_true_iff in Hc. cbn in Hrun, Hacq, Hrel |- *. destruct opens; cbn.
    + rewrite acquired_app, released_app, Hacq, Hrel, starts_one. split_and!; try done; try lia;
        try (change (released [Acquired _]) with (@nil resource); by rewrite app_nil_r).
      split; cbn; [by rewrite Hrun, union_empty_r_L|intros h [= <-]; split; [done|lia]|by rewrite Hc].
    + rewrite starts_none, Hacq, Hrel. by split_and!.
Qed.

Lemma do_ops_ok p os :
  pipeline_ok p → calm p os = true →
  let '(p', acts) := do_ops p os in
  pipeline_ok p' ∧ others (comps p') = others (comps p) ∧ (fresh p ≤ fresh p')%nat ∧
  acquired acts = starts_from (fresh p) (fresh p') ∧ held p ++ acquired acts ≡ₚ released acts ++ held p'.
Proof.
  revert p. induction os as [|o os IH]; intros p Hok Hc; cbn [do_ops].
  { rewrite starts_none, app_nil_r. by split_and!. }
  cbn [calm] in Hc. apply andb_true_iff in Hc as [Ho Hc]. pose proof (do_op_ok p o Hok Ho) as H1.
  destruct (do_op p o) as [p1 a1]. destruct H1 as (Hok1 & Ht1 & Hf1 & Ha1 & Hp1). specialize (IH p1 Hok1 Hc).
  destruct (do_ops p1 os) as [p2 a2]. destruct IH as (Hok2 & Ht2 & Hf2 & Ha2 & Hp2).
  rewrite acquired_app, released_app, Ha1, Ha2. split_and!; try done; [by rewrite Ht2|lia| |].
  - unfold starts_from. rewrite <- fmap_app. f_equal. replace (fresh p2 - fresh p)%nat with
      ((fresh p1 - fresh p) + (fresh p2 - fresh p1))%nat by lia. rewrite seq_app. do 2 f_equal. lia.
  - rewrite app_assoc, <- Ha1, Hp1, <- app_assoc, <- Ha2, Hp2. by rewrite app_assoc.
Qed.

(** What every operation keeps, calm or not: the captures it opens are new, and what
    was held or opened is released, held or lost. *)
Lemma do_op_accounts p o :
  let '(p', acts) := do_op p o in
  others (comps p') = others (comps p) ∧ (fresh p ≤ fresh p')%nat ∧
  acquired acts = starts_from (fresh p) (fresh p') ∧
  held p ++ acquired acts ≡ₚ released acts ++ loses p o ++ held p'.
Proof.
  assert (acquired (release_capture (c_capture (comps p))) = [] ∧
    released (release_capture (c_capture (comps p))) = held p) as [Ha Hr].
  { unfold held. by destruct (c_capture (comps p)). }
  assert (others (comps p) = others (comps p) ∧ (fresh p ≤ fresh p)%nat ∧
    acquired [] = starts_from (fresh p) (fresh p) ∧ held p ++ acquired [] ≡ₚ released [] ++ [] ++ held p) as Hnop
    by (rewrite starts_none, app_nil_r; done).
  destruct o as [|opens|ip opens]; cbn [do_op].
  - unfold pauseCapture. destruct (paused p); [done|]. cbn. rewrite starts_none, Ha, Hr. by rewrite app_nil_r.
  - unfold resumeCapture. cbn [loses]. destruct (paused p), opens; try done. cbn. rewrite starts_one.
    split_and!; try done. lia.
  - unfold restartCapture. destruct (_ || _); [done|]. destruct opens; cbn.
    + rewrite acquired_app, released_app, Ha, Hr, starts_one. split_and!; try done; [lia|].
      change (released [Acquired _]) with (@nil resource). by rewrite app_nil_r.
    + rewrite starts_none, Ha, Hr. by rewrite app_nil_r.
Qed.

Lemma starts_app n m k : (n ≤ m)%nat → (m ≤ k)%nat → starts_from n m ++ starts_from m k = starts_from n k.
Proof.
  intros. unfold starts_from. rewrite <- fmap_app. f_equal.
  replace (k - n)%nat with ((m - n) + (k - m))%nat by lia. rewrite seq_app. do 2 f_equal. lia.
Qed.

Lemma do_ops_account p os :
  let '(p', acts) := do_ops p os in
  others (comps p') = others (comps p) ∧ (fresh p ≤ fresh p')%nat ∧
  acquired acts = starts_from (fresh p) (fresh p') ∧
  held p ++ acquired acts ≡ₚ released acts ++ leaks p os ++ held p'.
Proof.
  revert p. induction os as [|o os IH]; intros p; cbn [do_ops leaks].
  { rewrite starts_none, app_nil_r. by split_and!. }
  pose proof (do_op_accounts p o) as H1. destruct (do_op p o) as [p1 a1]. destruct H1 as (Ht1 & Hf1 & Ha1 & Hp1).
  specialize (IH p1). cbn [fst]. destruct (do_ops p1 os) as [p2 a2]. destruct IH as (Ht2 & Hf2 & Ha2 & Hp2).
  rewrite acquired_app, released_app. split_and!; [congruence|lia|by rewrite Ha1, Ha2, starts_app|].
  rewrite app_assoc, Hp1, <- !app_assoc, Hp2. solve_Permutation.
Qed.

Lemma calm_leaks p os : pipeline_ok p → calm p os = true → leaks p os = [].
Proof.
  revert p. induction os as [|o os IH]; intros p Hok Hc; cbn in *; [done|].
  apply andb_true_iff in Hc as [Ho Hc]. pose proof (do_op_ok p o Hok Ho) as H.
  assert (loses p o = []) as ->.
  { destruct o as [|[]|]; try done. cbn. destruct (paused p) eqn:Ep; [|done].
    unfold held. by rewrite (ok_paused p Hok Ep). }
  destruct (do_op p o) as [p1 a1]. destruct H as [Hok1 _]. by apply IH.
Qed.

Lemma startPipeline_ok mode host c h : c_capture c = Some h → pipeline_ok (running_pipeline mode host c h).
Proof. intros Hc. split; cbn; rewrite ?Hc; [done|intros h' [= <-]; split; [done|lia]|done]. Qed.

Lemma startup_cases d :
  match startup d with
  | (Err _, acts) => released acts ≡ₚ acquired acts ∧ NoDup (acquired acts)
  | (Ok c, acts) => c = MkComponents true (Some 0%nat) true true ∧
      acts = [Acquired RExport; Acquired (RCapture 0); Acquired RQueue; Acquired RPool]
  end.
Proof.
  destruct d as [[] [] [] [] []]; cbn; try (by split); (split; [|repeat constructor; set_solver]);
    change (released ?a) with (reverse (reverse (released a))); solve_Permutation || (cbn; repeat constructor).
Qed.

(** While no failover interferes with a pause, at most one producer runs, it reads
    the one capture that is open, and none does when the pipeline is paused. *)
Theorem single_producer mode host c h os :
  c_capture c = Some h → calm (running_pipeline mode host c h) os = true →
  let '(p, acts) := do_ops (running_pipeline mode host c h) os in
  (∀ g, g ∈ running p ↔ c_capture (comps p) = Some g) ∧ (size (running p) ≤ 1)%nat ∧
  (paused p = true → running p = ∅) ∧ RCapture h :: acquired acts ≡ₚ released acts ++ held p.
Proof.
  intros Hc Hcalm. pose proof (do_ops_ok _ os (startPipeline_ok mode host c h Hc) Hcalm) as H.
  destruct (do_ops _ os) as [p acts]. destruct H as ([Hr Hp Hpause] & _ & _ & _ & Hperm).
  unfold held in Hperm at 1. cbn [running_pipeline comps] in Hperm. rewrite Hc in Hperm.
  split_and!; [| |intros E; rewrite Hr, (Hpause E); done|done]; rewrite Hr.
  - intros g. destruct (c_capture (comps p)) as [h'|]; [|set_solver]. rewrite elem_of_singleton. naive_solver.
  - destruct (c_capture (comps p)) as [h'|]; [by rewrite size_singleton|rewrite size_empty; lia].
Qed.

Lemma starts_nodup n m : NoDup (starts_from n m).
Proof. apply NoDup_fmap_2; [by intros ?? [=]|apply NoDup_seq]. Qed.

Lemma drain_actions t1 t2 p :
  others (comps p) = (true, true, true) →
  ∃ waits, (drainWithin t1 t2 p).2 ++ components_Close (comps (drainWithin t1 t2 p).1) =
    release_capture (c_capture (comps p)) ++ Released RQueue :: waits ++
      [ConsumerStopped; Released RPool; Released RExport] ∧
    acquired waits = [] ∧ released waits = [].
Proof.
  unfold others. intros [= He Hq Hpl]. cbn. rewrite He, Hq, Hpl.
  exists (if t1 || t2 then [ConsumerCancelled] else []). split; [|by destruct (t1 || t2)].
  cbn. unfold components_Close. cbn. rewrite <- !app_assoc. by destruct (t1 || t2).
Qed.

Lemma leaks_captures p os r : r ∈ leaks p os → ∃ h, r = RCapture h.
Proof.
  revert p. induction os as [|o os IH]; intros p; cbn; [by intros ?%not_elem_of_nil|].
  rewrite elem_of_app. intros [Hr|Hr]; [|by eapply IH]. destruct o as [|[]|]; cbn in Hr; try (by apply not_elem_of_nil in Hr).
  destruct (paused p); [|by apply not_elem_of_nil in Hr]. unfold held in Hr.
  destruct (c_capture _); [|by apply not_elem_of_nil in Hr]. apply list_elem_of_singleton in Hr. eauto.
Qed.

(** A run that gets as far as the operations. *)
Lemma run_accounts mode host os t1 t2 :
  let up := [Acquired RExport; Acquired (RCapture 0); Acquired RQueue; Acquired RPool] in
  let p0 := running_pipeline mode host (MkComponents true (Some 0%nat) true true) 0 in
  let '(p, a1) := do_ops p0 os in
  let '(p', a2) := drainWithin t1 t2 p in
  let acts := up ++ a1 ++ a2 ++ components_Close (comps p') in
  released acts ++ leaks p0 os ≡ₚ acquired acts ∧ NoDup (acquired acts) ∧
  ∃ before after, acts = before ++ [ConsumerStopped; Released RPool] ++ after ∧ Released RQueue ∈ before.
Proof.
  intros up p0. pose proof (do_ops_account p0 os) as H.
  destruct (do_ops p0 os) as [p a1]. destruct H as (Ht & Hf & Ha & Hp).
  destruct (drain_actions t1 t2 p Ht) as (waits & Hd & Hw1 & Hw2).
  destruct (drainWithin t1 t2 p) as [p' a2]. cbn [fst snd] in Hd. rewrite Hd.
  assert (released (release_capture (c_capture (comps p))) = held p) as Hrel
    by (unfold held; by destruct (c_capture (comps p))).
  assert (acquired (release_capture (c_capture (comps p))) = []) as Hacq by (by destruct (c_capture (comps p))).
  set (tl := [ConsumerStopped; Released RPool; Released RExport]).
  assert (acquired (up ++ a1 ++ release_capture (c_capture (comps p)) ++ Released RQueue :: waits ++ tl) =
    [RExport; RCapture 0; RQueue; RPool] ++ acquired a1) as Hall.
  { change (Released RQueue :: waits ++ tl) with ([Released RQueue] ++ waits ++ tl).
    rewrite !acquired_app, Hw1, Hacq. change (acquired [_]) with (@nil resource).
    change (acquired tl) with (@nil resource). cbn [app]. by rewrite app_nil_r. }
  split_and!.
  - rewrite Hall. change (Released RQueue :: waits ++ tl) with ([Released RQueue] ++ waits ++ tl).
    rewrite !released_app, Hw2, Hrel. change (released up) with (@nil resource).
    change (released [_]) with [RQueue]. change (released tl) with [RPool; RExport].
    unfold held in Hp at 1. cbn [p0 running_pipeline comps c_capture app] in Hp |- *.
    transitivity ([RExport; RQueue; RPool] ++ released a1 ++ leaks p0 os ++ held p); [solve_Permutation|].
    rewrite <- Hp. solve_Permutation.
  - rewrite Hall, Ha. apply NoDup_app.
    split_and!; [repeat constructor; set_solver| |apply starts_nodup].
    intros r Hr Hin. unfold starts_from in Hin. apply list_elem_of_fmap in Hin as (n & -> & Hn%elem_of_seq).
    cbn in Hn. set_unfold in Hr. naive_solver lia.
  - eexists (up ++ a1 ++ release_capture (c_capture (comps p)) ++ Released RQueue :: waits), [Released RExport].
    split; [|set_solver]. by rewrite <- !app_assoc, <- app_comm_cons.
Qed.


(** ** A failover while paused *)
Module LifecycleDemo.
Definition all_ok : deps := MkDeps true true true true true.
Definition comps0 : components := MkComponents true (Some 0%nat) true true.
Definition p0 : pipelineState := running_pipeline ModePcap [] comps0 0.
Definition paused0 : pipelineState := (pauseCapture p0).1.
End LifecycleDemo.

Lemma single_producer_witness :
  let p := (do_ops LifecycleDemo.p0
    [OpPause; OpResume false; OpResume true; OpRestart [49] false; OpRestart [50] true]).1 in
  (size (running p) ≤ 1)%nat ∧ c_capture (comps p) = Some 2%nat.
Proof.
  split; [|vm_compute; reflexivity].
  pose proof (single_producer ModePcap [] LifecycleDemo.comps0 0
    [OpPause; OpResume false; OpResume true; OpRestart [49] false; OpRestart [50] true] eq_refl eq_refl) as H.
  unfold LifecycleDemo.p0. destruct (do_ops _ _) as [p acts]. exact (proj1 (proj2 H)).
Defined.


(** A failover restarts the capture although the pipeline is paused, and stays
    paused in name: the next activation starts a second producer beside it, on the
    same processor, and the drain closes only one of the two captures. *)
Theorem restart_while_paused :
  let os := [OpPause; OpRestart [49] true; OpResume true] in
  (do_ops LifecycleDemo.p0 [OpPause; OpRestart [49] true]).1 =
    MkPipeline (set_capture (Some 1%nat) LifecycleDemo.comps0) ModePcap [49] 1 true {[1%nat]} 2 ∧
  running (do_ops LifecycleDemo.p0 os).1 = {[1%nat; 2%nat]} ∧
  RCapture 1 ∈ acquired (process ModePcap [] LifecycleDemo.all_ok true os false false) ∧
  RCapture 1 ∉ released (process ModePcap [] LifecycleDemo.all_ok true os false false).
Proof.
  split_and!; [vm_compute; reflexivity|vm_compute; reflexivity| |];
    [apply (bool_decide_unpack _)|apply (bool_decide_unpack (¬ _))]; vm_compute; exact I.
Qed.

(** A failover whose capture cannot be opened is not tried again: the detector has
    stored the new address, and reports nothing while it stays. *)
Theorem failover_not_retried old new p :
  new ≠ [] → new ≠ old → pmode p = ModePcap → pipeline_ok p →
  check_failover old new = (new, Some (old, new)) ∧
  running (restartCapture new false p).1 = ∅ ∧ check_failover new new = (new, None).
Proof.
  intros Hn Ho Hm Hok. unfold check_failover. rewrite !bool_decide_false by done. split; [done|].
  split; [|by rewrite bool_decide_true].
  unfold restartCapture. rewrite Hm. cbn [bool_decide orb]. destruct (stop_ok p Hok) as [Hr _].
  destruct (stop_producer p) as [p' acts] eqn:E. cbn in *. exact Hr.
Qed.
