(* ===== verification/Shutdown.v ===== *)
(** * The shutdown beside the operations (src/cmd/pgshadow/main.go, pipeline.go)

    The drain and the deferred [Close] take no lock, and run while the control
    server and the failover detector can still pause, resume or restart the
    capture.  The operations exclude each other by the pipeline's mutex, but not
    the drain: here every access to the capture handle is a step of its own. *)
From S2P Require Import Prelude Lifecycle.

(** ** The two threads *)

(** The main goroutine: [drainWithin], the deferred calls, [components.Close]. *)
Inductive mpc :=
| MCancel | MCheck | MClose | MNil | MWait | MQueue | MConsumer | MPool
| MStop | MFinal | MFinalClose | MExport | MDone | MPanicked.

(** The operation that holds the mutex: [pauseCapture], [restartCapture], [resumeCapture]. *)
Inductive opc :=
| OIdle
| PauseCheck | PauseClose | PauseNil | PauseWait
| RestartCheck | RestartClose | RestartWait | RestartSet (h : nat)
| ResumeOpen | ResumeSet (h : nat).

#[export] Instance mpc_eq_dec : EqDecision mpc.
Proof. solve_decision. Defined.
#[export] Instance opc_eq_dec : EqDecision opc.
Proof. solve_decision. Defined.

Record sstate := MkShutdown { cap : option nat; is_paused : bool; next : nat; main : mpc; oper : opc }.

Inductive slabel := Act (a : action) | Silent | MainPanic | OperPanic.

Definition acts (tr : list slabel) : list action := omap (λ a, match a with Act a => Some a | _ => None end) tr.

Definition set_main (m : mpc) (s : sstate) : sstate := MkShutdown (cap s) (is_paused s) (next s) m (oper s).
Definition set_oper (o : opc) (s : sstate) : sstate := MkShutdown (cap s) (is_paused s) (next s) (main s) o.
Definition set_cap (c : option nat) (s : sstate) : sstate := MkShutdown c (is_paused s) (next s) (main s) (oper s).
Definition set_is_paused (b : bool) (s : sstate) : sstate := MkShutdown (cap s) b (next s) (main s) (oper s).
Definition bump (s : sstate) : sstate := MkShutdown (cap s) (is_paused s) (S (next s)) (main s) (oper s).

(** One access of the main goroutine: [c.capture] is read once for the comparison with
    nil and again for the call, which panics on nil. *)
Definition main_step (s : sstate) : option (slabel * sstate) :=
  match main s with
  | MCancel => Some (Silent, set_main MCheck s)
  | MCheck => Some (Silent, set_main (match cap s with Some _ => MClose | None => MWait end) s)
  | MClose =>
      match cap s with
      | Some h => Some (Act (Released (RCapture h)), set_main MNil s)
      | None => Some (MainPanic, set_main MPanicked s)
      end
  | MNil => Some (Silent, set_cap None (set_main MWait s))
  | MWait => Some (Silent, set_main MQueue s)
  | MQueue => Some (Act (Released RQueue), set_main MConsumer s)
  | MConsumer => Some (Act ConsumerStopped, set_main MPool s)
  | MPool => Some (Act (Released RPool), set_main MStop s)
  | MStop => Some (Silent, set_main MFinal s)
  | MFinal => Some (Silent, set_main (match cap s with Some _ => MFinalClose | None => MExport end) s)
  | MFinalClose =>
      match cap s with
      | Some h => Some (Act (Released (RCapture h)), set_main MExport s)
      | None => Some (MainPanic, set_main MPanicked s)
      end
  | MExport => Some (Act (Released RExport), set_main MDone s)
  | MDone | MPanicked => None
  end.

(** What is asked of the operations, and whether the capture opens. *)
Inductive op_request := AskPause | AskRestart | AskResume.

(** One access of the operation in progress, or the start of one. *)
Definition oper_step (ask : op_request) (opens : bool) (s : sstate) : option (slabel * sstate) :=
  match oper s with
  | OIdle =>
      match ask with
      | AskPause => Some (Silent, if is_paused s then s else set_oper PauseCheck s)
      | AskRestart => Some (Silent, set_oper RestartCheck s)
      | AskResume => Some (Silent, if is_paused s then set_oper ResumeOpen s else s)
      end
  | PauseCheck => Some (Silent, set_oper (match cap s with Some _ => PauseClose | None => PauseWait end) s)
  | PauseClose =>
      match cap s with
      | Some h => Some (Act (Released (RCapture h)), set_oper PauseNil s)
      | None => Some (OperPanic, set_oper OIdle s)
      end
  | PauseNil => Some (Silent, set_cap None (set_oper PauseWait s))
  | PauseWait => Some (Silent, set_is_paused true (set_oper OIdle s))
  | RestartCheck => Some (Silent, set_oper (match cap s with Some _ => RestartClose | None => RestartWait end) s)
  | RestartClose =>
      match cap s with
      | Some h => Some (Act (Released (RCapture h)), set_oper RestartWait s)
      | None => Some (OperPanic, set_oper OIdle s)
      end
  | RestartWait =>
      if opens then Some (Act (Acquired (RCapture (next s))), bump (set_oper (RestartSet (next s)) s))
      else Some (Silent, set_cap None (set_oper OIdle s))
  | RestartSet h => Some (Silent, set_cap (Some h) (set_oper OIdle s))
  | ResumeOpen =>
      if opens then Some (Act (Acquired (RCapture (next s))), bump (set_oper (ResumeSet (next s)) s))
      else Some (Silent, set_oper OIdle s)
  | ResumeSet h => Some (Silent, set_is_paused false (set_cap (Some h) (set_oper OIdle s)))
  end.

Inductive sstep : sstate → slabel → sstate → Prop :=
| s_main s a s' : main_step s = Some (a, s') → sstep s a s'
| s_oper s ask opens a s' : oper_step ask opens s = Some (a, s') → sstep s a s'.

(** A run all of whose states satisfy a condition. *)
Inductive srun (P : sstate → Prop) (s0 : sstate) : list slabel → sstate → Prop :=
| srun_nil : P s0 → srun P s0 [] s0
| srun_snoc tr s a s' : srun P s0 tr s → sstep s a s' → P s' → srun P s0 (tr ++ [a]) s'.

(** The shutdown begins: everything is open, and no operation is in progress. *)
Definition shutdown_start : sstate := MkShutdown (Some 0%nat) false 1 MCancel OIdle.
Definition at_start : list resource := [RExport; RCapture 0; RQueue; RPool].

(** The main goroutine does not handle the capture, and the servers are up. *)
Definition free (m : mpc) : bool :=
  match m with MClose | MNil | MFinal | MFinalClose | MExport | MDone | MPanicked => false | _ => true end.

(** No operation is in progress while the main goroutine is between its look at the
    capture and its last access to it, and none once the servers are stopped.  The
    code does not enforce it: [shutdown_race] is a run without it. *)
Definition exclusive (s : sstate) : Prop := free (main s) = false → oper s = OIdle.

(** No restart is in progress while the pipeline is paused, which [restartCapture] does
    not look at either. *)
Definition undisturbed (s : sstate) : Prop :=
  match oper s with RestartCheck | RestartClose | RestartWait | RestartSet _ => is_paused s = false | _ => True end.

#[export] Instance exclusive_dec s : Decision (exclusive s).
Proof. unfold exclusive. apply _. Defined.
#[export] Instance undisturbed_dec s : Decision (undisturbed s).
Proof. unfold undisturbed. destruct (oper s); apply _. Defined.

(** ** What is open *)

(** The capture is closed, and the handle still there. *)
Definition main_stale (m : mpc) : bool := match m with MNil | MExport | MDone => true | _ => false end.
Definition oper_stale (o : opc) : bool := match o with PauseNil | RestartWait | RestartSet _ => true | _ => false end.
Definition stale (s : sstate) : bool := main_stale (main s) || oper_stale (oper s).

(** A handle that is opened and not yet stored. *)
Definition local (o : opc) : list resource := match o with RestartSet h | ResumeSet h => [RCapture h] | _ => [] end.

Definition main_holds (m : mpc) : list resource :=
  match m with
  | MDone => []
  | MStop | MFinal | MFinalClose | MExport => [RExport]
  | MConsumer | MPool => [RExport; RPool]
  | _ => [RExport; RPool; RQueue]
  end.

Definition open_now (s : sstate) : list resource :=
  (match cap s with Some h => if stale s then [] else [RCapture h] | None => [] end) ++ local (oper s) ++ main_holds (main s).

(** The handle is there when it is called. *)
Definition main_handle (m : mpc) (c : option nat) : Prop :=
  match m with MClose | MFinalClose => is_Some c | MPanicked => False | _ => True end.
Definition oper_handle (o : opc) (c : option nat) : Prop :=
  match o with PauseClose | RestartClose => is_Some c | PauseWait => c = None | _ => True end.
Definition handle_ok (s : sstate) : Prop := main_handle (main s) (cap s) ∧ oper_handle (oper s) (cap s).

(** The handle is nil while the pipeline is paused. *)
Definition paused_nil (s : sstate) : Prop :=
  match oper s with
  | ResumeOpen | ResumeSet _ => cap s = None
  | OIdle => is_paused s = true → cap s = None
  | _ => True
  end.

(** What a step loses: a resumption stores its handle over one that is open. *)
Definition overwrites (s s' : sstate) : list resource :=
  match oper s, oper s' with ResumeSet _, OIdle => match cap s with Some h => [RCapture h] | None => [] end | _, _ => [] end.

Lemma free_main m : free m = true → main_stale m = false ∧ ∀ c, main_handle m c.
Proof. by destruct m. Qed.

(** What one step keeps. *)
Definition conserves (s : sstate) (a : slabel) (s' : sstate) : Prop :=
  handle_ok s' ∧ open_now s ++ acquired (acts [a]) ≡ₚ released (acts [a]) ++ overwrites s s' ++ open_now s' ∧
  acquired (acts [a]) = RCapture <$> seq (next s) (next s' - next s) ∧ (next s ≤ next s')%nat ∧ a ≠ MainPanic ∧ a ≠ OperPanic ∧
  (undisturbed s → paused_nil s → paused_nil s').

Ltac conserve :=
  unfold conserves, handle_ok, oper_handle, paused_nil, undisturbed, open_now, stale in *; cbn in *;
  rewrite ?Nat.sub_diag, ?Nat.sub_succ_l, ?Nat.sub_diag by exact (le_n _); cbn;
  split_and!; first [exact I | reflexivity | discriminate | assumption | by intros | lia | solve_Permutation | by eauto | by naive_solver].

Lemma overwrites_same s s' : oper s' = oper s → overwrites s s' = [].
Proof. unfold overwrites. intros ->. by destruct (oper s). Qed.

(** A step of the main goroutine while an operation may be in progress. *)
Lemma main_conserves s a s' :
  main_step s = Some (a, s') → exclusive s → exclusive s' → handle_ok s → conserves s a s'.
Proof.
  destruct s as [c pz n m o]. intros Hs Ho1 Ho2 [Hh1 Hh2]. unfold exclusive in *.
  destruct m; cbn in Hs, Ho1, Ho2; try done;
    destruct c as [h|]; injection Hs as <- <-; cbn in Ho2; try (by destruct Hh1);
    try specialize (Ho1 eq_refl); try specialize (Ho2 eq_refl); subst;
    unfold conserves; rewrite overwrites_same by done; conserve.
Qed.

(** A step of an operation, which the main goroutine leaves alone. *)
Lemma oper_conserves ask opens s a s' :
  oper_step ask opens s = Some (a, s') → exclusive s → exclusive s' → handle_ok s → conserves s a s'.
Proof.
  destruct s as [c pz n m o]. intros Hs Ho1 Ho2 [Hh1 Hh2]. unfold exclusive in *.
  assert (free m = true ∨ o = OIdle ∧ oper s' = OIdle ∧ main s' = m) as [Hf|(-> & Hi & _)].
  { destruct (free m) eqn:Ef; [by left|]. right. cbn in Ho1. specialize (Ho1 Ef). subst o.
    assert (main s' = m) as Hm by (destruct ask, pz; by injection Hs as <- <-). rewrite Hm in Ho2. auto. }
  - destruct (free_main m Hf) as [Hst Hmh].
    destruct o; try destruct ask; try destruct pz; try destruct opens; destruct c as [h0|]; cbn in Hs, Hh2; try done;
      try (by destruct Hh2); try (by specialize (Hh2 eq_refl)); injection Hs as <- <-;
      unfold conserves, handle_ok, oper_handle, overwrites, open_now, stale; cbn; rewrite ?Hst; conserve.
  - destruct ask, pz; cbn in Hs; injection Hs as <- <-; cbn in Hi; try done;
      unfold conserves; rewrite overwrites_same by done; conserve.
Qed.

Lemma acts_app tr1 tr2 : acts (tr1 ++ tr2) = acts tr1 ++ acts tr2.
Proof. apply omap_app. Qed.

Lemma run_holds P s0 tr s : srun P s0 tr s → P s.
Proof. by inversion 1. Qed.

Lemma step_conserves s a s' :
  sstep s a s' → exclusive s → exclusive s' → handle_ok s → conserves s a s'.
Proof. destruct 1 as [s a s' Hs|s ask opens a s' Hs]; [by apply main_conserves|by eapply oper_conserves]. Qed.

Lemma overwrites_captures s s' : ∃ lost, overwrites s s' = RCapture <$> lost.
Proof.
  unfold overwrites. destruct (oper s), (oper s'); try (by exists []).
  destruct (cap s) as [h'|]; [by exists [h']|by exists []].
Qed.

Lemma paused_keeps s s' : paused_nil s → overwrites s s' = [].
Proof. unfold paused_nil, overwrites. destruct (oper s), (oper s'); try done. by intros ->. Qed.

Lemma run_conserves tr s :
  srun exclusive shutdown_start tr s →
  handle_ok s ∧
  (∃ lost, at_start ++ acquired (acts tr) ≡ₚ released (acts tr) ++ (RCapture <$> lost) ++ open_now s) ∧
  acquired (acts tr) = RCapture <$> seq 1 (next s - 1) ∧ (1 ≤ next s)%nat ∧ (MainPanic ∉ tr) ∧ (OperPanic ∉ tr).
Proof.
  induction 1 as [|tr s a s' Hrun (Hh & [lost Hp] & Ha & Hn & Hm & Ho) Hs Ho'].
  { split_and!; [by split|exists []; cbn; solve_Permutation|done|done|set_solver..]. }
  destruct (step_conserves s a s' Hs (run_holds _ _ _ _ Hrun) Ho' Hh) as (Hh' & Hp' & Ha' & Hn' & Hm' & Hop' & _).
  rewrite acts_app, acquired_app, released_app. split_and!; [done| | |lia|set_solver..].
  - destruct (overwrites_captures s s') as [lost' Hl]. exists (lost ++ lost').
    rewrite app_assoc, Hp, <- !app_assoc, Hp', Hl, fmap_app. solve_Permutation.
  - rewrite Ha, Ha', <- fmap_app. f_equal. replace (next s' - 1)%nat with ((next s - 1) + (next s' - next s))%nat by lia.
    rewrite seq_app. do 2 f_equal. lia.
Qed.

(** Without a restart in a pause nothing is lost. *)
Lemma run_keeps tr s :
  srun (λ s, exclusive s ∧ undisturbed s) shutdown_start tr s →
  srun exclusive shutdown_start tr s ∧ paused_nil s ∧
  at_start ++ acquired (acts tr) ≡ₚ released (acts tr) ++ open_now s.
Proof.
  induction 1 as [|tr s a s' Hrun (Hex & Hpn & Hp) Hs Ho'].
  { split_and!; [by constructor|done|cbn; solve_Permutation]. }
  destruct (run_conserves _ _ Hex) as (Hh & _). destruct (run_holds _ _ _ _ Hrun) as [He Hu].
  destruct (step_conserves s a s' Hs He (proj1 Ho') Hh) as (_ & Hp' & _ & _ & _ & _ & Hk).
  rewrite (paused_keeps s s' Hpn) in Hp'.
  split_and!; [eapply srun_snoc; [done|done|apply Ho']|by apply Hk|].
  rewrite acts_app, acquired_app, released_app, app_assoc, Hp, <- !app_assoc, Hp'. done.
Qed.


(** ** Schedules *)
Inductive who := Main | Oper (ask : op_request) (opens : bool).

Fixpoint sched (s : sstate) (ws : list who) : option (list slabel * sstate) :=
  match ws with
  | [] => Some ([], s)
  | w :: ws =>
      '(a, s1) ← match w with Main => main_step s | Oper ask opens => oper_step ask opens s end;
      '(tr, s2) ← sched s1 ws;
      Some (a :: tr, s2)
  end.

(** The states a schedule goes through. *)
Fixpoint states (s : sstate) (ws : list who) : list sstate :=
  s :: match ws with
       | [] => []
       | w :: ws =>
           match match w with Main => main_step s | Oper ask opens => oper_step ask opens s end with
           | Some (_, s1) => states s1 ws
           | None => []
           end
       end.

Lemma srun_cons (P : sstate → Prop) s a s1 tr s2 : P s → sstep s a s1 → srun P s1 tr s2 → srun P s (a :: tr) s2.
Proof.
  intros Hp Hs. induction 1 as [Hp1|tr s3 b s4 _ IH Hb Hp4].
  - apply (srun_snoc P s [] s); [by constructor|done|done].
  - rewrite app_comm_cons. by eapply srun_snoc.
Qed.

Lemma sched_sound (P : sstate → Prop) s ws tr s' : Forall P (states s ws) → sched s ws = Some (tr, s') → srun P s tr s'.
Proof.
  revert s tr s'. induction ws as [|w ws IH]; intros s tr s' Hf E; cbn in E, Hf; apply Forall_cons in Hf as [Hp Hf].
  { injection E as <- <-. by constructor. }
  destruct (match w with Main => _ | Oper _ _ => _ end) as [[a s1]|] eqn:Ew; [|done]. cbn in E.
  destruct (sched s1 ws) as [[tr1 s2]|] eqn:Es; [|done]. injection E as <- <-.
  apply (srun_cons P s a s1); [done| |by apply IH]. destruct w as [|ask opens]; [by apply s_main|by eapply s_oper].
Qed.

Module ShutdownDemo.
(** A pause before the drain looks at the capture, a resumption while it waits for the
    consumer, and a restart before the servers are stopped. *)
Definition busy : list who :=
  [Oper AskPause false; Main; Oper AskPause false; Oper AskPause false; Oper AskPause false; Main; Oper AskPause false; Main; Main;
   Oper AskResume false; Oper AskResume true; Main; Oper AskResume true; Oper AskRestart false; Oper AskRestart false;
   Oper AskRestart false; Main; Oper AskRestart true; Oper AskRestart true; Main; Main; Main; Main].
Definition trace : list slabel := default [] (fst <$> sched shutdown_start busy).
Definition final : sstate := default shutdown_start (snd <$> sched shutdown_start busy).
(** The pause closes the capture between the look and the call. *)
Definition race : list who := [Main; Main; Oper AskPause false; Oper AskPause false; Oper AskPause false; Oper AskPause false; Main].
End ShutdownDemo.


(** The drain compares the capture with nil and then calls it, without the lock: a
    pause in between sets it to nil, and the main goroutine panics before it has
    drained the queue. *)
Theorem shutdown_race :
  ∃ tr s, srun (λ _, True) shutdown_start tr s ∧ (MainPanic ∈ tr) ∧ main s = MPanicked ∧
    (Released RQueue ∉ acts tr) ∧ (Released RPool ∉ acts tr).
Proof.
  exists (default [] (fst <$> sched shutdown_start ShutdownDemo.race)), (default shutdown_start (snd <$> sched shutdown_start ShutdownDemo.race)).
  split; [apply (sched_sound _ _ ShutdownDemo.race); [by apply Forall_true|vm_compute; reflexivity]|].
  vm_compute. set_solver.
Qed.
