(* ===== verification/Producer.v ===== *)
(** * The producer goroutines (src/cmd/pgshadow/pipeline.go, startProducer)

    The reader moves packets from the capture's channel to a buffered one; the
    processor feeds them to the reassembler.  Both also wait for the context, and
    Go's select takes any case that is ready: the two goroutines and their
    surroundings are a step relation. *)
From S2P Require Import Prelude.

Definition pktChanBuffer : Z := 4096.

Section producer.
Context {P : Type}.

(** The reader waits for a packet, holds one it has to hand over, or is gone. *)
Inductive reader := RTop | RHold (p : P) | RExit.

(** What the processor asks of the reassembler. *)
Inductive reasm_call := AskAssemble (p : P) | AskFlush | AskClose.

(** [src] are the packets waiting in the capture's channel and [src_end] tells that
    it is closed; [ctx] that the context is done; [rcalls] are the calls of the
    reassembler so far. *)
Record producer := Producer {
  src : list P; src_end : bool; chan : list P; rd : reader; exited : bool; ctx : bool; rcalls : list reasm_call }.

Definition assembled (s : producer) : list P := omap (λ c, match c with AskAssemble p => Some p | _ => None end) (rcalls s).

Definition startProducer : producer := Producer [] false [] RTop false false [].

Inductive plabel :=
| PArrive (p : P) | PEnd | PCancel
| PTake | PPut | PReadEnd | PReadCancel
| PAssemble | PProcEnd | PProcCancel | PTick.

Inductive pstep : producer → plabel → producer → Prop :=
(* the capture and the context *)
| step_arrive p s c r x k a : pstep (Producer s false c r x k a) (PArrive p) (Producer (s ++ [p]) false c r x k a)
| step_end s e c r x k a : pstep (Producer s e c r x k a) PEnd (Producer s true c r x k a)
| step_cancel s e c r x k a : pstep (Producer s e c r x k a) PCancel (Producer s e c r x true a)
(* the reader *)
| step_take p s e c x k a : pstep (Producer (p :: s) e c RTop x k a) PTake (Producer s e c (RHold p) x k a)
| step_put p s e c x k a : zlen c < pktChanBuffer →
    pstep (Producer s e c (RHold p) x k a) PPut (Producer s e (c ++ [p]) RTop x k a)
| step_read_end c x k a : pstep (Producer [] true c RTop x k a) PReadEnd (Producer [] true c RExit x k a)
| step_read_cancel s e c r x a : r ≠ RExit →
    pstep (Producer s e c r x true a) PReadCancel (Producer s e c RExit x true a)
(* the processor *)
| step_assemble p s e c r k a :
    pstep (Producer s e (p :: c) r false k a) PAssemble (Producer s e c r false k (a ++ [AskAssemble p]))
| step_proc_end s e k a :
    pstep (Producer s e [] RExit false k a) PProcEnd (Producer s e [] RExit true k (a ++ [AskClose]))
| step_proc_cancel s e c r a :
    pstep (Producer s e c r false true a) PProcCancel (Producer s e c r true true (a ++ [AskClose]))
| step_tick s e c r k a : pstep (Producer s e c r false k a) PTick (Producer s e c r false k (a ++ [AskFlush])).

Inductive prun (s : producer) : list plabel → producer → Prop :=
| prun_nil : prun s [] s
| prun_snoc tr s1 a s2 : prun s tr s1 → pstep s1 a s2 → prun s (tr ++ [a]) s2.

(** The packets the capture produced. *)
Definition arrivals (tr : list plabel) : list P :=
  omap (λ a, match a with PArrive p => Some p | _ => None end) tr.

Definition holding (r : reader) : list P := match r with RHold p => [p] | _ => [] end.

Lemma arrivals_snoc tr a : arrivals (tr ++ [a]) = arrivals tr ++ match a with PArrive p => [p] | _ => [] end.
Proof. unfold arrivals. rewrite omap_app. by destruct a. Qed.

(** Everything that arrived was assembled, is in the channel, or comes after what is
    in the channel; nothing of the latter is lost before a cancellation. *)
Definition producer_ok (s : producer) (tr : list plabel) : Prop :=
  ∃ rest, arrivals tr = assembled s ++ chan s ++ rest ∧
    (rd s ≠ RExit → rest = holding (rd s) ++ src s) ∧
    (ctx s = false → rd s = RExit → rest = [] ∧ src s = [] ∧ src_end s = true) ∧
    (ctx s = false → exited s = true → chan s = [] ∧ rd s = RExit).

Lemma pstep_ok s a s' tr : pstep s a s' → producer_ok s tr → producer_ok s' (tr ++ [a]).
Proof.
  intros Hs (rest & Hr & Hh & He & Hx). unfold producer_ok. rewrite arrivals_snoc, Hr. unfold assembled.
  destruct Hs as [p s c r x k a|s e c r x k a|s e c r x k a|p s e c x k a|p s e c x k a Hc|c x k a|s e c r x a Hne
    |p s e c r k a|s e k a|s e c r a|s e c r k a]; cbn in *; rewrite ?omap_app, ?app_nil_r; cbn; rewrite ?app_nil_r.
  - exists (rest ++ [p]). rewrite <- !app_assoc. split_and!; [done| | |done].
    + intros Hne. by rewrite Hh, <- app_assoc.
    + intros Hk Hre. by destruct (He Hk Hre) as (_ & _ & ?).
  - exists rest. split_and!; [done|done| |done]. intros Hk Hre. by destruct (He Hk Hre) as (? & ? & _).
  - by exists rest.
  - exists rest. rewrite Hh by done. split_and!; try done. intros Hk Hxx. by destruct (Hx Hk Hxx).
  - exists s. rewrite Hh by done. cbn. rewrite <- !app_assoc. split_and!; try done.
    intros Hk Hxx. by destruct (Hx Hk Hxx).
  - exists []. rewrite Hh by done. cbn. split_and!; try done. intros Hk Hxx. by destruct (Hx Hk Hxx).
  - exists rest. by split_and!.
  - exists rest. rewrite <- !app_assoc. by split_and!.
  - exists rest. by split_and!.
  - exists rest. by split_and!.
  - exists rest. by split_and!.
Qed.

Lemma prun_ok tr s : prun startProducer tr s → producer_ok s tr.
Proof.
  induction 1 as [|tr s1 a s2 _ IH Hs]; [exists []; by split_and!|by eapply pstep_ok].
Qed.

(** Under every scheduling the packets reach the reassembler in the order in which
    they were captured, without gaps; when the capture ends and nobody cancels, all
    of them have when the goroutines are gone. *)
Theorem producer_in_order tr s :
  prun startProducer tr s →
  assembled s `prefix_of` arrivals tr ∧
  (ctx s = false → exited s = true → assembled s = arrivals tr ∧ src_end s = true).
Proof.
  intros (rest & Hr & _ & He & Hx)%prun_ok. rewrite Hr. split; [by apply prefix_app_r|].
  intros Hk Hxx. destruct (Hx Hk Hxx) as [-> Hre]. destruct (He Hk Hre) as (-> & _ & ?). by rewrite app_nil_r.
Qed.

(** ** Termination *)

(** The steps of the two goroutines other than an idle flush. *)
Definition own_step (a : plabel) : bool :=
  match a with PArrive _ | PEnd | PCancel | PTick => false | _ => true end.

Definition pwork (s : producer) : Z :=
  3 * zlen (src s) + zlen (chan s) + match rd s with RTop => 1 | RHold _ => 3 | RExit => 0 end +
  if exited s then 0 else 1.

Lemma pwork_decreases s a s' : pstep s a s' → own_step a = true → 0 ≤ pwork s' < pwork s.
Proof.
  intros Hs. unfold pwork. destruct Hs; cbn [own_step src chan rd exited]; try done; intros _;
    rewrite ?zlen_app, ?zlen_cons, ?(@zlen_nil P); repeat match goal with |- context [zlen ?l] =>
      lazymatch goal with H : 0 ≤ zlen l |- _ => fail | _ => pose proof (zlen_nonneg l) end end;
    try destruct x; try (destruct r; try done); lia.
Qed.

(** Once the capture has ended or the context is done, every scheduling of the two
    goroutines ends, and until both are gone one of them can move. *)
Theorem producer_terminates tr s :
  prun startProducer tr s → src_end s = true ∨ ctx s = true →
  Acc (λ s2 s1, ∃ a, pstep s1 a s2 ∧ own_step a = true) s ∧
  (rd s = RExit ∧ exited s = true ∨ ∃ a s', pstep s a s' ∧ own_step a = true).
Proof.
  intros Hrun Hend. split.
  - clear. remember (Z.to_nat (pwork s)) as n eqn:E. revert s E. induction n as [n IH] using lt_wf_ind. intros s ->.
    constructor. intros s' (a & Hs & Ho). pose proof (pwork_decreases _ _ _ Hs Ho). apply (IH (Z.to_nat (pwork s'))); lia.
  - apply prun_ok in Hrun as (rest & _ & _ & He & Hx). destruct s as [sr e c r x k a]. cbn in *.
    destruct k.
    + destruct r; [right; by eexists _, _; split; [apply step_read_cancel|]..|].
      destruct x; [by left|]. right. by eexists _, _; split; [apply step_proc_cancel|].
    + destruct Hend as [->|?]; [|done]. destruct x.
      * left. destruct (Hx eq_refl eq_refl) as [_ ?]. done.
      * right. destruct c as [|p c]; [|by eexists _, _; split; [apply step_assemble|]].
        destruct r as [|p|].
        -- destruct sr as [|p sr]; [by eexists _, _; split; [apply step_read_end|]|by eexists _, _; split; [apply step_take|]].
        -- by eexists _, _; split; [apply step_put|].
        -- by eexists _, _; split; [apply step_proc_end|].
Qed.

Lemma prun_cons s a s1 tr s2 : pstep s a s1 → prun s1 tr s2 → prun s (a :: tr) s2.
Proof.
  intros Hs. induction 1 as [|tr s2 b s3 _ IH Hb]; [apply (prun_snoc _ [] s); [constructor|done]|].
  by apply (prun_snoc _ (a :: tr) s2).
Qed.
End producer.

Arguments reader : clear implicits.
Arguments reasm_call : clear implicits.
Arguments producer : clear implicits.
Arguments plabel : clear implicits.

(** ** Concrete schedules *)
Ltac run_producer := repeat (eapply prun_cons; [constructor; (done || lia)|]); apply prun_nil.

Lemma producer_in_order_witness :
  assembled (Producer [] true [] RExit true false [AskAssemble 7%nat; AskFlush; AskAssemble 8%nat; AskClose]) = [7%nat; 8%nat].
Proof.
  apply (producer_in_order [PArrive 7%nat; PTake; PArrive 8%nat; PPut; PTake; PAssemble; PPut; PEnd; PReadEnd; PTick; PAssemble;
    PProcEnd] (Producer [] true [] RExit true false [AskAssemble 7%nat; AskFlush; AskAssemble 8%nat; AskClose])); [|reflexivity..].
  unfold startProducer. run_producer.
Defined.

Lemma producer_terminates_witness :
  ∃ a s', pstep (Producer [8%nat] true [] (RHold 7%nat) false false []) a s' ∧ own_step a = true.
Proof.
  destruct (producer_terminates [PArrive 7%nat; PTake; PArrive 8%nat; PEnd]
    (Producer [8%nat] true [] (RHold 7%nat) false false [])) as [_ [[H _]|H]].
  - unfold startProducer. run_producer.
  - left. reflexivity.
  - discriminate H.
  - exact H.
Defined.

(** The drain cancels the producer before it waits for it, and the processor does not
    empty the channel then: packets captured before the shutdown are lost. *)
Theorem drain_drops_packets :
  ∃ s, prun startProducer [PArrive 7%nat; PTake; PPut; PCancel; PReadCancel; PProcCancel] s ∧
    rd s = RExit ∧ exited s = true ∧ chan s = [7%nat] ∧ assembled s = [].
Proof.
  exists (Producer [] false [7%nat] RExit true true [AskClose]). split; [|done]. unfold startProducer. run_producer.
Qed.
