(* ===== verification/KafkaQueue.v ===== *)
(** * The Kafka queue (src/pkg/queue/kafkaqueue.go)

    The local buffer, the background producer with its retries, and the consumer.
    The cluster is a parameter: [WriteMessages] answers from the batches it was
    given so far, with an error or none, and with the messages it appended. *)
From Stdlib Require Import String Ascii.
From S2P Require Import Prelude Core Classifier ConnKey FileCodec CaptureConfig.

Record message := MkMessage { mkey : list Z; mvalue : list Z }.

Definition kafkaMessage (ev : SQLEvent) : message := MkMessage (Key (Conn ev)) (encodeBinary ev).

Definition kafkaLocalBufferSize : Z := 200000.
Definition batchCap : nat := 1000.

(** ** The cluster *)

(** The batches given to [WriteMessages] so far. *)
Definition attempts : Type := list (list message).

(** An error of a write is its text. *)
Class Broker := {
  WriteMessages : attempts → list message → option (list Z) * list message;
  closing : attempts → bool;
  write_all : ∀ h ms, (WriteMessages h ms).1 = None → ms ⊆+ (WriteMessages h ms).2 }.

Definition isRetriableKafkaError (err : list Z) : bool :=
  existsb (λ p, Contains (bytes_of p) err)
    ["Unknown Topic Or Partition"; "Leader Not Available"; "Not Leader"; "Request Timed Out"]%string.

(** The producer's side: what was tried, what the topic holds, and the counter. *)
Record writer := MkWriter { tried : attempts; topic : list message; produced : Z }.

Section kafka.
Context `{Broker}.

Definition write (ms : list message) (w : writer) : option (list Z) * writer :=
  let '(err, added) := WriteMessages (tried w) ms in
  (err, MkWriter (tried w ++ [ms]) (topic w ++ added) (produced w)).

Definition add_produced (n : Z) (w : writer) : writer :=
  MkWriter (tried w) (topic w) (signed 64 (produced w + n)).

(** ** Retries *)

(** The loop of [retryWithBackoff] with [n] attempts left after the first; the flag
    tells whether the batch was written. *)
Fixpoint retry_more (n : nat) (batch : list message) (w : writer) : bool * writer :=
  match n with
  | O => (false, w)
  | S n =>
      if closing (tried w) then (false, w) else
      let '(err, w) := write batch w in
      match err with
      | None => (true, add_produced (zlen batch) w)
      | Some e => if isRetriableKafkaError e then retry_more n batch w else (false, w)
      end
  end.

Definition retryWithBackoff (batch : list message) (maxRetries : nat) (w : writer) : bool * writer :=
  match maxRetries with
  | O => (false, w)
  | S n =>
      let '(err, w) := write batch w in
      match err with
      | None => (true, add_produced (zlen batch) w)
      | Some e => if isRetriableKafkaError e then retry_more n batch w else (false, w)
      end
  end.

(** Each message on its own; the messages that failed. *)
Fixpoint write_each (ms : list message) (w : writer) : list message * writer :=
  match ms with
  | [] => ([], w)
  | m :: ms =>
      let '(err, w) := write [m] w in
      let '(failed, w) := write_each ms w in
      (match err with None => failed | Some _ => m :: failed end, w)
  end.

Definition write_half (half : list message) (w : writer) : list message * writer :=
  let '(err, w) := write half w in
  (match err with None => [] | Some _ => half end, w).

Definition writePartialBatch (batch : list message) (w : writer) : list message * writer :=
  if (1 <? length batch)%nat then
    let mid := (length batch / 2)%nat in
    let '(f1, w) := write_half (take mid batch) w in
    let '(f2, w) := write_half (drop mid batch) w in
    let failed := f1 ++ f2 in
    if (0 <? length failed)%nat && (length failed <? length batch)%nat then write_each failed w else (failed, w)
  else write_each batch w.

(** The messages given up on. *)
Definition writeBatchWithRetry (batch : list message) (w : writer) : list message * writer :=
  match batch with
  | [] => ([], w)
  | _ =>
      let '(err, w) := write batch w in
      match err with
      | None => ([], add_produced (zlen batch) w)
      | Some _ =>
          let '(done, w) := retryWithBackoff batch 3 w in
          if done : bool then ([], w) else
          let '(failed, w) := writePartialBatch batch w in
          (failed, add_produced (zlen batch - zlen failed) w)
      end
  end.

(** ** The queue *)
Record kafkaQueue := MkKafka {
  msgCh : list message; wr : writer; consumed : Z; kclosed : bool; overflows : Z }.

Definition newKafkaQueue : kafkaQueue := MkKafka [] (MkWriter [] [] 0) 0 false 0.

(** The boolean is [dropped]. *)
Definition kq_Enqueue (ev : SQLEvent) (q : kafkaQueue) : bool * kafkaQueue :=
  if kclosed q then (false, q) else
  if zlen (msgCh q) <? kafkaLocalBufferSize
  then (false, MkKafka (msgCh q ++ [kafkaMessage ev]) (wr q) (consumed q) (kclosed q) (overflows q))
  else (true, MkKafka (msgCh q) (wr q) (consumed q) (kclosed q) (overflows q + 1)).

(** One round of [produceLoop]: [more] is how many messages it finds behind the first. *)
Definition produce_round (more : nat) (q : kafkaQueue) : kafkaQueue :=
  match msgCh q with
  | [] => q
  | _ =>
      let n := Nat.min (S more) batchCap in
      let '(failed, w) := writeBatchWithRetry (take n (msgCh q)) (wr q) in
      MkKafka (drop n (msgCh q)) w (consumed q) (kclosed q) (overflows q + zlen failed)
  end.

Definition kq_Depth (q : kafkaQueue) : Z :=
  let d := signed 64 (zlen (msgCh q) + signed 64 (produced (wr q) - consumed q)) in
  if d <? 0 then 0 else d.

(** [Close] stops new events; the rounds of the producer that follow empty the
    buffer. *)
Definition kq_Close (q : kafkaQueue) : kafkaQueue :=
  MkKafka (msgCh q) (wr q) (consumed q) true (overflows q).
End kafka.

(** ** The consumer *)
Definition maxConsecutiveDecodeErrors : Z := 50.

(** [Dequeue] over the answers of [ReadMessage], [None] being an error: the event,
    the answers left, and the messages counted as consumed. *)
Fixpoint dequeue_reads (errors : Z) (reads : list (option message)) (n : Z)
    : result panic (option SQLEvent * list (option message) * Z) :=
  match reads with
  | [] => Ok (None, [], n)
  | None :: reads => Ok (None, reads, n)
  | Some m :: reads =>
      match decodeBinary (mvalue m) with
      | Ok ev => Ok (Some ev, reads, n + 1)
      | Err (Panicked p) => Err p
      | Err _ =>
          if maxConsecutiveDecodeErrors <=? errors + 1 then Ok (None, reads, n)
          else dequeue_reads (errors + 1) reads (n + 1)
      end
  end.

Definition kq_Dequeue (closed : bool) (reads : list (option message)) (n : Z)
    : result panic (option SQLEvent * list (option message) * Z) :=
  if closed then Ok (None, reads, n) else dequeue_reads 0 reads n.

(** ** Nothing is lost silently *)
Section facts.
Context `{Broker}.

(** From [w] to [w'] the messages [ms] were appended to the topic at least once
    each, except [failed]; the topic may have grown by more. *)
Definition accounted (ms failed : list message) (w w' : writer) : Prop :=
  ∃ added written, topic w' = topic w ++ added ∧ ms ≡ₚ written ++ failed ∧ written ⊆+ added.

Lemma accounted_app ms1 ms2 f1 f2 w w1 w2 :
  accounted ms1 f1 w w1 → accounted ms2 f2 w1 w2 → accounted (ms1 ++ ms2) (f1 ++ f2) w w2.
Proof.
  intros (a1 & x1 & Ht1 & Hp1 & Hs1) (a2 & x2 & Ht2 & Hp2 & Hs2). exists (a1 ++ a2), (x1 ++ x2).
  split_and!; [by rewrite Ht2, Ht1, app_assoc| |by apply submseteq_app].
  rewrite Hp1, Hp2. solve_Permutation.
Qed.

Lemma accounted_trans ms f f' w w1 w2 :
  accounted ms f w w1 → accounted f f' w1 w2 → accounted ms f' w w2.
Proof.
  intros (a1 & x1 & Ht1 & Hp1 & Hs1) (a2 & x2 & Ht2 & Hp2 & Hs2). exists (a1 ++ a2), (x1 ++ x2).
  split_and!; [by rewrite Ht2, Ht1, app_assoc| |by apply submseteq_app].
  by rewrite Hp1, Hp2, app_assoc.
Qed.

Lemma accounted_nil w : accounted [] [] w w.
Proof. exists [], []. by rewrite app_nil_r. Qed.

Lemma write_accounted ms w :
  let '(err, w') := write ms w in
  accounted ms (match err with None => [] | Some _ => ms end) w w' ∧ produced w' = produced w.
Proof.
  unfold write. pose proof (write_all (tried w) ms) as Hw. destruct (WriteMessages (tried w) ms) as [[e|] added]; cbn in *.
  - split; [|done]. exists added, []. split_and!; [done|done|apply submseteq_nil_l].
  - split; [|done]. exists added, ms. rewrite app_nil_r. auto.
Qed.

Lemma accounted_produced ms f w w' n : accounted ms f w w' → accounted ms f w (add_produced n w').
Proof. done. Qed.

(** What a retry leaves: the batch written and counted, or not. *)
Definition retried (batch : list message) (w : writer) (r : bool * writer) : Prop :=
  accounted batch (if r.1 then [] else batch) w r.2 ∧
  produced r.2 = if r.1 then signed 64 (produced w + zlen batch) else produced w.

Lemma retry_write batch w k :
  (∀ w1, retried batch w1 (k w1)) →
  retried batch w (let '(err, w1) := write batch w in
    match err with
    | None => (true, add_produced (zlen batch) w1)
    | Some e => if isRetriableKafkaError e then k w1 else (false, w1)
    end).
Proof.
  intros Hk. pose proof (write_accounted batch w) as Hw. destruct (write batch w) as [[e|] w1]; destruct Hw as [Ha Hp].
  - destruct (isRetriableKafkaError e); [|by split]. destruct (Hk w1) as [H1 H2]. split.
    + by eapply accounted_trans.
    + by rewrite <- Hp.
  - split; cbn; [done|by rewrite Hp].
Qed.

Lemma retry_more_ok n batch w : retried batch w (retry_more n batch w).
Proof.
  assert (∀ w, retried batch w (false, w)) as Hno.
  { intros w1. split; [|done]. exists [], []. by rewrite app_nil_r. }
  revert w. induction n as [|n IH]; intros w; cbn [retry_more]; [done|].
  destruct (closing (tried w)); [done|]. by apply retry_write.
Qed.

Lemma write_each_ok ms w :
  let '(failed, w') := write_each ms w in accounted ms failed w w' ∧ produced w' = produced w.
Proof.
  revert w. induction ms as [|m ms IH]; intros w; cbn [write_each]; [by split; [apply accounted_nil|]|].
  pose proof (write_accounted [m] w) as Hw. destruct (write [m] w) as [err w1]. destruct Hw as [Ha Hp].
  specialize (IH w1). destruct (write_each ms w1) as [failed w2]. destruct IH as [IH1 IH2]. split; [|by rewrite IH2].
  pose proof (accounted_app _ _ _ _ _ _ _ Ha IH1) as Hc. by destruct err.
Qed.

Lemma write_half_ok half w :
  let '(failed, w') := write_half half w in accounted half failed w w' ∧ produced w' = produced w.
Proof. unfold write_half. pose proof (write_accounted half w) as Hw. destruct (write half w). exact Hw. Qed.

Lemma writePartialBatch_ok batch w :
  let '(failed, w') := writePartialBatch batch w in accounted batch failed w w' ∧ produced w' = produced w.
Proof.
  unfold writePartialBatch. destruct (1 <? length batch)%nat; [|apply write_each_ok].
  set (mid := (length batch / 2)%nat). pose proof (write_half_ok (take mid batch) w) as H1.
  destruct (write_half _ w) as [f1 w1]. destruct H1 as [H1 P1].
  pose proof (write_half_ok (drop mid batch) w1) as H2. destruct (write_half _ w1) as [f2 w2]. destruct H2 as [H2 P2].
  assert (accounted batch (f1 ++ f2) w w2) as Hb.
  { rewrite <- (take_drop mid batch) at 1. by eapply accounted_app. }
  destruct (_ && _); [|split; [done|by rewrite P2]].
  pose proof (write_each_ok (f1 ++ f2) w2) as H3. destruct (write_each _ w2) as [f3 w3]. destruct H3 as [H3 P3].
  split; [by eapply accounted_trans|by rewrite P3, P2].
Qed.

Lemma writeBatch_ok batch w :
  batch ≠ [] →
  let '(failed, w') := writeBatchWithRetry batch w in
  accounted batch failed w w' ∧ produced w' = signed 64 (produced w + (zlen batch - zlen failed)).
Proof.
  intros Hne. unfold writeBatchWithRetry. destruct batch as [|m ms]; [done|]. clear Hne. set (batch := m :: ms).
  pose proof (write_accounted batch w) as Hw. destruct (write batch w) as [[e|] w1]; destruct Hw as [Ha Hp]; cycle 1.
  { split; [by apply accounted_produced|]. cbn [add_produced produced]. by rewrite Hp, (@zlen_nil message), Z.sub_0_r. }
  assert (retried batch w1 (retryWithBackoff batch 3 w1)) as Hr.
  { unfold retryWithBackoff. apply retry_write. intros. apply retry_more_ok. }
  destruct (retryWithBackoff batch 3 w1) as [[] w2]; destruct Hr as [Hr1 Hr2]; cbn [fst snd] in *.
  { split; [by eapply accounted_trans|]. by rewrite Hr2, Hp, (@zlen_nil message), Z.sub_0_r. }
  pose proof (writePartialBatch_ok batch w2) as H3. destruct (writePartialBatch batch w2) as [f3 w3].
  destruct H3 as [H3 P3]. split.
  - apply accounted_produced. eapply accounted_trans; [done|]. by eapply accounted_trans.
  - cbn [add_produced produced]. by rewrite P3, Hr2, Hp.
Qed.

(** ** Runs *)
Inductive kop := KEnqueue (ev : SQLEvent) | KProduce (more : nat) | KClose.

Definition do_kop (q : kafkaQueue) (o : kop) : kafkaQueue :=
  match o with
  | KEnqueue ev => (kq_Enqueue ev q).2
  | KProduce more => produce_round more q
  | KClose => kq_Close q
  end.

(** The events a run of operations takes into the buffer, and those it turns away
    because it is full. *)
Fixpoint taken_in (q : kafkaQueue) (os : list kop) : list SQLEvent * list SQLEvent :=
  match os with
  | [] => ([], [])
  | o :: os =>
      let '(a, r) := taken_in (do_kop q o) os in
      match o with
      | KEnqueue ev =>
          if kclosed q then (a, r)
          else if zlen (msgCh q) <? kafkaLocalBufferSize then (ev :: a, r) else (a, ev :: r)
      | _ => (a, r)
      end
  end.

Lemma produce_round_ok more q :
  let q' := produce_round more q in
  ∃ batch failed, msgCh q = batch ++ msgCh q' ∧ accounted batch failed (wr q) (wr q') ∧
    overflows q' = overflows q + zlen failed.
Proof.
  unfold produce_round. destruct (msgCh q) as [|m ms] eqn:E.
  { exists [], []. rewrite E, (@zlen_nil message). split_and!; [done|apply accounted_nil|lia]. }
  set (n := Nat.min (S more) batchCap). pose proof (writeBatch_ok (take n (m :: ms)) (wr q)) as Hw.
  assert (take n (m :: ms) ≠ []) as Hne by (unfold n, batchCap; by destruct more). specialize (Hw Hne).
  destruct (writeBatchWithRetry (take n (m :: ms)) (wr q)) as [failed w]. destruct Hw as [Hw _].
  exists (take n (m :: ms)), failed. cbn [msgCh wr overflows]. split_and!; [by rewrite take_drop|done|done].
Qed.

Lemma run_accounted os q :
  let q' := fold_left do_kop os q in
  let '(a, r) := taken_in q os in
  ∃ failed, accounted (msgCh q ++ (kafkaMessage <$> a)) (failed ++ msgCh q') (wr q) (wr q') ∧
    overflows q' = overflows q + zlen r + zlen failed.
Proof.
  revert q. induction os as [|o os IH]; intros q; cbn [fold_left taken_in].
  { exists []. rewrite (@zlen_nil message), (@zlen_nil SQLEvent). split; [|lia].
    exists [], []. by rewrite !app_nil_r. }
  specialize (IH (do_kop q o)). destruct (taken_in (do_kop q o) os) as [a r].
  destruct IH as (failed & IH & Ho). destruct o as [ev|more|]; cbn [do_kop] in *.
  - unfold kq_Enqueue in *. destruct (kclosed q); [by exists failed|].
    destruct (zlen (msgCh q) <? kafkaLocalBufferSize); cbn [snd msgCh wr overflows] in *; exists failed.
    + rewrite <- app_assoc in IH. by split.
    + rewrite zlen_cons. split; [done|lia].
  - destruct (produce_round_ok more q) as (batch & f & Hm & Hb & Hf). exists (f ++ failed). split; cycle 1.
    + rewrite Ho, Hf, zlen_app. lia.
    + rewrite Hm, <- !app_assoc. eapply accounted_app; [done|done].
  - by exists failed.
Qed.

(** C18 Over any sequence of enqueues, rounds of the producer and a close, whatever the
    cluster answers: every event taken into the buffer is appended to the topic at
    least once, is counted as an overflow, or still waits in the buffer; events
    turned away are counted too. *)
Theorem kafka_no_silent_loss os :
  let q := fold_left do_kop os newKafkaQueue in
  let '(a, r) := taken_in newKafkaQueue os in
  ∃ written failed, kafkaMessage <$> a ≡ₚ written ++ failed ++ msgCh q ∧ written ⊆+ topic (wr q) ∧
    overflows q = zlen r + zlen failed.
Proof.
  pose proof (run_accounted os newKafkaQueue) as Hr. destruct (taken_in newKafkaQueue os) as [a r].
  destruct Hr as (failed & (added & written & Ht & Hp & Hs) & Ho). exists written, failed.
  cbn in Ht, Ho. rewrite Ht. split_and!; [|done|lia]. by rewrite <- Hp.
Qed.
End facts.

(** ** Order *)

(** When every write succeeds at once, the topic holds the events in the order in
    which they were enqueued. *)
Section reliable.
Context `{Broker} (exact : ∀ h ms, WriteMessages h ms = (None, ms)).

Lemma exact_round more q :
  let q' := produce_round more q in
  topic (wr q') ++ msgCh q' = topic (wr q) ++ msgCh q ∧ overflows q' = overflows q ∧ kclosed q' = kclosed q.
Proof.
  unfold produce_round. destruct (msgCh q) as [|m ms] eqn:E; [by rewrite E|]. set (n := Nat.min (S more) batchCap).
  unfold writeBatchWithRetry. destruct (take n (m :: ms)) as [|x batch] eqn:Et.
  { unfold n, batchCap in Et. by destruct more. }
  unfold write. rewrite exact. cbn [topic wr msgCh add_produced overflows kclosed]. split_and!; [|rewrite (@zlen_nil message); lia|done].
  rewrite <- app_assoc, <- Et. by rewrite take_drop.
Qed.

Lemma exact_run os q :
  topic (wr (fold_left do_kop os q)) ++ msgCh (fold_left do_kop os q) =
  (topic (wr q) ++ msgCh q) ++ (kafkaMessage <$> (taken_in q os).1).
Proof.
  revert q. induction os as [|o os IH]; intros q; cbn [fold_left taken_in]; [by rewrite app_nil_r|].
  rewrite IH. destruct (taken_in (do_kop q o) os) as [a r]. cbn [fst]. destruct o as [ev|more|]; cbn [do_kop].
  - unfold kq_Enqueue. destruct (kclosed q); [done|].
    destruct (zlen (msgCh q) <? kafkaLocalBufferSize); [|done]. cbn. by rewrite <- !app_assoc.
  - by rewrite (proj1 (exact_round more q)).
  - done.
Qed.
End reliable.

(** A consumer hands out the messages of a topic so that those with the same key,
    which share a partition, keep their order. *)
Inductive consumes : list message → list message → list message → Prop :=
| consumes_nil l : consumes l [] l
| consumes_cons a m b got l :
    Forall (λ m', mkey m' ≠ mkey m) a → consumes (a ++ b) got l → consumes (a ++ m :: b) (m :: got) l.

Lemma consumes_key k l got l' :
  consumes l got l' → filter (λ m, mkey m = k) l = filter (λ m, mkey m = k) got ++ filter (λ m, mkey m = k) l'.
Proof.
  induction 1 as [|a m b got l' Ha _ IH]; [done|].
  rewrite filter_app in IH |- *. rewrite !filter_cons. destruct (decide (mkey m = k)) as [<-|]; [|done].
  assert (filter (λ m', mkey m' = mkey m) a = []) as Hn.
  { clear -Ha. induction Ha as [|m' a Hm _ IHa]; [done|]. by rewrite filter_cons, decide_False. }
  rewrite Hn in IH |- *. cbn in IH |- *. by rewrite IH.
Qed.

Lemma consumes_in l got l' m : consumes l got l' → m ∈ got → m ∈ l.
Proof.
  induction 1 as [|a m' b got l' _ _ IH]; [by intros ?%elem_of_nil|].
  intros [->|Hm]%elem_of_cons; [set_solver|]. specialize (IH Hm). set_solver.
Qed.

Lemma filter_messages k (evs : list SQLEvent) :
  filter (λ m, mkey m = k) (kafkaMessage <$> evs) = kafkaMessage <$> filter (λ ev, Key (Conn ev) = k) evs.
Proof.
  induction evs as [|ev evs IH]; [done|]. rewrite fmap_cons, !filter_cons. cbn [mkey kafkaMessage].
  destruct (decide (Key (Conn ev) = k)); [by rewrite fmap_cons, IH|done].
Qed.

(** C19 Per-connection order: when the cluster accepts every batch and keeps the order
    within a partition, the messages of a connection are consumed in the order in
    which its events were enqueued, without gaps, and each decodes to its event. *)
Theorem kafka_order `{Broker} os got rest k :
  (∀ h ms, WriteMessages h ms = (None, ms)) → Forall wf_event (taken_in newKafkaQueue os).1 →
  consumes (topic (wr (fold_left do_kop os newKafkaQueue))) got rest →
  filter (λ m, mkey m = k) got `prefix_of`
    kafkaMessage <$> filter (λ ev, Key (Conn ev) = k) (taken_in newKafkaQueue os).1 ∧
  ∀ m, m ∈ got → ∃ ev, ev ∈ (taken_in newKafkaQueue os).1 ∧ m = kafkaMessage ev ∧
    decodeBinary (mvalue m) = Ok (stored ev).
Proof.
  intros Hx Hwf Hc. pose proof (exact_run Hx os newKafkaQueue) as He. cbn [newKafkaQueue wr topic msgCh app] in He.
  split.
  - rewrite <- filter_messages, <- He, filter_app, (consumes_key k _ _ _ Hc), <- app_assoc. by apply prefix_app_r.
  - intros m Hm. apply (consumes_in _ _ _ _ Hc) in Hm.
    assert (m ∈ kafkaMessage <$> (taken_in newKafkaQueue os).1) as Hin by (rewrite <- He; set_solver).
    apply list_elem_of_fmap in Hin as (ev & -> & Hin). exists ev. split_and!; [done|done|].
    apply decode_encode. rewrite Forall_forall in Hwf. by apply Hwf.
Qed.

(** ** Dequeue *)
Definition undecodable (m : message) : Prop :=
  match decodeBinary (mvalue m) with Ok _ => False | Err (Panicked _) => False | Err _ => True end.

Lemma dequeue_bad bad reads errors n :
  Forall undecodable bad → errors + zlen bad < maxConsecutiveDecodeErrors →
  dequeue_reads errors ((Some <$> bad) ++ reads) n = dequeue_reads (errors + zlen bad) reads (n + zlen bad).
Proof.
  intros Hb. revert errors n. induction Hb as [|m bad Hm _ IH]; intros errors n Hl.
  { rewrite (@zlen_nil message), !Z.add_0_r. done. }
  rewrite zlen_cons in Hl |- *. pose proof (zlen_nonneg bad). cbn [fmap list_fmap app dequeue_reads].
  unfold undecodable in Hm. destruct (decodeBinary (mvalue m)) as [|[]]; try done;
    (rewrite (proj2 (Z.leb_gt _ _)) by lia; rewrite IH by lia; f_equal; lia).
Qed.

(** Fewer than fifty undecodable messages in a row are skipped and counted; at the
    fiftieth the consumer gives up, although the queue is open and messages follow. *)
Theorem kafka_dequeue bad m ev reads n :
  Forall undecodable bad → decodeBinary (mvalue m) = Ok ev →
  kq_Dequeue false ((Some <$> bad) ++ Some m :: reads) n =
    if zlen bad <? maxConsecutiveDecodeErrors then Ok (Some ev, reads, n + zlen bad + 1)
    else Ok (None, (Some <$> drop 50 bad) ++ Some m :: reads, n + 49).
Proof.
  intros Hb Hm. unfold kq_Dequeue. destruct (Z.ltb_spec (zlen bad) maxConsecutiveDecodeErrors) as [Hl|Hl].
  - rewrite dequeue_bad by (done || lia). cbn [dequeue_reads]. by rewrite Hm.
  - unfold maxConsecutiveDecodeErrors in Hl. assert (50 ≤ length bad)%nat as Hn by (unfold zlen in Hl; lia).
    rewrite <- (take_drop 49 bad) at 1. rewrite fmap_app, <- app_assoc, dequeue_bad.
    + assert (zlen (take 49 bad) = 49) as -> by (unfold zlen; rewrite length_take; lia).
      destruct (drop 49 bad) as [|x bs] eqn:E.
      { apply (f_equal length) in E. rewrite length_drop in E. cbn in E. lia. }
      assert (drop 50 bad = bs) as ->.
      { replace 50%nat with (49 + 1)%nat by done. rewrite <- drop_drop, E. done. }
      assert (undecodable x) as Hx.
      { rewrite Forall_forall in Hb. apply Hb. rewrite <- (take_drop 49 bad), E. set_solver. }
      cbn [fmap list_fmap app dequeue_reads]. unfold undecodable in Hx. by destruct (decodeBinary (mvalue x)) as [|[]].
    + by apply Forall_take.
    + unfold maxConsecutiveDecodeErrors, zlen. rewrite length_take. lia.
Qed.

(** ** Concrete clusters *)
Module KafkaDemo.
Local Open Scope string_scope.

Definition fatal : list Z := bytes_of "[7] Policy Violation".

(** A cluster that fails the attempts [bad] numbers, appending nothing then. *)
Program Definition broker (bad : nat → bool) : Broker := {|
  WriteMessages h ms := if bad (length h) then (Some fatal, []) else (None, ms);
  closing h := false |}.
Next Obligation. intros bad h ms. cbn. by destruct (bad (length h)). Qed.

(** One that appends the first message of a batch before it fails the first attempt. *)
Program Definition half_broker : Broker := {|
  WriteMessages h ms := if (length h =? 0)%nat then (Some fatal, take 1 ms) else (None, ms);
  closing h := false |}.
Next Obligation. intros h ms. cbn. by destruct (length h =? 0)%nat. Qed.

Definition conn : ConnID := MkConnID (Addr4 [10; 0; 0; 1]) 40000 (Addr4 [10; 0; 0; 2]) 5432.
Definition event (n : Z) : SQLEvent := SqlEvent conn [110%Z] n 0 n false [] [] [] 0 [].
Definition ops : list kop := [KEnqueue (event 1); KEnqueue (event 2); KEnqueue (event 3); KEnqueue (event 4); KProduce 3].
Definition run (b : Broker) : kafkaQueue := fold_left do_kop ops newKafkaQueue.

Definition msgs (ns : list Z) : list message := kafkaMessage ∘ event <$> ns.

Lemma events_wf : Forall wf_event (event <$> [1; 2; 3; 4]%Z).
Proof.
  repeat constructor; cbn; unfold in_width, zlen; cbn; try lia.
Qed.
End KafkaDemo.

Lemma kafka_order_witness :
  filter (λ m, mkey m = Key KafkaDemo.conn) (KafkaDemo.msgs [1; 2]) `prefix_of` KafkaDemo.msgs [1; 2; 3; 4].
Proof.
  apply (@kafka_order (KafkaDemo.broker (λ _, false)) KafkaDemo.ops (KafkaDemo.msgs [1; 2]) (KafkaDemo.msgs [3; 4])
    (Key KafkaDemo.conn)).
  - done.
  - exact KafkaDemo.events_wf.
  - apply (consumes_cons [] _ (KafkaDemo.msgs [2; 3; 4])); [constructor|].
    apply (consumes_cons [] _ (KafkaDemo.msgs [3; 4])); [constructor|]. apply consumes_nil.
Defined.

Lemma kafka_dequeue_witness :
  kq_Dequeue false [Some (MkMessage [] []); Some (kafkaMessage (KafkaDemo.event 1))] 0 =
  Ok (Some (stored (KafkaDemo.event 1)), [], 2).
Proof.
  apply (kafka_dequeue [MkMessage [] []] (kafkaMessage (KafkaDemo.event 1)) (stored (KafkaDemo.event 1)) [] 0).
  - repeat constructor.
  - vm_compute. reflexivity.
Defined.

(** A failed half is retried message by message after the other half was written:
    the four events of one connection, enqueued in order, are appended as 3, 4, 1, 2. *)
Theorem kafka_partial_reorders :
  topic (wr (KafkaDemo.run (KafkaDemo.broker (λ n, (n <? 3)%nat)))) = KafkaDemo.msgs [3; 4; 1; 2].
Proof. vm_compute. reflexivity. Qed.

(** When both halves fail nothing is tried one by one, and the whole batch is given
    up on although later attempts would succeed; a batch that failed after it was
    partly written is written again. *)
Theorem kafka_batch_lost_or_doubled :
  topic (wr (KafkaDemo.run (KafkaDemo.broker (λ n, (n <? 4)%nat)))) = [] ∧
  overflows (KafkaDemo.run (KafkaDemo.broker (λ n, (n <? 4)%nat))) = 4 ∧
  topic (wr (KafkaDemo.run KafkaDemo.half_broker)) = KafkaDemo.msgs [1; 1; 2; 3; 4].
Proof. vm_compute. by split_and!. Qed.

Lemma kafka_no_silent_loss_witness :
  ∃ written failed, KafkaDemo.msgs [1; 2; 3; 4] ≡ₚ written ++ failed ++ [] ∧
    written ⊆+ topic (wr (KafkaDemo.run (KafkaDemo.broker (λ n, (n <? 4)%nat)))) ∧ 4 = 0 + zlen failed.
Proof. exact (@kafka_no_silent_loss (KafkaDemo.broker (λ n, (n <? 4)%nat)) KafkaDemo.ops). Defined.
