(* ===== verification/KafkaSetup.v ===== *)
(** * Setting up the Kafka client (src/pkg/queue/kafkaqueue.go, newKafkaQueue)

    From the settings to the three clients of the queue: the dialer that probes the
    brokers, the writer and the reader.  Files, certificates, the SCRAM
    implementation, the environment and whether a broker answers are parameters. *)
From Stdlib Require Import String Ascii.
From S2P Require Import Prelude Core Classifier ClassifierFacts Config.

Definition defaultKafkaTopic : list Z := bytes_of "pgshadow".

Record tlsConfig := MkTls { InsecureSkipVerify : bool; RootCAs : option (list Z); Certificate : option (list Z * list Z) }.

Inductive mechanism := Plain (user password : list Z) | Scram (bits : Z) (user password : list Z).

Inductive setup_error :=
| NoBrokers | CAUnreadable | CAInvalid | BadKeyPair
| SASLPasswordEnvEmpty | SASLUserMissing | SASLPasswordMissing | ScramRejects | UnsupportedMechanism
| Unreachable (brokers : list (list Z)).

(** TLS and SASL of one connection to the cluster; [None] is none. *)
Record transport := MkTransport { tls : option tlsConfig; sasl : option mechanism }.

(** The reader's own dialer is the library's default one unless set. *)
Record clients := MkClients { ctopic : list Z; wtransport : transport; dialer : transport; rdialer : option transport }.

Section setup.
Context `{Unicode}.
Context (ReadFile : list Z → option (list Z)) (valid_pem : list Z → bool) (key_pair : list Z → list Z → bool).
Context (Getenv : list Z → list Z) (scram_ok : Z → list Z → list Z → bool).
Context (reaches : transport → list Z → bool).

Definition buildTLSConfig (cfg : KafkaConfig) : result setup_error tlsConfig :=
  roots ← (if bool_decide (TLSCAFile cfg = []) then Ok None else
           ca ← of_option CAUnreadable (ReadFile (TLSCAFile cfg));
           _ ← guard_or CAInvalid (valid_pem ca); Ok (Some ca));
  cert ← (if negb (bool_decide (TLSCertFile cfg = [])) && negb (bool_decide (TLSKeyFile cfg = [])) then
            _ ← guard_or BadKeyPair (key_pair (TLSCertFile cfg) (TLSKeyFile cfg));
            Ok (Some (TLSCertFile cfg, TLSKeyFile cfg))
          else Ok None);
  Ok (MkTls (TLSSkipVerify cfg) roots cert).

Definition buildSASLMechanism (cfg : KafkaConfig) : result setup_error mechanism :=
  password ← (if bool_decide (SASLPasswordEnv cfg = []) then Ok (SASLPassword cfg) else
              let p := Getenv (SASLPasswordEnv cfg) in
              _ ← guard_or SASLPasswordEnvEmpty (negb (bool_decide (p = []))); Ok p);
  _ ← guard_or SASLUserMissing (negb (bool_decide (SASLUsername cfg = [])));
  _ ← guard_or SASLPasswordMissing (negb (bool_decide (password = [])));
  let m := ToLower (SASLMechanism cfg) in
  if bool_decide (m = bytes_of "plain") then Ok (Plain (SASLUsername cfg) password)
  else if bool_decide (m = bytes_of "scram-sha-256") then
    _ ← guard_or ScramRejects (scram_ok 256 (SASLUsername cfg) password); Ok (Scram 256 (SASLUsername cfg) password)
  else if bool_decide (m = bytes_of "scram-sha-512") then
    _ ← guard_or ScramRejects (scram_ok 512 (SASLUsername cfg) password); Ok (Scram 512 (SASLUsername cfg) password)
  else Err UnsupportedMechanism.

Definition dialBrokersWithDialer (brokers : list (list Z)) (d : transport) : list (list Z) :=
  List.filter (λ b, negb (reaches d b)) brokers.

Definition setup_clients (cfg : KafkaConfig) : result setup_error clients :=
  _ ← guard_or NoBrokers (negb (bool_decide (Brokers cfg = [])));
  let topic := if bool_decide (TrimSpace (Topic cfg) = []) then defaultKafkaTopic else Topic cfg in
  tlsCfg ← (if TLSEnabled cfg then Some <$> buildTLSConfig cfg else Ok None);
  saslMechanism ← (if bool_decide (SASLMechanism cfg = []) then Ok None else Some <$> buildSASLMechanism cfg);
  let t := MkTransport tlsCfg saslMechanism in
  let unreachable := dialBrokersWithDialer (Brokers cfg) t in
  _ ← guard_or (Unreachable unreachable) (bool_decide (unreachable = []));
  Ok (MkClients topic t t (if bool_decide (is_Some tlsCfg) || bool_decide (is_Some saslMechanism) then Some t else None)).
End setup.

Section facts.
Context `{Unicode}.
Context (ReadFile : list Z → option (list Z)) (valid_pem : list Z → bool) (key_pair : list Z → list Z → bool).
Context (Getenv : list Z → list Z) (scram_ok : Z → list Z → list Z → bool).
Context (reaches : transport → list Z → bool).

Abbreviation setup := (setup_clients ReadFile valid_pem key_pair Getenv scram_ok reaches).

(** The password a mechanism is built with. *)
Definition sasl_password (cfg : KafkaConfig) : list Z :=
  if bool_decide (SASLPasswordEnv cfg = []) then SASLPassword cfg else Getenv (SASLPasswordEnv cfg).

Lemma sasl_ok cfg m :
  buildSASLMechanism Getenv scram_ok cfg = Ok m →
  SASLUsername cfg ≠ [] ∧ sasl_password cfg ≠ [] ∧
  (m = Plain (SASLUsername cfg) (sasl_password cfg) ∨ ∃ bits, m = Scram bits (SASLUsername cfg) (sasl_password cfg)).
Proof.
  unfold buildSASLMechanism. intros (pw & Hpw & Hm)%bind_ok.
  assert (pw = sasl_password cfg) as ->.
  { unfold sasl_password. destruct (bool_decide _); [by injection Hpw as <-|]. by apply bind_ok in Hpw as (_ & _ & [= <-]). }
  apply bind_ok in Hm as (u1 & Hu%guard_or_ok & Hm). apply bind_ok in Hm as (u2 & Hp%guard_or_ok & Hm).
  apply negb_true_iff, bool_decide_eq_false in Hu, Hp. split_and!; [done|done|].
  destruct (bool_decide _); [by injection Hm as <-; left|].
  destruct (bool_decide _); [|destruct (bool_decide _); [|discriminate Hm]];
    apply bind_ok in Hm as (_ & _ & [= <-]); right; by eexists.
Qed.

(** Every connection to the cluster is made the same way.  When the set-up succeeds
    there are brokers and each answered the probe; the probe, the writer and the
    reader use the same TLS and SASL settings, and they are those of the
    configuration: TLS whenever it is enabled, and with a mechanism a user and a
    password that are not empty. *)
Theorem kafka_clients_secured cfg c :
  setup cfg = Ok c →
  Brokers cfg ≠ [] ∧ Forall (λ b, reaches (dialer c) b = true) (Brokers cfg) ∧ ctopic c ≠ [] ∧
  wtransport c = dialer c ∧ default (MkTransport None None) (rdialer c) = dialer c ∧
  (TLSEnabled cfg = true ↔ is_Some (tls (dialer c))) ∧
  (∀ t, tls (dialer c) = Some t → InsecureSkipVerify t = TLSSkipVerify cfg) ∧
  (SASLMechanism cfg ≠ [] ↔ is_Some (sasl (dialer c))) ∧
  (∀ m, sasl (dialer c) = Some m →
    ∃ user pw, user ≠ [] ∧ pw ≠ [] ∧ user = SASLUsername cfg ∧ pw = sasl_password cfg ∧
      (m = Plain user pw ∨ ∃ bits, m = Scram bits user pw)).
Proof.
  unfold setup_clients. intros (u & Hb%guard_or_ok & Hc)%bind_ok. apply negb_true_iff, bool_decide_eq_false in Hb.
  apply bind_ok in Hc as (t & Ht & Hc). apply bind_ok in Hc as (m & Hm & Hc).
  apply bind_ok in Hc as (u' & Hu%guard_or_ok & Hc). apply bool_decide_eq_true in Hu. injection Hc as <-. cbn.
  split_and!.
  - done.
  - apply Forall_forall. intros b Hin. destruct (reaches _ b) eqn:E; [done|].
    assert (b ∈ dialBrokersWithDialer reaches (Brokers cfg) (MkTransport t m)) as Hx; [|rewrite Hu in Hx; by apply elem_of_nil in Hx].
    apply list_elem_of_In, filter_In. rewrite E. split; [by apply list_elem_of_In|done].
  - destruct (bool_decide (TrimSpace (Topic cfg) = [])) eqn:E; [done|]. intros Hz. by rewrite Hz in E.
  - done.
  - by destruct t, m.
  - destruct (TLSEnabled cfg); [|injection Ht as <-; split; [done|by intros []]].
    destruct (buildTLSConfig _ _ _ cfg); [|done]. injection Ht as <-. by split.
  - intros t' ->. destruct (TLSEnabled cfg); [|done]. destruct (buildTLSConfig _ _ _ cfg) eqn:E; [|done].
    injection Ht as <-. unfold buildTLSConfig in E. apply bind_ok in E as (r & _ & E).
    by apply bind_ok in E as (ce & _ & [= <-]).
  - case_bool_decide as E; [injection Hm as <-; split; [done|by intros []]|].
    destruct (buildSASLMechanism _ _ cfg); [|done]. injection Hm as <-. by split.
  - intros m' ->. case_bool_decide as E; [done|]. destruct (buildSASLMechanism _ _ cfg) as [m''|] eqn:Es; [|done].
    injection Hm as ->. apply sasl_ok in Es as (H1 & H2 & H3). by exists (SASLUsername cfg), (sasl_password cfg).
Qed.

(** A certificate without its key is dropped without an error. *)
Theorem half_key_pair_ignored cfg t :
  TLSCertFile cfg = [] ∨ TLSKeyFile cfg = [] →
  buildTLSConfig ReadFile valid_pem key_pair cfg = Ok t → Certificate t = None.
Proof.
  intros Hh E. unfold buildTLSConfig in E. apply bind_ok in E as (r & _ & E). apply bind_ok in E as (ce & Hc & [= <-]).
  cbn. destruct Hh as [Hh|Hh]; rewrite Hh in Hc; cbn in Hc; [|rewrite andb_false_r in Hc]; by injection Hc as <-.
Qed.
End facts.

Module KafkaSetupDemo.
#[local] Existing Instance ClassifierDemo.ascii.
Local Open Scope string_scope.
Definition cfg : KafkaConfig :=
  MkKafkaConfig [bytes_of "b1:9093"; bytes_of "b2:9093"] [] 16 (bytes_of "PLAIN") (bytes_of "u") [] (bytes_of "KPW") true false [] [] [].
Definition env (n : list Z) : list Z := if bool_decide (n = bytes_of "KPW") then bytes_of "secret" else [].
Definition t : transport := MkTransport (Some (MkTls false None None)) (Some (Plain (bytes_of "u") (bytes_of "secret"))).
Definition made : clients := MkClients defaultKafkaTopic t t (Some t).
End KafkaSetupDemo.

#[local] Existing Instance ClassifierDemo.ascii.

Lemma kafka_clients_secured_witness :
  setup_clients (λ _, None) (λ _, false) (λ _ _, false) KafkaSetupDemo.env (λ _ _ _, false) (λ _ _, true) KafkaSetupDemo.cfg =
    Ok KafkaSetupDemo.made ∧
  rdialer KafkaSetupDemo.made = Some KafkaSetupDemo.t ∧ wtransport KafkaSetupDemo.made = dialer KafkaSetupDemo.made.
Proof.
  assert (setup_clients (λ _, None) (λ _, false) (λ _ _, false) KafkaSetupDemo.env (λ _ _ _, false) (λ _ _, true)
    KafkaSetupDemo.cfg = Ok KafkaSetupDemo.made) as E by (vm_compute; reflexivity).
  destruct (kafka_clients_secured (λ _, None) (λ _, false) (λ _ _, false) KafkaSetupDemo.env (λ _ _ _, false) (λ _ _, true)
    _ _ E) as (_ & _ & _ & Hw & _). split_and!; [exact E|reflexivity|exact Hw].
Defined.
