(* ===== verification/Metrics.v ===== *)
(** * Metrics (src/pkg/metrics/quantile.go)

    The window of recent samples and its quantiles. *)
From Stdlib Require Import SpecFloat Sorted Permutation.
From S2P Require Import Prelude GoTime.

(** ** The window of samples *)
Record reservoir := MkReservoir { buf : list float64; size : Z; next : Z; full : bool }.

Definition newReservoir (size : Z) : reservoir := MkReservoir [] (if size <=? 0 then 1 else size) 0 false.

Definition add (r : reservoir) (v : float64) : reservoir :=
  if negb (full r) then
    let b := buf r ++ [v] in
    if zlen b =? size r then MkReservoir b (size r) 0 true else MkReservoir b (size r) (next r) false
  else MkReservoir (<[Z.to_nat (next r) := v]> (buf r)) (size r) ((next r + 1) mod size r) true.

(** [sort.Float64s] puts NaN first and orders the rest; the order of equal floats
    does not show. *)
Definition is_nan (x : float64) : bool := match x with S754_nan => true | _ => false end.
Definition float_less (x y : float64) : bool := fltb x y || (is_nan x && negb (is_nan y)).

Fixpoint insert_sorted (x : float64) (l : list float64) : list float64 :=
  match l with
  | [] => [x]
  | y :: l' => if float_less y x then y :: insert_sorted x l' else x :: l
  end.

Definition Float64s (l : list float64) : list float64 := foldr insert_sorted [] l.

Definition fmul (x y : float64) : float64 := SFmul 53 1024 x y.

(** 1/2 *)
Definition half : float64 := float_pow2 (-1).

Section quantile.
Context `{FloatConv}.

(** [int(q*float64(n-1) + 0.5)], and then the clamp. *)
Definition rank (q : float64) (n : Z) : Z :=
  let idx := int64_of_float (fadd (fmul q (float_of_Z (n - 1))) half) in
  let idx := if idx <? 0 then 0 else idx in
  if n <=? idx then n - 1 else idx.

Definition quantile (r : reservoir) (q : float64) : float64 :=
  match buf r with
  | [] => float_of_Z 0
  | _ =>
      let n := zlen (buf r) in
      let cp := Float64s (buf r) in
      let at_ i := default (float_of_Z 0) (cp !! Z.to_nat i) in
      if fleb q (float_of_Z 0) then at_ 0
      else if fleb (float_of_Z 1) q then at_ (n - 1)
      else at_ (rank q n)
  end.
End quantile.

(** ** The window holds the latest samples *)

(** The samples in the order in which they came. *)
Definition window (r : reservoir) : list float64 := drop (Z.to_nat (next r)) (buf r) ++ take (Z.to_nat (next r)) (buf r).

Definition holds (n : Z) (vs : list float64) (r : reservoir) : Prop :=
  size r = n ∧ 0 ≤ next r < n ∧ zlen (buf r) = Z.min n (zlen vs) ∧ window r = drop (Z.to_nat (zlen vs - n)) vs ∧
  (full r = false → next r = 0 ∧ zlen vs < n) ∧ (full r = true → n ≤ zlen vs).

Lemma rotate_insert {A} (i : nat) (v : A) (b : list A) :
  (i < length b)%nat →
  drop (S i) (<[i := v]> b) ++ take (S i) (<[i := v]> b) = tail (drop i b ++ take i b) ++ [v].
Proof.
  intros Hi. destruct (lookup_lt_is_Some_2 b i Hi) as [x Hx].
  rewrite (drop_S b x i Hx). cbn [app tail]. rewrite drop_insert_lt by lia.
  rewrite (take_S_r _ i v) by (by rewrite list_lookup_insert_eq).
  rewrite take_insert_ge by lia. by rewrite app_assoc.
Qed.

Lemma drop_snoc {A} (k : nat) (l : list A) x :
  (k < length l)%nat → drop (S k) (l ++ [x]) = tail (drop k l) ++ [x].
Proof.
  intros Hk. destruct (lookup_lt_is_Some_2 l k Hk) as [y Hy]. rewrite (drop_S l y k Hy). cbn [tail].
  by rewrite drop_app_le by lia.
Qed.

Lemma add_holds n vs r v : 0 < n → holds n vs r → holds n (vs ++ [v]) (add r v).
Proof.
  intros Hn (Hs & Hx & Hl & Hw & H0 & H1). unfold add, holds, window in *.
  pose proof (zlen_nonneg vs) as Hnn. assert (zlen (vs ++ [v]) = zlen vs + 1) as -> by (by rewrite zlen_app).
  destruct (full r); cbn [negb].
  - specialize (H1 eq_refl). cbn [size next buf full].
    assert (Z.to_nat (next r) < length (buf r))%nat as Hi by (unfold zlen in *; lia).
    pose proof (Z.mod_pos_bound (next r + 1) (size r) ltac:(lia)) as Hmod.
    split_and!; [done|lia|lia|unfold zlen in *; rewrite length_insert; lia| |done|lia].
    replace (Z.to_nat (zlen vs + 1 - n)) with (S (Z.to_nat (zlen vs - n))) by lia.
    rewrite drop_snoc, <- Hw by (unfold zlen in *; lia). rewrite <- rotate_insert by done.
    destruct (decide (next r + 1 = size r)) as [E|E].
    + rewrite E, Z_mod_same_full. cbn [Z.to_nat drop take].
      assert (S (Z.to_nat (next r)) = length (<[Z.to_nat (next r):=v]> (buf r))) as ->
        by (rewrite length_insert; unfold zlen in *; lia).
      rewrite drop_all, firstn_all. by rewrite ?app_nil_r, ?app_nil_l.
    + rewrite Z.mod_small by lia. replace (Z.to_nat (next r + 1)) with (S (Z.to_nat (next r))) by lia. done.
  - destruct (H0 eq_refl) as [Hz Hlt]. rewrite Hz in *.
    change (Z.to_nat 0) with 0%nat in *. rewrite drop_0, take_0, app_nil_r in Hw.
    replace (Z.to_nat (zlen vs - n)) with 0%nat in Hw by lia. rewrite drop_0 in Hw. rewrite Hw.
    replace (Z.to_nat (zlen vs + 1 - n)) with 0%nat by lia.
    assert (zlen (vs ++ [v]) = zlen vs + 1) as Hl' by (by rewrite zlen_app). rewrite Hl'.
    destruct (Z.eqb_spec (zlen vs + 1) (size r)); cbn [size next buf full];
      change (Z.to_nat 0) with 0%nat; rewrite ?drop_0, ?take_0, ?app_nil_r, ?Hl'; split_and!; try done; try lia; intros _; split; (done || lia).
Qed.

(** ** Sorting *)
Definition float_le (x y : float64) : Prop := float_less y x = false.

Lemma insert_perm x l : insert_sorted x l ≡ₚ x :: l.
Proof.
  induction l as [|y l IH]; [done|]. cbn. destruct (float_less y x); [|done].
  rewrite IH. apply Permutation_swap.
Qed.

Lemma Float64s_perm l : Float64s l ≡ₚ l.
Proof. induction l as [|x l IH]; [done|]. cbn. by rewrite insert_perm, IH. Qed.

(** The comparison is asymmetric. *)
Lemma compare_antisym x y : SFcompare y x = CompOpp <$> SFcompare x y.
Proof.
  destruct x as [[]|[]| |sx mx ex], y as [[]|[]| |sy my ey]; try done; try (by destruct sx); try (by destruct sy).
  cbn [SFcompare fmap option_fmap option_map]. rewrite (Z.compare_antisym ex ey).
  fold (Pos.compare my mx) (Pos.compare mx my). rewrite (Pos.compare_antisym mx my).
  destruct sx, sy, (ex ?= ey)%Z, (mx ?= my)%positive; done.
Qed.

Lemma less_asym x y : float_less x y = true → float_less y x = false.
Proof.
  unfold float_less, fltb, SFltb. rewrite (compare_antisym x y).
  destruct (SFcompare x y) as [[]|] eqn:E; cbn; try done; destruct x as [[]|[]| |], y as [[]|[]| |]; try done.
Qed.

Lemma insert_head a x l : float_le a x → HdRel float_le a l → HdRel float_le a (insert_sorted x l).
Proof.
  intros Hx Hl. destruct l as [|y l]; cbn; [by constructor|]. destruct (float_less y x); [|by constructor].
  constructor. by inversion Hl.
Qed.

Lemma insert_Sorted x l : Sorted float_le l → Sorted float_le (insert_sorted x l).
Proof.
  induction 1 as [|y l Hl IH Hd]; cbn; [by repeat constructor|]. destruct (float_less y x) eqn:E.
  - constructor; [done|]. apply insert_head; [|done]. by apply less_asym.
  - constructor; [by constructor|]. by constructor.
Qed.

Lemma Float64s_Sorted l : Sorted float_le (Float64s l).
Proof. induction l as [|x l IH]; [constructor|]. by apply insert_Sorted. Qed.

Lemma newReservoir_holds n : 0 < n → holds n [] (newReservoir n).
Proof.
  intros Hn. unfold newReservoir, holds, window. rewrite (proj2 (Z.leb_gt _ _)) by lia. cbn [buf size next full].
  rewrite !drop_nil, take_nil, (@zlen_nil float64). split_and!; try done; try lia; try (intros _; split; (done || lia)).
Qed.

Lemma fold_holds n vs : 0 < n → holds n vs (fold_left add vs (newReservoir n)).
Proof.
  intros Hn. pose proof (newReservoir_holds n Hn) as H0. rewrite <- (app_nil_l vs) at 1. revert H0.
  generalize (newReservoir n) as r. generalize (@nil float64) as us.
  induction vs as [|v vs IH]; intros us r Hr; cbn; [by rewrite app_nil_r|].
  rewrite (cons_middle v us vs), app_assoc. apply IH. by apply add_holds.
Qed.

Lemma rank_range `{FloatConv} q n : 0 < n → 0 ≤ rank q n < n.
Proof. intros Hn. unfold rank. cbv zeta. repeat case_match; lia. Qed.

(** After any samples the window holds the latest ones, in order, and a quantile is
    one of them: the one at its rank when they are sorted, the smallest for a
    quantile of 0 and the largest for 1. *)
Theorem quantile_of_latest `{FloatConv} n vs q :
  0 < n → vs ≠ [] →
  let r := fold_left add vs (newReservoir n) in
  window r = drop (Z.to_nat (zlen vs - n)) vs ∧
  ∃ sorted i, sorted ≡ₚ window r ∧ Sorted float_le sorted ∧ sorted !! Z.to_nat i = Some (quantile r q) ∧
    0 ≤ i < Z.min n (zlen vs) ∧ (fleb q (float_of_Z 0) = true → i = 0) ∧
    (fleb q (float_of_Z 0) = false → fleb (float_of_Z 1) q = true → i = Z.min n (zlen vs) - 1).
Proof.
  intros Hn Hne r. destruct (fold_holds n vs Hn) as (_ & Hx & Hl & Hw & _ & _). fold r in Hx, Hl, Hw.
  split; [done|].
  assert (0 < zlen vs) as Hpos by (destruct vs; [done|]; rewrite zlen_cons; pose proof (zlen_nonneg vs); lia).
  pose proof (Float64s_perm (buf r)) as Hp. assert (Float64s (buf r) ≡ₚ window r) as Hpw.
  { rewrite Hp. unfold window. rewrite Permutation_app_comm, take_drop. done. }
  assert (∀ i, 0 ≤ i < zlen (buf r) →
    Float64s (buf r) !! Z.to_nat i = Some (default (float_of_Z 0) (Float64s (buf r) !! Z.to_nat i))) as Hlook.
  { intros i Hi. destruct (lookup_lt_is_Some_2 (Float64s (buf r)) (Z.to_nat i)) as [x ->]; [|done].
    rewrite (Permutation_length Hp). unfold zlen in Hi. lia. }
  pose proof (rank_range q (zlen (buf r)) ltac:(lia)) as Hr.
  assert (∃ i, quantile r q = default (float_of_Z 0) (Float64s (buf r) !! Z.to_nat i) ∧ 0 ≤ i < zlen (buf r) ∧
    (fleb q (float_of_Z 0) = true → i = 0) ∧
    (fleb q (float_of_Z 0) = false → fleb (float_of_Z 1) q = true → i = zlen (buf r) - 1)) as (i & Hq & Hi & H0 & H1).
  { unfold quantile. destruct (buf r) as [|x b] eqn:E; [rewrite (@zlen_nil float64) in Hl; lia|]. rewrite <- E in *.
    destruct (fleb q (float_of_Z 0)); [exists 0; split_and!; [done|lia|lia|done|done]|].
    destruct (fleb (float_of_Z 1) q); eexists; (split_and!; [done|lia|lia|done|done]). }
  exists (Float64s (buf r)), i. rewrite <- Hl. split_and!; [done|apply Float64s_Sorted|by rewrite Hq, <- Hlook|lia|lia|done|done].
Qed.

Module MetricsDemo.
#[export] Instance conv : FloatConv.
Proof. refine {| float_oob := - 2 ^ 63 |}. split; reflexivity || discriminate. Defined.

Definition samples : list float64 := float_of_Z <$> [4; 1; 2; 5].
Definition r3 : reservoir := fold_left add samples (newReservoir 3).
End MetricsDemo.

(** The 99th percentile of a hundred samples. *)
Example p99 : rank (H := MetricsDemo.conv) (fdiv (float_of_Z 99) (float_of_Z 100)) 100 = 98.
Proof. vm_compute. reflexivity. Qed.

Lemma quantile_of_latest_witness :
  window MetricsDemo.r3 = float_of_Z <$> [1; 2; 5] ∧ quantile (H := MetricsDemo.conv) MetricsDemo.r3 (float_of_Z 1) = float_of_Z 5.
Proof.
  split; [|vm_compute; reflexivity].
  exact (proj1 (@quantile_of_latest MetricsDemo.conv 3 MetricsDemo.samples (float_of_Z 1) eq_refl ltac:(discriminate))).
Defined.
