(* ===== verification/FloatRatio.v ===== *)
(** * Ratios of integers in float64

    The metrics collector divides two counts and compares the quotient with a
    threshold such as 0.01.  The division rounds to nearest, and so does the
    literal; the comparison is nevertheless the exact one for counts below
    [2 ^ 52]. *)
From Stdlib Require Import SpecFloat.
From S2P Require Import Prelude GoTime.

(** ** Rounding to nearest *)

(** [num / den] lies between [m] and [m + 1], as [l] says. *)
Definition located (m : Z) (l : location) (num den : Z) : Prop :=
  0 < den ∧ 0 ≤ num - m * den < den ∧
  match l with
  | loc_Exact => num - m * den = 0
  | loc_Inexact c => 0 < num - m * den ∧ (2 * (num - m * den) ?= den) = c
  end.

(** [m * 2 ^ k] is within half a unit [2 ^ k] of [num / den]. *)
Definition near (m k num den : Z) : Prop := Z.abs (2 * (m * 2 ^ k * den - num)) ≤ 2 ^ k * den.

Lemma new_location_located q r den : 0 < den → 0 ≤ r < den → located q (new_location den r) (q * den + r) den.
Proof.
  intros Hd Hr. unfold located. replace (q * den + r - q * den) with r by lia. split_and!; [lia..|].
  unfold new_location, new_location_even, new_location_odd.
  destruct (Z.even den) eqn:Ev; (destruct (Z.eqb_spec r 0); [done|split; [lia|]]); [done|].
  apply (f_equal negb) in Ev. rewrite Z.negb_even in Ev. apply Z.odd_spec in Ev as [k Hk].
  destruct (Z.compare_spec (2 * r + 1) den); [apply Z.compare_lt_iff|apply Z.compare_lt_iff|apply Z.compare_gt_iff]; lia.
Qed.

(** Dropping the last digit keeps the location, in units twice as large. *)
Lemma located_half m p l num den :
  m = xO p ∨ m = xI p → located (Zpos m) l num den →
  let r := shr_1 (shr_record_of_loc (Zpos m) l) in
  shr_m r = Zpos p ∧ located (Zpos p) (loc_of_shr_record r) num (2 * den).
Proof.
  intros Hm (Hd & Hr & Hl). unfold located.
  destruct Hm as [-> | ->]; destruct l as [|[]]; cbn -[Z.mul Z.compare] in *; (split; [done|]);
    rewrite ?(Pos2Z.inj_xO p), ?(Pos2Z.inj_xI p) in *;
    repeat match goal with
    | H : _ ∧ _ |- _ => destruct H
    | H : (_ ?= _) = Lt |- _ => apply (proj1 (Z.compare_lt_iff _ _)) in H
    | H : (_ ?= _) = Gt |- _ => apply (proj1 (Z.compare_gt_iff _ _)) in H
    | H : (_ ?= _) = Eq |- _ => apply Z.compare_eq in H
    | |- _ ∧ _ => split
    | |- (_ ?= _) = Lt => apply Z.compare_lt_iff
    | |- (_ ?= _) = Gt => apply Z.compare_gt_iff
    | |- (_ ?= _) = Eq => apply Z.compare_eq_iff
    end; lia.
Qed.

Lemma round_located m l num den :
  located m l num den →
  let r := round_nearest_even m l in m ≤ r ≤ m + 1 ∧ Z.abs (2 * (r * den - num)) ≤ den.
Proof.
  intros (Hd & Hr & Hl). destruct l as [|[]]; cbn [round_nearest_even]; [|destruct Hl as [? Hc]..].
  - lia.
  - apply Z.compare_eq in Hc. destruct (Z.even m); lia.
  - apply (proj1 (Z.compare_lt_iff _ _)) in Hc. lia.
  - apply (proj1 (Z.compare_gt_iff _ _)) in Hc. lia.
Qed.

(** The second shift only normalises a mantissa that rounding took to [2 ^ 53]. *)
Lemma renormalise m e :
  2 ^ 52 ≤ m ≤ 2 ^ 53 → -1000 ≤ e ≤ 900 →
  ∃ m' k, shr_fexp 53 1024 m e loc_Exact = (Build_shr_record (Zpos m') false false, e + k) ∧
    0 ≤ k ≤ 1 ∧ 2 ^ 52 ≤ Zpos m' < 2 ^ 53 ∧ m = Zpos m' * 2 ^ k.
Proof.
  intros Hm He. destruct (decide (m = 2 ^ 53)) as [->|Hne].
  - exists (2 ^ 52)%positive, 1. split_and!; try done; try lia. unfold shr_fexp, fexp, emin.
    change (Zdigits2 (2 ^ 53)) with 54. replace (Z.max (54 + e - 53) (3 - 1024 - 53) - e) with 1 by lia. done.
  - destruct m as [|m|]; [lia| |lia]. exists m, 0. split_and!; try lia. unfold shr_fexp, fexp, emin. cbn [Zdigits2].
    rewrite (digits2_unique m 53) by lia. replace (Z.max (53 + e - 53) (3 - 1024 - 53) - e) with 0 by lia.
    by rewrite Z.add_0_r.
Qed.

(** The first one brings a mantissa of 53 or 54 digits to 53. *)
Lemma align m e l num den :
  located m l num den → 2 ^ 52 ≤ m < 2 ^ 54 → -1000 ≤ e ≤ 900 →
  ∃ r k, shr_fexp 53 1024 m e l = (r, e + k) ∧ 0 ≤ k ≤ 1 ∧ 2 ^ 52 ≤ shr_m r < 2 ^ 53 ∧
    located (shr_m r) (loc_of_shr_record r) num (2 ^ k * den).
Proof.
  intros Hl Hm He. destruct m as [|m|]; [lia| |lia]. unfold shr_fexp, fexp, emin. cbn [Zdigits2].
  destruct (decide (Zpos m < 2 ^ 53)) as [Hlt|Hge].
  - exists (shr_record_of_loc (Zpos m) l), 0. rewrite (digits2_unique m 53) by lia.
    replace (Z.max (53 + e - 53) (3 - 1024 - 53) - e) with 0 by lia. rewrite Z.add_0_r, Z.mul_1_l.
    destruct l as [|[]]; (split; [done|]; split; [lia|]; split; [cbn [shr_m shr_record_of_loc]; lia|done]).
  - rewrite (digits2_unique m 54) by lia. replace (Z.max (54 + e - 53) (3 - 1024 - 53) - e) with 1 by lia.
    assert (∃ p, m = xO p ∨ m = xI p) as [p Hp] by (destruct m; eauto; lia).
    destruct (located_half m p l num den Hp Hl) as [Hs Hh]. exists (shr_1 (shr_record_of_loc (Zpos m) l)), 1.
    split; [done|]. split; [lia|]. rewrite Hs. split; [|done]. destruct Hp; subst; lia.
Qed.

(** Rounding finds a nearest mantissa of 53 digits. *)
Lemma round_near m e l num den :
  located m l num den → 2 ^ 52 ≤ m < 2 ^ 54 → -900 ≤ e ≤ 800 →
  ∃ m' k, binary_round_aux 53 1024 false m e l = S754_finite false m' (e + k) ∧
    0 ≤ k ≤ 2 ∧ 2 ^ 52 ≤ Zpos m' < 2 ^ 53 ∧ near (Zpos m') k num den.
Proof.
  intros Hl Hm He. destruct (align m e l num den Hl Hm ltac:(lia)) as (r & k & E & Hk & Hr & Hl').
  destruct (round_located _ _ _ _ Hl') as [Hb Hn].
  destruct (renormalise (round_nearest_even (shr_m r) (loc_of_shr_record r)) (e + k)) as (m' & k' & E' & Hk' & Hm' & Hv);
    [lia|lia|].
  exists m', (k + k'). unfold binary_round_aux. rewrite E, E'. cbn [shr_m].
  rewrite (proj2 (Z.leb_le _ _)) by lia. split_and!; [f_equal; lia|lia|lia|lia|lia|].
  unfold near. rewrite Hv in Hn. destruct Hl' as (Hd & _). rewrite Z.pow_add_r by lia.
  assert (1 ≤ 2 ^ k') by (pose proof (Z.pow_pos_nonneg 2 k'); lia).
  replace (Zpos m' * (2 ^ k * 2 ^ k') * den) with (Zpos m' * 2 ^ k' * (2 ^ k * den)) by ring. nia.
Qed.

(** ** Dividing two counts *)
Lemma ratio_near a b :
  0 < a < 2 ^ 53 → 0 < b < 2 ^ 53 →
  ∃ m e, fdiv (float_of_Z a) (float_of_Z b) = S754_finite false m (e - 106) ∧ 0 ≤ e ≤ 160 ∧
    2 ^ 52 ≤ Zpos m < 2 ^ 53 ∧ near (Zpos m) e (a * 2 ^ 106) b.
Proof.
  intros Ha Hb. destruct (float_of_Z_exact a Ha) as (m1 & k1 & -> & Hk1 & Hv1 & Hm1).
  destruct (float_of_Z_exact b Hb) as (m2 & k2 & -> & Hk2 & Hv2 & Hm2).
  unfold fdiv, SFdiv, SFdiv_core_binary, fexp, emin, Zdigits2.
  rewrite (digits2_unique m1 53), (digits2_unique m2 53) by lia.
  set (e' := Z.min _ _). assert (e' = k2 - k1 - 53) as -> by (unfold e'; lia).
  replace (- k1 - - k2 - (k2 - k1 - 53)) with 53 by lia. rewrite Z.shiftl_mul_pow2 by lia.
  pose proof (Z_div_mod (Zpos m1 * 2 ^ 53) (Zpos m2) ltac:(lia)) as Hq.
  destruct (Z.div_eucl (Zpos m1 * 2 ^ 53) (Zpos m2)) as [q r]. destruct Hq as [Hq Hr].
  assert (2 ^ 52 ≤ q < 2 ^ 54) as Hqb by nia.
  pose proof (new_location_located q r (Zpos m2) ltac:(lia) Hr) as Hl.
  replace (q * Zpos m2 + r) with (Zpos m1 * 2 ^ 53) in Hl by lia.
  destruct (round_near q (k2 - k1 - 53) _ _ _ Hl Hqb ltac:(lia)) as (m & k & E & Hk & Hm & Hn). cbn [xorb]. rewrite E.
  exists m, (k2 - k1 + 53 + k). split_and!; [f_equal; lia|lia..|].
  unfold near in *. rewrite Hv1, Hv2 in Hn.
  assert (0 < 2 ^ (53 - k1)) as Hp by (apply Z.pow_pos_nonneg; lia).
  assert (2 ^ (k2 - k1 + 53 + k) = 2 ^ k * 2 ^ k2 * 2 ^ (53 - k1)) as ->
    by (rewrite <- !Z.pow_add_r by lia; f_equal; lia).
  assert (2 ^ 106 = 2 ^ k1 * 2 ^ 53 * 2 ^ (53 - k1)) as -> by (rewrite <- !Z.pow_add_r by lia; f_equal; lia).
  replace (2 * (Zpos m * (2 ^ k * 2 ^ k2 * 2 ^ (53 - k1)) * b - a * (2 ^ k1 * 2 ^ 53 * 2 ^ (53 - k1))))
    with (2 * (Zpos m * 2 ^ k * (b * 2 ^ k2) - a * 2 ^ k1 * 2 ^ 53) * 2 ^ (53 - k1)) by ring.
  rewrite Z.abs_mul, (Z.abs_eq (2 ^ (53 - k1))) by lia.
  replace (2 ^ k * 2 ^ k2 * 2 ^ (53 - k1) * b) with (2 ^ k * (b * 2 ^ k2) * 2 ^ (53 - k1)) by ring.
  apply Z.mul_le_mono_nonneg_r; lia.
Qed.

(** ** Comparing with a threshold *)

(** The float nearest to [1 / p], from above. *)
Record nearest_above (p : Z) (cm : positive) (ce : Z) : Prop := {
  na_p : 0 < p;
  na_exp : 0 ≤ ce;
  na_mantissa : 2 ^ 52 ≤ Zpos cm < 2 ^ 53 - 1;
  na_above : 2 ^ 106 ≤ p * (Zpos cm * 2 ^ ce);
  na_close : (p * ((2 * Zpos cm + 1) * 2 ^ ce) - 2 ^ 107) * 2 ^ 52 ≤ 2 ^ 107 }.

Lemma fltb_finite m1 e1 m2 e2 :
  fltb (S754_finite false m1 e1) (S754_finite false m2 e2) = true ↔ e1 < e2 ∨ e1 = e2 ∧ Zpos m1 < Zpos m2.
Proof.
  unfold fltb, SFltb, SFcompare. destruct (Z.compare_spec e1 e2) as [->|Hlt|Hgt].
  - change (Pos.compare_cont Eq m1 m2) with (Pos.compare m1 m2).
    destruct (Pos.compare_spec m1 m2); subst; split; try done; intros; (by right; lia) || lia.
  - split; [by left|done].
  - split; [done|lia].
Qed.

Lemma ratio_exceeds p cm ce a b :
  nearest_above p cm ce → 0 ≤ a < 2 ^ 52 → 0 < b < 2 ^ 52 →
  fltb (S754_finite false cm (ce - 106)) (fdiv (float_of_Z a) (float_of_Z b)) = (b <? p * a).
Proof.
  intros [Hp Hce Hcm Hab Hcl] Ha Hb. destruct (decide (a = 0)) as [->|Hne].
  { rewrite Z.mul_0_r, (proj2 (Z.ltb_ge _ _)) by lia.
    destruct (float_of_Z_exact b ltac:(lia)) as (m & k & -> & _). done. }
  destruct (ratio_near a b ltac:(lia) ltac:(lia)) as (m & e & -> & He & Hm & Hn). unfold near in Hn.
  assert (0 < 2 ^ ce) as Hc0 by (apply Z.pow_pos_nonneg; lia).
  assert (0 < 2 ^ e) as He0 by (apply Z.pow_pos_nonneg; lia).
  apply eq_true_iff_eq. rewrite fltb_finite, Z.ltb_lt. split.
  - intros Hgt. assert ((2 * Zpos cm + 1) * 2 ^ ce ≤ (2 * Zpos m - 1) * 2 ^ e) as Hx.
    { destruct Hgt as [Hgt|[He' Hgt]]; [|replace e with ce by lia; nia].
      assert (2 * 2 ^ ce ≤ 2 ^ e) by (rewrite <- Z.pow_succ_r by lia; apply Z.pow_le_mono_r; lia). nia. }
    assert ((2 * Zpos m - 1) * 2 ^ e * b ≤ a * 2 ^ 107) as H1 by lia.
    assert (2 ^ 107 < p * ((2 * Zpos cm + 1) * 2 ^ ce)) as H2 by (clear - Hab Hc0 Hp; nia).
    revert Hx H1 H2. generalize ((2 * Zpos m - 1) * 2 ^ e), ((2 * Zpos cm + 1) * 2 ^ ce). clear - Hb Hp. intros y x ???.
    assert (2 ^ 107 * b < p * x * b) by (apply Z.mul_lt_mono_pos_r; lia).
    assert (p * x * b ≤ p * a * 2 ^ 107); [|lia].
    rewrite <- !Z.mul_assoc. apply Z.mul_le_mono_nonneg_l; [lia|]. trans (y * b); [|lia]. apply Z.mul_le_mono_nonneg_r; lia.
  - intros Hlt. apply dec_stable. intros Hno.
    assert ((2 * Zpos m + 1) * 2 ^ e ≤ (2 * Zpos cm + 1) * 2 ^ ce) as Hx.
    { destruct (decide (e < ce)) as [Hlt'|Hge].
      - assert (2 * 2 ^ e ≤ 2 ^ ce) by (rewrite <- Z.pow_succ_r by lia; apply Z.pow_le_mono_r; lia).
        trans (2 ^ 53 * (2 * 2 ^ e)); [rewrite Z.mul_assoc; apply Z.mul_le_mono_nonneg_r; lia|].
        trans (2 ^ 53 * 2 ^ ce); [lia|]. apply Z.mul_le_mono_nonneg_r; lia.
      - replace e with ce in * by lia. apply Z.mul_le_mono_nonneg_r; lia. }
    assert (a * 2 ^ 107 ≤ (2 * Zpos m + 1) * 2 ^ e * b) as H1 by lia.
    revert Hx H1 Hcl. generalize ((2 * Zpos m + 1) * 2 ^ e), ((2 * Zpos cm + 1) * 2 ^ ce). clear - Hb Hp Hlt. intros y x ???.
    assert (p * (a * 2 ^ 107) ≤ p * (x * b)).
    { apply Z.mul_le_mono_nonneg_l; [lia|]. trans (y * b); [lia|]. apply Z.mul_le_mono_nonneg_r; lia. }
    assert ((b + 1) * 2 ^ 107 ≤ p * a * 2 ^ 107) by (apply Z.mul_le_mono_nonneg_r; lia).
    assert (2 ^ 107 ≤ (p * x - 2 ^ 107) * b) by lia.
    assert ((p * x - 2 ^ 107) * b < (p * x - 2 ^ 107) * 2 ^ 52); [|lia].
    apply Z.mul_lt_mono_pos_l; [|lia]. apply (Z.mul_pos_cancel_r _ b); lia.
Qed.

(** The literals 0.01 and 0.001. *)
Definition one_percent : float64 := fdiv (float_of_Z 1) (float_of_Z 100).
Definition one_permille : float64 := fdiv (float_of_Z 1) (float_of_Z 1000).

Lemma exceeds_one_percent a b :
  0 ≤ a < 2 ^ 52 → 0 < b < 2 ^ 52 → fltb one_percent (fdiv (float_of_Z a) (float_of_Z b)) = (b <? 100 * a).
Proof. apply (ratio_exceeds 100 5764607523034235 47). by split; vm_compute. Qed.

Lemma exceeds_one_permille a b :
  0 ≤ a < 2 ^ 52 → 0 < b < 2 ^ 52 → fltb one_permille (fdiv (float_of_Z a) (float_of_Z b)) = (b <? 1000 * a).
Proof. apply (ratio_exceeds 1000 4611686018427388 44). by split; vm_compute. Qed.
