(* ===== verification/Collector.v ===== *)
(** * The metrics collector (src/pkg/metrics/collector.go)

    The counters, gauges and alert conditions, the calls that update them and
    the poller that reports the capture and the queue
    (src/cmd/pgshadow/pipeline.go, metricsPoller).  A Prometheus counter is a
    parameter with the law that additions add up while the total is an exact
    float; a gauge is the value last set.  The calls hold the collector's lock
    except [ReplayResult], which sets its gauges after releasing it: its accesses
    are steps of their own, interleaved with those of other goroutines. *)
From Stdlib Require Import String SpecFloat.
From S2P Require Import Prelude Core Classifier ClassifierFacts Filter Processor GoTime FloatRatio Metrics.

Class PromCounter := {
  counter : Type;
  counter_new : counter;
  counter_Add : float64 → counter → counter;
  counter_value : counter → Z;
  counter_new_value : counter_value counter_new = 0;
  counter_Add_value (n : Z) (c : counter) :
    0 ≤ n → counter_value c + n < 2 ^ 53 → counter_value (counter_Add (float_of_Z n) c) = counter_value c + n }.

(** ** The catalog *)
Inductive counter_id :=
  | packetsReceived | packetsDropped | parseErrors | classified (class kept : list Z)
  | overflow | replayTotal | replayErrors.

Inductive gauge_id :=
  | queueDepth | replayLag | errorRate | dropRate | sourceQPS | targetQPS | sourceP99 | targetP99
  | alertLag | alertDepth | alertErrorRate | alertP99 | alertDropRate.

Inductive side := source_side | target_side.

#[export] Instance counter_id_eq_dec : EqDecision counter_id.
Proof. solve_decision. Defined.
#[export] Instance gauge_id_eq_dec : EqDecision gauge_id.
Proof. solve_decision. Defined.

Definition boolToFloat (b : bool) : float64 := if b then float_of_Z 1 else float_of_Z 0.
Definition boolToLabel (b : bool) : list Z := if b then bytes_of "true" else bytes_of "false".

Definition className (class : StmtClass) : list Z :=
  match class with
  | ClassPlainSelect => bytes_of "plain_select"
  | ClassProcSelect => bytes_of "proc_select"
  | ClassCall => bytes_of "call"
  | ClassDML => bytes_of "dml"
  | ClassDDL => bytes_of "ddl"
  | ClassBegin => bytes_of "begin"
  | ClassCommitRollback => bytes_of "commit_rollback"
  | ClassUtility => bytes_of "utility"
  | ClassCopyFrom => bytes_of "copy_from"
  | ClassUnknown => bytes_of "unknown"
  end.

Definition ThresholdLagSeconds : float64 := float_of_Z 60.
Definition ThresholdQueueDepth : Z := 100000.
Definition ThresholdErrorRate : float64 := one_percent.
Definition ThresholdP99Ratio : float64 := float_of_Z 2.
Definition ThresholdDropRate : float64 := one_permille.
Definition execSampleWindow : Z := 100000.
Definition p99RefreshInterval : Z := 1000.
Definition ninety_nine : float64 := fdiv (float_of_Z 99) (float_of_Z 100).

Section collector.
Context `{PromCounter} `{FloatConv}.

Record collector := MkCollector {
  counters : counter_id → counter; gauges : gauge_id → float64; observed : list (side * float64);
  totReplays : Z; totErrors : Z; execCount : Z; lastReceived : Z; lastDropped : Z;
  sourceTimes : reservoir; targetTimes : reservoir }.

Definition collector_New : collector :=
  MkCollector (λ _, counter_new) (λ _, float_of_Z 0) [] 0 0 0 0 0 (newReservoir execSampleWindow) (newReservoir execSampleWindow).

Definition Add (k : counter_id) (x : float64) (c : collector) : collector :=
  MkCollector (λ j, if decide (j = k) then counter_Add x (counters c j) else counters c j) (gauges c) (observed c)
    (totReplays c) (totErrors c) (execCount c) (lastReceived c) (lastDropped c) (sourceTimes c) (targetTimes c).

Definition Inc (k : counter_id) : collector → collector := Add k (float_of_Z 1).

Definition Set_ (g : gauge_id) (x : float64) (c : collector) : collector :=
  MkCollector (counters c) (λ j, if decide (j = g) then x else gauges c j) (observed c)
    (totReplays c) (totErrors c) (execCount c) (lastReceived c) (lastDropped c) (sourceTimes c) (targetTimes c).

Definition set_totals (replays errors : Z) (c : collector) : collector :=
  MkCollector (counters c) (gauges c) (observed c) replays errors (execCount c) (lastReceived c) (lastDropped c)
    (sourceTimes c) (targetTimes c).

Definition set_last (received dropped : Z) (c : collector) : collector :=
  MkCollector (counters c) (gauges c) (observed c) (totReplays c) (totErrors c) (execCount c) received dropped
    (sourceTimes c) (targetTimes c).

Definition set_execCount (n : Z) (c : collector) : collector :=
  MkCollector (counters c) (gauges c) (observed c) (totReplays c) (totErrors c) n (lastReceived c) (lastDropped c)
    (sourceTimes c) (targetTimes c).

Definition sample_source (x : float64) (c : collector) : collector :=
  MkCollector (counters c) (gauges c) (observed c ++ [(source_side, x)]) (totReplays c) (totErrors c) (execCount c)
    (lastReceived c) (lastDropped c) (add (sourceTimes c) x) (targetTimes c).

Definition sample_target (x : float64) (c : collector) : collector :=
  MkCollector (counters c) (gauges c) (observed c ++ [(target_side, x)]) (totReplays c) (totErrors c) (execCount c)
    (lastReceived c) (lastDropped c) (sourceTimes c) (add (targetTimes c) x).

(** ** The calls *)

(** [float64(a) / float64(b)], 0 without a total. *)
Definition rate_of (a b : Z) : float64 := if 0 <? b then fdiv (float_of_Z a) (float_of_Z b) else float_of_Z 0.

Definition PacketDrops (received dropped : Z) (c : collector) : collector :=
  let c := if lastReceived c <=? received then Add packetsReceived (float_of_Z (received - lastReceived c)) c else c in
  let c := set_last received (lastDropped c) c in
  let c := if lastDropped c <=? dropped then Add packetsDropped (float_of_Z (dropped - lastDropped c)) c else c in
  let c := set_last (lastReceived c) dropped c in
  let rate := rate_of dropped received in
  Set_ alertDropRate (boolToFloat (fltb ThresholdDropRate rate)) (Set_ dropRate rate c).

Definition ParseError : collector → collector := Inc parseErrors.

Definition Classified (class : StmtClass) (kept : bool) : collector → collector :=
  Inc (classified (className class) (boolToLabel kept)).

Definition QueueDepth (depth : Z) (c : collector) : collector :=
  Set_ alertDepth (boolToFloat (ThresholdQueueDepth <? depth)) (Set_ queueDepth (float_of_Z depth) c).

Definition Overflow : collector → collector := Inc overflow.

Definition ReplayLag (seconds : float64) (c : collector) : collector :=
  Set_ alertLag (boolToFloat (fltb ThresholdLagSeconds seconds)) (Set_ replayLag seconds c).

(** [ReplayResult] while it holds the lock, with the rate it computes there, and its
    two accesses after that. *)
Definition result_counted (failed : bool) (c : collector) : float64 * collector :=
  let c := Inc replayTotal c in
  let c := set_totals (wrap 64 (totReplays c + 1)) (totErrors c) c in
  let c := if failed then Inc replayErrors (set_totals (totReplays c) (wrap 64 (totErrors c + 1)) c) else c in
  (rate_of (totErrors c) (totReplays c), c).
Definition set_rate (rate : float64) : collector → collector := Set_ errorRate rate.
Definition set_alert (rate : float64) : collector → collector :=
  Set_ alertErrorRate (boolToFloat (fltb ThresholdErrorRate rate)).

(** The call when no other overlaps with it. *)
Definition ReplayResult (failed : bool) (c : collector) : collector :=
  let '(rate, c) := result_counted failed c in set_alert rate (set_rate rate c).

Definition ExecTime (source target : Z) (c : collector) : collector :=
  let c := if 0 <? source then sample_source (Seconds source) c else c in
  let c := if 0 <? target then sample_target (Seconds target) c else c in
  let c := set_execCount (wrap 64 (execCount c + 1)) c in
  if (execCount c =? 1) || (execCount c mod p99RefreshInterval =? 0) then
    let srcP99 := quantile (sourceTimes c) ninety_nine in
    let tgtP99 := quantile (targetTimes c) ninety_nine in
    Set_ alertP99 (boolToFloat (fltb (float_of_Z 0) srcP99 && fltb (fmul ThresholdP99Ratio srcP99) tgtP99))
      (Set_ targetP99 tgtP99 (Set_ sourceP99 srcP99 c))
  else c.

Definition Throughput (source target : float64) (c : collector) : collector :=
  Set_ targetQPS target (Set_ sourceQPS source c).

(** ** Histories *)
Inductive call :=
  | CPacketDrops (received dropped : Z) | CParseError | CClassified (class : StmtClass) (kept : bool)
  | CQueueDepth (depth : Z) | COverflow | CReplayLag (seconds : float64) | CReplayResult (failed : bool)
  | CExecTime (source target : Z) | CThroughput (source target : float64).

Definition apply_call (x : call) : collector → collector :=
  match x with
  | CPacketDrops r d => PacketDrops r d
  | CParseError => ParseError
  | CClassified class kept => Classified class kept
  | CQueueDepth d => QueueDepth d
  | COverflow => Overflow
  | CReplayLag s => ReplayLag s
  | CReplayResult failed => ReplayResult failed
  | CExecTime s t => ExecTime s t
  | CThroughput s t => Throughput s t
  end.

Definition after (xs : list call) : collector := foldl (λ c x, apply_call x c) collector_New xs.

(** *** What a history amounts to *)
Definition tally {A} (f : call → option A) (xs : list call) : Z := zlen (omap f xs).

Definition received_of (x : call) : option Z := match x with CPacketDrops r _ => Some r | _ => None end.
Definition dropped_of (x : call) : option Z := match x with CPacketDrops _ d => Some d | _ => None end.
Definition depth_of (x : call) : option Z := match x with CQueueDepth d => Some d | _ => None end.
Definition lag_of (x : call) : option float64 := match x with CReplayLag s => Some s | _ => None end.
Definition result_of (x : call) : option bool := match x with CReplayResult failed => Some failed | _ => None end.
Definition failure_of (x : call) : option unit := match x with CReplayResult true => Some () | _ => None end.

(** The latest of the values, [d] when there is none. *)
Definition latest {A} (d : A) (l : list A) : A := default d (last l).

(** A cumulative total that may restart: the sum of its advances. *)
Fixpoint advances (from : Z) (l : list Z) : Z :=
  match l with
  | [] => 0
  | r :: l => Z.max 0 (r - from) + advances r l
  end.

Definition total (k : counter_id) (xs : list call) : Z :=
  match k with
  | packetsReceived => advances 0 (omap received_of xs)
  | packetsDropped => advances 0 (omap dropped_of xs)
  | parseErrors => tally (λ x, match x with CParseError => Some () | _ => None end) xs
  | classified class kept =>
      tally (λ x, match x with
        | CClassified cl b => if decide (className cl = class ∧ boolToLabel b = kept) then Some () else None
        | _ => None end) xs
  | overflow => tally (λ x, match x with COverflow => Some () | _ => None end) xs
  | replayTotal => tally result_of xs
  | replayErrors => tally failure_of xs
  end.

Lemma after_snoc xs x : after (xs ++ [x]) = apply_call x (after xs).
Proof. unfold after. by rewrite foldl_app. Qed.

Lemma omap_snoc {A B} (f : A → option B) l x :
  omap f (l ++ [x]) = omap f l ++ match f x with Some y => [y] | None => [] end.
Proof. rewrite omap_app. cbn. by destruct (f x). Qed.

Lemma tally_snoc {A} (f : call → option A) xs x :
  tally f (xs ++ [x]) = tally f xs + match f x with Some _ => 1 | None => 0 end.
Proof. unfold tally. rewrite omap_snoc, zlen_app. by destruct (f x). Qed.

Lemma tally_nonneg {A} (f : call → option A) xs : 0 ≤ tally f xs.
Proof. apply zlen_nonneg. Qed.

Lemma tally_le {A} (f : call → option A) xs : tally f xs ≤ zlen xs.
Proof. induction xs as [|x xs IH] using rev_ind; [done|]. rewrite tally_snoc, zlen_app. unfold zlen in *. cbn. case_match; lia. Qed.

Lemma latest_snoc {A} (d : A) l x : latest d (l ++ [x]) = x.
Proof. unfold latest. by rewrite last_snoc. Qed.

Lemma advances_snoc from l r : advances from (l ++ [r]) = advances from l + Z.max 0 (r - latest from l).
Proof.
  revert from. induction l as [|a l IH]; intros from; cbn [app advances]; [unfold latest; cbn; lia|].
  rewrite IH. assert (latest from (a :: l) = latest a l) as ->; [|lia].
  unfold latest. rewrite last_cons. by destruct (last l).
Qed.

Lemma advances_nonneg from l : 0 ≤ advances from l.
Proof. revert from. induction l as [|a l IH]; intros from; cbn; [lia|]. specialize (IH a). lia. Qed.

Lemma total_of_nonneg k xs : 0 ≤ total k xs.
Proof. destruct k; cbn [total]; try apply tally_nonneg; apply advances_nonneg. Qed.

(** Totals only grow. *)
Lemma total_snoc k xs x : total k xs ≤ total k (xs ++ [x]).
Proof.
  destruct k; cbn [total]; try (rewrite tally_snoc; case_match; lia);
    rewrite omap_snoc; case_match; rewrite ?app_nil_r, ?advances_snoc; lia.
Qed.

(** *** The internal totals *)
Ltac by_call x :=
  destruct x; unfold apply_call, PacketDrops, ReplayResult, result_counted, ExecTime; cbv zeta; repeat case_match; try done.

Lemma last_apply x c :
  lastReceived (apply_call x c) = default (lastReceived c) (received_of x) ∧
  lastDropped (apply_call x c) = default (lastDropped c) (dropped_of x).
Proof. by_call x. Qed.

Lemma totals_apply x c :
  totReplays (apply_call x c) = match result_of x with Some _ => wrap 64 (totReplays c + 1) | None => totReplays c end ∧
  totErrors (apply_call x c) = match failure_of x with Some _ => wrap 64 (totErrors c + 1) | None => totErrors c end.
Proof. by_call x. Qed.

Lemma latest_omap {A B} (f : A → option B) d l x : latest d (omap f (l ++ [x])) = default (latest d (omap f l)) (f x).
Proof. rewrite omap_snoc. destruct (f x); [apply latest_snoc|by rewrite app_nil_r]. Qed.

Lemma last_after xs :
  lastReceived (after xs) = latest 0 (omap received_of xs) ∧ lastDropped (after xs) = latest 0 (omap dropped_of xs).
Proof.
  induction xs as [|x xs [IH1 IH2]] using rev_ind; [done|]. rewrite after_snoc, !latest_omap, <- IH1, <- IH2.
  apply last_apply.
Qed.

Lemma totals_after xs :
  totReplays (after xs) = wrap 64 (tally result_of xs) ∧ totErrors (after xs) = wrap 64 (tally failure_of xs).
Proof.
  induction xs as [|x xs [IH1 IH2]] using rev_ind; [done|]. rewrite after_snoc, !tally_snoc.
  destruct (totals_apply x (after xs)) as [-> ->]. rewrite IH1, IH2.
  split; [destruct (result_of x)|destruct (failure_of x)]; rewrite ?wrap_add_l, ?Z.add_0_r; done.
Qed.

(** *** The counters *)

(** What a call adds to a counter. *)
Definition amount (k : counter_id) (x : call) (c : collector) : option Z :=
  match k, x with
  | packetsReceived, CPacketDrops r _ => if lastReceived c <=? r then Some (r - lastReceived c) else None
  | packetsDropped, CPacketDrops _ d => if lastDropped c <=? d then Some (d - lastDropped c) else None
  | parseErrors, CParseError | overflow, COverflow | replayTotal, CReplayResult _ | replayErrors, CReplayResult true => Some 1
  | classified class kept, CClassified cl b =>
      if decide (className cl = class ∧ boolToLabel b = kept) then Some 1 else None
  | _, _ => None
  end.

Lemma counters_apply k x c :
  counters (apply_call x c) k =
    match amount k x c with Some n => counter_Add (float_of_Z n) (counters c k) | None => counters c k end.
Proof.
  destruct x as [r d| |class kept| | | |failed|source target|].
  - unfold apply_call, PacketDrops. cbv zeta. destruct (lastReceived c <=? r) eqn:E1;
      cbn [lastDropped lastReceived Add set_last]; (destruct (lastDropped c <=? d) eqn:E2);
      destruct k; cbn -[Z.leb float_of_Z Z.sub]; by rewrite ?E1, ?E2.
  - by destruct k.
  - destruct k; try done. cbn -[float_of_Z]. repeat case_decide; naive_solver.
  - by destruct k.
  - by destruct k.
  - by destruct k.
  - by destruct failed, k.
  - transitivity (counters c k); [|by destruct k]. unfold apply_call, ExecTime. cbv zeta. by repeat case_match.
  - by destruct k.
Qed.

Lemma total_amount k xs x : total k (xs ++ [x]) = total k xs + default 0 (amount k x (after xs)).
Proof.
  destruct (last_after xs) as [H1 H2].
  destruct k; cbn [total]; rewrite ?tally_snoc, ?omap_snoc; destruct x; cbn; rewrite ?app_nil_r, ?advances_snoc; try lia.
  all: rewrite <- ?H1, <- ?H2; repeat case_match; simplify_eq; cbn; (done || lia).
Qed.

Lemma amount_nonneg k x c : 0 ≤ default 0 (amount k x c).
Proof. destruct k, x; cbn; repeat case_match; cbn; lia. Qed.

Lemma counters_after k xs : total k xs < 2 ^ 53 → counter_value (counters (after xs) k) = total k xs.
Proof.
  induction xs as [|x xs IH] using rev_ind; intros Ht.
  { trans 0; [apply counter_new_value|by destruct k]. }
  rewrite after_snoc, counters_apply. pose proof (amount_nonneg k x (after xs)) as Ha.
  rewrite total_amount in *. pose proof (total_of_nonneg k xs). specialize (IH ltac:(lia)).
  destruct (amount k x (after xs)) as [n|]; cbn in *; [|lia]. rewrite counter_Add_value; lia.
Qed.

(** *** The gauges *)
Lemma gauges_apply x c :
  let c' := apply_call x c in
  gauges c' alertErrorRate =
    match result_of x with
    | Some _ => boolToFloat (fltb ThresholdErrorRate (rate_of (totErrors c') (totReplays c')))
    | None => gauges c alertErrorRate end ∧
  gauges c' alertDropRate =
    match x with
    | CPacketDrops r d => boolToFloat (fltb ThresholdDropRate (rate_of d r))
    | _ => gauges c alertDropRate end ∧
  gauges c' alertDepth = from_option (λ d, boolToFloat (ThresholdQueueDepth <? d)) (gauges c alertDepth) (depth_of x) ∧
  gauges c' alertLag = from_option (λ s, boolToFloat (fltb ThresholdLagSeconds s)) (gauges c alertLag) (lag_of x).
Proof. by_call x. Qed.

Lemma alert_depth xs : gauges (after xs) alertDepth = boolToFloat (ThresholdQueueDepth <? latest 0 (omap depth_of xs)).
Proof.
  induction xs as [|x xs IH] using rev_ind; [done|]. rewrite after_snoc, latest_omap.
  destruct (gauges_apply x (after xs)) as (_ & _ & -> & _). rewrite IH. by destruct (depth_of x).
Qed.

Lemma alert_lag xs :
  gauges (after xs) alertLag = boolToFloat (fltb ThresholdLagSeconds (latest (float_of_Z 0) (omap lag_of xs))).
Proof.
  induction xs as [|x xs IH] using rev_ind; [done|]. rewrite after_snoc, latest_omap.
  destruct (gauges_apply x (after xs)) as (_ & _ & _ & ->). rewrite IH. by destruct (lag_of x).
Qed.

Lemma alert_drop xs :
  gauges (after xs) alertDropRate =
    boolToFloat (fltb ThresholdDropRate (rate_of (latest 0 (omap dropped_of xs)) (latest 0 (omap received_of xs)))).
Proof.
  induction xs as [|x xs IH] using rev_ind; [done|]. rewrite after_snoc, !latest_omap.
  destruct (gauges_apply x (after xs)) as (_ & -> & _). rewrite IH. by destruct x.
Qed.

Lemma alert_errors xs :
  gauges (after xs) alertErrorRate = boolToFloat (fltb ThresholdErrorRate (rate_of (totErrors (after xs)) (totReplays (after xs)))).
Proof.
  induction xs as [|x xs IH] using rev_ind; [done|]. rewrite after_snoc.
  destruct (gauges_apply x (after xs)) as (-> & _), (totals_apply x (after xs)) as [-> ->]. rewrite IH. by destruct x.
Qed.

(** A failure is a result. *)
Lemma failures_le xs : tally failure_of xs ≤ tally result_of xs.
Proof.
  induction xs as [|x xs IH] using rev_ind; [done|]. rewrite !tally_snoc. destruct x as [| | | | | |[]| |]; cbn; lia.
Qed.

(** *** Overlapping calls

    Goroutines that call [ReplayResult] at the same time: each counts under the lock,
    and sets the two gauges later, from the rate it has computed. *)
Inductive access :=
  | AtOnce (x : call) | Counted (i : nat) (failed : bool) | RateSet (i : nat) | AlertSet (i : nat).

(** The goroutines between their accesses: the rate, and whether its gauge is set. *)
Record shared := MkShared { coll : collector; pending : gmap nat (float64 * bool) }.

Definition access_step (s : shared) (a : access) : option shared :=
  match a with
  | AtOnce (CReplayResult _) => None
  | AtOnce x => Some (MkShared (apply_call x (coll s)) (pending s))
  | Counted i failed =>
      match pending s !! i with
      | Some _ => None
      | None =>
          let '(rate, c) := result_counted failed (coll s) in Some (MkShared c (<[i := (rate, false)]> (pending s)))
      end
  | RateSet i =>
      match pending s !! i with
      | Some (rate, false) => Some (MkShared (set_rate rate (coll s)) (<[i := (rate, true)]> (pending s)))
      | _ => None
      end
  | AlertSet i =>
      match pending s !! i with
      | Some (rate, true) => Some (MkShared (set_alert rate (coll s)) (delete i (pending s)))
      | _ => None
      end
  end.

Definition accesses (s : shared) (as_ : list access) : option shared :=
  foldl (λ s a, s ← s; access_step s a) (Some s) as_.
Definition shared_New : shared := MkShared collector_New ∅.

(** The calls of a run, in the order in which they took the lock. *)
Definition call_of (a : access) : option call :=
  match a with AtOnce x => Some x | Counted _ failed => Some (CReplayResult failed) | _ => None end.
Definition calls_of (as_ : list access) : list call := omap call_of as_.

Lemma accesses_snoc s as_ a : accesses s (as_ ++ [a]) = s' ← accesses s as_; access_step s' a.
Proof. unfold accesses. by rewrite foldl_app. Qed.

Lemma accesses_app s as1 as2 : accesses s (as1 ++ as2) = s1 ← accesses s as1; accesses s1 as2.
Proof.
  induction as2 as [|a as2 IH] using rev_ind; [rewrite app_nil_r; by destruct (accesses s as1)|].
  rewrite app_assoc, accesses_snoc, IH. destruct (accesses s as1) as [s1|]; cbn; [|done]. by rewrite accesses_snoc.
Qed.

Lemma calls_snoc as_ a : calls_of (as_ ++ [a]) = calls_of as_ ++ match call_of a with Some x => [x] | None => [] end.
Proof. apply omap_snoc. Qed.

(** Two collectors that differ only in the gauges of the error rate. *)
Definition like (c c' : collector) : Prop :=
  counters c' = counters c ∧ totReplays c' = totReplays c ∧ totErrors c' = totErrors c ∧
  lastReceived c' = lastReceived c ∧ lastDropped c' = lastDropped c ∧
  (∀ g, g ≠ errorRate → g ≠ alertErrorRate → gauges c' g = gauges c g) ∧
  execCount c' = execCount c ∧ sourceTimes c' = sourceTimes c ∧ targetTimes c' = targetTimes c.

Ltac alike Hg :=
  split_and!; try reflexivity; intros ? ? ?; cbn [gauges Set_ Add Inc set_last set_totals set_execCount sample_source
    sample_target QueueDepth ReplayLag ReplayResult Throughput ParseError Classified Overflow result_counted set_alert set_rate];
  repeat case_decide; auto.

Lemma apply_like x c c' : like c c' → like (apply_call x c) (apply_call x c').
Proof.
  destruct c as [k g o r e n lr ld st tt], c' as [k' g' o' r' e' n' lr' ld' st' tt'].
  unfold like. cbn. intros (-> & -> & -> & -> & -> & Hg & -> & -> & ->).
  destruct x as [rc dr| | | | | |failed|src tgt|]; cbn [apply_call].
  - unfold PacketDrops. cbv zeta. cbn [lastReceived]. destruct (lr <=? rc); cbn [Add set_last lastReceived lastDropped];
      (destruct (ld <=? dr)); alike Hg.
  - alike Hg.
  - alike Hg.
  - alike Hg.
  - alike Hg.
  - alike Hg.
  - destruct failed; alike Hg.
  - unfold ExecTime. cbv zeta. destruct (0 <? src), (0 <? tgt);
      cbn [sample_source sample_target set_execCount execCount sourceTimes targetTimes];
      (destruct (_ || _)); alike Hg.
  - alike Hg.
Qed.

Lemma like_trans c1 c2 c3 : like c1 c2 → like c2 c3 → like c1 c3.
Proof.
  intros (? & ? & ? & ? & ? & Hg & ? & ? & ?) (? & ? & ? & ? & ? & Hg' & ? & ? & ?).
  unfold like. split_and!; try congruence. intros g Hn1 Hn2. by rewrite Hg', Hg.
Qed.

Lemma set_like g x c : g = errorRate ∨ g = alertErrorRate → like c (Set_ g x c).
Proof. intros Hg. split_and!; try done. intros j Hj1 Hj2. cbn. case_decide; naive_solver. Qed.

Lemma counted_like failed c : like (ReplayResult failed c) (result_counted failed c).2.
Proof.
  unfold ReplayResult, set_alert, set_rate. destruct (result_counted failed c) as [rate c1]. cbn [snd].
  split_and!; try done. intros g Hn1 Hn2. cbn. repeat case_decide; naive_solver.
Qed.

(** The error rate after the results of some calls. *)
Definition error_rate (xs : list call) : float64 := rate_of (totErrors (after xs)) (totReplays (after xs)).

Lemma counted_rate failed xs c :
  like (after xs) c → (result_counted failed c).1 = error_rate (xs ++ [CReplayResult failed]).
Proof.
  intros (_ & Hr & He & _). unfold error_rate. rewrite after_snoc.
  destruct (totals_apply (CReplayResult failed) (after xs)) as [-> ->]. cbn [result_of].
  destruct failed; cbn; by rewrite Hr, He.
Qed.

(** What a run keeps: the collector is that of its calls but for the gauges of the
    error rate, and a rate that waits is that of the moment it was counted. *)
Lemma accesses_like as_ s :
  accesses shared_New as_ = Some s →
  like (after (calls_of as_)) (coll s) ∧
  (∀ i rate b, pending s !! i = Some (rate, b) → ∃ as1, as1 `prefix_of` as_ ∧ rate = error_rate (calls_of as1)) ∧
  (∃ as1, as1 `prefix_of` as_ ∧
    gauges (coll s) alertErrorRate = boolToFloat (fltb ThresholdErrorRate (error_rate (calls_of as1)))).
Proof.
  revert s. induction as_ as [|a as_ IH] using rev_ind; intros s.
  { intros [= <-]. split_and!; [by split_and!|by intros i rate b E; cbn in E; rewrite lookup_empty in E|by exists []]. }
  rewrite accesses_snoc. destruct (accesses shared_New as_) as [s1|]; cbn [mbind option_bind]; [|done].
  destruct (IH s1 eq_refl) as (Hl & Hp & as1 & Hpre & Hg). rewrite calls_snoc.
  assert (∀ as2, as2 `prefix_of` as_ → as2 `prefix_of` as_ ++ [a]) as Hext by (intros as2; apply prefix_app_r).
  assert (∀ i rate b, pending s1 !! i = Some (rate, b) →
    ∃ as2, as2 `prefix_of` as_ ++ [a] ∧ rate = error_rate (calls_of as2)) as Hp' by (intros i rate b (as2 & ? & ?)%Hp; eauto).
  destruct a as [x|i failed|i|i]; cbn [access_step call_of].
  - intros E. assert (s = MkShared (apply_call x (coll s1)) (pending s1) ∧ result_of x = None) as [-> Hx]
      by (by destruct x; simplify_eq).
    rewrite after_snoc. split_and!; [by apply apply_like|exact Hp'|].
    exists as1. split; [by apply Hext|]. cbn [coll]. rewrite <- Hg. destruct (gauges_apply x (coll s1)) as [-> _].
    by rewrite Hx.
  - destruct (pending s1 !! i) eqn:Ei; [done|]. pose proof (counted_rate failed (calls_of as_) (coll s1) Hl) as Hr.
    pose proof (counted_like failed (coll s1)) as Hc.
    assert (gauges (result_counted failed (coll s1)).2 = gauges (coll s1)) as Hsame by (by destruct failed).
    destruct (result_counted failed (coll s1)) as [rate c]. cbn [fst snd] in *. intros [= <-].
    rewrite after_snoc. split_and!.
    + eapply like_trans; [|exact Hc]. exact (apply_like (CReplayResult failed) _ _ Hl).
    + intros j rate' b. cbn [pending]. destruct (decide (j = i)) as [->|Hne].
      * rewrite lookup_insert_eq. intros [= <- <-]. exists (as_ ++ [Counted i failed]). split; [done|].
        by rewrite calls_snoc.
      * rewrite lookup_insert_ne by done. apply Hp'.
    + exists as1. split; [by apply Hext|]. cbn [coll]. by rewrite Hsame.
  - destruct (pending s1 !! i) as [[rate [|]]|] eqn:Ei; try done. intros [= <-]. rewrite app_nil_r. split_and!.
    + eapply like_trans; [exact Hl|]. apply set_like. by left.
    + intros j rate' b. cbn [pending]. destruct (decide (j = i)) as [->|Hne].
      * rewrite lookup_insert_eq. intros [= <- <-]. by apply (Hp' i rate false).
      * rewrite lookup_insert_ne by done. apply Hp'.
    + exists as1. split; [by apply Hext|exact Hg].
  - destruct (pending s1 !! i) as [[rate [|]]|] eqn:Ei; try done. intros [= <-]. rewrite app_nil_r. split_and!.
    + eapply like_trans; [exact Hl|]. apply set_like. by right.
    + intros j rate' b. cbn [pending]. intros [_ Hj]%lookup_delete_Some. by apply (Hp' j rate' b).
    + destruct (Hp' i rate true Ei) as (as2 & Hpre2 & ->). by exists as2.
Qed.

(** A goroutine's alert, when no other sets it after this one has counted. *)
Lemma alert_pending i rate as2 s1 s :
  accesses s1 as2 = Some s → pending s1 !! i = Some (rate, false) →
  (∀ j b, Counted j b ∉ as2) → (∀ j, AlertSet j ∈ as2 → j = i) →
  match pending s !! i with
  | Some (rate', _) => rate' = rate ∧ AlertSet i ∉ as2
  | None => gauges (coll s) alertErrorRate = boolToFloat (fltb ThresholdErrorRate rate)
  end.
Proof.
  revert s. induction as2 as [|a as2 IH] using rev_ind; intros s.
  { intros [= <-] -> _ _. split; [done|]. apply not_elem_of_nil. }
  rewrite accesses_snoc. destruct (accesses s1 as2) as [s2|]; cbn [mbind option_bind]; [|done].
  intros E Hi Hc Ha. setoid_rewrite elem_of_app in Hc. setoid_rewrite elem_of_app in Ha.
  specialize (IH s2 eq_refl Hi ltac:(intros j b ?; eapply Hc; eauto) ltac:(intros j ?; apply Ha; eauto)).
  assert (a ≠ AlertSet i → AlertSet i ∉ as2 → AlertSet i ∉ as2 ++ [a]) as Hnot.
  { intros Hne Hn [?|?%list_elem_of_singleton]%elem_of_app; [done|congruence]. }
  destruct a as [x|j failed|j|j]; cbn [access_step] in E.
  - assert (s = MkShared (apply_call x (coll s2)) (pending s2) ∧ result_of x = None) as [-> Hx]
      by (by destruct x; simplify_eq). cbn [pending coll].
    destruct (gauges_apply x (coll s2)) as [-> _]. rewrite Hx.
    destruct (pending s2 !! i) as [[rate' b]|]; [|done]. destruct IH as [-> IH]. split; [done|by apply Hnot].
  - destruct (Hc j failed). right. by apply list_elem_of_singleton.
  - destruct (pending s2 !! j) as [[rate' [|]]|] eqn:Ej; try done. injection E as <-. cbn [pending coll].
    assert (gauges (set_rate rate' (coll s2)) alertErrorRate = gauges (coll s2) alertErrorRate) as -> by done.
    destruct (decide (j = i)) as [->|Hne].
    + rewrite lookup_insert_eq, Ej in *. destruct IH as [-> IH]. split; [done|by apply Hnot].
    + rewrite lookup_insert_ne by done. destruct (pending s2 !! i) as [[rate'' b]|]; [|done]. destruct IH as [-> IH].
      split; [done|by apply Hnot].
  - assert (j = i) as -> by (apply Ha; right; by apply list_elem_of_singleton).
    destruct (pending s2 !! i) as [[rate' [|]]|] eqn:Ej; try done. injection E as <-. cbn [pending coll].
    rewrite lookup_delete_eq. destruct IH as [-> _]. cbn. by rewrite decide_True.
Qed.

Lemma no_results as2 : (∀ j b, Counted j b ∉ as2) → Forall (λ a, ∀ b, a ≠ AtOnce (CReplayResult b)) as2 →
  omap result_of (calls_of as2) = [] ∧ omap failure_of (calls_of as2) = [].
Proof.
  intros Hc Hf. induction Hf as [|a as2 Ha _ IH]; [done|].
  destruct IH as [H1 H2]; [intros j b ?; apply (Hc j b); by right|]. unfold calls_of in *. cbn.
  destruct a as [x|j b|j|j]; cbn; [|by destruct (Hc j b); left|done|done].
  destruct x; cbn; try (by rewrite H1, H2). by destruct (Ha failed).
Qed.

Lemma accesses_plain s as_ s' :
  accesses s as_ = Some s' → Forall (λ a, ∀ b, a ≠ AtOnce (CReplayResult b)) as_.
Proof.
  revert s'. induction as_ as [|a as_ IH] using rev_ind; intros s'; [constructor|]. rewrite accesses_snoc.
  destruct (accesses s as_) as [s1|]; cbn; [|done]. intros E. apply Forall_app. split; [by eapply IH|].
  constructor; [|done]. by intros b ->.
Qed.

Lemma error_alert xs :
  tally result_of xs < 2 ^ 52 →
  boolToFloat (fltb ThresholdErrorRate (error_rate xs)) = boolToFloat (tally result_of xs <? 100 * tally failure_of xs).
Proof.
  intros Hn. unfold error_rate. destruct (totals_after xs) as [-> ->]. f_equal. pose proof (failures_le xs).
  pose proof (tally_nonneg failure_of xs). rewrite !wrap_small by (unfold in_width; lia). unfold rate_of.
  destruct (Z.ltb_spec 0 (tally result_of xs)); [by apply exceeds_one_percent; lia|].
  by rewrite (proj2 (Z.ltb_ge _ _)) by lia.
Qed.

Lemma tally_app {A} (f : call → option A) xs ys : tally f (xs ++ ys) = tally f xs + tally f ys.
Proof. unfold tally. by rewrite omap_app, zlen_app. Qed.


(** ** The percentiles *)
Definition exec_of (x : call) : option (Z * Z) := match x with CExecTime s t => Some (s, t) | _ => None end.

(** The collector's window after the times of one side. *)
Definition window_of (ds : list Z) : reservoir :=
  fold_left add (Seconds <$> filter (λ d, 0 < d) ds) (newReservoir execSampleWindow).

(** The number of calls the percentiles take into account after [n] of them. *)
Definition refreshed (n : Z) : Z := if n <? p99RefreshInterval then Z.min n 1 else n - n mod p99RefreshInterval.

Lemma window_snoc ds d : window_of (ds ++ [d]) = if 0 <? d then add (window_of ds) (Seconds d) else window_of ds.
Proof.
  unfold window_of. rewrite filter_app, fmap_app, fold_left_app. cbn. unfold filter at 2. cbn.
  destruct (Z.ltb_spec 0 d); [by rewrite decide_True|by rewrite decide_False by lia].
Qed.

Lemma refreshed_succ n :
  0 ≤ n → refreshed (n + 1) = if (n + 1 =? 1) || ((n + 1) mod p99RefreshInterval =? 0) then n + 1 else refreshed n.
Proof.
  intros Hn. unfold refreshed, p99RefreshInterval. pose proof (Z.mod_pos_bound n 1000). pose proof (Z.mod_pos_bound (n + 1) 1000).
  pose proof (Z.div_mod n 1000). pose proof (Z.div_mod (n + 1) 1000).
  destruct (Z.eqb_spec (n + 1) 1); [subst; replace n with 0 by lia; done|]. cbn [orb].
  destruct (Z.eqb_spec ((n + 1) mod 1000) 0), (Z.ltb_spec (n + 1) 1000), (Z.ltb_spec n 1000); try lia.
Qed.

Lemma refreshed_le n : 0 ≤ n → 0 ≤ refreshed n ≤ n ∧ (n - refreshed n < p99RefreshInterval).
Proof.
  intros Hn. unfold refreshed, p99RefreshInterval. pose proof (Z.mod_pos_bound n 1000 ltac:(lia)).
  pose proof (Z.mod_le n 1000). destruct (Z.ltb_spec n 1000); lia.
Qed.

Lemma exec_apply x c :
  let c' := apply_call x c in
  match exec_of x with
  | Some (s, t) =>
      execCount c' = wrap 64 (execCount c + 1) ∧
      sourceTimes c' = (if 0 <? s then add (sourceTimes c) (Seconds s) else sourceTimes c) ∧
      targetTimes c' = (if 0 <? t then add (targetTimes c) (Seconds t) else targetTimes c)
  | None => execCount c' = execCount c ∧ sourceTimes c' = sourceTimes c ∧ targetTimes c' = targetTimes c
  end.
Proof.
  destruct (exec_of x) as [p|] eqn:Ex; [|by_call x]. destruct x as [| | | | | | |s t|]; try done. injection Ex as <-.
  unfold apply_call, ExecTime. cbv zeta.
  destruct (0 <? s), (0 <? t), (_ || _); done.
Qed.

Lemma exec_after xs :
  execCount (after xs) = wrap 64 (zlen (omap exec_of xs)) ∧
  sourceTimes (after xs) = window_of (omap exec_of xs).*1 ∧ targetTimes (after xs) = window_of (omap exec_of xs).*2.
Proof.
  induction xs as [|x xs (IH1 & IH2 & IH3)] using rev_ind; [done|]. rewrite after_snoc, omap_snoc.
  pose proof (exec_apply x (after xs)) as He. destruct (exec_of x) as [[s t]|]; destruct He as (-> & -> & ->);
    rewrite ?app_nil_r, IH1, IH2, IH3; [|done].
  rewrite !fmap_app. cbn [fmap list_fmap fst snd]. rewrite !window_snoc, zlen_app, wrap_add_l. done.
Qed.

(** The percentiles of both sides and the alert over the calls [es]. *)
Definition p99_over (es : list (Z * Z)) : float64 * float64 * float64 :=
  let src := quantile (window_of es.*1) ninety_nine in
  let tgt := quantile (window_of es.*2) ninety_nine in
  (src, tgt, boolToFloat (fltb (float_of_Z 0) src && fltb (fmul ThresholdP99Ratio src) tgt)).

Definition p99_gauges (c : collector) : float64 * float64 * float64 :=
  (gauges c sourceP99, gauges c targetP99, gauges c alertP99).

Lemma p99_apply x c :
  let c' := apply_call x c in
  p99_gauges c' =
    match exec_of x with
    | Some _ =>
        if (execCount c' =? 1) || (execCount c' mod p99RefreshInterval =? 0) then
          let src := quantile (sourceTimes c') ninety_nine in
          let tgt := quantile (targetTimes c') ninety_nine in
          (src, tgt, boolToFloat (fltb (float_of_Z 0) src && fltb (fmul ThresholdP99Ratio src) tgt))
        else p99_gauges c
    | None => p99_gauges c
    end.
Proof.
  destruct (exec_of x) as [p|] eqn:Ex; [|by_call x]. destruct x as [| | | | | | |s t|]; try done. injection Ex as <-.
  unfold apply_call, ExecTime. cbv zeta.
  destruct (0 <? s), (0 <? t); cbn [execCount set_execCount sample_source sample_target]; destruct (_ || _) eqn:E;
    cbn [execCount Set_ set_execCount sample_source sample_target]; by rewrite E.
Qed.

Lemma p99_after xs :
  let es := omap exec_of xs in
  zlen es < 2 ^ 64 → p99_gauges (after xs) = p99_over (take (Z.to_nat (refreshed (zlen es))) es).
Proof.
  intros es Hes. unfold es in *. clear es.
  induction xs as [|x xs IH] using rev_ind; [done|]. rewrite after_snoc, p99_apply.
  pose proof (exec_after (xs ++ [x])) as (H1 & H2 & H3). rewrite after_snoc in H1, H2, H3.
  rewrite H1, H2, H3. rewrite omap_snoc in *. pose proof (zlen_nonneg (omap exec_of xs)).
  destruct (exec_of x) as [e|]; [|rewrite app_nil_r in *; by apply IH].
  rewrite zlen_app, zlen_cons, (@zlen_nil (Z * Z)) in *. change (1 + 0) with 1 in *.
  rewrite wrap_small by (unfold in_width; lia). rewrite refreshed_succ by done.
  destruct (_ || _) eqn:Er.
  - rewrite take_ge; [done|]. rewrite length_app. unfold zlen. cbn. lia.
  - rewrite take_app_le; [apply IH; lia|]. pose proof (refreshed_le (zlen (omap exec_of xs))). unfold zlen in *. lia.
Qed.

(** What the percentile of one side is to be, said without the window: of its times, in
    seconds, those that are positive count, of these the latest hundred thousand, and
    of these, sorted, the one at the rank nearest to 99 % of the way. *)
Definition times (ds : list Z) : list float64 := Seconds <$> filter (λ d, 0 < d) ds.
Definition recent (vs : list float64) : list float64 := drop (length vs - 100 * 1000) vs.
Definition nearest_rank (n : Z) : Z :=
  Z.min (n - 1) (Z.max 0 (int64_of_float (fadd (fmul (fdiv (float_of_Z 99) (float_of_Z 100)) (float_of_Z (n - 1)))
    (float_pow2 (-1))))).
Definition p99_of (vs : list float64) (x : float64) : Prop :=
  (vs = [] → x = float_of_Z 0) ∧
  (vs ≠ [] → ∃ sorted, sorted ≡ₚ vs ∧ Sorted.Sorted float_le sorted ∧
     sorted !! Z.to_nat (nearest_rank (zlen vs)) = Some x).

Lemma quantile_p99 vs : p99_of (recent vs) (quantile (fold_left add vs (newReservoir execSampleWindow)) ninety_nine).
Proof.
  destruct (fold_holds execSampleWindow vs ltac:(done)) as (_ & Hx & Hl & Hw & _ & _).
  set (w := fold_left add vs (newReservoir execSampleWindow)) in *.
  assert (recent vs = window w) as ->.
  { rewrite Hw. unfold recent, execSampleWindow, zlen. f_equal. lia. }
  assert (window w ≡ₚ buf w) as Hp by (unfold window; by rewrite Permutation_app_comm, take_drop).
  assert (zlen (window w) = zlen (buf w)) as Hlen by (unfold zlen; by rewrite Hp).
  split; intros Hn.
  - rewrite Hn in Hp. apply Permutation_nil_l in Hp. unfold quantile. by rewrite <- Hp.
  - exists (Float64s (buf w)). split_and!; [by rewrite Hp, Float64s_perm|apply Float64s_Sorted|].
    assert (0 < zlen (buf w)) as Hpos.
    { rewrite <- Hlen. destruct (window w); [done|]. rewrite zlen_cons. pose proof (zlen_nonneg l). lia. }
    rewrite Hlen. unfold quantile. destruct (buf w) as [|x b] eqn:E; [rewrite (@zlen_nil float64) in Hpos; lia|].
    rewrite <- E in *.
    assert (fleb ninety_nine (float_of_Z 0) = false ∧ fleb (float_of_Z 1) ninety_nine = false) as [-> ->] by done.
    assert (nearest_rank (zlen (buf w)) = rank ninety_nine (zlen (buf w))) as ->.
    { unfold nearest_rank, rank, half. change (fdiv (float_of_Z 99) (float_of_Z 100)) with ninety_nine.
      generalize (int64_of_float (fadd (fmul ninety_nine (float_of_Z (zlen (buf w) - 1))) (float_pow2 (-1)))). intros i.
      destruct (Z.ltb_spec i 0); [destruct (Z.leb_spec (zlen (buf w)) 0)|destruct (Z.leb_spec (zlen (buf w)) i)]; lia. }
    pose proof (rank_range ninety_nine (zlen (buf w)) Hpos) as Hr.
    destruct (lookup_lt_is_Some_2 (Float64s (buf w)) (Z.to_nat (rank ninety_nine (zlen (buf w))))) as [y ->]; [|done].
    rewrite (Permutation_length (Float64s_perm (buf w))). unfold zlen in *. lia.
Qed.

(** C34 The percentiles are computed once in a thousand statements, and lag behind by
    less than that: with fewer than 2^64 statements, the gauges are at all times the
    99th percentiles of the latest hundred thousand positive times of each side as of
    the latest refresh - the samples sorted, the one at the rank nearest to 99 % - and
    the alert tells whether the target's is more than twice the source's and that is
    positive. *)
Theorem p99_amortised xs :
  let es := omap exec_of xs in
  zlen es < 2 ^ 64 →
  let seen := take (Z.to_nat (refreshed (zlen es))) es in
  zlen es - zlen seen < 1000 ∧
  ∃ src tgt, p99_of (recent (times seen.*1)) src ∧ p99_of (recent (times seen.*2)) tgt ∧
    p99_gauges (after xs) =
      (src, tgt, boolToFloat (fltb (float_of_Z 0) src && fltb (fmul (float_of_Z 2) src) tgt)).
Proof.
  intros es Hes seen. split.
  - pose proof (refreshed_le (zlen es) (zlen_nonneg es)) as Hr. change 1000 with p99RefreshInterval.
    unfold seen, zlen at 2. rewrite length_take. unfold zlen in *. lia.
  - eexists _, _. split; [apply quantile_p99|]. split; [apply quantile_p99|]. rewrite p99_after by done. done.
Qed.

(** At the sizes a window has when it is refreshed, and when it is full, the rank is the
    exact one. *)
Example nearest_ranks :
  nearest_rank 1 = 0 ∧ nearest_rank 100 = 98 ∧ nearest_rank 1000 = 989 ∧ nearest_rank 51000 = 50489 ∧
  nearest_rank 100000 = 98999.
Proof. by vm_compute. Qed.

(** ** What the pipeline reports *)

(** The processor's outputs as calls; [recordExec] leaves the target's time zero. *)
Definition recorded (o : output) : option call :=
  match o with
  | Processor.Enqueued _ => None
  | Processor.ParseError => Some CParseError
  | Processor.Classified class kept => Some (CClassified class kept)
  | Processor.ExecTime _ d => Some (CExecTime d 0)
  end.

Lemma recorded_target o x s t : recorded o = Some x → exec_of x = Some (s, t) → t = 0.
Proof. destruct o; cbn; intros [= <-]; cbn; congruence. Qed.

Lemma recorded_targets os : (omap exec_of (omap recorded os)).*2 = replicate (length (omap exec_of (omap recorded os))) 0.
Proof.
  induction os as [|o os IH]; [done|]. cbn. destruct (recorded o) as [x|] eqn:Eo; [|done].
  cbn. destruct (exec_of x) as [[s t]|] eqn:Ex; [|done]. cbn. by rewrite (recorded_target _ _ _ _ Eo Ex), IH.
Qed.

Lemma window_of_zeros n : window_of (replicate n 0) = newReservoir execSampleWindow.
Proof. unfold window_of. induction n; done. Qed.

(** Twice a positive time is not below zero. *)
Lemma no_ratio src : fltb (float_of_Z 0) src && fltb (fmul ThresholdP99Ratio src) (float_of_Z 0) = false.
Proof.
  change (float_of_Z 0) with (S754_zero false). destruct src as [[]|[]| |[] m e]; try done.
  cbn [andb fltb SFltb SFcompare]. unfold fmul, ThresholdP99Ratio.
  destruct (float_of_Z_exact 2 ltac:(lia)) as (m2 & k & -> & _). cbn [SFmul xorb]. unfold binary_round_aux.
  repeat case_match; done.
Qed.

Lemma p99_over_zeros es : es.*2 = replicate (length es) 0 → ∃ src, p99_over es = (src, float_of_Z 0, float_of_Z 0).
Proof.
  intros He. unfold p99_over. rewrite He, window_of_zeros.
  change (quantile (newReservoir execSampleWindow) ninety_nine) with (float_of_Z 0). rewrite no_ratio. by eexists.
Qed.

(** Nothing measures the target.  The alert that compares the target's 99th
    percentile with twice the source's cannot fire, and the target's percentile
    stays zero: the only recorded times are the processor's, whatever traffic it
    saw and whatever else was reported. *)
Theorem p99_alert_silent `{Unicode} is_ s xs :
  omap exec_of xs = omap exec_of (omap recorded ((run is_ s).2)) → zlen (omap exec_of xs) < 2 ^ 64 →
  gauges (after xs) targetP99 = float_of_Z 0 ∧ gauges (after xs) alertP99 = float_of_Z 0.
Proof.
  intros Hx Hn. pose proof (p99_after xs Hn) as Hp. cbv zeta in Hp.
  destruct (p99_over_zeros (take (Z.to_nat (refreshed (zlen (omap exec_of xs)))) (omap exec_of xs))) as [src Hs].
  { rewrite fmap_take, Hx, recorded_targets, take_replicate, length_take. f_equal; lia. }
  rewrite Hs in Hp. by injection Hp as _ -> ->.
Qed.

(** ** The poller *)
Definition DefaultCapacity : Z := 2000000.
Definition criticalDepth : Z := DefaultCapacity * 80 / 100.

(** A warning on standard error. *)
Inductive warning := DropsDetected (newDrops total received : Z) | DepthCritical (depth : Z).

Record poller := MkPoller { p_lastDropped : Z; p_lastDepth : Z }.

(** A tick: the capture's counters, when it has any, and the queue's depth. *)
Definition poll_tick (stats : option (Z * Z)) (depth : option Z) (p : poller) : poller * list call * list warning :=
  let '(ld, calls1, warns1) :=
    match stats with
    | Some (received, dropped) =>
        (dropped, [CPacketDrops received dropped],
         if p_lastDropped p <? dropped then [DropsDetected (dropped - p_lastDropped p) dropped received] else [])
    | None => (p_lastDropped p, [], [])
    end in
  let '(lo, calls2, warns2) :=
    match depth with
    | Some d => (d, [CQueueDepth d], if (criticalDepth <? d) && (p_lastDepth p <=? criticalDepth) then [DepthCritical d] else [])
    | None => (p_lastDepth p, [], [])
    end in
  (MkPoller ld lo, calls1 ++ calls2, warns1 ++ warns2).

Fixpoint metricsPoller (p : poller) (ticks : list (option (Z * Z) * option Z)) : list call * list warning :=
  match ticks with
  | [] => ([], [])
  | (stats, depth) :: ticks =>
      let '(p, calls, warns) := poll_tick stats depth p in
      let '(calls', warns') := metricsPoller p ticks in (calls ++ calls', warns ++ warns')
  end.

Definition warned_drops (ws : list warning) : Z :=
  foldr (λ w n, match w with DropsDetected d _ _ => d + n | _ => n end) 0 ws.

Lemma warned_drops_app ws1 ws2 : warned_drops (ws1 ++ ws2) = warned_drops ws1 + warned_drops ws2.
Proof. unfold warned_drops. induction ws1 as [|[] ws IH]; cbn; lia. Qed.

Lemma poller_drops p ticks :
  let '(calls, warns) := metricsPoller p ticks in
  omap dropped_of calls = omap (λ t, snd <$> t.1) ticks ∧ omap received_of calls = omap (λ t, fst <$> t.1) ticks ∧
  omap depth_of calls = omap snd ticks ∧ warned_drops warns = advances (p_lastDropped p) (omap (λ t, snd <$> t.1) ticks).
Proof.
  revert p. induction ticks as [|[stats depth] ticks IH]; intros p; [done|]. cbn [metricsPoller].
  destruct (poll_tick stats depth p) as [[p' calls] warns] eqn:E.
  specialize (IH p'). destruct (metricsPoller p' ticks) as [calls' warns']. destruct IH as (H1 & H2 & H3 & H4).
  unfold poll_tick in E. rewrite !omap_app, warned_drops_app, H1, H2, H3, H4.
  destruct stats as [[r d]|], depth as [o|]; injection E as <- <- <-; cbn [omap list_omap fst snd fmap option_fmap option_map
    dropped_of received_of depth_of app p_lastDropped advances]; split_and!; try done; rewrite ?app_nil_r, ?warned_drops_app;
    repeat case_match; cbn; lia.
Qed.

(** The poller's log and the counter agree: what a run of the poller warns about adds
    up to the counter of dropped packets, and the depth alert is that of the last
    depth it read. *)
Theorem poller_consistent ticks :
  let '(calls, warns) := metricsPoller (MkPoller 0 0) ticks in
  (∀ k, total k calls < 2 ^ 52) →
  counter_value (counters (after calls) packetsDropped) = warned_drops warns ∧
  gauges (after calls) alertDepth = boolToFloat (100000 <? latest 0 (omap snd ticks)).
Proof.
  pose proof (poller_drops (MkPoller 0 0) ticks) as Hp. destruct (metricsPoller _ ticks) as [calls warns].
  destruct Hp as (H1 & _ & H3 & H4). intros Ht. split; [|by rewrite alert_depth, H3].
  rewrite counters_after by (specialize (Ht packetsDropped); lia). cbn [total]. by rewrite H1, H4.
Qed.
End collector.

(** ** A counter that keeps its total *)
Definition whole (x : float64) : Z := match x with S754_finite s m e => trunc_float s m e | _ => 0 end.

Lemma whole_of_Z n : 0 ≤ n < 2 ^ 53 → whole (float_of_Z n) = n.
Proof.
  intros Hn. destruct (decide (n = 0)) as [->|]; [done|].
  destruct (float_of_Z_exact n ltac:(lia)) as (m & k & -> & Hk & Hm & _). cbn. unfold trunc_float. rewrite Hm.
  destruct (Z.leb_spec 0 (- k)); [replace k with 0 by lia; cbn; lia|].
  rewrite Z.opp_involutive. apply Z.div_mul. apply Z.pow_nonzero; lia.
Qed.

Module CollectorDemo.
#[export] Instance exact_counter : PromCounter.
Proof.
  refine {| counter := N; counter_new := 0%N; counter_Add x c := (c + Z.to_N (whole x))%N; counter_value := Z.of_N |}.
  - done.
  - intros n c Hn Hc. rewrite whole_of_Z; lia.
Defined.

#[export] Instance conv : FloatConv := MetricsDemo.conv.

(** A capture that restarts, and one failure in three replays. *)
Definition calls : list call :=
  [CPacketDrops 5000 5; CReplayResult false; CReplayResult true; CParseError; CPacketDrops 1000 2; CReplayResult false;
   CQueueDepth 100000; CExecTime 2000000000 0; CClassified ClassDML true].
End CollectorDemo.

#[local] Existing Instances CollectorDemo.exact_counter CollectorDemo.conv.

(** The same, with the two gauges of the second replay set after the third is counted. *)
Definition overlapping : list access :=
  [AtOnce (CPacketDrops 5000 5); Counted 1 false; RateSet 1; AlertSet 1; Counted 2 true; AtOnce CParseError;
   AtOnce (CPacketDrops 1000 2); Counted 1 false; RateSet 2; RateSet 1; AlertSet 2; AlertSet 1;
   AtOnce (CQueueDepth 100000); AtOnce (CExecTime 2000000000 0); AtOnce (CClassified ClassDML true)].
Definition overlapped : shared := default shared_New (accesses shared_New overlapping).


(** The alert can be wrong for good: of two replays at the same time one fails, and the
    one that succeeded, which was counted first, sets the alert last. *)
Theorem error_alert_stale :
  ∃ as_ s, accesses shared_New as_ = Some s ∧ pending s = ∅ ∧
    calls_of as_ = [CReplayResult false; CReplayResult true] ∧ gauges (coll s) alertErrorRate = float_of_Z 0.
Proof.
  exists [Counted 1 false; Counted 2 true; RateSet 2; AlertSet 2; RateSet 1; AlertSet 1]. eexists.
  split; [reflexivity|]. by vm_compute.
Qed.

Lemma p99_amortised_witness :
  ∃ src tgt, p99_of (recent (times [2000000000])) src ∧ p99_of (recent (times [0])) tgt ∧
    p99_gauges (after CollectorDemo.calls) =
      (src, tgt, boolToFloat (fltb (float_of_Z 0) src && fltb (fmul (float_of_Z 2) src) tgt)).
Proof.
  destruct (p99_amortised CollectorDemo.calls ltac:(done)) as [_ H]. exact H.
Defined.
