(* ===== verification/Monitor.v ===== *)
(** * Progress and result comparison (src/internal/monitor/monitor.go)

    The tracker and the comparator.  A line the comparator prints is kept as the
    arguments of its format; the failover detector is in [Lifecycle]. *)
From Stdlib Require Import String SpecFloat.
From S2P Require Import Prelude Core Classifier ConnKey GoTime Metrics.

(** ** The result comparator *)
Record ReplayResult := MkReplayResult {
  EventSeq : Z; ConnKey : list Z; rr_SQL : list Z; SourceExecMs : float64; TargetExecMs : float64;
  SourceError : list Z; TargetError : list Z; RowsAffected : Z; rr_Timestamp : Z }.

Inductive DiffType := DiffNone | DiffError | DiffSlower | DiffFaster | DiffRowCount.

#[export] Instance DiffType_eq_dec : EqDecision DiffType.
Proof. solve_decision. Defined.
#[export] Instance DiffType_countable : Countable DiffType.
Proof.
  refine (inj_countable' (λ t, match t with DiffNone => 0 | DiffError => 1 | DiffSlower => 2 | DiffFaster => 3 | DiffRowCount => 4 end)
    (λ n, match n with 0 => DiffNone | 1 => DiffError | 2 => DiffSlower | 3 => DiffFaster | _ => DiffRowCount end) _).
  by intros [].
Defined.

Inductive message := NoMessage | ErrorMessage (err : list Z) | SlowerMessage (target source ratio : float64).

Record Diff := MkDiff { d_Type : DiffType; d_Result : ReplayResult; d_Message : message }.

Definition diffTypeName (t : DiffType) : list Z :=
  match t with
  | DiffError => bytes_of "ERROR"
  | DiffSlower => bytes_of "SLOW"
  | DiffFaster => bytes_of "FAST"
  | DiffRowCount => bytes_of "ROWS"
  | DiffNone => bytes_of "NONE"
  end.

Definition truncate (s : list Z) (maxLen : Z) : list Z :=
  if zlen s <=? maxLen then s else take (Z.to_nat maxLen) s ++ bytes_of "...".

Record line := MkLine {
  l_time : Z; l_type : list Z; l_conn : list Z; l_sql : list Z; l_source : float64; l_target : float64; l_error : list Z }.

(** [outputFile] is the lines written while the file is open. *)
Record ResultComparator := MkComparator {
  diffs : list Diff; maxDiffs : Z; rc_closed : bool; slowThreshold : float64;
  outputFile : bool; written : list line }.

(** [opens]: whether the output file can be opened. *)
Definition NewResultComparator (slow : float64) (outputPath : list Z) (opens : bool) : option ResultComparator :=
  if bool_decide (outputPath = []) then Some (MkComparator [] 10000 false slow false [])
  else if opens then Some (MkComparator [] 10000 false slow true []) else None.

Definition analyze (rc : ResultComparator) (r : ReplayResult) : Diff :=
  if negb (bool_decide (TargetError r = [])) && bool_decide (SourceError r = []) then MkDiff DiffError r (ErrorMessage (TargetError r))
  else if fltb (float_of_Z 0) (SourceExecMs r) && fltb (fmul (SourceExecMs r) (slowThreshold rc)) (TargetExecMs r) then
    MkDiff DiffSlower r (SlowerMessage (TargetExecMs r) (SourceExecMs r) (fdiv (TargetExecMs r) (SourceExecMs r)))
  else MkDiff DiffNone (MkReplayResult 0 [] [] (float_of_Z 0) (float_of_Z 0) [] [] 0 zeroTime) NoMessage.

Definition line_of (t : DiffType) (r : ReplayResult) : line :=
  MkLine (rr_Timestamp r) (diffTypeName t) (ConnKey r) (truncate (rr_SQL r) 100) (SourceExecMs r) (TargetExecMs r) (TargetError r).

Definition Record_ (r : ReplayResult) (rc : ResultComparator) : ResultComparator :=
  let diff := analyze rc r in
  if bool_decide (d_Type diff = DiffNone) then rc
  else if rc_closed rc then rc
  else
    MkComparator (if zlen (diffs rc) <? maxDiffs rc then diffs rc ++ [diff] else diffs rc) (maxDiffs rc) (rc_closed rc)
      (slowThreshold rc) (outputFile rc) (if outputFile rc then written rc ++ [line_of (d_Type diff) r] else written rc).

Definition GetDiffs (rc : ResultComparator) : list Diff := diffs rc.

Definition Summary (rc : ResultComparator) : gmap DiffType Z :=
  foldl (λ counts d, <[d_Type d := default 0 (counts !! d_Type d) + 1]> counts) ∅ (diffs rc).

Definition comparator_Close (rc : ResultComparator) : ResultComparator :=
  MkComparator (diffs rc) (maxDiffs rc) true (slowThreshold rc) false (written rc).

(** *** What it keeps *)
Definition flagged (rc : ResultComparator) (rs : list ReplayResult) : list Diff :=
  filter (λ d, d_Type d ≠ DiffNone) (analyze rc <$> rs).

Lemma analyze_threshold rc rc' r : slowThreshold rc = slowThreshold rc' → analyze rc r = analyze rc' r.
Proof. intros E. unfold analyze. by rewrite E. Qed.

Lemma flagged_cons rc r rs :
  flagged rc (r :: rs) = (if bool_decide (d_Type (analyze rc r) = DiffNone) then [] else [analyze rc r]) ++ flagged rc rs.
Proof.
  unfold flagged. rewrite fmap_cons, filter_cons. case_bool_decide as E; case_decide; try done; by destruct (_ : ¬ _).
Qed.

Lemma flagged_threshold rc rc' rs : slowThreshold rc = slowThreshold rc' → flagged rc rs = flagged rc' rs.
Proof. intros E. unfold flagged. f_equal. apply list_fmap_ext. intros i r _. by apply analyze_threshold. Qed.

(** A flagged result carries the result it is about. *)
Lemma analyze_result rc r : d_Type (analyze rc r) ≠ DiffNone → d_Result (analyze rc r) = r.
Proof. unfold analyze. repeat case_match; done. Qed.

Definition records (rs : list ReplayResult) (rc : ResultComparator) : ResultComparator := foldl (λ c r, Record_ r c) rc rs.

Lemma records_run rs rc :
  rc_closed rc = false → zlen (diffs rc) ≤ maxDiffs rc →
  let rc' := records rs rc in
  diffs rc' = take (Z.to_nat (maxDiffs rc)) (diffs rc ++ flagged rc rs) ∧
  written rc' = (if outputFile rc then written rc ++ ((λ d, line_of (d_Type d) (d_Result d)) <$> flagged rc rs) else written rc) ∧
  rc_closed rc' = false ∧ maxDiffs rc' = maxDiffs rc ∧ outputFile rc' = outputFile rc ∧ slowThreshold rc' = slowThreshold rc.
Proof.
  revert rc. induction rs as [|r rs IH]; intros rc Hc Hm rc'.
  { unfold rc', records. cbn [foldl]. rewrite app_nil_r, take_ge by (unfold zlen in Hm; lia).
    unfold flagged. cbn. rewrite app_nil_r. by destruct (outputFile rc). }
  unfold rc'. change (records (r :: rs) rc) with (records rs (Record_ r rc)). rewrite flagged_cons.
  assert (slowThreshold (Record_ r rc) = slowThreshold rc) as Hs
    by (unfold Record_; cbv zeta; repeat case_match; done).
  destruct (IH (Record_ r rc)) as (-> & -> & -> & -> & -> & ->).
  { unfold Record_; cbv zeta; repeat case_match; done. }
  { unfold Record_. cbv zeta. destruct (bool_decide _); [done|]. rewrite Hc. cbn [diffs maxDiffs].
    destruct (Z.ltb_spec (zlen (diffs rc)) (maxDiffs rc)); [|lia]. rewrite zlen_app, zlen_cons, (@zlen_nil Diff). lia. }
  rewrite (flagged_threshold _ rc) by done. unfold Record_. cbv zeta. case_bool_decide as Ed; cbn [app]; [done|].
  rewrite Hc. cbn [diffs maxDiffs outputFile written rc_closed slowThreshold]. split_and!; [|..|done|done|done|done].
  - destruct (Z.ltb_spec (zlen (diffs rc)) (maxDiffs rc)); [by rewrite <- app_assoc|].
    unfold zlen in *. rewrite !take_app_le, !take_ge by lia. done.
  - destruct (outputFile rc); [|done]. rewrite fmap_cons, analyze_result by done. by rewrite <- app_assoc.
Qed.

Lemma records_closed rs rc : rc_closed rc = true → records rs rc = rc.
Proof.
  revert rc. induction rs as [|r rs IH]; intros rc Hc; [done|].
  change (records (r :: rs) rc) with (records rs (Record_ r rc)). unfold Record_. cbv zeta. rewrite Hc.
  case_bool_decide; by apply IH.
Qed.

Definition occurrences (t : DiffType) (ds : list Diff) : Z := zlen (filter (λ d, d_Type d = t) ds).

Lemma occurrences_snoc t ds d : occurrences t (ds ++ [d]) = occurrences t ds + if decide (d_Type d = t) then 1 else 0.
Proof. unfold occurrences. rewrite filter_app, zlen_app. cbn. unfold filter at 2. cbn. by case_decide. Qed.

Lemma summary_counts ds t :
  default 0 (foldl (λ counts d, <[d_Type d := default 0 (counts !! d_Type d) + 1]> counts) (∅ : gmap DiffType Z) ds !! t) =
    occurrences t ds.
Proof.
  induction ds as [|d ds IH] using rev_ind; [done|]. rewrite foldl_app. cbn [foldl]. rewrite occurrences_snoc, <- IH.
  case_decide as E; [subst; by rewrite lookup_insert_eq|]. rewrite lookup_insert_ne by done. lia.
Qed.

Lemma flagged_types rc rs d : d ∈ flagged rc rs → d_Type d = DiffError ∨ d_Type d = DiffSlower.
Proof.
  intros [Hn Hd]%list_elem_of_filter. apply list_elem_of_fmap in Hd as (r & -> & _). revert Hn. unfold analyze.
  repeat case_match; cbn; intros; auto; done.
Qed.

(** The comparator keeps the first ten thousand differences, in the order in which
    they were recorded, its summary counts exactly those, and the output file gets
    a line for every difference recorded until it is closed; afterwards nothing
    changes.  A difference is a new error or a slower statement, never one of
    the other types. *)
Theorem comparator_reports slow path opens rc rs rs' :
  NewResultComparator slow path opens = Some rc →
  let done_ := records rs rc in
  let all := flagged rc rs in
  GetDiffs done_ = take (Z.to_nat 10000) all ∧
  (∀ t, default 0 (Summary done_ !! t) = occurrences t (take (Z.to_nat 10000) all)) ∧
  written done_ = (if bool_decide (path = []) then [] else (λ d, line_of (d_Type d) (d_Result d)) <$> all) ∧
  (∀ d, d ∈ all → d_Type d = DiffError ∨ d_Type d = DiffSlower) ∧
  records rs' (comparator_Close done_) = comparator_Close done_.
Proof.
  intros Hn. assert (rc_closed rc = false ∧ diffs rc = [] ∧ maxDiffs rc = 10000 ∧ written rc = [] ∧
    outputFile rc = negb (bool_decide (path = []))) as (Hc & Hd & Hm & Hw & Ho).
  { unfold NewResultComparator in Hn. repeat case_match; by simplify_eq. }
  destruct (records_run rs rc Hc) as (H1 & H2 & _); [rewrite Hd, Hm; done|].
  rewrite Hd, Hm in H1. cbn [app] in H1.  split_and!.
  - exact H1.
  - intros t. unfold Summary. by rewrite summary_counts, H1.
  - rewrite H2, Ho, Hw. by destruct (bool_decide _).
  - apply flagged_types.
  - by apply records_closed.
Qed.

(** ** The progress tracker

    Counters are int64 and wrap; an instant that was never stored is the zero time. *)
Record ProgressTracker := MkTracker {
  eventsProduced : Z; eventsConsumed : Z; eventsReplayed : Z; eventsFailed : Z; eventsSkipped : Z;
  lastProduceTime : Z; lastConsumeTime : Z; lastReplayTime : Z; currentLagMs : Z;
  kafkaHighWatermark : Z; kafkaCommitted : Z; startTime : Z }.

Definition NewProgressTracker (now : Z) : ProgressTracker := MkTracker 0 0 0 0 0 zeroTime zeroTime zeroTime 0 0 0 now.

Definition bump (n : Z) : Z := signed 64 (n + 1).

(** The calls, with the time of the clock. *)
Inductive progress_call :=
  | OnProduce (now : Z) | OnConsume (now : Z) | OnReplay (now lagMs : Z) | OnFailed | OnSkipped
  | UpdateKafkaOffsets (highWatermark committed : Z).

Definition track (x : progress_call) (p : ProgressTracker) : ProgressTracker :=
  let '(MkTracker pr co re fa sk tp tc tr lag hw cm st) := p in
  match x with
  | OnProduce now => MkTracker (bump pr) co re fa sk now tc tr lag hw cm st
  | OnConsume now => MkTracker pr (bump co) re fa sk tp now tr lag hw cm st
  | OnReplay now ms => MkTracker pr co (bump re) fa sk tp tc now ms hw cm st
  | OnFailed => MkTracker pr co re (bump fa) sk tp tc tr lag hw cm st
  | OnSkipped => MkTracker pr co re fa (bump sk) tp tc tr lag hw cm st
  | UpdateKafkaOffsets h c => MkTracker pr co re fa sk tp tc tr lag h c st
  end.

Record Progress := MkProgress {
  Uptime : Z; EventsProduced : Z; EventsConsumed : Z; EventsReplayed : Z; EventsFailed : Z; EventsSkipped : Z;
  CurrentLagMs : Z; KafkaLag : Z; ProduceRate : float64; ReplayRate : float64; LastProduceTime : Z; LastReplayTime : Z }.

Definition GetProgress (now : Z) (p : ProgressTracker) : Progress :=
  let uptime := time_Sub now (startTime p) in
  let rate n := if fltb (float_of_Z 0) (Seconds uptime) then fdiv (float_of_Z n) (Seconds uptime) else float_of_Z 0 in
  MkProgress uptime (eventsProduced p) (eventsConsumed p) (eventsReplayed p) (eventsFailed p) (eventsSkipped p)
    (currentLagMs p) (signed 64 (kafkaHighWatermark p - kafkaCommitted p)) (rate (eventsProduced p)) (rate (eventsReplayed p))
    (lastProduceTime p) (lastReplayTime p).

Definition IsStale (now threshold : Z) (p : ProgressTracker) : bool :=
  if lastProduceTime p =? zeroTime then threshold <? time_Sub now (startTime p)
  else threshold <? time_Sub now (lastProduceTime p).

Definition tracked (start : Z) (xs : list progress_call) : ProgressTracker := foldl (λ p x, track x p) (NewProgressTracker start) xs.

Definition produced (x : progress_call) : option Z := match x with OnProduce now => Some now | _ => None end.
Definition replayed_at (x : progress_call) : option Z := match x with OnReplay now _ => Some now | _ => None end.

Lemma bump_count n : 0 ≤ n < 2 ^ 63 - 1 → bump n = n + 1.
Proof. intros. unfold bump. rewrite <- (wrap_small 64 (n + 1)) at 1 by (unfold in_width; lia). apply signed_wrap; lia. Qed.

Lemma omap_length_le {A B} (f : A → option B) l : (length (omap f l) ≤ length l)%nat.
Proof. induction l as [|x l IH]; [done|]. cbn. destruct (f x); cbn; lia. Qed.

Lemma track_count {A} (get : ProgressTracker → Z) (f : progress_call → option A) :
  (∀ st, get (NewProgressTracker st) = 0) →
  (∀ x p, get (track x p) = match f x with Some _ => bump (get p) | None => get p end) →
  ∀ start xs, zlen xs < 2 ^ 63 → get (tracked start xs) = zlen (omap f xs).
Proof.
  intros H0 Hs start xs. induction xs as [|x xs IH] using rev_ind; intros Hn; [apply H0|].
  unfold tracked. rewrite foldl_app. cbn [foldl]. fold (tracked start xs). rewrite Hs, omap_app, zlen_app.
  rewrite zlen_app, zlen_cons, (@zlen_nil progress_call) in Hn. pose proof (omap_length_le f xs) as Hle.
  rewrite IH by lia. cbn. destruct (f x); unfold zlen in *; cbn [length]; [rewrite bump_count|]; lia.
Qed.

Lemma track_time (get : ProgressTracker → Z) (f : progress_call → option Z) :
  (∀ st, get (NewProgressTracker st) = zeroTime) →
  (∀ x p, get (track x p) = default (get p) (f x)) →
  ∀ start xs, get (tracked start xs) = default zeroTime (last (omap f xs)).
Proof.
  intros H0 Hs start xs. induction xs as [|x xs IH] using rev_ind; [apply H0|].
  unfold tracked. rewrite foldl_app. cbn [foldl]. fold (tracked start xs). rewrite Hs, omap_app, last_app, IH. cbn.
  by destruct (f x).
Qed.

(** The tracker reports its history: how many events were produced and replayed, when
    the last ones were, and staleness by the last production.  A pipeline that
    produces and whose replays stopped is not stale. *)
Theorem progress_history start now threshold xs :
  zlen xs < 2 ^ 63 →
  let p := tracked start xs in
  EventsProduced (GetProgress now p) = zlen (omap produced xs) ∧
  EventsReplayed (GetProgress now p) = zlen (omap replayed_at xs) ∧
  LastReplayTime (GetProgress now p) = default zeroTime (last (omap replayed_at xs)) ∧
  IsStale now threshold p =
    (threshold <? time_Sub now (let t := default zeroTime (last (omap produced xs)) in if t =? zeroTime then start else t)).
Proof.
  intros Hn p. split_and!.
  - apply (track_count eventsProduced produced); [done| |done]. by intros [] [].
  - apply (track_count eventsReplayed replayed_at); [done| |done]. by intros [] [].
  - apply (track_time lastReplayTime replayed_at); [done|]. by intros [] [].
  - unfold IsStale, p. rewrite (track_time lastProduceTime produced) by (done || by intros [] []).
    assert (startTime (tracked start xs) = start) as ->; [|by destruct (_ =? zeroTime)].
    induction xs as [|x xs IH] using rev_ind; [done|]. unfold tracked. rewrite foldl_app. cbn [foldl]. fold (tracked start xs).
    rewrite zlen_app in Hn. pose proof (zlen_nonneg [x]). rewrite <- IH at 2 by lia. by destruct x, (tracked start xs).
Qed.
