(* ===== verification/ErrorLog.v ===== *)
(** * The error log and the readiness probe

    src/pkg/metrics/errorexporter.go: the log of failed statements, which can be
    read back line by line; src/pkg/metrics/health.go: the probes. *)
From Stdlib Require Import String SpecFloat.
From S2P Require Import Prelude Core Classifier ConnKey GoTime Sources.

(** ** The records *)

(** [strings.TrimRight] of one byte. *)
Fixpoint trim_left_byte (b : Z) (s : list Z) : list Z :=
  match s with
  | c :: s' => if c =? b then trim_left_byte b s' else s
  | [] => []
  end.
Definition trim_right_byte (b : Z) (s : list Z) : list Z := reverse (trim_left_byte b (reverse s)).

Definition replace_byte (a b : Z) (s : list Z) : list Z := (λ c, if c =? a then b else c) <$> s.

(** [UTC().Format(time.RFC3339Nano)]: the fraction has no trailing zeros. *)
Definition fmt_rfc3339nano (t : Z) : list Z :=
  let ns := t mod (86400 * Second) in
  let s := ns / Second in
  let frac := trim_right_byte 48 (digits 9 (ns mod Second)) in
  fmt_date t 0 ++ 84 :: digits 2 (s / 3600) ++ 58 :: digits 2 (s / 60 mod 60) ++ 58 :: digits 2 (s mod 60) ++
  (if bool_decide (frac = []) then [] else 46 :: frac) ++ [90].

Definition error_header (ev : SQLEvent) (reason : list Z) : list Z :=
  bytes_of "-- " ++ fmt_rfc3339nano (Timestamp ev) ++ bytes_of " conn=" ++ Key (Conn ev) ++ bytes_of " error: " ++ reason.

Definition formatErrorRecord (ev : SQLEvent) (reason : list Z) : list Z :=
  let reason := replace_byte 13 32 (replace_byte 10 32 reason) in
  let sql := trim_right_byte 10 (SQL ev) in
  error_header ev reason ++ 10 :: sql ++ bytes_of ";" ++ [10].

(** ** The exporter

    [file] is the content of the open log. *)
Record errorExporter := MkExporter { enabled : bool; file : option (list Z) }.

(** [contents]: the log before, [None] when it cannot be opened. *)
Definition NewErrorExporter (ExportErrors : bool) (ErrorLog : list Z) (contents : option (list Z)) : option errorExporter :=
  if negb ExportErrors || bool_decide (ErrorLog = []) then Some (MkExporter false None)
  else content ← contents; Some (MkExporter true (Some content)).

(** [writes]: whether the write succeeds, and how much of it is written otherwise. *)
Definition ExportError (ev : option SQLEvent) (execErr : option (list Z)) (writes : option nat) (e : errorExporter) :
    errorExporter * bool :=
  if negb (enabled e) then (e, true)
  else match ev with
  | None => (e, true)
  | Some ev =>
      let record := formatErrorRecord ev (default (bytes_of "unknown") execErr) in
      match file e with
      | None => (e, true)
      | Some content =>
          match writes with
          | None => (MkExporter (enabled e) (Some (content ++ record)), true)
          | Some n => (MkExporter (enabled e) (Some (content ++ take n record)), false)
          end
      end
  end.

Definition exporter_Close (e : errorExporter) : errorExporter := if enabled e then MkExporter true None else e.

(** ** Reading a log back *)

(** The header and the statement of each pair of lines; the statement without its
    semicolon. *)
Fixpoint read_records (lines : list (list Z)) : list (list Z * list Z) :=
  match lines with
  | h :: s :: lines => (h, take (length s - 1) s) :: read_records lines
  | _ => []
  end.

Definition read_log (content : list Z) : list (list Z * list Z) := read_records (Split_lines [] content).

Definition one_line (s : list Z) : Prop := Forall (λ c, c ≠ 10) s.

Lemma one_line_app a b : one_line (a ++ b) ↔ one_line a ∧ one_line b.
Proof. unfold one_line. by rewrite Forall_app. Qed.

Lemma one_line_cons c s : one_line (c :: s) ↔ c ≠ 10 ∧ one_line s.
Proof. unfold one_line. by rewrite Forall_cons. Qed.

Lemma one_line_lower (n : Z) s : 10 < n → Forall (λ c, n ≤ c) s → one_line s.
Proof. intros Hn Hs. eapply Forall_impl; [exact Hs|]. cbn. lia. Qed.

Lemma digits_one_line n z : one_line (digits n z).
Proof.
  apply (one_line_lower 48); [lia|]. revert z. induction n as [|n IH]; intros z; [constructor|]. cbn.
  apply Forall_app. split; [apply IH|]. pose proof (Z.mod_pos_bound z 10). repeat constructor. lia.
Qed.

Lemma trim_left_suffix b s : trim_left_byte b s `suffix_of` s.
Proof. induction s as [|c s IH]; [done|]. cbn. case_match; [by apply suffix_cons_r|done]. Qed.

Lemma trim_right_prefix b s : trim_right_byte b s `prefix_of` s.
Proof.
  unfold trim_right_byte. destruct (trim_left_suffix b (reverse s)) as [k Hk].
  exists (reverse k). by rewrite <- reverse_app, <- Hk, reverse_involutive.
Qed.

Lemma one_line_prefix a b : a `prefix_of` b → one_line b → one_line a.
Proof. intros [k ->]. rewrite one_line_app. by intros []. Qed.

Lemma decimal_one_line z : one_line (decimal z).
Proof.
  assert (∀ z, 0 ≤ z → one_line (decimal z)) as Hpos.
  { intros n Hn. apply (one_line_lower 48); [lia|]. eapply Forall_impl; [exact (proj2 (decimal_value n Hn))|].
    unfold is_digit. lia. }
  destruct (Z.ltb_spec z 0) as [Hz|Hz]; [|by apply Hpos].
  pose proof (Hpos (- z) ltac:(lia)) as Hd. unfold decimal in *. rewrite (proj2 (Z.ltb_lt _ _)) by lia.
  rewrite (proj2 (Z.ltb_ge _ _)) in Hd by lia. by apply one_line_cons.
Qed.

Lemma hex16_one_line z : 0 ≤ z → one_line (hex16 z).
Proof.
  intros Hz. assert (∀ d, 0 ≤ d → hex_digit d ≠ 10) as Hd by (intros; unfold hex_digit; case_match; lia).
  unfold hex16. repeat case_match; repeat constructor; apply Hd;
    first [done|apply Z.div_pos; lia|apply Z.mod_pos_bound; lia].
Qed.

Lemma join_one_line gs : Forall (λ g, 0 ≤ g) gs → one_line (join_groups gs).
Proof.
  induction 1 as [|g gs Hg Hgs IH]; [constructor|]. destruct gs; cbn [join_groups]; [by apply hex16_one_line|].
  apply one_line_app. split; [by apply hex16_one_line|]. apply one_line_cons. by split.
Qed.

Definition addr_bytes (a : Addr) : Prop := match a with Addr16 b => bytes_ok b | _ => True end.

Lemma groups_nonneg b : bytes_ok b → Forall (λ g, 0 ≤ g) (groups b).
Proof.
  revert b. fix IH 1. intros [|x [|y b]] Hb; cbn [groups]; [constructor..|].
  inversion_clear Hb as [|?? Hx Hb']. inversion_clear Hb' as [|?? Hy Hb'']. constructor; [|by apply IH].
  unfold is_byte, in_width in *. lia.
Qed.

Lemma string4_one_line b : one_line (string4 b).
Proof.
  unfold string4. repeat case_match; try constructor.
  repeat (rewrite one_line_app || rewrite one_line_cons || split || apply decimal_one_line || done).
Qed.

Lemma addr_one_line a : addr_bytes a → one_line (addr_String a).
Proof.
  intros Ha. destruct a as [|b|b]; cbn [addr_String]; [by apply (bool_decide_unpack _)|apply string4_one_line|].
  case_bool_decide; [apply one_line_app; split; [by apply (bool_decide_unpack _)|apply string4_one_line]|].
  pose proof (groups_nonneg b Ha) as Hg. unfold string16. destruct (longest_zeros _) as [[s e]|]; [|by apply join_one_line].
  apply one_line_app. split; [by apply join_one_line, Forall_take|].
  rewrite !one_line_cons. split_and!; [done|done|by apply join_one_line, Forall_drop].
Qed.

Lemma Key_one_line c : addr_bytes (SrcIP c) → addr_bytes (DstIP c) → one_line (Key c).
Proof.
  intros Hs Hd. unfold Key. rewrite !one_line_app, one_line_cons, one_line_app, one_line_cons, one_line_app, one_line_cons.
  split_and!; try done; auto using addr_one_line, decimal_one_line.
Qed.

Lemma replace_one_line a b s : b ≠ 10 → one_line s ∨ a = 10 → one_line (replace_byte a b s).
Proof.
  intros Hb Hs. unfold one_line, replace_byte. apply Forall_fmap, Forall_forall. intros c Hc. cbn.
  destruct (Z.eqb_spec c a); [done|]. destruct Hs as [Hs| ->]; [|done]. by apply (proj1 (Forall_forall _ _) Hs).
Qed.

Lemma fmt_one_line t : one_line (fmt_rfc3339nano t).
Proof.
  assert (one_line (fmt_date t 0)) as Hd.
  { unfold fmt_date. destruct (civil _) as [[y m] d].
    repeat (rewrite one_line_app || rewrite one_line_cons || split || apply digits_one_line || done). }
  unfold fmt_rfc3339nano. cbv zeta. rewrite !one_line_app, one_line_cons, !one_line_app, one_line_cons, !one_line_app,
    one_line_cons, !one_line_app. split_and!; try done; try apply digits_one_line.
  - case_bool_decide; [constructor|]. apply one_line_cons. split; [done|].
    eapply one_line_prefix; [apply trim_right_prefix|apply digits_one_line].
  - apply one_line_cons. split; [done|constructor].
Qed.

Definition clean (reason : list Z) : list Z := replace_byte 13 32 (replace_byte 10 32 reason).

Lemma header_one_line ev reason :
  addr_bytes (SrcIP (Conn ev)) → addr_bytes (DstIP (Conn ev)) → one_line (error_header ev (clean reason)).
Proof.
  intros Hs Hd. unfold error_header. rewrite !one_line_app.
  split_and!; try (by apply (bool_decide_unpack _)); [apply fmt_one_line|by apply Key_one_line|].
  apply replace_one_line; [done|left]. apply replace_one_line; [done|by right].
Qed.

(** ** Exports *)
Definition export_all (xs : list (SQLEvent * option (list Z))) (e : errorExporter) : errorExporter :=
  foldl (λ e x, (ExportError (Some x.1) x.2 None e).1) e xs.

Definition reason_of (x : SQLEvent * option (list Z)) : list Z := default (bytes_of "unknown") x.2.

(** The lines of a record. *)
Definition record_lines (x : SQLEvent * option (list Z)) : list (list Z) :=
  [error_header x.1 (clean (reason_of x)); trim_right_byte 10 (SQL x.1) ++ bytes_of ";"].

Lemma record_of_lines x : formatErrorRecord x.1 (reason_of x) = concat ((λ l, l ++ [10]) <$> record_lines x).
Proof. unfold formatErrorRecord, record_lines. cbn [fmap list_fmap concat]. by rewrite <- !app_assoc, app_nil_r. Qed.

Lemma export_all_file xs content :
  export_all xs (MkExporter true (Some content)) =
    MkExporter true (Some (content ++ concat ((λ l, l ++ [10]) <$> (xs ≫= record_lines)))).
Proof.
  revert content. induction xs as [|x xs IH]; intros content; [cbn; by rewrite app_nil_r|].
  change (export_all (x :: xs) (MkExporter true (Some content)))
    with (export_all xs (MkExporter true (Some (content ++ formatErrorRecord x.1 (reason_of x))))).
  rewrite IH, record_of_lines, bind_cons, fmap_app, concat_app. by rewrite <- app_assoc.
Qed.

Lemma read_record_lines xs :
  read_records ((xs ≫= record_lines) ++ [[]]) =
    (λ x, (error_header x.1 (clean (reason_of x)), trim_right_byte 10 (SQL x.1))) <$> xs.
Proof.
  induction xs as [|x xs IH]; [done|]. rewrite bind_cons, fmap_cons, <- app_assoc.
  unfold record_lines at 1. cbn [app read_records]. f_equal; [|done]. f_equal.
  rewrite length_app. cbn [length bytes_of fmap list_fmap list_ascii_of_string]. rewrite Nat.add_sub. apply take_app_length.
Qed.

(** The error log reads back.  Every failed statement becomes two lines, a comment
    and the statement, whatever the error's text: from the content of a log the
    statements of one line are recovered in order, each with its comment. *)
Theorem error_log_roundtrip path xs :
  path ≠ [] →
  Forall (λ x, addr_bytes (SrcIP (Conn x.1)) ∧ addr_bytes (DstIP (Conn x.1)) ∧ one_line (trim_right_byte 10 (SQL x.1))) xs →
  ∃ e content, NewErrorExporter true path (Some []) = Some e ∧ file (export_all xs e) = Some content ∧
    read_log content = (λ x, (error_header x.1 (clean (reason_of x)), trim_right_byte 10 (SQL x.1))) <$> xs.
Proof.
  intros Hp Hx. unfold NewErrorExporter. rewrite bool_decide_false by done. eexists _, _. split; [done|].
  split; [by rewrite export_all_file|]. cbn [app]. unfold read_log. rewrite split_lines; [apply read_record_lines|].
  apply Forall_bind. eapply Forall_impl; [exact Hx|]. intros x (Hs & Hd & Hl).
  apply Forall_cons_2; [|apply Forall_cons_2; [|constructor]].
  - by apply header_one_line.
  - apply one_line_app. split; [done|]. by apply (bool_decide_unpack _).
Qed.

(** ** The probes *)
Record healthState := MkHealth { ready : bool; lastError : list Z }.

Definition SetReady (r : bool) (errMsg : list Z) (h : healthState) : healthState := MkHealth r errMsg.

(** Status and body. *)
Definition healthHandler (h : healthState) : Z * list Z := (200, bytes_of "OK").
Definition readyHandler (h : healthState) : Z * list Z :=
  if ready h then (200, bytes_of "OK")
  else (503, if bool_decide (lastError h = []) then bytes_of "Not ready" else lastError h).

(** The phases of [run], and what it has told the probes when each begins. *)
Inductive phase := Starting | Serving | Draining | Closing.

Definition health_in (ph : phase) : healthState :=
  match ph with
  | Starting => SetReady false (bytes_of "starting up") (MkHealth false [])
  | Serving | Draining => SetReady true [] (MkHealth false (bytes_of "starting up"))
  | Closing => SetReady false (bytes_of "shutting down") (MkHealth true [])
  end.

(** The drain is over before the service is marked as not ready. *)
Theorem ready_while_draining : (readyHandler (health_in Draining)).1 = 200 ∧ (readyHandler (health_in Closing)).1 = 503.
Proof. done. Qed.

Module ErrorLogDemo.
Definition ev (sql : string) : SQLEvent :=
  SqlEvent (MkConnID (Addr4 [10; 0; 0; 1]) 54321 (Addr4 [10; 0; 0; 2]) 5432) (bytes_of sql) 1704207845000000000 0 1 false [] [] [] 0 [].
Definition xs : list (SQLEvent * option (list Z)) :=
  [(ev "INSERT INTO t VALUES (1)", Some (bytes_of "duplicate key value" ++ 10 :: bytes_of "detail")); (ev "SELECT 1", None)].
End ErrorLogDemo.

Example error_record :
  formatErrorRecord (ErrorLogDemo.ev "SELECT 1") (bytes_of "boom") =
    bytes_of "-- 2024-01-02T15:04:05Z conn=10.0.0.1:54321-10.0.0.2:5432 error: boom" ++ 10 :: bytes_of "SELECT 1;" ++ [10].
Proof. vm_compute. reflexivity. Qed.

Lemma error_log_roundtrip_witness :
  ∃ e content, NewErrorExporter true [47] (Some []) = Some e ∧ file (export_all ErrorLogDemo.xs e) = Some content ∧
    (read_log content).*2 = [bytes_of "INSERT INTO t VALUES (1)"; bytes_of "SELECT 1"].
Proof.
  destruct (error_log_roundtrip [47] ErrorLogDemo.xs) as (e & content & H1 & H2 & H3); [done| |].
  - repeat (apply Forall_cons_2 || apply Forall_nil_2); (split_and!; [done|done|by apply (bool_decide_unpack _)]).
  - exists e, content. split_and!; [exact H1|exact H2|]. rewrite H3. vm_compute. reflexivity.
Defined.
