(* ===== verification/Control.v ===== *)
(** * The control server (src/internal/control/control.go, and how
      src/cmd/pgshadow/main.go wires it to the pipeline)

    Requests are served concurrently, each by its own goroutine.  A request changes
    the server's state under its lock, calls back outside it, and answers.  The
    server is verified against any callbacks ([Callbacks]); the pipeline is an
    instance. *)
From Stdlib Require Import String Ascii.
From S2P Require Import Prelude Classifier GoTime ConnKey CaptureConfig ErrorLog Lifecycle.

(** ** State and answers *)
Inductive State := StateActive | StatePaused.

#[export] Instance State_eq_dec : EqDecision State.
Proof. solve_decision. Defined.

Definition State_String (s : State) : list Z :=
  match s with StateActive => bytes_of "active" | StatePaused => bytes_of "paused" end.

(** What [http.Error] and [json.Encoder] write. *)
Record response := MkResponse { code : Z; contentType : list Z; body : list Z }.

Definition http_Error (msg : list Z) (code : Z) : response :=
  MkResponse code (bytes_of "text/plain; charset=utf-8") (msg ++ [10]).

(** [Transition] is omitted when empty. *)
Record statusResponse := MkStatus { rState : list Z; Since : Z; Transition : list Z }.

(** A JSON string of printable ASCII characters; the encoder also escapes the
    characters HTML gives a meaning. *)
Definition json_char (c : Z) : list Z :=
  if c =? 34 then [92; 34]
  else if c =? 92 then [92; 92]
  else if c =? 60 then 92 :: bytes_of "u003c"
  else if c =? 62 then 92 :: bytes_of "u003e"
  else if c =? 38 then 92 :: bytes_of "u0026"
  else [c].
Definition json_string (s : list Z) : list Z := 34 :: concat (json_char <$> s) ++ [34].

(** The instant in RFC 3339 with the offset of its location, in seconds. *)
Definition fmt_local (off t : Z) : list Z :=
  let utc := fmt_rfc3339nano (t + off * Second) in
  if off =? 0 then utc
  else
    let zone := Z.quot off 60 in
    take (length utc - 1) utc ++ (if zone <? 0 then 45 else 43) :: digits 2 (Z.abs zone / 60) ++ 58 :: digits 2 (Z.abs zone mod 60).

Definition json_field (name : string) (v : list Z) : list Z := json_string (bytes_of name) ++ 58 :: v.

Definition writeJSON (off : Z) (v : statusResponse) : response :=
  MkResponse 200 (bytes_of "application/json")
    (123 :: json_field "state" (json_string (rState v)) ++ 44 :: json_field "since" (34 :: fmt_local off (Since v) ++ [34]) ++
     (if bool_decide (Transition v = []) then [] else 44 :: json_field "transition" (json_string (Transition v))) ++
     [125; 10]).

(** ** The server *)

(** What the server calls on a change of state: [X] is what the outside decides
    during the call, the result an error, if any. *)
Class Callbacks (X P : Type) := {
  OnActivate : option (X → P → option (list Z) * P);
  OnPause : option (X → P → option (list Z) * P) }.

Record Server := MkServer { state : State; lastChange : Z }.

Definition New (now : Z) : Server := MkServer StateActive now.
Definition GetState (s : Server) : State := state s.
Definition IsActive (s : Server) : bool := bool_decide (state s = StateActive).

Definition DefaultPort : Z := 9091.

(** [Serve] stores the HTTP server, of which the address is kept, before it blocks in
    it; [Shutdown] reads it, and does nothing when it is not there yet. *)
Definition Serve (port : Z) : option (list Z) :=
  Some (58 :: decimal (if port <=? 0 then DefaultPort else port)).
Definition Shutdown (stored : option (list Z)) : option (list Z) := stored.

(** The handler the mux finds for a path. *)
Inductive endpoint := Activate | Pause | Status.

Definition route (path : list Z) : option endpoint :=
  if bool_decide (path = bytes_of "/control/activate") then Some Activate
  else if bool_decide (path = bytes_of "/control/pause") then Some Pause
  else if bool_decide (path = bytes_of "/control/status") then Some Status
  else None.

Definition MethodPost : list Z := bytes_of "POST".
Definition MethodGet : list Z := bytes_of "GET".
Definition not_allowed : response := http_Error (bytes_of "method not allowed") 405.

Section handlers.
Context {X P : Type} `{Callbacks X P} (off : Z).

(** The handlers, one at a time: [now] is the clock in the critical section, and
    [x] what the outside decides during the callback. *)
Definition handleActivate (method : list Z) (now : Z) (x : X) (s : Server) (p : P) : response * Server * P :=
  if negb (bool_decide (method = MethodPost)) then (not_allowed, s, p) else
  let prev := state s in
  let s := MkServer StateActive now in
  let ok := writeJSON off (MkStatus (State_String StateActive) (lastChange s) (State_String prev ++ bytes_of " -> active")) in
  match OnActivate with
  | Some f =>
      if bool_decide (prev = StateActive) then (ok, s, p) else
      match f x p with
      | (Some err, p) => (http_Error (bytes_of "activate failed: " ++ err) 500, s, p)
      | (None, p) => (ok, s, p)
      end
  | None => (ok, s, p)
  end.

Definition handlePause (method : list Z) (now : Z) (x : X) (s : Server) (p : P) : response * Server * P :=
  if negb (bool_decide (method = MethodPost)) then (not_allowed, s, p) else
  let prev := state s in
  let s := MkServer StatePaused now in
  let ok := writeJSON off (MkStatus (State_String StatePaused) (lastChange s) (State_String prev ++ bytes_of " -> paused")) in
  match OnPause with
  | Some f =>
      if bool_decide (prev = StatePaused) then (ok, s, p) else
      match f x p with
      | (Some err, p) => (http_Error (bytes_of "pause failed: " ++ err) 500, s, p)
      | (None, p) => (ok, s, p)
      end
  | None => (ok, s, p)
  end.

Definition handleStatus (method : list Z) (s : Server) : response :=
  if negb (bool_decide (method = MethodGet)) then not_allowed
  else writeJSON off (MkStatus (State_String (state s)) (lastChange s) []).

(** ** Concurrent requests

    A goroutine is where it stands between its accesses to what is shared: the
    server's state, the callback, and [lastChange], which the answer reads again
    without the lock. *)
Inductive phase :=
| Arrived (method : list Z) (ep : endpoint)
| Owing (new prev : State)
| Called (new prev : State)
| Answered (r : response).

Record system := MkSystem { srv : Server; penv : P; reqs : gmap nat phase }.

Definition target (ep : endpoint) : option State :=
  match ep with Activate => Some StateActive | Pause => Some StatePaused | Status => None end.
Definition allowed (ep : endpoint) : list Z := match ep with Status => MethodGet | _ => MethodPost end.
Definition callback_for (new : State) : option (X → P → option (list Z) * P) :=
  match new with StateActive => OnActivate | StatePaused => OnPause end.
Definition failed (new : State) (err : list Z) : response :=
  http_Error (match new with StateActive => bytes_of "activate failed: " | StatePaused => bytes_of "pause failed: " end ++ err) 500.
Definition changed (since : Z) (new prev : State) : response :=
  writeJSON off (MkStatus (State_String new) since
    (State_String prev ++ match new with StateActive => bytes_of " -> active" | StatePaused => bytes_of " -> paused" end)).

(** A change of state that calls back. *)
Definition owes (new prev : State) : bool :=
  negb (bool_decide (prev = new)) && match callback_for new with Some _ => true | None => false end.

Inductive clabel :=
| LArrive (i : nat) (method : list Z) (ep : endpoint)
| LReject (i : nat)
| LSwap (i : nat) (new prev : State) (now : Z)
| LCall (i : nat) (new : State) (err : option (list Z))
| LReply (i : nat)
| LStatus (i : nat) (st : State) (since : Z)
| LEnv.

Inductive cstep (other : P → P → Prop) : system → clabel → system → Prop :=
| c_arrive s i m ep : reqs s !! i = None →
    cstep other s (LArrive i m ep) (MkSystem (srv s) (penv s) (<[i := Arrived m ep]> (reqs s)))
| c_reject s i m ep : reqs s !! i = Some (Arrived m ep) → m ≠ allowed ep →
    cstep other s (LReject i) (MkSystem (srv s) (penv s) (<[i := Answered not_allowed]> (reqs s)))
| c_swap s i m ep new now : reqs s !! i = Some (Arrived m ep) → m = allowed ep → target ep = Some new →
    cstep other s (LSwap i new (state (srv s)) now)
      (MkSystem (MkServer new now) (penv s)
        (<[i := (if owes new (state (srv s)) then Owing else Called) new (state (srv s))]> (reqs s)))
| c_call s i new prev f x err p : reqs s !! i = Some (Owing new prev) → callback_for new = Some f → f x (penv s) = (err, p) →
    cstep other s (LCall i new err)
      (MkSystem (srv s) p (<[i := match err with Some e => Answered (failed new e) | None => Called new prev end]> (reqs s)))
| c_reply s i new prev : reqs s !! i = Some (Called new prev) →
    cstep other s (LReply i)
      (MkSystem (srv s) (penv s) (<[i := Answered (changed (lastChange (srv s)) new prev)]> (reqs s)))
| c_status s i : reqs s !! i = Some (Arrived MethodGet Status) →
    cstep other s (LStatus i (state (srv s)) (lastChange (srv s)))
      (MkSystem (srv s) (penv s) (<[i := Answered (handleStatus MethodGet (srv s))]> (reqs s)))
| c_other s p : other (penv s) p → cstep other s LEnv (MkSystem (srv s) p (reqs s)).

Inductive crun (other : P → P → Prop) (s0 : system) : list clabel → system → Prop :=
| crun_nil : crun other s0 [] s0
| crun_snoc tr s a s' : crun other s0 tr s → cstep other s a s' → crun other s0 (tr ++ [a]) s'.

Definition started (now : Z) (p : P) : system := MkSystem (New now) p ∅.
End handlers.
Arguments system : clear implicits.

(** ** What the handlers do, alone and together *)
Section facts.
Context {X P : Type} `{Callbacks X P} (off : Z) (other : P → P → Prop).
Implicit Types s : system P.

(** The changes of state in the order of the lock, the callbacks in the order they
    were made, and those still owed. *)
Definition changes (tr : list clabel) : list State :=
  omap (λ a, match a with LSwap _ new prev _ => if bool_decide (prev = new) then None else Some new | _ => None end) tr.
Definition calls (tr : list clabel) : list State := omap (λ a, match a with LCall _ new _ => Some new | _ => None end) tr.
Definition owed_phase (ph : phase) : option State := match ph with Owing new _ => Some new | _ => None end.
Definition owed s : list State := omap owed_phase (map_to_list (reqs s)).*2.

Fixpoint alternating (st : State) (l : list State) : Prop :=
  match l with
  | [] => True
  | new :: l => new ≠ st ∧ alternating new l
  end.

Lemma alternating_snoc st l new :
  alternating st l → new ≠ default st (last l) → alternating st (l ++ [new]).
Proof.
  revert st. induction l as [|a l IH]; intros st Ha Hn; [done|]. destruct Ha as [Ha1 Ha]. split; [done|].
  apply IH; [done|]. rewrite last_cons in Hn. by destruct (last l).
Qed.

Definition paused_count (st : State) : Z := if bool_decide (st = StatePaused) then 1 else 0.

Lemma alternating_count st l :
  alternating st l →
  zlen (filter (.= StatePaused) l) - zlen (filter (.= StateActive) l) = paused_count (default st (last l)) - paused_count st.
Proof.
  revert st. induction l as [|new l IH]; intros st Ha; [cbn; lia|]. destruct Ha as [Hn Ha]. specialize (IH new Ha).
  rewrite last_cons. replace (default st _) with (default new (last l)) by by destruct (last l).
  rewrite !filter_cons. destruct new, st; try done.
  - rewrite decide_False, decide_True, zlen_cons by done.
    change (paused_count StateActive) with 0 in *. change (paused_count StatePaused) with 1 in *. lia.
  - rewrite decide_True, decide_False, zlen_cons by done.
    change (paused_count StateActive) with 0 in *. change (paused_count StatePaused) with 1 in *. lia.
Qed.

Lemma owed_change srv p m i ph :
  owed (MkSystem srv p (<[i := ph]> m)) ≡ₚ
    option_list (owed_phase ph) ++ owed (MkSystem srv p (delete i m)).
Proof.
  unfold owed. cbn [reqs]. rewrite <- insert_delete_eq, map_to_list_insert by apply lookup_delete_eq.
  cbn. by destruct (owed_phase ph).
Qed.

Lemma owed_split srv p m i ph :
  m !! i = Some ph → owed (MkSystem srv p m) ≡ₚ option_list (owed_phase ph) ++ owed (MkSystem srv p (delete i m)).
Proof. intros Hi. unfold owed. cbn [reqs]. rewrite <- (map_to_list_delete m i ph Hi). cbn. by destruct (owed_phase ph). Qed.

Context (Hset : ∀ new, callback_for new ≠ None).

Lemma owes_change new prev : owes new prev = negb (bool_decide (prev = new)).
Proof. unfold owes. specialize (Hset new). destruct (callback_for new); [by rewrite andb_true_r|done]. Qed.

(** One step of the bookkeeping. *)
Lemma step_owed s a s' :
  cstep off other s a s' →
  calls [a] ++ owed s' ≡ₚ changes [a] ++ owed s ∧
  (changes [a] = [] ∧ state (srv s') = state (srv s) ∨
   ∃ new, changes [a] = [new] ∧ new ≠ state (srv s) ∧ state (srv s') = new).
Proof.
  destruct s as [sv p m]. inversion 1; subst; cbn [srv penv reqs] in *; cbn [changes calls omap list_omap app].
  - split; [|by left]. rewrite owed_change by done. cbn. by rewrite delete_id.
  - split; [|by left]. rewrite owed_change, (owed_split sv p m i) by done. done.
  - rewrite owes_change. rewrite owed_change, (owed_split sv p m i) by done. case_bool_decide as Hn; cbn.
    + split; [done|]. left. by split.
    + split; [done|]. right. eexists; split_and!; [done| |done]. congruence.
  - split; [|by left]. rewrite owed_change, (owed_split sv p m i) by done. cbn. by destruct err.
  - split; [|by left]. rewrite owed_change, (owed_split sv p m i) by done. done.
  - split; [|by left]. rewrite owed_change, (owed_split sv p m i) by done. done.
  - split; [done|by left].
Qed.

Lemma run_owed now p tr s :
  crun off other (started now p) tr s →
  calls tr ++ owed s ≡ₚ changes tr ∧ alternating StateActive (changes tr) ∧
  state (srv s) = default StateActive (last (changes tr)).
Proof.
  induction 1 as [|tr s a s' _ (Hp & Ha & Hl) Hs]; [done|]. apply step_owed in Hs as [Hs Hc].
  unfold calls, changes in *. rewrite !omap_app. split.
  - rewrite <- app_assoc, Hs, <- Hp, <- app_assoc. apply Permutation_app_head, Permutation_app_comm.
  - destruct Hc as [[-> ->]|(new & -> & Hn & ->)]; [by rewrite app_nil_r|]. rewrite last_snoc. split; [|done].
    apply alternating_snoc; [done|congruence].
Qed.
End facts.

(** C21 Every change of the server's state calls back exactly once, whatever requests
    overlap.  In the order of the lock the changes alternate, pauses first; the
    callbacks made and those the running requests still owe are exactly the
    changes; and when none is owed, there were as many pauses as activations, and
    one more if the server is paused. *)
Theorem control_calls_once {X P} `{Callbacks X P} off other now p tr s :
  (∀ new, callback_for (X := X) (P := P) new ≠ None) → crun off other (started now p) tr s →
  alternating StateActive (changes tr) ∧ calls tr ++ owed s ≡ₚ changes tr ∧
  state (srv s) = default StateActive (last (changes tr)) ∧
  (owed s = [] →
    zlen (filter (.= StatePaused) (calls tr)) = zlen (filter (.= StateActive) (calls tr)) + paused_count (state (srv s))).
Proof.
  intros Hset Hrun. destruct (run_owed off other Hset now p tr s Hrun) as (Hp & Ha & Hl).
  split_and!; [done|done|done|]. intros Ho. rewrite Ho, app_nil_r in Hp.
  pose proof (alternating_count StateActive (changes tr) Ha) as Hc. rewrite <- Hl in Hc.
  unfold zlen in *. rewrite !Hp. change (paused_count StateActive) with 0 in Hc. lia.
Qed.

(** ** The pipeline behind the server *)

(** How [run] wires the callbacks; the outside decides whether the capture opens. *)
#[export] Instance pipeline_callbacks : Callbacks (option (list Z)) pipelineState := {|
  OnActivate := Some (λ open p,
    let '(err, p', _) := resumeCapture (bool_decide (open = None)) p in
    (if err then Some (bytes_of "reopen capture: " ++ default [] open) else None, p'));
  OnPause := Some (λ _ p, (None, (pauseCapture p).1)) |}.

(** The failover detector restarts the capture at any time, paused or not. *)
Definition failover (p p' : pipelineState) : Prop := ∃ ip opens, p' = (restartCapture ip opens p).1.

(** The restarts that do not fall into a pause. *)
Definition calm_failover (p p' : pipelineState) : Prop := paused p = false ∧ failover p p'.

(** One change at a time, and its callback succeeds; the value is whether one is owed. *)
Definition serial_step (st : option bool) (a : clabel) : option bool :=
  match st, a with
  | Some owing, LSwap _ new prev _ =>
      if bool_decide (prev = new) then Some owing else if owing then None else Some true
  | Some owing, LCall _ _ err => if bool_decide (err = None) then Some false else None
  | _, _ => st
  end.
Definition serial (tr : list clabel) : option bool := foldl serial_step (Some false) tr.

Lemma op_keeps_ok p o :
  pipeline_ok p → match o with OpRestart _ _ => negb (paused p) | _ => true end = true → pipeline_ok (do_op p o).1.
Proof. intros Hok Hc. pose proof (do_op_ok p o Hok Hc) as H. destruct (do_op p o). by destruct H. Qed.

Lemma call_paused new f x p err p' :
  callback_for new = Some f → f x p = (err, p') → err = None → paused p' = bool_decide (new = StatePaused).
Proof.
  intros Hf Hc ->. destruct new; injection Hf as <-; cbn in Hc.
  - unfold resumeCapture in Hc. destruct (paused p) eqn:Ep; cbn in Hc; [|by simplify_eq].
    destruct (bool_decide (x = None)); cbn in Hc; by simplify_eq.
  - simplify_eq. unfold pauseCapture. by destruct (paused p) eqn:Ep.
Qed.

Lemma call_ok new f x p err p' :
  pipeline_ok p → callback_for new = Some f → f x p = (err, p') → pipeline_ok p'.
Proof.
  intros Hok Hf Hc. destruct new; injection Hf as <-; cbn in Hc.
  - pose proof (op_keeps_ok p (OpResume (bool_decide (x = None))) Hok eq_refl) as Hok'. cbn [do_op] in Hok'.
    by destruct (resumeCapture _ p) as [[[] q] acts]; injection Hc as <- <-.
  - injection Hc as <- <-. exact (op_keeps_ok p OpPause Hok eq_refl).
Qed.

Lemma failover_paused p p' : failover p p' → paused p' = paused p.
Proof. intros (ip & opens & ->). unfold restartCapture. destruct (_ || _); [done|]. by destruct opens. Qed.

Lemma calm_failover_ok p p' : pipeline_ok p → calm_failover p p' → pipeline_ok p'.
Proof. intros Hok [Hp (ip & opens & ->)]. apply (op_keeps_ok p (OpRestart ip opens) Hok). cbn. by rewrite Hp. Qed.

(** What the two sides of the server know of each other. *)
Definition agrees (s : system pipelineState) (owing : bool) : Prop :=
  if owing then owed s = [state (srv s)] ∧ paused (penv s) = negb (bool_decide (state (srv s) = StatePaused))
  else owed s = [] ∧ paused (penv s) = bool_decide (state (srv s) = StatePaused).

Lemma owed_owing (s : system pipelineState) i new prev : reqs s !! i = Some (Owing new prev) → new ∈ owed s.
Proof.
  intros Hi. unfold owed. apply list_elem_of_omap. exists (Owing new prev). split; [|done].
  apply list_elem_of_fmap. exists (i, Owing new prev). split; [done|]. by apply elem_of_map_to_list.
Qed.

Lemma agrees_same (s s' : system pipelineState) b :
  owed s' ≡ₚ owed s → state (srv s') = state (srv s) → paused (penv s') = paused (penv s) → agrees s b → agrees s' b.
Proof.
  intros Ho Hs Hp. unfold agrees. rewrite Hs, Hp. destruct b; intros [E ?]; rewrite E in Ho; (split; [|done]).
  - by apply Permutation_singleton_r.
  - by apply Permutation_nil_r.
Qed.

Lemma agrees_step off s a s' st owing :
  cstep off failover s a s' →
  (∀ b, st = Some b → agrees s b) → serial_step st a = Some owing → agrees s' owing.
Proof.
  intros Hs Ha Hser. destruct st as [b|]; [|done]. specialize (Ha b eq_refl).
  pose proof (step_owed off failover ltac:(by intros []) _ _ _ Hs) as [Hp _]. revert Hp Hser Ha.
  inversion Hs; subst; cbn [serial_step changes calls omap list_omap app]; intros Hp Hser Ha;
    try (injection Hser as <-; by eapply agrees_same).
  - destruct (bool_decide_reflect (state (srv s) = new)) as [Hn|Hn]; [injection Hser as <-; by eapply agrees_same|].
    destruct b; [done|]. injection Hser as <-. destruct Ha as [Ho Hpa]. rewrite Ho in Hp.
    apply Permutation_singleton_r in Hp. split; [done|]. cbn. rewrite Hpa. by destruct new, (state (srv s)).
  - case_bool_decide as He; [|done]. injection Hser as <-. subst err.
    assert (new ∈ owed s) as Hin by by eapply owed_owing.
    destruct b; destruct Ha as [Ho Hpa]; rewrite Ho in Hin, Hp; [|by apply not_elem_of_nil in Hin].
    apply list_elem_of_singleton in Hin as ->. apply (Permutation_cons_inv (l' := [])) in Hp.
    apply Permutation_nil_r in Hp. split; [done|]. cbn. by rewrite (call_paused _ _ _ _ _ _ H0 H1 eq_refl).
  - injection Hser as <-. eapply agrees_same; [done|done| |done]. by apply failover_paused.
Qed.

Lemma control_invariant off now p tr s :
  paused p = false → crun off failover (started now p) tr s → ∀ owing, serial tr = Some owing → agrees s owing.
Proof.
  intros Hp. induction 1 as [|tr s a s' _ IH Hs].
  { intros ? [= <-]. by split. }
  unfold serial. intros owing. rewrite foldl_snoc. by apply (agrees_step off s a s').
Qed.

Lemma calm_invariant off now p tr s :
  pipeline_ok p → crun off calm_failover (started now p) tr s → pipeline_ok (penv s).
Proof.
  intros Hok. induction 1 as [|tr s a s' _ IH Hs]; [done|].
  inversion Hs; subst; cbn [penv]; try done; [by eapply call_ok|by eapply calm_failover_ok].
Qed.


(** ** One request at a time *)
Section alone.
Context {X P : Type} `{Callbacks X P} (off : Z) (other : P → P → Prop).

(** The handler of an endpoint. *)
Definition handle (ep : endpoint) (method : list Z) (now : Z) (x : X) (sv : Server) (p : P) : response * Server * P :=
  match ep with
  | Activate => handleActivate off method now x sv p
  | Pause => handlePause off method now x sv p
  | Status => (handleStatus off method sv, sv, p)
  end.

Lemma crun_app s0 tr1 s1 tr2 s2 : crun off other s0 tr1 s1 → crun off other s1 tr2 s2 → crun off other s0 (tr1 ++ tr2) s2.
Proof. intros H1. induction 1; [by rewrite app_nil_r|]. rewrite app_assoc. by eapply crun_snoc. Qed.

Lemma crun_one s0 a s1 : cstep off other s0 a s1 → crun off other s0 [a] s1.
Proof. intros Hs. apply (crun_snoc off other s0 [] s0 a s1); [constructor|done]. Qed.

Lemma reply_runs sv (p : P) m i new prev :
  crun off other (MkSystem sv p (<[i := Called new prev]> m)) [LReply i]
    (MkSystem sv p (<[i := Answered (changed off (lastChange sv) new prev)]> m)).
Proof.
  apply crun_one. pose proof (c_reply off other (MkSystem sv p (<[i := Called new prev]> m)) i new prev (lookup_insert_eq _ _ _)) as Hr.
  cbn in Hr. by rewrite insert_insert_eq in Hr.
Qed.

Lemma callback_runs sv (p : P) m i new prev f x err p' :
  callback_for new = Some f → f x p = (err, p') →
  crun off other (MkSystem sv p (<[i := Owing new prev]> m)) [LCall i new err]
    (MkSystem sv p' (<[i := match err with Some e => Answered (failed new e) | None => Called new prev end]> m)).
Proof.
  intros Hf Hx. apply crun_one.
  pose proof (c_call off other (MkSystem sv p (<[i := Owing new prev]> m)) i new prev f x err p' (lookup_insert_eq _ _ _) Hf Hx) as Hr.
  cbn in Hr. by rewrite insert_insert_eq in Hr.
Qed.

(** The two handlers that change the state, written once. *)
Definition change (new : State) (now : Z) (x : X) (sv : Server) (p : P) : response * Server * P :=
  let prev := state sv in
  match (if owes (X := X) (P := P) new prev then callback_for new else None) with
  | Some f =>
      match f x p with
      | (Some err, p) => (failed new err, MkServer new now, p)
      | (None, p) => (changed off now new prev, MkServer new now, p)
      end
  | None => (changed off now new prev, MkServer new now, p)
  end.

Lemma handle_change ep new now x sv p : target ep = Some new → handle ep (allowed ep) now x sv p = change new now x sv p.
Proof.
  destruct ep; intros [= <-]; unfold handle, handleActivate, handlePause, change, owes; cbn [allowed callback_for];
    rewrite (bool_decide_true (MethodPost = MethodPost)) by done; cbn [negb].
  - destruct OnActivate as [f|]; rewrite ?andb_false_r, ?andb_true_r; [|done]. by destruct (bool_decide _).
  - destruct OnPause as [f|]; rewrite ?andb_false_r, ?andb_true_r; [|done]. by destruct (bool_decide _).
Qed.

(** A change of state that is allowed, served without interruption. *)
Lemma change_runs sv p m i ep new now x :
  m !! i = Some (Arrived (allowed ep) ep) → target ep = Some new →
  ∃ tr, crun off other (MkSystem sv p m) tr
    (let '(r, sv', p') := change new now x sv p in MkSystem sv' p' (<[i := Answered r]> m)).
Proof.
  intros Hi Ht. pose proof (c_swap off other (MkSystem sv p m) i (allowed ep) ep new now Hi eq_refl Ht) as H1.
  apply crun_one in H1. cbn in H1. unfold change. destruct (owes new (state sv)) eqn:Eo; cycle 1.
  { eexists. eapply crun_app; [exact H1|apply reply_runs]. }
  destruct (callback_for new) as [f|] eqn:Ef; [|unfold owes in Eo; by rewrite Ef, andb_false_r in Eo].
  destruct (f x p) as [err p'] eqn:Ex.
  pose proof (crun_app _ _ _ _ _ H1 (callback_runs (MkServer new now) p m i new (state sv) f x err p' Ef Ex)) as H2.
  destruct err as [e|]; eexists; [exact H2|]. eapply crun_app; [exact H2|apply reply_runs].
Qed.

(** Each handler, called when no other request is served, is a run of the steps. *)
Theorem handler_runs sv p i ep method now x :
  ∃ tr, crun off other (MkSystem sv p {[i := Arrived method ep]}) tr
    (let '(r, sv', p') := handle ep method now x sv p in MkSystem sv' p' {[i := Answered r]}).
Proof.
  destruct (decide (method = allowed ep)) as [->|Hm]; cycle 1.
  { exists [LReject i]. apply crun_one.
    pose proof (c_reject off other (MkSystem sv p {[i := Arrived method ep]}) i method ep (lookup_singleton_eq _ _) Hm) as Hr.
    cbn in Hr. rewrite insert_singleton_eq in Hr.
    destruct ep; cbn in Hm |- *; unfold handleActivate, handlePause, handleStatus; by rewrite bool_decide_false. }
  destruct (target ep) as [new|] eqn:Ht.
  - destruct (change_runs sv p {[i := Arrived (allowed ep) ep]} i ep new now x (lookup_singleton_eq _ _) Ht) as [tr Hr].
    exists tr. rewrite (handle_change ep new) by done.
    destruct (change _ _ _ _ _) as [[r sv'] p']. by rewrite insert_singleton_eq in Hr.
  - destruct ep; [done..|]. eexists. apply crun_one.
    pose proof (c_status off other (MkSystem sv p {[i := Arrived MethodGet Status]}) i (lookup_singleton_eq _ _)) as Hr.
    cbn in Hr. rewrite insert_singleton_eq in Hr. exact Hr.
Qed.
End alone.

(** ** Schedules *)
Section schedule.
Context {X P : Type} `{Callbacks X P} (off : Z) (other : P → P → Prop).

(** The next step of a request. *)
Definition advance (s : system P) (i : nat) (now : Z) (x : X) : option (clabel * system P) :=
  let to ph sv p := MkSystem sv p (<[i := ph]> (reqs s)) in
  let prev := state (srv s) in
  match reqs s !! i with
  | Some (Arrived m ep) =>
      if decide (m = allowed ep) then
        match ep with
        | Status => Some (LStatus i prev (lastChange (srv s)), to (Answered (handleStatus off MethodGet (srv s))) (srv s) (penv s))
        | Activate =>
            Some (LSwap i StateActive prev now,
              to ((if owes (X := X) (P := P) StateActive prev then Owing else Called) StateActive prev) (MkServer StateActive now) (penv s))
        | Pause =>
            Some (LSwap i StatePaused prev now,
              to ((if owes (X := X) (P := P) StatePaused prev then Owing else Called) StatePaused prev) (MkServer StatePaused now) (penv s))
        end
      else Some (LReject i, to (Answered not_allowed) (srv s) (penv s))
  | Some (Owing new prev) =>
      f ← callback_for new;
      let '(err, p) := f x (penv s) in
      Some (LCall i new err, to (match err with Some e => Answered (failed new e) | None => Called new prev end) (srv s) p)
  | Some (Called new prev) => Some (LReply i, to (Answered (changed off (lastChange (srv s)) new prev)) (srv s) (penv s))
  | _ => None
  end.

Lemma advance_sound s i now x a s' : advance s i now x = Some (a, s') → cstep off other s a s'.
Proof.
  unfold advance. destruct (reqs s !! i) as [[m ep|new prev|new prev|r]|] eqn:Ei; [| | |done..].
  - destruct (decide (m = allowed ep)) as [->|Hm]; [|intros [= <- <-]; by eapply c_reject].
    destruct ep; intros [= <- <-]; [by eapply c_swap..|by apply c_status].
  - destruct (callback_for new) as [f|] eqn:Ef; [|done]. cbn. destruct (f x (penv s)) as [err p] eqn:Ex.
    intros [= <- <-]. by eapply c_call.
  - intros [= <- <-]. by eapply c_reply.
Qed.

Inductive turn := New_request (i : nat) (method : list Z) (ep : endpoint) | Turn (i : nat) (now : Z) (x : X).

Fixpoint schedule (s : system P) (ts : list turn) : option (list clabel * system P) :=
  match ts with
  | [] => Some ([], s)
  | t :: ts =>
      '(a, s1) ← match t with
        | New_request i m ep =>
            if decide (reqs s !! i = None)
            then Some (LArrive i m ep, MkSystem (srv s) (penv s) (<[i := Arrived m ep]> (reqs s))) else None
        | Turn i now x => advance s i now x
        end;
      '(tr, s2) ← schedule s1 ts;
      Some (a :: tr, s2)
  end.

Lemma schedule_sound s ts tr s' : schedule s ts = Some (tr, s') → crun off other s tr s'.
Proof.
  revert s tr s'. induction ts as [|t ts IH]; intros s tr s' E; cbn in E; [injection E as <- <-; constructor|].
  assert (∃ a s1 tr', cstep off other s a s1 ∧ schedule s1 ts = Some (tr', s') ∧ tr = a :: tr') as (a & s1 & tr' & Ha & Es & ->).
  { destruct t as [i m ep|i now x].
    - destruct (decide _) as [Hi|]; [|done]. cbn in E. destruct (schedule _ ts) as [[tr1 s2]|] eqn:Es; [|done].
      injection E as <- <-. eexists _, _, _. split_and!; [by apply c_arrive|exact Es|done].
    - destruct (advance s i now x) as [[a s1]|] eqn:Ea; [|done]. cbn in E.
      destruct (schedule s1 ts) as [[tr1 s2]|] eqn:Es; [|done]. injection E as <- <-.
      eexists _, _, _. split_and!; [by eapply advance_sound|exact Es|done]. }
  apply (crun_app off other s [a] s1 tr' s'); [by apply crun_one|by apply IH].
Qed.

(** A request is never blocked: each of its steps can be taken at once, and no step
    of another request is needed for it. *)
Lemma request_progress s i ph now x :
  reqs s !! i = Some ph → (∀ r, ph ≠ Answered r) → (∀ new prev, ph = Owing new prev → callback_for (X := X) (P := P) new ≠ None) →
  is_Some (advance s i now x).
Proof.
  intros Hi Hn Ho. unfold advance. rewrite Hi. destruct ph as [m ep|new prev|new prev|r]; [| |done|by destruct (Hn r)].
  - destruct (decide _); [|done]. by destruct ep.
  - specialize (Ho _ _ eq_refl). destruct (callback_for new) as [f|]; [|done]. cbn. by destruct (f x (penv s)).
Qed.
End schedule.
Arguments turn : clear implicits.

(** ** Concrete requests *)
Module ControlDemo.
Definition p0 : pipelineState := LifecycleDemo.p0.
Definition s0 : system pipelineState := started 0 p0.
Definition run (ts : list (turn (option (list Z)))) : list clabel * system pipelineState := default ([], s0) (schedule 0 s0 ts).

(** A pause and an activation, one after the other, a wrong method, and a look at the status. *)
Definition in_turn : list (turn (option (list Z))) :=
  [New_request 1 MethodPost Pause; Turn 1 (3 * Second) None; New_request 3 MethodGet Pause; Turn 1 0 None; Turn 1 0 None; Turn 3 0 None;
   New_request 2 MethodPost Activate; Turn 2 (5 * Second) None; Turn 2 0 None; New_request 4 MethodGet Status; Turn 2 0 None; Turn 4 0 None].

(** The activation overtakes the callback of the pause. *)
Definition overlapping : list (turn (option (list Z))) :=
  [New_request 1 MethodPost Pause; New_request 2 MethodPost Activate; Turn 1 (3 * Second) None; Turn 2 (5 * Second) None;
   Turn 2 0 None; Turn 2 0 None; Turn 1 0 None; Turn 1 0 None].

Lemma runs other ts : schedule 0 s0 ts = Some (run ts) → crun 0 other s0 (run ts).1 (run ts).2.
Proof. intros E. apply (schedule_sound 0 other s0 ts). by rewrite E, <- surjective_pairing. Qed.

Definition answer (ts : list (turn (option (list Z)))) (i : nat) : option response :=
  match reqs (run ts).2 !! i with Some (Answered r) => Some r | _ => None end.
End ControlDemo.

Lemma control_calls_once_witness :
  calls (ControlDemo.run ControlDemo.overlapping).1 = [StateActive; StatePaused] ∧
  calls (ControlDemo.run ControlDemo.overlapping).1 ++ owed (ControlDemo.run ControlDemo.overlapping).2
    ≡ₚ changes (ControlDemo.run ControlDemo.overlapping).1.
Proof.
  split; [vm_compute; reflexivity|].
  apply (control_calls_once (X := option (list Z)) 0 failover 0 ControlDemo.p0 (ControlDemo.run ControlDemo.overlapping).1
    (ControlDemo.run ControlDemo.overlapping).2).
  - by intros [].
  - apply ControlDemo.runs. vm_compute. reflexivity.
Defined.


(** The bytes the clients receive. *)
Example control_answers :
  body <$> ControlDemo.answer ControlDemo.in_turn 1 =
    Some (123 :: [34] ++ bytes_of "state" ++ [34; 58; 34] ++ bytes_of "paused" ++ [34; 44; 34] ++ bytes_of "since" ++ [34; 58; 34] ++
      bytes_of "1970-01-01T00:00:03Z" ++ [34; 44; 34] ++ bytes_of "transition" ++ [34; 58; 34] ++ bytes_of "active -" ++ [92] ++
      bytes_of "u003e paused" ++ [34; 125; 10]) ∧
  code <$> ControlDemo.answer ControlDemo.in_turn 3 = Some 405 ∧
  ControlDemo.answer ControlDemo.in_turn 4 = Some (writeJSON 0 (MkStatus (bytes_of "active") (5 * Second) [])) ∧
  fmt_local (-12600) (3600 * Second) = bytes_of "1969-12-31T21:30:00-03:30".
Proof. vm_compute. by split_and!. Qed.

(** ** Failures and races *)

(** Repeated activations; each finds whether the capture opens. *)
Fixpoint activations (off : Z) (opens : list (Z * option (list Z))) (s : Server) (p : pipelineState) : list Z * Server * pipelineState :=
  match opens with
  | [] => ([], s, p)
  | (now, o) :: opens =>
      let '(r, s, p) := handleActivate off MethodPost now o s p in
      let '(rs, s, p) := activations off opens s p in
      (code r :: rs, s, p)
  end.

Lemma active_activations off opens since p :
  (activations off opens (MkServer StateActive since) p).1.1 = replicate (length opens) 200 ∧
  (activations off opens (MkServer StateActive since) p).2 = p.
Proof.
  revert since. induction opens as [|[now o] opens IH]; intros since; [done|]. cbn [activations length replicate].
  assert (handleActivate off MethodPost now o (MkServer StateActive since) p =
    (changed off now StateActive StateActive, MkServer StateActive now, p)) as -> by done.
  specialize (IH now). destruct (activations off opens _ p) as [[rs s'] p']. cbn in IH |- *. destruct IH as [-> ->]. done.
Qed.

(** The server records the new state before it acts: when the capture cannot be
    reopened, it answers an error once and counts as active, and every later
    activation answers success without doing anything. *)
Theorem activate_failure_sticks off now e opens since p :
  paused p = true →
  let '(codes, _, p') := activations off ((now, Some e) :: opens) (MkServer StatePaused since) p in
  codes = 500 :: replicate (length opens) 200 ∧ p' = p.
Proof.
  intros Hp. cbn [activations].
  assert (handleActivate off MethodPost now (Some e) (MkServer StatePaused since) p =
    (failed StateActive (bytes_of "reopen capture: " ++ e), MkServer StateActive now, p)) as ->.
  { unfold handleActivate, resumeCapture. cbn. unfold resumeCapture. by rewrite Hp. }
  destruct (active_activations off opens now p) as [Hc Hq]. destruct (activations _ _ _ _) as [[rs s'] p']. cbn in Hc, Hq.
  cbn. by rewrite Hc, Hq.
Qed.

(** A pause and an activation that overlap: the activation finds the pipeline not
    yet paused and does nothing, the pause stops it afterwards, and the server is
    active with the capture stopped.  The pause is answered with the time of the
    activation, which it reads after its critical section. *)
Theorem control_race :
  let '(tr, s) := ControlDemo.run ControlDemo.overlapping in
  crun 0 failover ControlDemo.s0 tr s ∧ owed s = [] ∧ GetState (srv s) = StateActive ∧ paused (penv s) = true ∧
  running (penv s) = ∅ ∧
  ControlDemo.answer ControlDemo.overlapping 1 = Some (changed 0 (5 * Second) StatePaused StateActive).
Proof.
  destruct (ControlDemo.run ControlDemo.overlapping) as [tr s] eqn:E.
  pose proof (ControlDemo.runs failover ControlDemo.overlapping ltac:(vm_compute; reflexivity)) as Hr. rewrite E in Hr.
  split; [exact Hr|]. unfold ControlDemo.answer. rewrite E. cbn [fst snd]. clear Hr. revert E. vm_compute.
  intros [= <- <-]. by split_and!.
Qed.
