(* ===== verification/Logger.v ===== *)
(** * The logger (src/internal/logger/logger.go)

    The package keeps one logrus logger and configures it on first use.  logrus is
    a parameter: what its documentation promises of a logger is [LogrusOk]. *)
From Stdlib Require Import String Ascii.
From S2P Require Import Prelude Classifier.

(** ** Levels *)
Inductive Level := LevelDebug | LevelInfo | LevelWarn | LevelError | LevelFatal | LevelUnknown.

#[export] Instance Level_eq_dec : EqDecision Level.
Proof. solve_decision. Defined.

Definition ParseLevel `{Unicode} (level : list Z) : Level :=
  let l := ToLower (TrimSpace level) in
  if bool_decide (l = bytes_of "debug") then LevelDebug
  else if bool_decide (l = bytes_of "info") then LevelInfo
  else if bool_decide (l = bytes_of "warn") || bool_decide (l = bytes_of "warning") then LevelWarn
  else if bool_decide (l = bytes_of "error") then LevelError
  else if bool_decide (l = bytes_of "fatal") then LevelFatal
  else LevelInfo.

(** logrus counts its levels from the most severe, panic, on. *)
Definition logrus_FatalLevel : Z := 1.
Definition logrus_ErrorLevel : Z := 2.
Definition logrus_WarnLevel : Z := 3.
Definition logrus_InfoLevel : Z := 4.
Definition logrus_DebugLevel : Z := 5.

Definition toLogrusLevel (l : Level) : Z :=
  match l with
  | LevelDebug => logrus_DebugLevel
  | LevelInfo => logrus_InfoLevel
  | LevelWarn => logrus_WarnLevel
  | LevelError => logrus_ErrorLevel
  | LevelFatal => logrus_FatalLevel
  | LevelUnknown => logrus_InfoLevel
  end.

(** ** logrus *)
Inductive formatter := JSONFormatter | TextFormatter.

Class Logrus (L : Type) := {
  logrus_New : L;
  logrus_SetLevel : Z → L → L;
  logrus_GetLevel : L → Z;
  logrus_SetFormatter : formatter → L → L;
  logrus_SetStderr : L → L;
  (** an entry has a level, fields and a message *)
  logrus_Log : Z → list (list Z * list Z) → list Z → L → L;
  (** the entries written so far *)
  logrus_entries : L → list (Z * list (list Z * list Z) * list Z) }.

Class LogrusOk (L : Type) `{Logrus L} := {
  new_level : logrus_GetLevel logrus_New = logrus_InfoLevel;
  new_entries : logrus_entries logrus_New = [];
  level_set l x : logrus_GetLevel (logrus_SetLevel l x) = l;
  level_format f x : logrus_GetLevel (logrus_SetFormatter f x) = logrus_GetLevel x;
  level_stderr x : logrus_GetLevel (logrus_SetStderr x) = logrus_GetLevel x;
  level_log l fs m x : logrus_GetLevel (logrus_Log l fs m x) = logrus_GetLevel x;
  entries_set l x : logrus_entries (logrus_SetLevel l x) = logrus_entries x;
  entries_format f x : logrus_entries (logrus_SetFormatter f x) = logrus_entries x;
  entries_stderr x : logrus_entries (logrus_SetStderr x) = logrus_entries x;
  entries_log l fs m x :
    logrus_entries (logrus_Log l fs m x) = logrus_entries x ++ if l <=? logrus_GetLevel x then [(l, fs, m)] else [] }.

(** ** The package *)
Record logger (L : Type) := MkLogger { log : L; initialized : bool }.
Arguments MkLogger {L}.
Arguments log {L}.
Arguments initialized {L}.

Section package.
Context {L : Type} `{LogrusOk L} `{Unicode}.
Implicit Types g : logger L.

Definition package : logger L := MkLogger logrus_New false.

Definition Init (level : Level) (jsonFormat : bool) g : logger L :=
  let x := logrus_SetLevel (toLogrusLevel level) (log g) in
  let x := logrus_SetFormatter (if jsonFormat then JSONFormatter else TextFormatter) x in
  MkLogger (logrus_SetStderr x) true.

(** The two environment variables; an unset one is empty. *)
Definition InitFromEnv (levelStr formatStr : list Z) g : logger L :=
  Init (ParseLevel (if bool_decide (levelStr = []) then bytes_of "info" else levelStr))
    (bool_decide (ToLower formatStr = bytes_of "json")) g.

Definition EnsureInitialized g : logger L := if initialized g then g else Init LevelInfo false g.

(** [Debug], [Info], [Warn], [Error] and their formatting versions, through
    [WithFields] or not. *)
Definition log_at (l : Level) (fields : list (list Z * list Z)) (msg : list Z) g : logger L :=
  let g := EnsureInitialized g in
  MkLogger (logrus_Log (toLogrusLevel l) fields msg (log g)) (initialized g).

Definition LogStartup (component mode dialect : list Z) g : logger L :=
  log_at LevelInfo [] (bytes_of "pgshadow: startup complete (capture=" ++ component ++ bytes_of " queue=" ++ mode ++
    bytes_of " dialect=" ++ dialect ++ bytes_of ")") g.
Definition LogShutdown (reason : list Z) g : logger L :=
  log_at LevelInfo [] (bytes_of "pgshadow: shutdown initiated: " ++ reason) g.
Definition LogError (err context : list Z) g : logger L := log_at LevelError [(bytes_of "error", err)] context g.

(** What [recover] returned; this one does not initialize. *)
Definition LogPanic (r : option (list Z)) g : logger L :=
  match r with
  | Some v =>
      MkLogger (logrus_Log logrus_ErrorLevel [(bytes_of "panic", v)] (bytes_of "recovered from panic") (log g)) (initialized g)
  | None => g
  end.

Definition SetLevel (level : Level) g : logger L :=
  let g := EnsureInitialized g in
  MkLogger (logrus_SetLevel (toLogrusLevel level) (log g)) (initialized g).

Definition GetLevel g : Level * logger L :=
  let g := EnsureInitialized g in
  let l := logrus_GetLevel (log g) in
  (if l =? logrus_DebugLevel then LevelDebug
   else if l =? logrus_InfoLevel then LevelInfo
   else if l =? logrus_WarnLevel then LevelWarn
   else if l =? logrus_ErrorLevel then LevelError
   else if l =? logrus_FatalLevel then LevelFatal
   else LevelInfo, g).

(** ** The calls of a process *)
Inductive log_call :=
| CallInit (level : Level) (jsonFormat : bool)
| CallInitFromEnv (levelStr formatStr : list Z)
| CallLog (l : Level) (fields : list (list Z * list Z)) (msg : list Z)
| CallPanic (r : option (list Z))
| CallFatal (msg : list Z)
| CallSetLevel (level : Level)
| CallGetLevel.

(** [Fatal] logs and exits: nothing after it is executed. *)
Fixpoint log_calls (cs : list log_call) g : logger L :=
  match cs with
  | [] => g
  | CallInit l j :: cs => log_calls cs (Init l j g)
  | CallInitFromEnv l f :: cs => log_calls cs (InitFromEnv l f g)
  | CallLog l fs msg :: cs => log_calls cs (log_at l fs msg g)
  | CallPanic r :: cs => log_calls cs (LogPanic r g)
  | CallFatal msg :: _ => log_at LevelFatal [] msg g
  | CallSetLevel l :: cs => log_calls cs (SetLevel l g)
  | CallGetLevel :: cs => log_calls cs (GetLevel g).2
  end.

(** What is to be written: the messages that are at least as severe as the level set
    last, which is info until one is set. *)
Fixpoint expected (level : Level) (cs : list log_call) : list (Z * list (list Z * list Z) * list Z) :=
  match cs with
  | [] => []
  | CallInit l _ :: cs => expected l cs
  | CallInitFromEnv l _ :: cs => expected (if bool_decide (l = []) then LevelInfo else ParseLevel l) cs
  | CallLog l fs msg :: cs =>
      (if toLogrusLevel l <=? toLogrusLevel level then [(toLogrusLevel l, fs, msg)] else []) ++ expected level cs
  | CallPanic r :: cs =>
      match r with
      | Some v =>
          if logrus_ErrorLevel <=? toLogrusLevel level
          then [(logrus_ErrorLevel, [(bytes_of "panic", v)], bytes_of "recovered from panic")] else []
      | None => []
      end ++ expected level cs
  | CallFatal msg :: _ => [(toLogrusLevel LevelFatal, [], msg)]
  | CallSetLevel l :: cs => expected l cs
  | CallGetLevel :: cs => expected level cs
  end.

(** The level in force. *)
Definition in_force g (level : Level) : Prop :=
  logrus_GetLevel (log g) = toLogrusLevel level ∧ (initialized g = false → level = LevelInfo).

Lemma init_level l j g : logrus_GetLevel (log (Init l j g)) = toLogrusLevel l.
Proof. cbn. by rewrite level_stderr, level_format, level_set. Qed.

Lemma init_entries l j g : logrus_entries (log (Init l j g)) = logrus_entries (log g).
Proof. cbn. by rewrite entries_stderr, entries_format, entries_set. Qed.

Lemma ensure_ok g level :
  in_force g level → logrus_GetLevel (log (EnsureInitialized g)) = toLogrusLevel level ∧
    logrus_entries (log (EnsureInitialized g)) = logrus_entries (log g) ∧ initialized (EnsureInitialized g) = true.
Proof.
  unfold in_force, EnsureInitialized. destruct (initialized g) eqn:E; [by intros [? _]|]. intros [_ ->]; [|done].
  split_and!; [apply init_level|apply init_entries|done].
Qed.

Lemma fatal_logged level : (toLogrusLevel LevelFatal <=? toLogrusLevel level) = true.
Proof. by destruct level. Qed.

Lemma calls_write cs g level :
  in_force g level → logrus_entries (log (log_calls cs g)) = logrus_entries (log g) ++ expected level cs.
Proof.
  revert g level. induction cs as [|c cs IH]; intros g level Hg; [by rewrite app_nil_r|].
  pose proof (ensure_ok g level Hg) as (Hl & He & Hi). destruct c as [l j|l f|l fs msg|r|msg|l|]; cbn [log_calls expected].
  - rewrite (IH _ l); [by rewrite init_entries|by split; [apply init_level|]].
  - unfold InitFromEnv. set (lv := ParseLevel _).
    assert ((if bool_decide (l = []) then LevelInfo else ParseLevel l) = lv) as -> by (subst lv; by case_bool_decide).
    rewrite (IH _ lv); [by rewrite init_entries|by split; [apply init_level|]].
  - rewrite (IH _ level); [|split; cbn; [by rewrite level_log|by rewrite Hi]]. cbn.
    by rewrite entries_log, Hl, He, app_assoc.
  - destruct r as [v|]; [|by apply IH]. destruct Hg as [Hg1 Hg2].
    rewrite (IH _ level); [|split; cbn; [by rewrite level_log|done]]. cbn. by rewrite entries_log, Hg1, app_assoc.
  - cbn. by rewrite entries_log, Hl, He, fatal_logged.
  - rewrite (IH _ l); [|split; cbn; [by rewrite level_set|by rewrite Hi]]. cbn. by rewrite entries_set, He.
  - rewrite (IH _ level); [|split; cbn; [done|by rewrite Hi]]. cbn. by rewrite He.
Qed.

(** A process writes exactly the messages it is expected to write, in order, whether
    or not it configured the logger before its first message. *)
Theorem logger_writes cs : logrus_entries (log (log_calls cs package)) = expected LevelInfo cs.
Proof.
  rewrite (calls_write cs package LevelInfo); [cbn; by rewrite new_entries|]. split; [apply new_level|done].
Qed.

(** [GetLevel] gives back the level that was set, or parsed from its name. *)
Theorem level_roundtrip l g : l ≠ LevelUnknown → (GetLevel (SetLevel l g)).1 = l.
Proof.
  intros Hl. unfold GetLevel, SetLevel, EnsureInitialized. destruct (initialized g) eqn:E; cbn; rewrite ?E; cbn;
    rewrite level_set; by destruct l.
Qed.
End package.

(** ** A logger that keeps its promises *)
Module SimLogrus.
Record state := State { sim_level : Z; sim_entries : list (Z * list (list Z * list Z) * list Z) }.

#[global] Instance sim_ops : Logrus state := {|
  logrus_New := State 4 [];
  logrus_SetLevel l x := State l (sim_entries x);
  logrus_GetLevel := sim_level;
  logrus_SetFormatter _ x := x;
  logrus_SetStderr x := x;
  logrus_Log l fs m x := State (sim_level x) (sim_entries x ++ if l <=? sim_level x then [(l, fs, m)] else []);
  logrus_entries := sim_entries |}.

#[global] Instance sim_ok : LogrusOk state.
Proof. by split. Qed.
End SimLogrus.

Example levels_parsed `{Unicode} :
  ParseLevel (bytes_of " Warning ") = LevelWarn ∧ ParseLevel (bytes_of "DEBUG") = LevelDebug ∧
  ParseLevel (bytes_of "verbose") = LevelInfo ∧ ParseLevel [] = LevelInfo.
Proof. by split_and!. Qed.

Example silent_at_fatal `{Unicode} (m : list Z) :
  logrus_entries (log (log_calls
    [CallLog LevelDebug [] m; CallLog LevelInfo [] m; CallInitFromEnv (bytes_of "fatal") []; CallLog LevelError [] m; CallFatal m;
     CallLog LevelFatal [] m] (package (L := SimLogrus.state)))) = [(4, [], m); (1, [], m)].
Proof. done. Qed.
