(* ===== verification/Router.v ===== *)
(** * The pool router (src/internal/router/router.go)

    One connection pool per database, made on first use by any number of
    goroutines: a look-up under the read lock, then a second one under the write
    lock before a pool is made.  Each locked section is a step.  Making a pool is
    a call into the pgx library, which may fail; a pool is its number. *)
From Stdlib Require Import String.
From S2P Require Import Prelude Core ConnKey GoTime Classifier ReplayConfig.

Definition defaultMaxDatabases : Z := 64.

Record PoolConfig := MkPoolConfig {
  Host : list Z; Port : Z; User : list Z; PasswordEnv : list Z; MaxConns : Z; MinConns : Z; SSLMode : list Z }.

Record PoolRouter := MkRouter {
  pools : gmap (list Z) nat; template : PoolConfig; rt_closed : bool; maxDatabases : Z;
  made : list (list Z * list Z); (* the database and connection string of every pool made *)
  shut : list nat (* the pools closed *) }.

Definition NewPoolRouter (cfg : PoolConfig) : PoolRouter := MkRouter ∅ cfg false defaultMaxDatabases [] [].

Definition needs_quote (c : Z) : bool := (c =? 32) || (c =? 39) || (c =? 92) || (c =? 61).

Definition dsnQuoteRouter (s : list Z) : list Z :=
  if negb (existsb needs_quote s) && negb (bool_decide (s = [])) then s else 39 :: dsn_escape s ++ [39].

Section router.
Context (Getenv : list Z → list Z).

Definition conn_string (t : PoolConfig) (database : list Z) : list Z :=
  bytes_of "host=" ++ dsnQuoteRouter (Host t) ++ bytes_of " port=" ++ decimal (Port t) ++
  bytes_of " user=" ++ dsnQuoteRouter (User t) ++ bytes_of " dbname=" ++ dsnQuoteRouter database ++
  bytes_of " pool_max_conns=" ++ decimal (MaxConns t) ++ bytes_of " pool_min_conns=" ++ decimal (MinConns t) ++
  (if bool_decide (PasswordEnv t = []) || bool_decide (Getenv (PasswordEnv t) = []) then []
   else bytes_of " password=" ++ dsnQuoteRouter (Getenv (PasswordEnv t))) ++
  (if bool_decide (SSLMode t = []) then [] else bytes_of " sslmode=" ++ dsnQuoteRouter (SSLMode t)).

Inductive router_error := RouterClosed | MaxDatabases | CreateFailed.

(** The section under the read lock. *)
Definition GetPool_fast (database : list Z) (r : PoolRouter) : option nat := pools r !! database.

Definition limit (r : PoolRouter) : Z := if maxDatabases r <=? 0 then defaultMaxDatabases else maxDatabases r.

(** The section under the write lock; [created] is whether pgx makes the pool. *)
Definition GetPool_slow (created : bool) (database : list Z) (r : PoolRouter) : PoolRouter * result router_error nat :=
  if rt_closed r then (r, Err RouterClosed) else
  match pools r !! database with
  | Some p => (r, Ok p)
  | None =>
      if limit r <=? Z.of_nat (size (pools r)) then (r, Err MaxDatabases) else
      if negb created then (r, Err CreateFailed) else
      let p := length (made r) in
      (MkRouter (<[database := p]> (pools r)) (template r) (rt_closed r) (maxDatabases r)
         (made r ++ [(database, conn_string (template r) database)]) (shut r), Ok p)
  end.

Definition router_Close (r : PoolRouter) : PoolRouter :=
  MkRouter (pools r) (template r) true (maxDatabases r) (made r) (shut r ++ (map_to_list (pools r)).*2).

Definition Databases (r : PoolRouter) : gset (list Z) := dom (pools r).

(** ** Concurrent calls

    A goroutine that found nothing under the read lock waits for the write lock. *)
Record system := MkSystem { router : PoolRouter; waiting : gmap nat (list Z) }.

Inductive event := Got (t : nat) (database : list Z) (p : nat) | Refused (t : nat) (e : router_error) | Waits (t : nat) | Shut.

Inductive rt_step : system → event → system → Prop :=
  | Step_hit s t db p :
      waiting s !! t = None → GetPool_fast db (router s) = Some p → rt_step s (Got t db p) s
  | Step_miss s t db :
      waiting s !! t = None → GetPool_fast db (router s) = None →
      rt_step s (Waits t) (MkSystem (router s) (<[t := db]> (waiting s)))
  | Step_got s t db created r p :
      waiting s !! t = Some db → GetPool_slow created db (router s) = (r, Ok p) →
      rt_step s (Got t db p) (MkSystem r (delete t (waiting s)))
  | Step_refused s t db created r e :
      waiting s !! t = Some db → GetPool_slow created db (router s) = (r, Err e) →
      rt_step s (Refused t e) (MkSystem r (delete t (waiting s)))
  | Step_close s : rt_step s Shut (MkSystem (router_Close (router s)) (waiting s)).

Inductive rt_run (cfg : PoolConfig) : list event → system → Prop :=
  | Run_new : rt_run cfg [] (MkSystem (NewPoolRouter cfg) ∅)
  | Run_step tr s e s' : rt_run cfg tr s → rt_step s e s' → rt_run cfg (tr ++ [e]) s'.

(** ** One pool per database *)
Definition router_ok (cfg : PoolConfig) (r : PoolRouter) : Prop :=
  template r = cfg ∧ maxDatabases r = defaultMaxDatabases ∧ length (made r) = size (pools r) ∧
  Z.of_nat (size (pools r)) ≤ defaultMaxDatabases ∧
  (∀ db p, pools r !! db = Some p ↔ made r !! p = Some (db, conn_string cfg db)) ∧
  (∀ p x, made r !! p = Some x → x.2 = conn_string cfg x.1).

Lemma router_ok_new cfg : router_ok cfg (NewPoolRouter cfg).
Proof.
  unfold router_ok, NewPoolRouter. cbn [template maxDatabases made pools]. rewrite map_size_empty.
  split_and!; done.
Qed.

Lemma slow_ok cfg created db r : router_ok cfg r → router_ok cfg (GetPool_slow created db r).1.
Proof.
  intros Hok. unfold GetPool_slow. destruct (rt_closed r); [done|]. destruct (pools r !! db) as [p|] eqn:Ep; [done|].
  destruct (Z.leb_spec (limit r) (Z.of_nat (size (pools r)))) as [|Hlt]; [done|]. destruct created; [|done]. cbn [negb fst].
  destruct Hok as (Ht & Hm & Hl & Hs & Hp & Hx). unfold limit in Hlt. rewrite Hm in Hlt.
  change (Z.of_nat (size (pools r)) < 64) in Hlt.
  unfold router_ok. cbn [template maxDatabases made pools]. rewrite map_size_insert_None by done.
  rewrite length_app. cbn [length]. split_and!; try done; [lia|unfold defaultMaxDatabases; lia| |].
  - intros db' p. rewrite lookup_snoc_Some. destruct (decide (db' = db)) as [->|Hne].
    + rewrite lookup_insert_eq, Ht. split; [intros [= <-]; by right|]. intros [[_ Hd]|[-> _]]; [|done].
      apply Hp in Hd. congruence.
    + rewrite lookup_insert_ne by done. rewrite Hp. split; [|intros [[_ ?]|[_ [=]]]; [done|congruence]].
      intros Hd. left. split; [by apply lookup_lt_Some in Hd|done].
  - intros p x. rewrite lookup_snoc_Some. intros [[_ Hd]|[_ <-]]; [by apply (Hx p)|cbn; by rewrite Ht].
Qed.

Lemma slow_grows created db r :
  made r `prefix_of` made (GetPool_slow created db r).1 ∧
  ∀ p, (GetPool_slow created db r).2 = Ok p → pools (GetPool_slow created db r).1 !! db = Some p.
Proof.
  unfold GetPool_slow. repeat case_match; cbn; (split; [done || by eexists|]); intros q Hq; simplify_eq; [done|].
  by rewrite lookup_insert_eq.
Qed.

Lemma router_run_ok cfg tr s :
  rt_run cfg tr s →
  router_ok cfg (router s) ∧ ∀ t db p, Got t db p ∈ tr → made (router s) !! p = Some (db, conn_string cfg db).
Proof.
  induction 1 as [|tr s e s' _ [Hok IH] Hs]; [split; [apply router_ok_new|]; by intros t db p ?%elem_of_nil|].
  assert (router_ok cfg (router s') ∧ made (router s) `prefix_of` made (router s') ∧
    ∀ t db p, e = Got t db p → pools (router s') !! db = Some p) as (Hok' & Hpre & He).
  { destruct Hs as [s t db p Hw Hf|s t db Hw Hf|s t db cr r p Hw Hsl|s t db cr r er Hw Hsl|s]; cbn [router].
    - split_and!; [done|done|]. by intros ??? [= <- <- <-].
    - done.
    - pose proof (slow_ok cfg cr db _ Hok) as H1. destruct (slow_grows cr db (router s)) as [H2 H3].
      rewrite Hsl in H1, H2, H3. split_and!; [done|done|]. intros ??? [= <- <- <-]. by apply H3.
    - pose proof (slow_ok cfg cr db _ Hok) as H1. destruct (slow_grows cr db (router s)) as [H2 _].
      rewrite Hsl in H1, H2. done.
    - split_and!; [|done|done]. exact Hok. }
  split; [done|]. intros t db p [Hin|Hin]%elem_of_app.
  - destruct Hpre as [k ->]. apply lookup_app_l_Some. by apply (IH t).
  - apply list_elem_of_singleton in Hin as <-. destruct Hok' as (_ & _ & _ & _ & Hp & _). by apply Hp, (He t).
Qed.

(** However the calls of any number of goroutines interleave, every database has one
    pool: all calls for it get the same pool, made once with its own name in the
    connection string, calls for different databases get different pools, and
    there are never more than 64 of them. *)
Theorem router_one_pool cfg tr s t1 t2 db1 db2 p1 p2 :
  rt_run cfg tr s → Got t1 db1 p1 ∈ tr → Got t2 db2 p2 ∈ tr →
  (p1 = p2 ↔ db1 = db2) ∧ made (router s) !! p1 = Some (db1, conn_string cfg db1) ∧ (length (made (router s)) ≤ 64)%nat.
Proof.
  intros Hr H1 H2. destruct (router_run_ok cfg tr s Hr) as [(_ & _ & Hl & Hs & Hp & _) Hg].
  pose proof (Hg _ _ _ H1) as E1. pose proof (Hg _ _ _ H2) as E2. split_and!; [|done|unfold defaultMaxDatabases in Hs; lia].
  split; [intros ->; congruence|]. intros ->. apply Hp in E1, E2. congruence.
Qed.

(** A router that was closed still hands out the pools it closed. *)
Theorem closed_router_serves cfg db r r1 r2 p :
  GetPool_slow true db (NewPoolRouter cfg) = (r1, r) → r2 = router_Close r1 → r = Ok p →
  rt_closed r2 = true ∧ GetPool_fast db r2 = Some p ∧ p ∈ shut r2.
Proof.
  intros Hs -> ->. destruct (slow_grows true db (NewPoolRouter cfg)) as [_ Hg]. rewrite Hs in Hg. specialize (Hg p eq_refl).
  cbn in Hg. split_and!; [done|done|]. cbn [router_Close shut]. apply elem_of_app. right.
  apply list_elem_of_fmap. exists (db, p). split; [done|]. by apply elem_of_map_to_list.
Qed.
End router.
