(* ===== verification/Pipeline.v ===== *)
(** * The pipeline: from the assembler's callbacks to the target

    The composition the command wires up (src/cmd/pgshadow/pipeline.go,
    startPipeline): the reassembler calls the stream processor, the processor
    enqueues, the replayer dequeues and executes.  What is executed for a captured
    connection is what its conversation ([Conversation]) submits. *)
From S2P Require Import Prelude Core Framing Messages Classifier ClassifierFacts Filter ConnState Processor ProcessorFacts Session Scenarios Conversation QueueSpec GoTime ConnKey ReplayConfig ReplayGuard CaptureConfig Reassembler Replayer ReplayerFacts ReplayerDemo.

(** ** The reassembler's calls for one connection *)
Definition call_conn (h : handler_call) : ConnID := match h with CallBytes c _ _ => c | CallClose c => c end.

(** The data of stream [k] in a history, with who sent it, until the stream is complete. *)
Fixpoint stream_data (port : Z) (k : nat) (cc : captureContext) (cbs : list callback) : list (bool * list Z) :=
  match cbs with
  | [] => []
  | CbReassembled id dir _ data :: cbs =>
      (if bool_decide (id = k ∧ data ≠ []) then [(bool_decide (sender_port cc dir ≠ port), data)] else [])
      ++ stream_data port k cc cbs
  | CbComplete id :: cbs => if bool_decide (id = k) then [] else stream_data port k cc cbs
  | CbNew _ _ :: cbs => stream_data port k cc cbs
  end.

Fixpoint completes (k : nat) (cbs : list callback) : bool :=
  match cbs with
  | [] => false
  | CbComplete id :: cbs => bool_decide (id = k) || completes k cbs
  | _ :: cbs => completes k cbs
  end.

(** A history in which the assembler creates stream [k] for [cc] once, and every
    other stream for another connection on the server's port. *)
Definition other_stream (port : Z) (k : nat) (cc : captureContext) (cb : callback) : Prop :=
  match cb with
  | CbNew id ac => id ≠ k ∧ ∃ cc', ac = Some cc' ∧ one_server port cc' ∧ cc' ≠ cc ∧ cc' ≠ flip cc
  | _ => True
  end.

Definition only_one_is (k : nat) (c : ConnID) (r : streamReassembler) : Prop :=
  ∀ id s, streams r !! id = Some s → sconn s = c → id = k.

Lemma factory_distinct port cc cc' :
  one_server port cc → one_server port cc' → cc' ≠ cc → cc' ≠ flip cc →
  sconn (factory_New port (Some cc')) ≠ sconn (factory_New port (Some cc)).
Proof. intros H1 H2 Hn Hf E. destruct (factory_inj port cc cc' H1 H2 (eq_sym E)); done. Qed.

(** [delivered], with the connection named. *)
Lemma delivered_to port cc dir skip data :
  one_server port cc → data ≠ [] →
  ReassembledSG (factory_New port (Some cc)) dir skip data =
    [CallBytes (sconn (factory_New port (Some cc))) (bool_decide (sender_port cc dir ≠ port)) data].
Proof.
  intros Hc Hd. destruct (delivered port cc dir skip data Hc Hd) as (c & E & _). rewrite E.
  unfold ReassembledSG in E. destruct data; [done|]. by injection E as <- _.
Qed.

(** No stream of the connection: no calls for it. *)
Definition without (c : ConnID) (r : streamReassembler) : Prop := ∀ id s, streams r !! id = Some s → sconn s ≠ c.

Lemma foreign_callback port c r cb :
  serverPort r = port → without c r →
  match cb with CbNew _ ac => sconn (factory_New port ac) ≠ c | _ => True end →
  Forall (λ h, call_conn h ≠ c) (on_callback r cb).2 ∧ without c (on_callback r cb).1.
Proof.
  intros Hp Hs Hcb. unfold without in *. destruct cb as [id ac|id dir skip data|id]; cbn.
  - split; [done|]. intros id' s'. rewrite lookup_insert. case_decide; [|by apply Hs]. intros [= <-]. by rewrite Hp.
  - split; [|done]. destruct (streams r !! id) as [s|] eqn:El; [|done].
    unfold ReassembledSG. destruct data; [done|]. apply Forall_singleton. by apply (Hs id).
  - destruct (streams r !! id) as [s|] eqn:El; cbn; [|done]. split; [by apply Forall_singleton, (Hs id)|].
    intros id' s'. rewrite lookup_delete. case_decide; [done|]. apply Hs.
Qed.

Lemma foreign_callbacks port c cbs r :
  serverPort r = port → without c r →
  Forall (λ cb, match cb with CbNew _ ac => sconn (factory_New port ac) ≠ c | _ => True end) cbs →
  List.filter (λ h, bool_decide (call_conn h = c)) (on_callbacks r cbs).2 = [] ∧
  without c (on_callbacks r cbs).1 ∧ serverPort (on_callbacks r cbs).1 = port.
Proof.
  intros Hp Hs Hcbs. revert r Hp Hs. induction Hcbs as [|cb cbs Hcb _ IH]; intros r Hp Hs; [done|]. cbn [on_callbacks].
  pose proof (on_callback_port r cb) as Hp'. destruct (foreign_callback port c r cb Hp Hs Hcb) as [Hout Hs1].
  destruct (on_callback r cb) as [r1 out1]. cbn [fst snd] in *.
  destruct (IH r1 ltac:(congruence) Hs1) as (E & Hs2 & Hp2). destruct (on_callbacks r1 cbs) as [r2 out2].
  cbn [fst snd] in *. split_and!; [|done|done]. rewrite List.filter_app, E, app_nil_r.
  clear -Hout. induction Hout as [|h l Hh _ IHl]; [done|]. cbn. by rewrite bool_decide_false.
Qed.

Lemma other_foreign port k cc cbs :
  one_server port cc → Forall (other_stream port k cc) cbs →
  Forall (λ cb, match cb with CbNew _ ac => sconn (factory_New port ac) ≠ sconn (factory_New port (Some cc)) | _ => True end) cbs.
Proof.
  intros Hcc Hcbs. eapply Forall_impl; [done|]. intros [id ac| |]; [|done..].
  intros (_ & cc' & -> & H1 & H2 & H3). by apply factory_distinct.
Qed.

(** Once the stream exists, the calls for its connection are its data, then its end. *)
Lemma own_calls port k cc cbs r :
  let c := sconn (factory_New port (Some cc)) in
  one_server port cc → serverPort r = port → streams r !! k = Some (factory_New port (Some cc)) →
  only_one_is k c r → Forall (other_stream port k cc) cbs →
  List.filter (λ h, bool_decide (call_conn h = c)) (on_callbacks r cbs).2 =
    (uncurry (CallBytes c) <$> stream_data port k cc cbs) ++ (if completes k cbs then [CallClose c] else []).
Proof.
  intros c Hcc Hp Hk Ho Hcbs. revert r Hp Hk Ho.
  induction Hcbs as [|cb cbs Hcb Hcbs IH]; intros r Hp Hk Ho; [done|]. cbn [on_callbacks].
  destruct cb as [id ac|id dir skip data|id]; cbn [on_callback stream_data completes].
  - destruct Hcb as (Hid & cc' & -> & H1 & H2 & H3). rewrite Hp.
    set (r1 := MkReassembler port _ _). specialize (IH r1 eq_refl).
    destruct (on_callbacks r1 cbs) as [r2 out2]. cbn [snd app] in *. apply IH; cbn.
    + by rewrite lookup_insert_ne.
    + intros id' s'. cbn. rewrite lookup_insert. case_decide; [|by apply Ho].
      intros [= <-] E. by destruct (factory_distinct port cc cc').
  - specialize (IH r Hp Hk Ho). destruct (on_callbacks r cbs) as [r2 out2]. cbn [snd] in *.
    rewrite List.filter_app, IH, fmap_app, app_assoc. f_equal. destruct (decide (id = k)) as [->|Hne].
    + rewrite Hk. destruct data as [|b data]; [by rewrite bool_decide_false by naive_solver|].
      rewrite delivered_to, (bool_decide_true (k = k ∧ b :: data ≠ [])) by done. cbn. by rewrite (bool_decide_true (c = c)).
    + rewrite bool_decide_false by naive_solver. destruct (streams r !! id) as [s|] eqn:E; [|done].
      unfold ReassembledSG. destruct data; [done|]. cbn. rewrite bool_decide_false; [done|].
      intros Es. by apply Hne, (Ho id s).
  - destruct (decide (id = k)) as [->|Hne].
    + rewrite Hk, bool_decide_true by done. cbn [orb fmap list_fmap app].
      set (r1 := MkReassembler _ _ _).
      destruct (foreign_callbacks port c cbs r1 Hp) as (Hz & _); [|by apply (other_foreign port k)|].
      { intros id s. cbn. rewrite lookup_delete. case_decide; [done|]. intros Hs E. by destruct (Ho id s Hs E). }
      destruct (on_callbacks _ cbs) as [r2 out2]. cbn [snd] in *. unfold ReassemblyComplete. cbn [app List.filter call_conn].
      fold c. by rewrite (bool_decide_true (c = c)), Hz.
    + rewrite bool_decide_false by done. cbn [orb]. destruct (streams r !! id) as [s|] eqn:E.
      * set (r1 := MkReassembler _ _ _). specialize (IH r1 Hp). destruct (on_callbacks r1 cbs) as [r2 out2].
        cbn [snd] in *. cbn. rewrite bool_decide_false; [|intros Es; by apply Hne, (Ho id s)].
        apply IH; cbn; [by rewrite lookup_delete_ne|]. intros id' s'. cbn. rewrite lookup_delete.
        case_decide; [done|]. by apply Ho.
      * specialize (IH r Hp Hk Ho). by destruct (on_callbacks r cbs) as [r2 out2].
Qed.

(** The history creates stream [k] for [cc] and goes on with [after]. *)
Definition captured (port : Z) (k : nat) (cc : captureContext) (cbs after : list callback) : Prop :=
  ∃ before, cbs = before ++ CbNew k (Some cc) :: after ∧ Forall (other_stream port k cc) (before ++ after).

Lemma on_callbacks_app r cbs1 cbs2 :
  on_callbacks r (cbs1 ++ cbs2) =
    ((on_callbacks (on_callbacks r cbs1).1 cbs2).1,
     (on_callbacks r cbs1).2 ++ (on_callbacks (on_callbacks r cbs1).1 cbs2).2).
Proof.
  revert r. induction cbs1 as [|cb cbs IH]; intros r; cbn [app on_callbacks]; [by rewrite <- surjective_pairing|].
  destruct (on_callback r cb) as [r1 o1]. rewrite IH. destruct (on_callbacks r1 cbs) as [r2 o2]. cbn. by rewrite app_assoc.
Qed.

Lemma captured_calls ccfg k cc cbs after :
  let port := serverPort (NewReassembler ccfg) in
  let c := sconn (factory_New port (Some cc)) in
  one_server port cc → captured port k cc cbs after →
  List.filter (λ h, bool_decide (call_conn h = c)) (on_callbacks (NewReassembler ccfg) cbs).2 =
    (uncurry (CallBytes c) <$> stream_data port k cc after) ++ (if completes k after then [CallClose c] else []).
Proof.
  intros port c Hcc (before & -> & Hall). apply Forall_app in Hall as [Hb Ha].
  destruct (foreign_callbacks port c before (NewReassembler ccfg) eq_refl) as (E & Hs & Hp).
  { intros id s. cbn. by rewrite lookup_empty. }
  { by apply (other_foreign port k). }
  rewrite on_callbacks_app. cbn [snd]. rewrite List.filter_app, E. cbn [app on_callbacks on_callback].
  rewrite Hp. set (r1 := MkReassembler port _ _). pose proof (own_calls port k cc after r1 Hcc eq_refl) as Ho.
  destruct (on_callbacks r1 after) as [r2 out2]. cbn [snd app] in *. apply Ho; cbn; [by rewrite lookup_insert_eq| |done].
  intros id s. cbn. rewrite lookup_insert. case_decide as Hid; [done|]. intros Hl Es. by destruct (Hs id s).
Qed.

(** ** The calls as inputs of the processor *)

(** A call of the handler is an input of the processor, at some time. *)
Definition handled (h : handler_call) (i : input) : Prop :=
  match h, i with
  | CallBytes c fc data, Bytes c' fc' data' _ => c = c' ∧ fc = fc' ∧ data = data'
  | CallClose c, Processor.Closed c' => c = c'
  | _, _ => False
  end.

Lemma handled_conn h i : handled h i → input_conn i = call_conn h.
Proof. destruct h, i; cbn; naive_solver. Qed.

Lemma handled_own c hs is_ :
  Forall2 handled hs is_ → Forall2 handled (List.filter (λ h, bool_decide (call_conn h = c)) hs) (own c is_).
Proof.
  induction 1 as [|h i hs is_ Hh _ IH]; [constructor|]. unfold own. cbn [List.filter].
  rewrite (handled_conn h i Hh). case_bool_decide; [by constructor|done].
Qed.

(** The inputs of a captured connection: its data, then perhaps its end. *)
Lemma handled_stream c (ds : list (bool * list Z)) (b : bool) is_ :
  Forall2 handled ((uncurry (CallBytes c) <$> ds) ++ (if b then [CallClose c] else [])) is_ →
  ∃ is1, is_ = is1 ++ (if b then [Processor.Closed c] else []) ∧ Forall open_ended is1 ∧
    ∀ side, sent_by side is1 = snd <$> List.filter (λ d, Bool.eqb d.1 side) ds.
Proof.
  intros H. apply Forall2_app_inv_l in H as (is1 & is2 & H1 & H2 & ->). exists is1. split_and!.
  - f_equal. destruct b; [|by apply Forall2_nil_inv_l in H2].
    apply Forall2_cons_inv_l in H2 as (i & is' & Hi & H2 & ->). apply Forall2_nil_inv_l in H2 as ->.
    destruct i; [done|]. by rewrite Hi.
  - clear H2. revert is1 H1. induction ds as [|[fc d] ds IH]; intros is1 H1.
    { by apply Forall2_nil_inv_l in H1 as ->. }
    apply Forall2_cons_inv_l in H1 as (i & is' & Hi & H1 & ->). constructor; [by destruct i|by apply IH].
  - clear H2. intros side. revert is1 H1. induction ds as [|[fc d] ds IH]; intros is1 H1.
    { by apply Forall2_nil_inv_l in H1 as ->. }
    apply Forall2_cons_inv_l in H1 as (i & is' & Hi & H1 & ->). destruct i as [c' fc' d' ts|]; [|done].
    destruct Hi as (_ & <- & <-). unfold sent_by in *. cbn. destruct (Bool.eqb fc side); [|by apply IH].
    cbn. f_equal. by apply IH.
Qed.

(** ** The queue between processor and replayer *)
Definition emitted (os : list output) : list SQLEvent :=
  omap (λ o, match o with Processor.Enqueued ev => Some ev | _ => None end) os.

Lemma statements_of_emitted c os : statements_of c os = statement_of <$> filter (λ ev, Conn ev = c) (emitted os).
Proof.
  unfold statements_of, emitted. induction os as [|o os IH]; [done|]. cbn. destruct o as [ev| | |]; try done.
  rewrite filter_cons. case_decide; [|done]. rewrite fmap_cons. by f_equal.
Qed.

(** Nothing is enqueued once the queue is closed. *)
Fixpoint ends_with_close (tr : list label) : bool :=
  match tr with
  | [] => true
  | LQueue OpClose :: tr => bool_decide (enqueues tr = []) && ends_with_close tr
  | _ :: tr => ends_with_close tr
  end.

Lemma ends_with_close_app tr1 tr2 :
  ends_with_close (tr1 ++ tr2) = true → ends_with_close tr1 = true ∧ (LQueue OpClose ∈ tr1 → enqueues tr2 = []).
Proof.
  induction tr1 as [|a tr1 IH]; intros H; [split; [done|]; by intros ?%elem_of_nil|].
  assert (ends_with_close (tr1 ++ tr2) = true ∧ (a = LQueue OpClose → enqueues (tr1 ++ tr2) = [])) as [H1 H2].
  { destruct a as [[]| | | | | | | |]; cbn in H; try (split; [done|discriminate]).
    apply andb_true_iff in H as [?%bool_decide_eq_true ?]. done. }
  destruct (IH H1) as [H3 H4].
  assert (a = LQueue OpClose → enqueues tr1 = [] ∧ enqueues tr2 = []) as H5.
  { intros E. specialize (H2 E). unfold enqueues in *. rewrite omap_app in H2. by apply app_eq_nil in H2. }
  split.
  - destruct a as [[]| | | | | | | |]; cbn; try done. rewrite H3, andb_true_r.
    apply bool_decide_eq_true. by apply H5.
  - intros [E|Hin]%elem_of_cons; [by apply H5|by apply H4].
Qed.

(** The queue is never full when an event comes: with [n] events in it, the history
    leaves room at every enqueue. *)
Fixpoint never_full (cap n : Z) (tr : list label) : bool :=
  match tr with
  | [] => true
  | LQueue (OpEnqueue _) :: tr => (n <? cap) && never_full cap (n + 1) tr
  | LDequeue _ :: tr => never_full cap (n - 1) tr
  | _ :: tr => never_full cap n tr
  end.

Lemma never_full_snoc cap n tr a :
  never_full cap n (tr ++ [a]) = true →
  never_full cap n tr = true ∧
  match a with LQueue (OpEnqueue _) => n + zlen (enqueues tr) - zlen (dequeues tr) < cap | _ => True end.
Proof.
  revert n. induction tr as [|b tr IH]; intros n H.
  { split; [done|]. destruct a as [[]| | | | | | | |]; try done. cbn in *. rewrite andb_true_r in H. zb. lia. }
  destruct b as [[ev| |]| | |ev| | | | |]; cbn in H |- *; try (by apply IH).
  - apply andb_true_iff in H as [Hn H]. rewrite Hn. destruct (IH _ H) as [H1 H2]. split; [done|].
    destruct a as [[]| | | | | | | |]; try done. unfold enqueues, dequeues in *. cbn. rewrite zlen_cons. lia.
  - destruct (IH _ H) as [H1 H2]. split; [done|]. destruct a as [[]| | | | | | | |]; try done.
    unfold enqueues, dequeues in *. cbn. rewrite zlen_cons. lia.
Qed.

(** A queue that is never full keeps everything, in order. *)
Lemma queue_keeps r q g tr s :
  Replayer.run r (Run_start q g) tr s → b_closed q = false → never_full (b_cap q) (zlen (b_list q)) tr = true →
  ends_with_close tr = true →
  dequeues tr ++ b_list (rq s) = b_list q ++ enqueues tr ∧
  b_cap (rq s) = b_cap q ∧ (b_closed (rq s) = true → LQueue OpClose ∈ tr).
Proof.
  intros Hrun Hcl. induction Hrun as [|tr s1 a s2 _ IH Hs]; intros Hcap He.
  { cbn. rewrite app_nil_r. by rewrite Hcl. }
  apply ends_with_close_app in He as [He Hend]. apply never_full_snoc in Hcap as [Hcap Hroom].
  destruct (IH Hcap He) as (Hd & Hc & Hx). rewrite dequeues_snoc, enqueues_snoc, app_assoc, <- Hd.
  assert (∀ s', rq s' = rq s1 → (∀ ev, a ≠ LDequeue ev) → (∀ ev, a ≠ LQueue (OpEnqueue ev)) →
    (dequeues tr ++ match a with LDequeue ev => [ev] | _ => [] end) ++ b_list (rq s') =
    (dequeues tr ++ b_list (rq s1)) ++ match a with LQueue (OpEnqueue ev) => [ev] | _ => [] end ∧
    b_cap (rq s') = b_cap q ∧ (b_closed (rq s') = true → LQueue OpClose ∈ tr ++ [a])) as Hsame.
  { intros s' -> H1 H2. destruct a as [[]| | | | | | | |]; try (by edestruct H1); try (by edestruct H2);
      rewrite ?app_nil_r; (split_and!; [done|done|]; intros; apply elem_of_app; auto). }
  destruct Hs; try (by apply Hsame).
  - cbn -[enqueue_spec]. unfold enqueue_spec. destruct (b_closed (rq s1)) eqn:Eb.
    { specialize (Hend (Hx eq_refl)). discriminate. }
    assert (zlen (b_list (rq s1)) < b_cap (rq s1)) as Hlt.
    { rewrite Hc. apply (f_equal zlen) in Hd. rewrite !zlen_app in Hd. lia. }
    rewrite (proj2 (Z.ltb_lt _ _) Hlt). cbn. rewrite app_nil_r, app_assoc. split_and!; [done|done|].
    done.
  - cbn. rewrite !app_nil_r. split_and!; [done|done|]. intros _. apply elem_of_app. right. by left.
  - destruct (check_lanes r acc now s1) as (_ & Hq & _). by apply Hsame.
  - match goal with H : dequeue_spec _ _ _ = _ |- _ => apply dequeue_some in H as Hde end.
    cbn. rewrite app_nil_r, <- app_assoc, Hde. split_and!; [done|done|].
    intros Hy. apply elem_of_app. left. by apply Hx.
Qed.

(** ** End to end *)

(** The chunks one side of a captured connection sent. *)
Definition chunks_of (port : Z) (k : nat) (cc : captureContext) (after : list callback) (side : bool) : list (list Z) :=
  snd <$> List.filter (λ d, Bool.eqb d.1 side) (stream_data port k cc after).

Lemma captured_converses `{Unicode} pcfg fcfg f sp ccfg k cc cbs after is_ :
  let port := serverPort (NewReassembler ccfg) in
  let c := sconn (factory_New port (Some cc)) in
  NewStreamProcessor pcfg fcfg = Ok sp → NewFilter fcfg = Ok f →
  one_server port cc → captured port k cc cbs after →
  Forall2 handled (on_callbacks (NewReassembler ccfg) cbs).2 is_ →
  ∃ ms, statement_of <$> filter (λ ev, Conn ev = c) (emitted (outs (Processor.run is_) sp)) = (talk pcfg f new_session ms).2 ∧
    ∀ side msgs, wf_session side msgs → Forall bytes_ok (chunks_of port k cc after side) →
      concat (chunks_of port k cc after side) = encode_session side msgs → said side ms = msgs.
Proof.
  intros port c Hsp Hf Hcc Hcap Hin. destruct (abstracts_new pcfg f c fcfg sp Hsp Hf) as [Ha Hp].
  apply (handled_own c) in Hin. unfold c, port in Hin. rewrite (captured_calls ccfg k cc cbs after Hcc Hcap) in Hin.
  apply handled_stream in Hin as (is1 & Eown & Hopen & Hsent).
  exists (heard new_parsers is1). split.
  - rewrite <- statements_of_emitted, (run_converse pcfg f c is_ sp _ Ha), Hp. unfold c, port. rewrite Eown.
    rewrite <- converse_talk by done. destruct (completes k after); [apply converse_close|by rewrite app_nil_r].
  - intros side msgs Hwf Hb Hc. apply heard_session; [done|done|..]; by rewrite Hsent.
Qed.

Lemma sublist_select {A} (P : A → Prop) `{!∀ x, base.Decision (P x)} (l1 l2 : list A) :
  l1 `sublist_of` l2 → filter P l1 `sublist_of` filter P l2.
Proof.
  induction 1 as [|x l1 l2 _ IH|x l1 l2 _ IH]; [done|..]; rewrite !filter_cons; case_decide; try done;
    [by apply sublist_skip|by apply sublist_cons].
Qed.

(** What is executed for a connection was enqueued for it, in that order; a queue that
    is never full and is closed last hands everything on: the executions are a
    prefix of what was enqueued, and all of it in the end. *)
Lemma queue_replayed rcfg q g tr s (c : ConnID) :
  Replayer.run (configureMode rcfg) (Run_start q g) tr s → b_list q = [] →
  filter (λ ev, Conn ev = c) (starts tr) `sublist_of` filter (λ ev, Conn ev = c) (enqueues tr) ∧
  (b_closed q = false → never_full (b_cap q) 0 tr = true → ends_with_close tr = true →
   filter (λ ev, Conn ev = c) (starts tr) `prefix_of` filter (λ ev, Conn ev = c) (enqueues tr) ∧
   (∀ err, disp s = DReturned err → cancelled s = false →
     filter (λ ev, Conn ev = c) (starts tr) = filter (λ ev, Conn ev = c) (enqueues tr))).
Proof.
  intros Hrun Hq. pose proof (run_ok _ _ _ _ _ Hrun) as Hok. pose proof (conn_prefix _ _ _ _ c Hok) as Hpre. split.
  - destruct Hok as [_ _ _ _ _ [Hsub _] _]. rewrite Hq in Hsub. destruct Hpre as [rest Hpre].
    assert (filter (λ ev, Conn ev = c) (dequeues tr) `sublist_of` filter (λ ev, Conn ev = c) (enqueues tr)) as Hf.
    { apply sublist_select. etrans; [|exact Hsub]. by apply sublist_inserts_r. }
    rewrite Hpre in Hf. etrans; [|exact Hf]. by apply sublist_inserts_r.
  - intros Hcl Hroom Hend.
    destruct (queue_keeps _ _ _ _ _ Hrun Hcl ltac:(by rewrite Hq) Hend) as (Hkeep & _). rewrite Hq in Hkeep. cbn in Hkeep. split.
    + rewrite <- Hkeep, filter_app. by apply prefix_app_r.
    + intros err Hd Hc. rewrite (conn_complete _ _ _ _ _ c Hok Hd Hc).
      destruct (all_drained _ _ _ _ _ Hok Hd Hc) as ((_ & Hl) & _). rewrite Hl, app_nil_r in Hkeep. by rewrite Hkeep.
Qed.


(** ** A run of the whole pipeline *)
#[local] Existing Instance ClassifierDemo.ascii.

Module PipelineDemo.
Definition A : captureContext := ReassemblerDemo.client.
Definition B : captureContext := MkContext (Addr4 [10; 0; 0; 2]) (Addr4 [10; 0; 0; 7]) 5432 41000.
Definition connA : ConnID := sconn (factory_New 5432 (Some A)).
Definition connB : ConnID := sconn (factory_New 5432 (Some B)).

(** A prepares and runs an insertion, then reads inside a transaction; B, first
    seen by a packet of the server, updates. *)
Definition msgsA : list PGMessage :=
  [Scenario.startup;
   Scenario.message 80 (encode_parse [115] (bytes_of "insert into t values ($1)") [23]);
   Scenario.message 66 (encode_bind [] [115] [0] [Some [52; 50]] [0; 0]);
   Scenario.query "begin"; Scenario.query "select 2 for update"].

Definition bytesA : list Z := encode_session true msgsA.
Definition bytesB : list Z := Scenario.client_bytes [Scenario.query "update t set a = 1"].

Definition after : list callback :=
  [CbReassembled 0 TCPDirClientToServer 0 (take 30 bytesA);
   CbReassembled 1 TCPDirServerToClient 0 bytesB;
   CbReassembled 0 TCPDirServerToClient 0 (Scenario.ready 84);
   CbReassembled 0 TCPDirClientToServer 0 (drop 30 bytesA);
   CbComplete 1; CbComplete 0].

Definition cbs : list callback := [CbNew 1 (Some B); CbNew 0 (Some A)] ++ after.
Definition is_ : list input := ReassemblerDemo.inputs (on_callbacks (NewReassembler ReassemblerDemo.cfg) cbs).2.
Definition evs : list SQLEvent := emitted (outs (Processor.run is_) Scenario.s0).

Definition kA : list Z := Key connA.
Definition kB : list Z := Key connB.
Definition execute (k : list Z) : list choice := [CTake k; CAcquire k; CFinish k false].
Definition retire (k : list Z) : list choice := [CDrained k; CRelease k k; CDone k].

Definition schedule : list choice :=
  (CEnqueue <$> evs) ++ [CCloseQueue] ++
  ReplayDemo.dispatch_once [] 0 ++ ReplayDemo.dispatch_once [kB] 0 ++ ReplayDemo.dispatch_once [kA; kB] 0 ++ execute kA ++
  ReplayDemo.dispatch_once [kA; kB] 0 ++ execute kB ++ execute kA ++ execute kA ++
  [CSum kA; CSum kB; CCheck 0; CEnd; CCloseLane kA; CCloseLane kB] ++ retire kA ++ retire kB ++ [CWait; CReturn].

Definition queue : @QueueSpec.bounded SQLEvent := ReplayDemo.queue [] false.
Definition start : rstate := Run_start queue None.
Definition trace : list label := default [] (fst <$> exec_steps ReplayDemo.r start schedule).
Definition final : rstate := default start (snd <$> exec_steps ReplayDemo.r start schedule).

Lemma msgsA_wf : wf_session true msgsA.
Proof.
  unfold msgsA. repeat (apply conj; [split_and!;
    [vm_compute; reflexivity|vm_compute; discriminate|apply (bool_decide_unpack _); vm_compute; exact I
    |vm_compute; repeat split; discriminate]|]). exact I.
Qed.

Lemma demo_schedule_runs : Replayer.run ReplayDemo.r start trace final.
Proof. apply (exec_steps_sound ReplayDemo.r start schedule). vm_compute. reflexivity. Qed.
End PipelineDemo.

