(* ===== verification/Wire.v ===== *)
(** * From the wire to the target

    The whole program in one statement: frames at the network interface, the XDP
    program, the ring and its read loop, the producer's goroutines, the
    reassembler around gopacket's assembler, the stream processor, the queue and
    the replayer.  The first half shows that [Stats] is honest: what it does not
    report as dropped reaches the reassembler, byte for byte and in order. *)
From Stdlib Require Import String.
From S2P Require Import Prelude BpfHelpers Xdp EbpfSource Core Framing Messages Classifier ClassifierFacts Filter ConnState Processor ProcessorFacts Session Scenarios Conversation QueueSpec GoTime ConnKey ReplayConfig ReplayGuard CaptureConfig Reassembler Replayer ReplayerFacts ReplayerDemo Producer Pipeline.

(** ** Nothing is lost unless it is counted *)
Lemma omap_all_length {A B} (f : A → option B) l : Forall (λ a, is_Some (f a)) l → zlen (omap f l) = zlen l.
Proof. induction 1 as [|a l [b Hb] _ IH]; [done|]. cbn. rewrite Hb, !zlen_cons. by rewrite IH. Qed.

Lemma filter_fmap_length {A B} (f : A → B) (P : B → bool) l :
  zlen (List.filter P (f <$> l)) = zlen (List.filter (λ a, P (f a)) l).
Proof. induction l as [|a l IH]; [done|]. cbn. destruct (P (f a)); rewrite ?zlen_cons; by rewrite IH. Qed.

Section capture.
Context {K : Type} `{BpfHelpersOk K} {Packet : Type} (NewPacket : list Z → Packet).

(** The program ran on the frames, the read loop has read every record of the ring
    while a consumer received from its channel; [pkts] went through the channel
    and [Stats] reports [reported] drops. *)
Definition captures (ctxs : list xdp_ctx) (k : K) (pkts : list Packet) (reported : Z) : Prop :=
  ∃ vs k' evs out src kr kd,
    run_frames ctxs k = Ok (vs, k') ∧ ring_log k' = ring_log k ++ reads evs ∧
    readLoop NewPacket (EbpfSource [] 0 0) evs = Ok (out, src) ∧ pkts = out ++ packets src ∧
    array_lookup k' "stats" STATS_RECEIVED = Some kr ∧ array_lookup k' "stats" STATS_DROPPED = Some kd ∧
    (Stats src (Some [kr]) (Some [kd])).2 = reported.

(** The frames of the traffic the user asked for. *)
Definition traffic (p : Z) (ctxs : list xdp_ctx) : list (list Z) := List.filter (on_port p) (ctx_pkt <$> ctxs).

Lemma wanted_count p ctxs (k : K) :
  0 < p < 65536 → array_lookup k "cfg_port" 0 = Some (configured_port p) → Forall (short_frame k) ctxs →
  zlen (List.filter (λ ctx, wanted (array_lookup k "cfg_port" 0) (ctx_pkt ctx)) ctxs) = zlen (traffic p ctxs).
Proof.
  intros Hp Hc Hs. unfold traffic. rewrite filter_fmap_length. f_equal. rewrite Hc.
  induction Hs as [|ctx ctxs (Hb & _ & Hl) _ IH]; [done|]. cbn [List.filter].
  rewrite wanted_configured, IH by (done || lia). done.
Qed.

(** What the ring holds and the kernel counts. *)
Lemma ring_counted p ctxs (k : K) vs k' recs :
  0 < p < 65536 → array_lookup k "cfg_port" 0 = Some (configured_port p) → counters k 0 0 →
  Forall (short_frame k) ctxs → Forall (readable k) ctxs →
  run_frames ctxs k = Ok (vs, k') → ring_log k' = ring_log k ++ recs →
  ∃ lost, 0 ≤ lost ∧ Forall bytes_ok recs ∧ omap record_frame recs `sublist_of` traffic p ctxs ∧
    zlen (omap record_frame recs) + lost = zlen (traffic p ctxs) ∧
    array_lookup k' "stats" STATS_DROPPED = Some (wrap 64 lost).
Proof.
  intros Hp Hcfg Hcnt Hs Hread Hrun Hlog.
  destruct (traffic_records p ctxs k Hp Hcfg Hs) as (vs1 & k1 & recs1 & Hr1 & Hl1 & Hb & Hd & Hsub).
  destruct (xdp_accounting ctxs k 0 0) as (vs2 & k2 & Hr2 & (recs2 & lost & ab & Hlo & _ & Hab & Hn & Hl2 & _ & Hdrop));
    [eapply Forall_impl; [exact Hs|]; by intros ? []|done|].
  rewrite Hrun in Hr1, Hr2. injection Hr1 as <- <-. injection Hr2 as <- <-.
  rewrite Hlog in Hl1, Hl2. apply app_inv_head in Hl1 as <-. apply app_inv_head in Hl2 as <-.
  rewrite (wanted_count p) in Hn by done. exists lost. rewrite omap_all_length by done.
  split_and!; [done|done|exact Hsub|rewrite (Hab Hread) in Hn; lia|exact Hdrop].
Qed.

(** Whatever [Stats] reports, the channel carries an in-order selection of the
    traffic; when it reports no drop, it carries all of it. *)
Lemma capture_honest p ctxs (k : K) pkts reported :
  0 < p < 65536 → array_lookup k "cfg_port" 0 = Some (configured_port p) → counters k 0 0 →
  Forall (short_frame k) ctxs → Forall (readable k) ctxs → zlen ctxs < 2 ^ 64 →
  captures ctxs k pkts reported →
  pkts `sublist_of` NewPacket <$> traffic p ctxs ∧ zlen pkts + reported = zlen (traffic p ctxs).
Proof.
  intros Hp Hcfg Hcnt Hs Hread Hn (vs & k' & evs & out & src & kr & kd & Hrun & Hlog & Hloop & -> & Hkr & Hkd & Hst).
  destruct (ring_counted p ctxs k vs k' (reads evs)) as (lost & Hlo & Hb & Hsub & Hlen & Hkd'); try done.
  destruct (readLoop_conserved NewPacket (EbpfSource [] 0 0) evs (reads_bytes_ok _ Hb)) as (out' & src' & Hl' & Hc).
  rewrite Hloop in Hl'. injection Hl' as <- <-. destruct Hc as (lost' & Hlo' & Hsub' & Hlen' & _ & Hdr).
  cbn [packets dropped app] in Hsub', Hlen', Hdr. rewrite (@zlen_nil Packet), Z.add_0_l in Hlen'. rewrite Z.add_0_l in Hdr.
  rewrite frames_of_reads in Hsub', Hlen'. split; [etrans; [exact Hsub'|by apply fmap_sublist]|].
  assert (zlen (traffic p ctxs) ≤ zlen ctxs) as Hle.
  { unfold traffic. rewrite filter_fmap_length. unfold zlen. apply inj_le. rewrite filter_length_le. done. }
  rewrite Hkd' in Hkd. injection Hkd as <-. unfold Stats in Hst. cbn [snd sum64 from_option foldl] in Hst.
  rewrite Z.add_0_l in Hst. rewrite wrap_add_r, wrap_add_r, <- wrap_add_l, Hdr, wrap_add_l in Hst.
  pose proof (zlen_nonneg (out ++ packets src)). rewrite wrap_small in Hst by (unfold in_width; lia). lia.
Qed.
Lemma sublist_complete (pkts : list Packet) (l : list (list Z)) :
  pkts `sublist_of` NewPacket <$> l → zlen pkts + 0 = zlen l → pkts = NewPacket <$> l.
Proof. intros Hs Hl. apply sublist_full; [done|]. unfold zlen in *. rewrite length_fmap. lia. Qed.

End capture.

(** ** The assembler *)

#[export] Instance captureContext_eq_dec : EqDecision captureContext.
Proof. solve_decision. Defined.

Section assembler.
Context {Packet : Type} (layers : Packet → option packet) (payload : Packet → list Z).

(** What the assembler is given: [Assemble] hands it a packet with its context, when
    it has one; the ticker makes it flush idle connections, the end all of them. *)
Inductive asm_input := Segment (cc : captureContext) (p : Packet) | Flush | FlushAll.

Definition fed (calls : list (reasm_call Packet)) : list asm_input :=
  omap (λ c, match c with
             | AskAssemble p => (λ cc, Segment cc p) <$> Assemble_context (layers p)
             | AskFlush => Some Flush
             | AskClose => Some FlushAll
             end) calls.

Definition segments (ins : list asm_input) : list (captureContext * Packet) :=
  omap (λ i, match i with Segment cc p => Some (cc, p) | _ => None end) ins.

Definition of_conn (cc : captureContext) (s : captureContext * Packet) : Prop := s.1 = cc ∨ s.1 = flip cc.

(** The bytes one side of a connection sent. *)
Definition side_bytes (port : Z) (cc : captureContext) (side : bool) (segs : list (captureContext * Packet)) : list Z :=
  concat (omap (λ s, if decide ((s.1 = cc ∨ s.1 = flip cc) ∧ bool_decide (srcPort s.1 ≠ port) = side)
                     then Some (payload s.2) else None) segs).

(** What the documentation of gopacket's assembler promises for inputs in sequence -
    the segments of a side arrive in the order of their sequence numbers without
    gaps, and no flush finds a connection idle that goes on later: one stream for a
    connection, created with the context of its first segment, that is given the
    bytes of each side in order. *)
Definition assembles (port : Z) (in_sequence : list asm_input → Prop) (asm : list asm_input → list callback) : Prop :=
  ∀ pre cc p post,
    let ins := pre ++ Segment cc p :: post in
    in_sequence ins → Forall (λ s, one_server port s.1) (segments ins) → Forall (λ s, ¬ of_conn cc s) (segments pre) →
    ∃ k after, captured port k cc (asm ins) after ∧
      ∀ side, concat (chunks_of port k cc after side) = side_bytes port cc side (segments ins).
End assembler.
Arguments asm_input : clear implicits.

Lemma session_bytes_ok b msgs : wf_session b msgs → bytes_ok (encode_session b msgs).
Proof.
  revert b. induction msgs as [|m msgs IH]; intros b Hw; [constructor|]. destruct Hw as [Hm Hw]. cbn [encode_session].
  apply Forall_app. split; [by apply encode_bytes|by apply IH].
Qed.

(** ** End to end *)
Section wire.
Context {K : Type} `{BpfHelpersOk K} `{Unicode} {Packet : Type} (NewPacket : list Z → Packet).
Context (layers : Packet → option packet) (payload : Packet → list Z).
Context (in_sequence : list (asm_input Packet) → Prop) (asm : list (asm_input Packet) → list callback).

(** What reached the assembler is an in-order selection of the traffic; it is a prefix
    of it when no drop is reported, and all of it when the producer has ended by
    itself. *)
Lemma producer_traffic p ctxs (k : K) pkts reported ptr ps :
  0 < p < 65536 → array_lookup k "cfg_port" 0 = Some (configured_port p) → counters k 0 0 →
  Forall (short_frame k) ctxs → Forall (readable k) ctxs → zlen ctxs < 2 ^ 64 →
  captures NewPacket ctxs k pkts reported → prun startProducer ptr ps → arrivals ptr `prefix_of` pkts →
  assembled ps `sublist_of` NewPacket <$> traffic p ctxs ∧
  (reported = 0 → assembled ps `prefix_of` NewPacket <$> traffic p ctxs ∧
    (arrivals ptr = pkts → Producer.ctx ps = false → exited ps = true → assembled ps = NewPacket <$> traffic p ctxs)).
Proof.
  intros Hp Hcfg Hcnt Hs Hread Hn Hcap (rest & Hr & _ & He & Hx)%prun_ok Hpre.
  destruct (capture_honest NewPacket p ctxs k pkts reported) as [Hsub Hlen]; try done.
  assert (assembled ps `prefix_of` pkts) as Ha by (etrans; [|exact Hpre]; rewrite Hr; by apply prefix_app_r).
  split; [destruct Ha as [l ->]; etrans; [|exact Hsub]; by apply sublist_inserts_r|]. intros ->.
  apply sublist_complete in Hsub as ->; [|done]. split; [done|]. intros <- Hk Hxx. rewrite Hr.
  destruct (Hx Hk Hxx) as [-> Hre]. destruct (He Hk Hre) as (-> & _ & _). by rewrite app_nil_r.
Qed.

End wire.

(** ** An assembler for traffic in order

    The law can be kept: an assembler that takes every segment as the next one of
    its side, with streams numbered by first appearance. *)
Section in_order.
Context {Packet : Type} (payload : Packet → list Z) (port : Z).

Definition same_conn (cc cc' : captureContext) : Prop := cc' = cc ∨ cc' = flip cc.
#[export] Instance same_conn_dec cc cc' : base.Decision (same_conn cc cc').
Proof. unfold same_conn. apply _. Defined.

Fixpoint in_order (known : list captureContext) (segs : list (captureContext * Packet)) : list callback :=
  match segs with
  | [] => []
  | (cc, p) :: segs =>
      match list_find (same_conn cc) known with
      | Some (i, c) =>
          CbReassembled i (if decide (c = cc) then TCPDirClientToServer else TCPDirServerToClient) 0 (payload p)
            :: in_order known segs
      | None =>
          CbNew (length known) (Some cc) :: CbReassembled (length known) TCPDirClientToServer 0 (payload p)
            :: in_order (known ++ [cc]) segs
      end
  end.

Fixpoint seen_after (known : list captureContext) (segs : list (captureContext * Packet)) : list captureContext :=
  match segs with
  | [] => known
  | (cc, _) :: segs =>
      seen_after (match list_find (same_conn cc) known with Some _ => known | None => known ++ [cc] end) segs
  end.

Lemma same_conn_sym cc cc' : same_conn cc cc' → same_conn cc' cc.
Proof. destruct cc, cc'. unfold same_conn, flip. cbn. intros [[= -> -> -> ->]|[= -> -> -> ->]]; auto. Qed.

Lemma same_conn_trans c1 c2 c3 : same_conn c1 c2 → same_conn c2 c3 → same_conn c1 c3.
Proof. destruct c1. unfold same_conn, flip. intros [-> | ->] [-> | ->]; cbn; auto. Qed.

Lemma in_order_app known pre segs :
  in_order known (pre ++ segs) = in_order known pre ++ in_order (seen_after known pre) segs.
Proof.
  revert known. induction pre as [|[cc p] pre IH]; intros known; [done|]. cbn [app in_order seen_after].
  destruct (list_find _ known) as [[i c]|]; cbn [app]; by rewrite IH.
Qed.

Lemma seen_foreign cc known pre :
  Forall (λ c, ¬ same_conn cc c) known → Forall (λ s, ¬ of_conn cc s) pre → Forall (λ c, ¬ same_conn cc c) (seen_after known pre).
Proof.
  intros Hk Hp. revert known Hk. induction Hp as [|[c p] pre Hc _ IH]; intros known Hk; [done|]. cbn [seen_after].
  apply IH. destruct (list_find _ known); [done|]. apply Forall_app. split; [done|by apply Forall_singleton].
Qed.

Lemma seen_longer known pre : (length known ≤ length (seen_after known pre))%nat.
Proof.
  revert known. induction pre as [|[c p] pre IH]; intros known; [done|]. cbn [seen_after]. etrans; [|apply IH].
  destruct (list_find _ known); [done|]. rewrite length_app. lia.
Qed.

(** Before the first segment of a connection no stream is created for it. *)
Lemma before_foreign cc known pre :
  Forall (λ s, one_server port s.1) pre → Forall (λ s, ¬ of_conn cc s) pre →
  Forall (other_stream port (length (seen_after known pre)) cc) (in_order known pre).
Proof.
  intros Ho Hp. revert known. induction Hp as [|[c p] pre Hc _ IH]; intros known; [constructor|].
  apply Forall_cons in Ho as [Ho1 Ho]. cbn [in_order seen_after]. destruct (list_find _ known) as [[i c']|].
  - constructor; [done|by apply IH].
  - constructor; [|constructor; [done|by apply IH]]. split;
      [|exists c; split_and!; [done|done|intros ->; apply Hc; by left|intros ->; apply Hc; by right]].
    pose proof (seen_longer (known ++ [c]) pre) as Hl. rewrite length_app in Hl. cbn in Hl. lia.
Qed.

(** The connection has one number. *)
Definition numbered (k : nat) (cc : captureContext) (known : list captureContext) : Prop :=
  known !! k = Some cc ∧ ∀ i c, known !! i = Some c → same_conn cc c → i = k.

Lemma numbered_snoc k cc c known :
  numbered k cc known → list_find (same_conn c) known = None → numbered k cc (known ++ [c]) ∧ ¬ same_conn cc c.
Proof.
  intros [Hk Hu] Hf. apply list_find_None in Hf. assert (¬ same_conn cc c) as Hn.
  { intros Hs. rewrite Forall_lookup in Hf. by apply (Hf k cc), same_conn_sym. }
  split; [|done]. split; [by apply lookup_app_l_Some|]. intros i c' Hi Hs.
  apply lookup_app_Some in Hi as [Hi|[_ Hi]]; [by apply (Hu i c')|].
  apply list_lookup_singleton_Some in Hi as [_ <-]. done.
Qed.

Lemma after_foreign k cc known segs :
  numbered k cc known → Forall (λ s, one_server port s.1) segs → Forall (other_stream port k cc) (in_order known segs).
Proof.
  intros Hn Ho. revert known Hn. induction Ho as [|[c p] segs Ho1 _ IH]; intros known Hn; [constructor|]. cbn [in_order].
  destruct (list_find _ known) as [[i c']|] eqn:Ef; [constructor; [done|by apply IH]|].
  destruct (numbered_snoc k cc c known Hn Ef) as [Hn' Hd].
  constructor; [|constructor; [done|by apply IH]]. split.
  - destruct Hn as [Hk _]. apply lookup_lt_Some in Hk. lia.
  - exists c. split_and!; [done|done|intros ->; apply Hd; by left|intros ->; apply Hd; by right].
Qed.

Lemma concat_chunk (b side : bool) (data : list Z) rest :
  concat (snd <$> List.filter (λ d, Bool.eqb d.1 side) ((if bool_decide (data ≠ []) then [(b, data)] else []) ++ rest)) =
  (if Bool.eqb b side then data else []) ++ concat (snd <$> List.filter (λ d, Bool.eqb d.1 side) rest).
Proof. destruct data; [by destruct (Bool.eqb b side)|]. cbn. by destruct (Bool.eqb b side). Qed.

(** The stream is given what the two sides sent. *)
Lemma in_order_bytes k cc known segs side :
  numbered k cc known → one_server port cc →
  concat (chunks_of port k cc (in_order known segs) side) = side_bytes payload port cc side segs.
Proof.
  intros Hn Ho. unfold chunks_of, side_bytes. revert known Hn.
  induction segs as [|[c p] segs IH]; intros known Hn; [done|]. cbn [in_order omap list_omap fst snd].
  destruct (list_find (same_conn c) known) as [[i c']|] eqn:Ef.
  - pose proof Ef as (Hi & Hs & _)%list_find_Some. cbn [stream_data]. destruct (decide (i = k)) as [->|Hne].
    + destruct Hn as [Hk Hu]. rewrite Hk in Hi. injection Hi as <-. apply same_conn_sym in Hs.
      rewrite (bool_decide_ext (k = k ∧ payload p ≠ []) (payload p ≠ [])) by naive_solver. rewrite concat_chunk, IH by done.
      assert (srcPort c = sender_port cc (if decide (cc = c) then TCPDirClientToServer else TCPDirServerToClient)) as <-
        by (case_decide; [by subst|destruct Hs as [->| ->]; [done|by destruct cc]]).
      destruct (decide (_ ∧ _)) as [[_ <-]|Hd]; [by rewrite Bool.eqb_reflx|].
      destruct (Bool.eqb _ side) eqn:Eb; [|done]. apply Bool.eqb_prop in Eb. naive_solver.
    + rewrite bool_decide_false by naive_solver. cbn [app]. rewrite IH by done. rewrite decide_False; [done|].
      intros [Hs' _]. apply Hne. destruct Hn as [_ Hu]. apply (Hu i c'); [done|]. by eapply same_conn_trans.
  - destruct (numbered_snoc k cc c known Hn Ef) as [Hn' Hd]. cbn [stream_data].
    rewrite bool_decide_false; [|destruct Hn as [Hk _]; apply lookup_lt_Some in Hk; intros [? _]; lia].
    cbn [app]. rewrite IH by done. by rewrite decide_False by naive_solver.
Qed.

Lemma in_order_segments pre cc p post :
  Forall (λ s, one_server port s.1) (pre ++ (cc, p) :: post) → Forall (λ s, ¬ of_conn cc s) pre →
  ∃ k after, captured port k cc (in_order [] (pre ++ (cc, p) :: post)) after ∧
    ∀ side, concat (chunks_of port k cc after side) = side_bytes payload port cc side (pre ++ (cc, p) :: post).
Proof.
  intros Hone Hpre.
  apply Forall_app in Hone as [Hone1 [Hcc Hone2]%Forall_cons]. cbn in Hcc.
  set (known := seen_after [] pre). assert (Forall (λ c, ¬ same_conn cc c) known) as Hnew by by apply seen_foreign.
  assert (numbered (length known) cc (known ++ [cc])) as Hn.
  { split; [by rewrite list_lookup_middle|]. intros i c Hi Hs. apply lookup_app_Some in Hi as [Hi|[Hl Hi]].
    - rewrite Forall_lookup in Hnew. by destruct (Hnew i c Hi).
    - apply list_lookup_singleton_Some in Hi as [? _]. lia. }
  assert (in_order [] (pre ++ (cc, p) :: post) = in_order [] pre ++ CbNew (length known) (Some cc) ::
    in_order (known ++ [cc]) ((cc, p) :: post)) as E.
  { rewrite in_order_app. f_equal. fold known. cbn [in_order].
    rewrite (proj2 (list_find_None _ known)) by done.
    replace (list_find (same_conn cc) (known ++ [cc])) with (Some (length known, cc)).
    - by rewrite decide_True.
    - symmetry. apply list_find_Some. split_and!; [by rewrite list_lookup_middle|by left|].
      intros j y Hj Hlt. rewrite lookup_app_l in Hj by done. rewrite Forall_lookup in Hnew. by apply (Hnew j). }
  exists (length known), (in_order (known ++ [cc]) ((cc, p) :: post)). split.
  - exists (in_order [] pre). split; [exact E|]. apply Forall_app. split; [by apply before_foreign|].
    apply after_foreign; [done|by constructor].
  - intros side. rewrite in_order_bytes by done. unfold side_bytes. rewrite omap_app, concat_app.
    replace (concat (omap _ pre)) with (@nil Z); [done|]. clear -Hpre.
    induction Hpre as [|s pre Hs _ IH]; [done|]. cbn. rewrite decide_False by (unfold of_conn in Hs; naive_solver). done.
Qed.

Lemma in_order_assembles : assembles payload port (λ _, True) (λ ins, in_order [] (segments ins)).
Proof.
  intros pre cc p post ins _. subst ins. unfold segments at 1 3 4. rewrite omap_app. apply in_order_segments.
Qed.
End in_order.

(** ** A capture of two connections

    The conversation of [PipelineDemo] on the wire: a server's segment of B that
    carries no data, A's startup and part of its statements, a frame of another
    port, B's update, the server's answer to A and the rest of A's statements. *)
#[local] Existing Instance ClassifierDemo.ascii.

Module WireDemo.
Definition frame (src dst : list Z) (sport dport : Z) (data : list Z) : list Z :=
  replicate 12 0 ++ [0x08; 0x00] ++ [0x45; 0; 0; 40; 0; 0; 0; 0; 64; 6; 0; 0] ++ src ++ dst ++
  rev (le_bytes 2 sport) ++ rev (le_bytes 2 dport) ++ replicate 16 0 ++ data.

Definition server : list Z := [10; 0; 0; 2].
Definition frames : list (list Z) :=
  [frame server [10; 0; 0; 7] 5432 41000 [];
   frame [10; 0; 0; 1] server 40000 5432 (take 30 PipelineDemo.bytesA);
   frame [10; 0; 0; 1] server 40002 80 [71; 69; 84];
   frame [10; 0; 0; 7] server 41000 5432 PipelineDemo.bytesB;
   frame server [10; 0; 0; 1] 5432 40000 (Scenario.ready 84);
   frame [10; 0; 0; 1] server 40000 5432 (drop 30 PipelineDemo.bytesA)].

(** The frames in memory, a page each. *)
Definition ctxs : list xdp_ctx := imap (λ i l, XdpCtx (4096 * (1 + Z.of_nat i)) l) frames.
Definition kernel_with (room : nat) : SimKernel.state unit :=
  SimKernel.State {[ ("cfg_port"%string, 0) := configured_port 5432; ("stats"%string, 0) := 0; ("stats"%string, 1) := 0 ]}
    ∅ 0 room 0xAA [] (λ a, default 0 (frames !! Z.to_nat (a / 4096 - 1) ≫= λ l, l !! Z.to_nat (a mod 4096)))
    (λ _, 0) false false ∅ true.
Definition kernel : SimKernel.state unit := kernel_with 64.

Definition kend (room : nat) : SimKernel.state unit :=
  match run_frames ctxs (kernel_with room) with Ok (_, k) => k | Err _ => kernel end.
Definition evs (room : nat) : list event := concat ((λ raw, [Read raw; Receive]) <$> ring_log (kend room)).

Definition NewPacket (l : list Z) : list Z := l.
Definition layers (l : list Z) : option packet :=
  Some (MkPacket (Some (slice 26 4 l, slice 30 4 l)) (Some (be16 34 l, be16 36 l))).
Definition payload (l : list Z) : list Z := drop 54 l.
Definition wanted_frames : list (list Z) := traffic 5432 ctxs.
(** The producer flushes once on the way, and is cancelled when it has nothing to do. *)
Definition ptrace : list (plabel (list Z)) :=
  concat ((λ p, [PArrive p; PTake; PPut; PAssemble]) <$> wanted_frames) ++ [PTick; PCancel; PReadCancel; PProcCancel].
Definition pfinal : producer (list Z) :=
  Producer [] false [] RExit true true ((AskAssemble <$> wanted_frames) ++ [AskFlush; AskClose]).
Definition ins : list (asm_input (list Z)) := fed layers (rcalls pfinal).
Definition asm (ins : list (asm_input (list Z))) : list callback := in_order payload [] (segments ins).
Definition is_ : list input :=
  ReassemblerDemo.inputs (on_callbacks (NewReassembler ReassemblerDemo.cfg) (asm ins)).2.

Lemma mapped_check ctx (k : SimKernel.state unit) :
  Forall (λ n, kernel_mem k n (ctx_data ctx) = slice 0 n (ctx_pkt ctx)) (seqZ 0 (zlen (ctx_pkt ctx) + 1)) → pkt_mapped ctx k.
Proof. intros Hf n Hn. rewrite Forall_forall in Hf. apply Hf, elem_of_seqZ. lia. Qed.

Lemma frames_short room : Forall (short_frame (kernel_with room)) ctxs.
Proof.
  assert (Forall (λ ctx, bytes_ok (ctx_pkt ctx) ∧ zlen (ctx_pkt ctx) < 4096 ∧
    Forall (λ n, kernel_mem kernel n (ctx_data ctx) = slice 0 n (ctx_pkt ctx)) (seqZ 0 (zlen (ctx_pkt ctx) + 1))) ctxs) as Hf
    by (apply (bool_decide_unpack _); vm_compute; exact I).
  eapply Forall_impl; [exact Hf|]. intros ctx (Hb & Hl & Hm). split_and!; [done|by apply mapped_check|done].
Qed.

(** What the ring of [room] records lets through. *)
Lemma frames_captured room pkts reported :
  (readLoop NewPacket (EbpfSource [] 0 0) (evs room), array_lookup (kend room) "stats" STATS_RECEIVED,
   array_lookup (kend room) "stats" STATS_DROPPED, reads (evs room)) =
    (Ok (pkts, EbpfSource [] (5 - reported) 0), Some (5 - reported), Some reported, ring_log (kend room)) →
  in_width 64 reported → captures NewPacket ctxs (kernel_with room) pkts reported.
Proof.
  intros [= Hl Hr Hd Hg] Hw.
  destruct (traffic_records 5432 ctxs (kernel_with room)) as (vs & k' & _ & Hk & _); [done|done|apply frames_short|].
  assert (k' = kend room) as -> by (unfold kend; by rewrite Hk).
  exists vs, (kend room), (evs room), pkts, (EbpfSource [] (5 - reported) 0), (5 - reported), reported.
  split_and!; [exact Hk|by rewrite Hg|exact Hl|by rewrite app_nil_r|exact Hr|exact Hd|].
  unfold Stats. cbn [snd sum64 from_option foldl dropped]. rewrite !Z.add_0_l. by rewrite !(wrap_small 64 reported).
Qed.

Lemma frames_passed_on : prun startProducer ptrace pfinal.
Proof. unfold startProducer. vm_compute. run_producer. Qed.
End WireDemo.


